(** * praxis-cli: role compiler and validation cache

    A shallow embedding of the TypeScript sources

      - [src/validator/cache-manager.ts]   (CacheManager, contentHash, sanitizeText)
      - [src/validator/document-validator.ts] (parseResponse, parseIssues)
      - [src/compiler/role-compiler.ts]    (RoleCompiler)
      - [src/compiler/plugin-registry.ts]  (resolvePlugins)
      - [src/compiler/plugins/claude-code.ts] (ClaudeCodePlugin)
      - [src/core/config.ts]               (PraxisConfig)
      - [src/commands/add.ts]              (addFromTemplate, fillTemplate)
      - [src/commands/init.ts]             (initProject, walkDir)

    Conventions.  A JavaScript string is the list of its UTF-16 code units
    ([jsstring]); [js "..."] turns an ASCII literal into one.  Code that
    touches the file system, the logger or the console is written in a
    small state-and-exception monad over a [world]; which system calls of a
    run fail is read from the world's [io_faults] script, so that a theorem
    about "any I/O failure" quantifies over every such script.  A scan by
    fast-glob takes the working directory and the order of its walk through
    the directories as parameters; what is stated of a scan holds for every
    order that hands out each match once.

    Part I holds the definitions, Part II the proofs. *)

From Stdlib Require Import NArith String Ascii List Bool Lia DecimalString.
From stdpp Require Import base list gmap.
Import ListNotations.

Local Open Scope N_scope.

(* ================================================================== *)
(** * Part I.  Definitions                                             *)
(* ================================================================== *)

(** ** JavaScript strings *)

Module JS.

(** A string value: its sequence of UTF-16 code units. *)
Abbreviation jsstring := (list N).

(** An ASCII literal as a [jsstring]. *)
Definition js (s : string) : jsstring :=
  List.map N_of_ascii (list_ascii_of_string s).

Definition in_range (lo hi c : N) : bool := (lo <=? c) && (c <=? hi).

(** [a === b] on strings *)
Fixpoint eqb_str (a b : jsstring) : bool :=
  match a, b with
  | [], [] => true
  | x :: a', y :: b' => (x =? y) && eqb_str a' b'
  | _, _ => false
  end.

(** ECMAScript [WhiteSpace] and [LineTerminator] code units: what
    [String.prototype.trim] strips and what [\s] matches. *)
Definition is_space (c : N) : bool :=
  in_range 9 13 c || (c =? 32) || (c =? 160) || (c =? 5760)
  || in_range 8192 8202 c || (c =? 8232) || (c =? 8233) || (c =? 8239)
  || (c =? 8287) || (c =? 12288) || (c =? 65279).

(** [\d] *)
Definition is_digit (c : N) : bool := in_range 48 57 c.

Fixpoint drop_while (p : N -> bool) (s : jsstring) : jsstring :=
  match s with
  | [] => []
  | c :: r => if p c then drop_while p r else s
  end.

Fixpoint take_while (p : N -> bool) (s : jsstring) : jsstring :=
  match s with
  | [] => []
  | c :: r => if p c then c :: take_while p r else []
  end.

Definition trimStart (s : jsstring) : jsstring := drop_while is_space s.
Definition trimEnd (s : jsstring) : jsstring := rev (drop_while is_space (rev s)).
(** [String.prototype.trim] *)
Definition trim (s : jsstring) : jsstring := trimEnd (trimStart s).

(** [s.split(/[...]/)] for a separator that is one code unit of a class:
    the pieces between the separators, always at least one piece. *)
Fixpoint split_chars (sep : N -> bool) (s : jsstring) : list jsstring :=
  match s with
  | [] => [[]]
  | c :: r =>
      if sep c then [] :: split_chars sep r
      else match split_chars sep r with
           | p :: ps => (c :: p) :: ps
           | [] => [[c]]
           end
  end.

Fixpoint starts_with (p s : jsstring) : bool :=
  match p, s with
  | [], _ => true
  | a :: p', b :: s' => (a =? b) && starts_with p' s'
  | _ :: _, [] => false
  end.

Definition ends_with (p s : jsstring) : bool := starts_with (rev p) (rev s).

(** [s.includes(p)] *)
Fixpoint includes (p s : jsstring) : bool :=
  starts_with p s ||
  match s with
  | [] => false
  | _ :: r => includes p r
  end.

(** [s.split(sep)] for a non-empty separator string: left to right, the
    matches do not overlap.  [skip] counts the code units of a separator
    still to be passed over. *)
Fixpoint split_aux (sep : jsstring) (skip : nat) (s : jsstring) : list jsstring :=
  match s with
  | [] => [[]]
  | c :: r =>
      match skip with
      | S k => split_aux sep k r
      | O =>
          if starts_with sep s then [] :: split_aux sep (Nat.pred (length sep)) r
          else match split_aux sep O r with
               | p :: ps => (c :: p) :: ps
               | [] => [[c]]
               end
      end
  end.

Definition split_on (sep s : jsstring) : list jsstring := split_aux sep O s.

(** [s.replace(pat, rep)] for a string pattern: the first occurrence only. *)
Fixpoint replace_first (pat rep s : jsstring) : jsstring :=
  match s with
  | [] => if starts_with pat [] then rep else []
  | c :: r =>
      if starts_with pat s then rep ++ drop (length pat) s
      else c :: replace_first pat rep r
  end.

(** The truth value of a string in a condition: non-empty. *)
Definition truthy (s : jsstring) : bool :=
  match s with [] => false | _ :: _ => true end.

(** [String.prototype.toLowerCase] restricted to ASCII letters.  The
    compiler and the validator take [toLowerCase] as a parameter; this
    instance agrees with JavaScript on every ASCII string and is used for
    concrete runs. *)
Definition toLowerCase_ascii (s : jsstring) : jsstring :=
  List.map (fun c => if in_range 65 90 c then c + 32 else c) s.

(** [pieces.join(sep)] *)
Fixpoint join (sep : jsstring) (pieces : list jsstring) : jsstring :=
  match pieces with
  | [] => []
  | [p] => p
  | p :: ps => p ++ sep ++ join sep ps
  end.

End JS.
Export JS.

(** ** node:path (POSIX) *)

Module Path.

Definition slash : N := 47.
Definition is_slash (c : N) : bool := c =? slash.
Definition dot : jsstring := [46].
Definition dotdot : jsstring := [46; 46].

(** [normalizeString]: resolves [.] and [..] segments and drops empty ones.
    [acc] holds the segments kept so far, last one first. *)
Fixpoint normalize_segments (allowAboveRoot : bool) (acc segs : list jsstring)
  : list jsstring :=
  match segs with
  | [] => rev acc
  | seg :: rest =>
      if eqb_str seg [] || eqb_str seg dot then
        normalize_segments allowAboveRoot acc rest
      else if eqb_str seg dotdot then
        match acc with
        | top :: acc' =>
            if eqb_str top dotdot
            then normalize_segments allowAboveRoot (dotdot :: acc) rest
            else normalize_segments allowAboveRoot acc' rest
        | [] =>
            if allowAboveRoot
            then normalize_segments allowAboveRoot [dotdot] rest
            else normalize_segments allowAboveRoot [] rest
        end
      else normalize_segments allowAboveRoot (seg :: acc) rest
  end.

(** [path.normalize] *)
Definition normalize (p : jsstring) : jsstring :=
  match p with
  | [] => dot
  | c :: _ =>
      let isAbsolute := is_slash c in
      let trailingSeparator := ends_with [slash] p in
      let body :=
        JS.join [slash]
          (normalize_segments (negb isAbsolute) [] (split_chars is_slash p)) in
      match body with
      | [] =>
          if isAbsolute then [slash]
          else if trailingSeparator then dot ++ [slash] else dot
      | _ :: _ =>
          let body := if trailingSeparator then body ++ [slash] else body in
          if isAbsolute then slash :: body else body
      end
  end.

(** [path.join(...parts)] *)
Definition join (parts : list jsstring) : jsstring :=
  match List.filter truthy parts with
  | [] => dot
  | kept => normalize (JS.join [slash] kept)
  end.

(** [path.dirname]: the path up to the last separator, trailing separators
    of the path not counted. *)
Definition dirname (p : jsstring) : jsstring :=
  match p with
  | [] => dot
  | c :: tail =>
      let hasRoot := is_slash c in
      let no_trailing := drop_while is_slash (rev tail) in
      match drop_while (fun x => negb (is_slash x)) no_trailing with
      | [] => if hasRoot then [slash] else dot
      | _ :: before =>
          match before with
          | [] => if hasRoot then [slash; slash] else [c]
          | _ :: _ => c :: rev before
          end
      end
  end.

(** The last segment of a path, trailing separators not counted. *)
Definition last_segment (p : jsstring) : jsstring :=
  let no_trailing := drop_while is_slash (rev p) in
  rev (take_while (fun x => negb (is_slash x)) no_trailing).

(** A path without its trailing separators. *)
Definition strip_slashes (p : jsstring) : jsstring :=
  rev (drop_while is_slash (rev p)).

(** The loop of [path.basename(path, suffix)], which runs over the path
    from its end.  [todo] holds the code units still to be visited, the last
    one first, so that the index [i] of its head is the length of its tail;
    [ext] holds the code units of the suffix still to be matched, the last
    one first, and is empty once [extIdx] is -1; [None] stands for the index
    -1.  The result is [start], [end] and [firstNonSlashEnd]. *)
Fixpoint basename_loop (todo ext : jsstring) (matchedSlash : bool)
  (firstNonSlashEnd end_ : option nat) : nat * option nat * option nat :=
  match todo with
  | [] => (O, end_, firstNonSlashEnd)
  | code :: rest =>
      let i := length rest in
      if is_slash code then
        if negb matchedSlash then (S i, end_, firstNonSlashEnd)
        else basename_loop rest ext matchedSlash firstNonSlashEnd end_
      else
        let firstNonSlashEnd :=
          match firstNonSlashEnd with
          | None => Some (S i)
          | Some _ => firstNonSlashEnd
          end in
        match ext with
        | e :: ext' =>
            if code =? e then
              match ext' with
              | [] => basename_loop rest [] false firstNonSlashEnd (Some i)
              | _ :: _ => basename_loop rest ext' false firstNonSlashEnd end_
              end
            else basename_loop rest [] false firstNonSlashEnd firstNonSlashEnd
        | [] => basename_loop rest [] false firstNonSlashEnd end_
        end
  end.

(** [path.basename(p, ext)]: the last segment without [ext]; the trailing
    separators stay when the loop has seen the whole last segment without
    finishing [ext]. *)
Definition basename (p ext : jsstring) : jsstring :=
  if truthy ext && (length ext <=? length p)%nat then
    if eqb_str ext p then []
    else
      let '(start, end_, firstNonSlashEnd) :=
        basename_loop (rev p) (rev ext) true None None in
      let stop :=
        match end_ with
        | Some e => if (e =? start)%nat then firstNonSlashEnd else Some e
        | None => Some (length p)
        end in
      match stop with
      | Some e => take (e - start) (drop start p)
      | None => take (length p - 1 - start) (drop start p)
      end
  else last_segment p.

(** The loop of [path.resolve]: the arguments from the last one on, until
    one of them is absolute. *)
Fixpoint resolve_from (paths : list jsstring) (resolvedPath : jsstring)
  : jsstring * bool :=
  match paths with
  | [] => (resolvedPath, false)
  | path :: rest =>
      match path with
      | [] => resolve_from rest resolvedPath
      | c :: _ =>
          let resolvedPath := path ++ [slash] ++ resolvedPath in
          if is_slash c then (resolvedPath, true)
          else resolve_from rest resolvedPath
      end
  end.

(** [path.resolve(...paths)], with the working directory [cwd]. *)
Definition resolve (cwd : jsstring) (paths : list jsstring) : jsstring :=
  let (resolvedPath, resolvedAbsolute) := resolve_from (rev paths ++ [cwd]) [] in
  let normalized :=
    JS.join [slash]
      (normalize_segments (negb resolvedAbsolute) []
         (split_chars is_slash resolvedPath)) in
  if resolvedAbsolute then slash :: normalized
  else match normalized with
       | [] => dot
       | _ :: _ => normalized
       end.

End Path.

(** ** The world a run acts on: files, environment, diagnostics *)

Module Node.

(** What happens to the next system call that can fail. *)
Inductive fault :=
| NoFault
| Fail (message : jsstring)
    (** the call throws and changes nothing *)
| FailLeaving (message residue : jsstring)
    (** a write throws after leaving [residue] in the file *).

(** Thrown values. *)
Inductive exn :=
| JsError (message : jsstring)      (** [new Error(message)] *)
| JsTypeError (message : jsstring)  (** a [TypeError] of the engine *)
| JsSyntaxError (message : jsstring)  (** the [SyntaxError] of [JSON.parse] *)
| FsError (message : jsstring)      (** an error of node:fs *).

Definition message_of (e : exn) : jsstring :=
  match e with
  | JsError m | JsTypeError m | JsSyntaxError m | FsError m => m
  end.

(** The levels of the diagnostics the compiler logs. *)
Inductive level := Warn | Success | Info.

Record world := World {
  files : gmap jsstring jsstring;   (** regular files: path to content *)
  dirs : gset jsstring;             (** directories made explicitly *)
  io_faults : list fault;           (** the outcome of the coming fallible calls *)
  env_DEBUG : option jsstring;      (** [process.env.DEBUG] *)
  clock : jsstring;                 (** [new Date().toISOString()] *)
  console : list jsstring;          (** lines of [console.warn] *)
  log : list (level * jsstring)     (** lines of the [Logger] *)
}.

(** The file tree alone: what a directory scan can see. *)
Definition tree : Type := gmap jsstring jsstring * gset jsstring.
Definition tree_of (w : world) : tree := (files w, dirs w).

(** The world with [entries] appended to the log. *)
Definition add_logs (entries : list (level * jsstring)) (w : world) : world :=
  World (files w) (dirs w) (io_faults w) (env_DEBUG w) (clock w)
        (console w) (log w ++ entries).

Definition set_files (f : gmap jsstring jsstring -> gmap jsstring jsstring)
  (w : world) : world :=
  World (f (files w)) (dirs w) (io_faults w) (env_DEBUG w) (clock w)
        (console w) (log w).

Definition set_dirs (f : gset jsstring -> gset jsstring) (w : world) : world :=
  World (files w) (f (dirs w)) (io_faults w) (env_DEBUG w) (clock w)
        (console w) (log w).

Definition set_io_faults (fs : list fault) (w : world) : world :=
  World (files w) (dirs w) fs (env_DEBUG w) (clock w) (console w) (log w).

Definition add_console (line : jsstring) (w : world) : world :=
  World (files w) (dirs w) (io_faults w) (env_DEBUG w) (clock w)
        (console w ++ [line]) (log w).

Definition add_log (entry : level * jsstring) (w : world) : world :=
  World (files w) (dirs w) (io_faults w) (env_DEBUG w) (clock w)
        (console w) (log w ++ [entry]).

(** How a call ends. *)
Inductive outcome (A : Type) :=
| Return (a : A)
| Throw (e : exn).
Arguments Return {A} a.
Arguments Throw {A} e.

(** A computation: from a world to how it ends and the world it leaves. *)
Definition M (A : Type) : Type := world -> outcome A * world.

Definition ret {A} (a : A) : M A := fun w => (Return a, w).

Definition throw {A} (e : exn) : M A := fun w => (Throw e, w).

Definition bind {A B} (m : M A) (k : A -> M B) : M B :=
  fun w =>
    match m w with
    | (Return a, w') => k a w'
    | (Throw e, w') => (Throw e, w')
    end.

(** [try { body } catch (err) { handler }] *)
Definition try_catch {A} (body : M A) (handler : exn -> M A) : M A :=
  fun w =>
    match body w with
    | (Return a, w') => (Return a, w')
    | (Throw e, w') => handler e w'
    end.

Definition gets {A} (f : world -> A) : M A := fun w => (Return (f w), w).

Definition modify (f : world -> world) : M unit := fun w => (Return tt, f w).

Declare Scope io_scope.
Delimit Scope io_scope with io.
Notation "x <- m ;; k" := (bind m (fun x => k))
  (at level 100, m at next level, right associativity) : io_scope.
Notation "m ;; k" := (bind m (fun _ => k))
  (at level 100, right associativity) : io_scope.
Local Open Scope io_scope.

(** [for (const x of xs) body(x)] *)
Fixpoint for_each {A} (xs : list A) (body : A -> M unit) : M unit :=
  match xs with
  | [] => ret tt
  | x :: rest => body x ;; for_each rest body
  end.

(** [xs.map(f)] for a callback with effects, in order. *)
Fixpoint map_M {A B} (f : A -> M B) (xs : list A) : M (list B) :=
  match xs with
  | [] => ret []
  | x :: rest => y <- f x ;; ys <- map_M f rest ;; ret (y :: ys)
  end.

(** *** node:fs *)

Definition next_fault : M fault :=
  fun w =>
    match io_faults w with
    | [] => (Return NoFault, w)
    | f :: rest => (Return f, set_io_faults rest w)
    end.

Definition is_file (w : world) (p : jsstring) : bool :=
  bool_decide (is_Some (files w !! p)).

(** A directory: made explicitly, or an ancestor of a file or directory.
    Trailing separators of [p] do not count, and a path that consists of
    separators is the root directory. *)
Definition is_dir (w : world) (p : jsstring) : bool :=
  match Path.strip_slashes p with
  | [] => truthy p
  | dir =>
      bool_decide (dir ∈ dirs w)
      || existsb (starts_with (dir ++ [Path.slash]))
           (List.map fst (map_to_list (files w)) ++ elements (dirs w))
  end.

Definition existsSync (p : jsstring) : M bool :=
  gets (fun w => is_file w p || is_dir w p).

Definition ENOENT : jsstring := js "ENOENT: no such file or directory".
Definition ENOTDIR : jsstring := js "ENOTDIR: not a directory".

Definition readFileSync (p : jsstring) : M jsstring :=
  f <- next_fault ;;
  match f with
  | NoFault =>
      content <- gets (fun w => files w !! p) ;;
      match content with
      | Some c => ret c
      | None => throw (FsError ENOENT)
      end
  | Fail m | FailLeaving m _ => throw (FsError m)
  end.

Definition writeFileSync (p content : jsstring) : M unit :=
  f <- next_fault ;;
  match f with
  | NoFault => modify (set_files (insert p content))
  | Fail m => throw (FsError m)
  | FailLeaving m residue =>
      modify (set_files (insert p residue)) ;; throw (FsError m)
  end.

Definition unlinkSync (p : jsstring) : M unit :=
  f <- next_fault ;;
  match f with
  | NoFault =>
      present <- gets (fun w => is_file w p) ;;
      if present then modify (set_files (delete p)) else throw (FsError ENOENT)
  | Fail m | FailLeaving m _ => throw (FsError m)
  end.

(** [mkdirSync(p, { recursive: true })] *)
Definition mkdirSync (p : jsstring) : M unit :=
  f <- next_fault ;;
  match f with
  | NoFault => modify (set_dirs (union {[p]}))
  | Fail m | FailLeaving m _ => throw (FsError m)
  end.

(** [console.warn] *)
Definition console_warn (line : jsstring) : M unit := modify (add_console line).

(** Modelled from the spec: the [Logger] (logger.ts is not among the
    sources) is the append-only diagnostic sink; each method appends one
    line at its level. *)
Definition logger_warn (msg : jsstring) : M unit := modify (add_log (Warn, msg)).
Definition logger_success (msg : jsstring) : M unit := modify (add_log (Success, msg)).
Definition logger_info (msg : jsstring) : M unit := modify (add_log (Info, msg)).

(** [process.env.DEBUG] as a condition. *)
Definition debug_enabled : M bool :=
  gets (fun w => match env_DEBUG w with Some v => truthy v | None => false end).

End Node.
Export Node.
Local Open Scope io_scope.

(** ** JSON.stringify and JSON.parse *)

Module JSON.

#[warnings="-register-all"]
(** A JSON text as a tree.  A number is kept as its text; the members of
    an object are kept in the order of the text, duplicates included. *)
Inductive json :=
| JNull
| JBool (b : bool)
| JNumber (lexeme : jsstring)
| JString (s : jsstring)
| JArray (items : list json)
| JObject (members : list (jsstring * json)).

(** A value read off an object: a JSON value or [undefined]. *)
Inductive value :=
| VUndefined
| V (j : json).

(** [null] *)
Definition null : value := V JNull.

Definition quote : N := 34.
Definition backslash : N := 92.

(** *** QuoteJSONString *)

(** A hexadecimal digit, lower case. *)
Definition hex_digit (n : N) : N := if n <? 10 then 48 + n else 87 + n.

(** [\uXXXX] *)
Definition unicode_escape (c : N) : jsstring :=
  [backslash; 117; hex_digit (c / 4096 mod 16); hex_digit (c / 256 mod 16);
   hex_digit (c / 16 mod 16); hex_digit (c mod 16)].

Definition is_lead (c : N) : bool := in_range 55296 56319 c.
Definition is_trail (c : N) : bool := in_range 56320 57343 c.

(** The code units with a two-character escape: backspace, tab, line feed,
    form feed, carriage return, quote and backslash. *)
Definition short_escape (c : N) : option N :=
  if c =? 8 then Some 98
  else if c =? 9 then Some 116
  else if c =? 10 then Some 110
  else if c =? 12 then Some 102
  else if c =? 13 then Some 114
  else if c =? quote then Some quote
  else if c =? backslash then Some backslash
  else None.

(** The characters between the quotes.  Control characters and surrogates
    without their partner are written as [\uXXXX]. *)
Fixpoint quote_units (s : jsstring) : jsstring :=
  match s with
  | [] => []
  | c :: r =>
      match short_escape c with
      | Some e => backslash :: e :: quote_units r
      | None =>
          if c <? 32 then unicode_escape c ++ quote_units r
          else if is_lead c then
            match r with
            | d :: r' =>
                if is_trail d then c :: d :: quote_units r'
                else unicode_escape c ++ quote_units r
            | [] => unicode_escape c
            end
          else if is_trail c then unicode_escape c ++ quote_units r
          else c :: quote_units r
      end
  end.

Definition quote_string (s : jsstring) : jsstring :=
  quote :: quote_units s ++ [quote].

(** *** JSON.stringify(value, null, 2) *)

Definition spaces (n : nat) : jsstring := repeat 32 n.

(** The line break followed by the indentation of nesting depth [depth]. *)
Definition newline (depth : nat) : jsstring := 10 :: spaces (2 * depth).

Fixpoint stringify_at (depth : nat) (j : json) : jsstring :=
  match j with
  | JNull => js "null"
  | JBool true => js "true"
  | JBool false => js "false"
  | JNumber lexeme => lexeme
  | JString s => quote_string s
  | JArray [] => js "[]"
  | JArray (first :: rest) =>
      js "[" ++ newline (S depth) ++ stringify_at (S depth) first
      ++ (fix items (l : list json) : jsstring :=
            match l with
            | [] => []
            | x :: l' =>
                js "," ++ newline (S depth) ++ stringify_at (S depth) x ++ items l'
            end) rest
      ++ newline depth ++ js "]"
  | JObject [] => js "{}"
  | JObject ((k, v) :: rest) =>
      js "{" ++ newline (S depth) ++ quote_string k ++ js ": "
      ++ stringify_at (S depth) v
      ++ (fix members (l : list (jsstring * json)) : jsstring :=
            match l with
            | [] => []
            | (k', v') :: l' =>
                js "," ++ newline (S depth) ++ quote_string k' ++ js ": "
                ++ stringify_at (S depth) v' ++ members l'
            end) rest
      ++ newline depth ++ js "}"
  end.

Definition stringify (j : json) : jsstring := stringify_at 0 j.

(** *** JSON.parse *)

(** JSON white space: tab, line feed, carriage return, space. *)
Definition is_ws (c : N) : bool := (c =? 9) || (c =? 10) || (c =? 13) || (c =? 32).

Definition skip_ws (s : jsstring) : jsstring := drop_while is_ws s.

Definition hex_value (c : N) : option N :=
  if in_range 48 57 c then Some (c - 48)
  else if in_range 97 102 c then Some (c - 87)
  else if in_range 65 70 c then Some (c - 55)
  else None.

Definition hex4 (a b c d : N) : option N :=
  match hex_value a, hex_value b, hex_value c, hex_value d with
  | Some x, Some y, Some z, Some t => Some (4096 * x + 256 * y + 16 * z + t)
  | _, _, _, _ => None
  end.

(** The character a two-character escape stands for. *)
Definition unescape (e : N) : option N :=
  if e =? quote then Some quote
  else if e =? backslash then Some backslash
  else if e =? 47 then Some 47
  else if e =? 98 then Some 8
  else if e =? 102 then Some 12
  else if e =? 110 then Some 10
  else if e =? 114 then Some 13
  else if e =? 116 then Some 9
  else None.

Definition cons_to (c : N) (r : option (jsstring * jsstring))
  : option (jsstring * jsstring) :=
  match r with
  | Some (str, rest) => Some (c :: str, rest)
  | None => None
  end.

(** A string, read from just after its opening quote: the string and the
    text after its closing quote. *)
Fixpoint parse_string_body (s : jsstring) : option (jsstring * jsstring) :=
  match s with
  | [] => None
  | c :: r =>
      if c =? quote then Some ([], r)
      else if c =? backslash then
        match r with
        | e :: r' =>
            if e =? 117 then
              match r' with
              | h1 :: h2 :: h3 :: h4 :: r'' =>
                  match hex4 h1 h2 h3 h4 with
                  | Some u => cons_to u (parse_string_body r'')
                  | None => None
                  end
              | _ => None
              end
            else
              match unescape e with
              | Some u => cons_to u (parse_string_body r')
              | None => None
              end
        | [] => None
        end
      else if c <? 32 then None
      else cons_to c (parse_string_body r)
  end.

(** A number: an optional minus sign, zero or a digit string without
    leading zero, an optional fraction, an optional exponent. *)
Definition parse_number (s : jsstring) : option (json * jsstring) :=
  let (sign, s1) := match s with 45 :: r => ([45], r) | _ => ([], s) end in
  let int_part :=
    match s1 with
    | 48 :: _ => [48]
    | _ => take_while is_digit s1
    end in
  match int_part with
  | [] => None
  | _ :: _ =>
      let s2 := drop (length int_part) s1 in
      let frac :=
        match s2 with
        | 46 :: r =>
            match take_while is_digit r with
            | [] => None
            | ds => Some (46 :: ds)
            end
        | _ => Some []
        end in
      match frac with
      | None => None
      | Some frac =>
          let s3 := drop (length frac) s2 in
          let exp :=
            match s3 with
            | e :: r =>
                if (e =? 101) || (e =? 69) then
                  let (esign, r1) :=
                    match r with
                    | x :: r' => if (x =? 43) || (x =? 45) then ([x], r') else ([], r)
                    | [] => ([], r)
                    end in
                  match take_while is_digit r1 with
                  | [] => None
                  | ds => Some (e :: esign ++ ds)
                  end
                else Some []
            | [] => Some []
            end in
          match exp with
          | None => None
          | Some exp =>
              Some (JNumber (sign ++ int_part ++ frac ++ exp),
                    drop (length exp) s3)
          end
      end
  end.

(** A value, the elements of an array after its bracket, the members of
    an object after its brace; each with the text that follows.  [fuel]
    bounds the depth of the calls. *)
Fixpoint parse_value (fuel : nat) (s : jsstring) : option (json * jsstring) :=
  match fuel with
  | O => None
  | S fuel' =>
      let s := skip_ws s in
      if starts_with (js "null") s then Some (JNull, drop 4 s)
      else if starts_with (js "true") s then Some (JBool true, drop 4 s)
      else if starts_with (js "false") s then Some (JBool false, drop 5 s)
      else
        match s with
        | [] => None
        | c :: r =>
            if c =? quote then
              match parse_string_body r with
              | Some (str, r') => Some (JString str, r')
              | None => None
              end
            else if c =? 91 then
              match skip_ws r with
              | d :: r' =>
                  if d =? 93 then Some (JArray [], r')
                  else
                    match parse_elements fuel' r with
                    | Some (items, r'') => Some (JArray items, r'')
                    | None => None
                    end
              | [] => None
              end
            else if c =? 123 then
              match skip_ws r with
              | d :: r' =>
                  if d =? 125 then Some (JObject [], r')
                  else
                    match parse_members fuel' r with
                    | Some (members, r'') => Some (JObject members, r'')
                    | None => None
                    end
              | [] => None
              end
            else if (c =? 45) || is_digit c then parse_number s
            else None
        end
  end
with parse_elements (fuel : nat) (s : jsstring) : option (list json * jsstring) :=
  match fuel with
  | O => None
  | S fuel' =>
      match parse_value fuel' s with
      | Some (v, r) =>
          match skip_ws r with
          | d :: r' =>
              if d =? 44 then
                match parse_elements fuel' r' with
                | Some (vs, r'') => Some (v :: vs, r'')
                | None => None
                end
              else if d =? 93 then Some ([v], r')
              else None
          | [] => None
          end
      | None => None
      end
  end
with parse_members (fuel : nat) (s : jsstring)
  : option (list (jsstring * json) * jsstring) :=
  match fuel with
  | O => None
  | S fuel' =>
      match skip_ws s with
      | q :: r =>
          if q =? quote then
            match parse_string_body r with
            | Some (key, r1) =>
                match skip_ws r1 with
                | colon :: r2 =>
                    if colon =? 58 then
                      match parse_value fuel' r2 with
                      | Some (v, r3) =>
                          match skip_ws r3 with
                          | d :: r4 =>
                              if d =? 44 then
                                match parse_members fuel' r4 with
                                | Some (ms, r5) => Some ((key, v) :: ms, r5)
                                | None => None
                                end
                              else if d =? 125 then Some ([(key, v)], r4)
                              else None
                          | [] => None
                          end
                      | None => None
                      end
                    else None
                | [] => None
                end
            | None => None
            end
          else None
      | [] => None
      end
  end.

(** [JSON.parse(text)]: [None] stands for the [SyntaxError] it throws. *)
Definition parse (text : jsstring) : option json :=
  match parse_value (2 * length text + 2) text with
  | Some (v, rest) =>
      match skip_ws rest with
      | [] => Some v
      | _ :: _ => None
      end
  | None => None
  end.

(** [object.key] for an object parsed from JSON: the last member of that
    name.  Arrays, strings, numbers and booleans have no member of the
    names the cache reads. *)
Fixpoint member (key : jsstring) (members : list (jsstring * json)) : value :=
  match members with
  | [] => VUndefined
  | (k, v) :: rest =>
      match member key rest with
      | VUndefined => if eqb_str k key then V v else VUndefined
      | found => found
      end
  end.

(** The text of the elements of an array after the first one, and of the
    members of an object after the first one: the two local loops of
    [stringify_at], named. *)
Definition items_text (depth : nat) : list json -> jsstring :=
  fix items (l : list json) : jsstring :=
    match l with
    | [] => []
    | x :: l' =>
        js "," ++ newline (S depth) ++ stringify_at (S depth) x ++ items l'
    end.

Definition members_text (depth : nat) : list (jsstring * json) -> jsstring :=
  fix members (l : list (jsstring * json)) : jsstring :=
    match l with
    | [] => []
    | (k', v') :: l' =>
        js "," ++ newline (S depth) ++ quote_string k' ++ js ": "
        ++ stringify_at (S depth) v' ++ members l'
    end.

(** The first character of the text of a value. *)
Definition opening (j : json) : N :=
  match j with
  | JNull => 110
  | JBool true => 116
  | JBool false => 102
  | JNumber _ => 48
  | JString _ => quote
  | JArray _ => 91
  | JObject _ => 123
  end.

(** A tree without numbers: the cache stores none. *)
Fixpoint number_free (j : json) : bool :=
  match j with
  | JNumber _ => false
  | JArray items => forallb number_free items
  | JObject members => forallb (fun kv => number_free (snd kv)) members
  | _ => true
  end.

(** The number of nodes of a tree, each child counted once more: a bound
    on the depth of the calls that parse its text. *)
Fixpoint size (j : json) : nat :=
  match j with
  | JArray items => S (list_sum (List.map (fun x => S (size x)) items))
  | JObject members => S (list_sum (List.map (fun kv => S (size (snd kv))) members))
  | _ => 1
  end.

End JSON.
Export JSON.

(** ** Validation results (cache-manager.ts, lines 10-19) *)

Inductive Severity := warning | error.

Record CachedValidationResult := mkResult {
  compliant : bool;
  issues : list jsstring;
  reason : jsstring;
  severity : option Severity
}.

(** ** fast-glob, for the two patterns the cache uses *)

Module FastGlob.

(** The path of [p] relative to the directory [dir], when [p] lies in it. *)
Definition below (dir p : jsstring) : option jsstring :=
  let prefix := Path.strip_slashes dir ++ [Path.slash] in
  if starts_with prefix p then Some (drop (length prefix) p) else None.

(** A path segment a wildcard may match: not empty, no leading dot. *)
Definition visible (seg : jsstring) : bool :=
  truthy seg && negb (starts_with Path.dot seg).

(** [*<ext>] against a relative path: one visible segment ending in [ext]. *)
Definition matches_star (ext rel : jsstring) : bool :=
  negb (existsb Path.is_slash rel) && visible rel && ends_with ext rel.

(** [**/*<ext>] against a relative path: visible segments, the last one
    ending in [ext]. *)
Definition matches_globstar (ext rel : jsstring) : bool :=
  let segs := split_chars Path.is_slash rel in
  forallb visible segs && ends_with ext (List.last segs []).

Section Glob.

(** [process.cwd()], against which fast-glob resolves its [cwd] option. *)
Variable cwd : jsstring.

(** The order in which fast-glob hands out what it found.  It is the order
    of its walk through the directories, which the file system decides: the
    statements about a scan assume no more of it than that it rearranges the
    matches. *)
Variable order : list jsstring -> list jsstring.

(** The directory a scan starts from: [path.resolve(cwd)] of the option. *)
Definition resolved (dir : jsstring) : jsstring := Path.resolve cwd [dir].

(** The path of [p] relative to the directory of a scan. *)
Definition relative_to (dir p : jsstring) : option jsstring :=
  below (resolved dir) p.

(** The path a scan gives to a match ([absolute: true]). *)
Definition absolute (dir rel : jsstring) : jsstring :=
  Path.strip_slashes (resolved dir) ++ [Path.slash] ++ rel.

Definition scan (accept : jsstring -> bool) (dir : jsstring) (w : world)
  : list jsstring :=
  order
    (List.filter
       (fun p => match relative_to dir p with
                 | Some rel => accept rel
                 | None => false
                 end)
       (List.map fst (map_to_list (files w)))).

(** [fg.sync(pattern, { cwd: dir, absolute: true })]: a call that can fail.
    A directory that does not exist holds no file; a regular file in its
    place cannot be read as a directory. *)
Definition sync (accept : jsstring -> bool) (dir : jsstring) : M (list jsstring) :=
  f <- next_fault ;;
  match f with
  | NoFault =>
      w <- gets id ;;
      if is_file w (resolved dir) then throw (FsError ENOTDIR)
      else ret (scan accept dir w)
  | Fail m | FailLeaving m _ => throw (FsError m)
  end.

(** [fg.sync("*<ext>", { cwd: dir, absolute: true })] *)
Definition sync_star (ext dir : jsstring) : M (list jsstring) :=
  sync (matches_star ext) dir.

(** [fg.sync("**/*<ext>", { cwd: dir, absolute: true })] *)
Definition sync_globstar (ext dir : jsstring) : M (list jsstring) :=
  sync (matches_globstar ext) dir.

End Glob.
End FastGlob.

(** ** SHA-256 (node:crypto) *)

Module SHA256.

(** A string as the bytes of its UTF-8 encoding; a surrogate without its
    partner is encoded as U+FFFD. *)
Fixpoint utf8 (s : jsstring) : list N :=
  match s with
  | [] => []
  | c :: r =>
      if c <? 128 then c :: utf8 r
      else if c <? 2048 then (192 + c / 64) :: (128 + c mod 64) :: utf8 r
      else if is_lead c then
        match r with
        | d :: r' =>
            if is_trail d then
              let cp := 65536 + (c - 55296) * 1024 + (d - 56320) in
              (240 + cp / 262144) :: (128 + cp / 4096 mod 64)
              :: (128 + cp / 64 mod 64) :: (128 + cp mod 64) :: utf8 r'
            else 239 :: 191 :: 189 :: utf8 r
        | [] => [239; 191; 189]
        end
      else if is_trail c then 239 :: 191 :: 189 :: utf8 r
      else (224 + c / 4096) :: (128 + c / 64 mod 64) :: (128 + c mod 64) :: utf8 r
  end.

Definition mask : N := 4294967295.

(** Addition of 32-bit words. *)
Definition add (x y : N) : N := N.land (x + y) mask.

Definition rotr (n x : N) : N :=
  N.lor (N.shiftr x n) (N.land (N.shiftl x (32 - n)) mask).

Definition Ch (x y z : N) : N :=
  N.lxor (N.land x y) (N.land (N.lxor x mask) z).
Definition Maj (x y z : N) : N :=
  N.lxor (N.lxor (N.land x y) (N.land x z)) (N.land y z).
Definition Sigma0 (x : N) : N := N.lxor (N.lxor (rotr 2 x) (rotr 13 x)) (rotr 22 x).
Definition Sigma1 (x : N) : N := N.lxor (N.lxor (rotr 6 x) (rotr 11 x)) (rotr 25 x).
Definition sigma0 (x : N) : N := N.lxor (N.lxor (rotr 7 x) (rotr 18 x)) (N.shiftr x 3).
Definition sigma1 (x : N) : N := N.lxor (N.lxor (rotr 17 x) (rotr 19 x)) (N.shiftr x 10).

Definition K : list N :=
  [ 1116352408; 1899447441; 3049323471; 3921009573; 961987163; 1508970993;
    2453635748; 2870763221; 3624381080; 310598401; 607225278; 1426881987;
    1925078388; 2162078206; 2614888103; 3248222580; 3835390401; 4022224774;
    264347078; 604807628; 770255983; 1249150122; 1555081692; 1996064986;
    2554220882; 2821834349; 2952996808; 3210313671; 3336571891; 3584528711;
    113926993; 338241895; 666307205; 773529912; 1294757372; 1396182291;
    1695183700; 1986661051; 2177026350; 2456956037; 2730485921; 2820302411;
    3259730800; 3345764771; 3516065817; 3600352804; 4094571909; 275423344;
    430227734; 506948616; 659060556; 883997877; 958139571; 1322822218;
    1537002063; 1747873779; 1955562222; 2024104815; 2227730452; 2361852424;
    2428436474; 2756734187; 3204031479; 3329325298 ].

(** The eight working words. *)
Record state := mkState { a : N; b : N; c : N; d : N; e : N; f : N; g : N; h : N }.

Definition initial : state :=
  mkState 1779033703 3144134277 1013904242 2773480762
          1359893119 2600822924 528734635 1541459225.

(** The message with its padding: the bit 1, zeros, the length in bits as
    eight bytes. *)
Definition be_bytes (count : nat) (x : N) : list N :=
  List.map (fun i => N.shiftr x (8 * N.of_nat i) mod 256) (rev (seq 0 count)).

Definition pad (msg : list N) : list N :=
  let len := length msg in
  let zeros := ((64 - (len + 9) mod 64) mod 64)%nat in
  msg ++ [128] ++ repeat 0 zeros ++ be_bytes 8 (8 * N.of_nat len).

Fixpoint be_words (count : nat) (bytes : list N) : list N :=
  match count with
  | O => []
  | S k =>
      match bytes with
      | b0 :: b1 :: b2 :: b3 :: rest =>
          (((b0 * 256 + b1) * 256 + b2) * 256 + b3) :: be_words k rest
      | _ => []
      end
  end.

(** The message schedule, latest word first: [count] more words. *)
Fixpoint schedule (count : nat) (recent : list N) : list N :=
  match count with
  | O => recent
  | S k =>
      let w := add (add (sigma1 (nth 1 recent 0)) (nth 6 recent 0))
                   (add (sigma0 (nth 14 recent 0)) (nth 15 recent 0)) in
      schedule k (w :: recent)
  end.

Definition round (s : state) (kw : N * N) : state :=
  let t1 := add (add (add (h s) (Sigma1 (e s))) (add (Ch (e s) (f s) (g s)) (fst kw)))
                (snd kw) in
  let t2 := add (Sigma0 (a s)) (Maj (a s) (b s) (c s)) in
  mkState (add t1 t2) (a s) (b s) (c s) (add (d s) t1) (e s) (f s) (g s).

Definition compress (s : state) (block : list N) : state :=
  let w := rev (schedule 48 (rev (be_words 16 block))) in
  let s' := fold_left round (combine K w) s in
  mkState (add (a s) (a s')) (add (b s) (b s')) (add (c s) (c s')) (add (d s) (d s'))
          (add (e s) (e s')) (add (f s) (f s')) (add (g s) (g s')) (add (h s) (h s')).

Fixpoint blocks (count : nat) (s : state) (bytes : list N) : state :=
  match count with
  | O => s
  | S k => blocks k (compress s (take 64 bytes)) (drop 64 bytes)
  end.

Definition hash (msg : list N) : state :=
  let padded := pad msg in
  blocks (length padded / 64) initial padded.

(** The eight hexadecimal digits of a 32-bit word. *)
Definition hex_word (x : N) : jsstring :=
  List.map (fun i => hex_digit (N.shiftr x (4 * i) mod 16)) [7; 6; 5; 4; 3; 2; 1; 0].

(** [digest("hex")] *)
Definition hex (s : state) : jsstring :=
  hex_word (a s) ++ hex_word (b s) ++ hex_word (c s) ++ hex_word (d s)
  ++ hex_word (e s) ++ hex_word (f s) ++ hex_word (g s) ++ hex_word (h s).

(** [createHash("sha256").update(text).digest("hex")] *)
Definition hexdigest (text : jsstring) : jsstring := hex (hash (utf8 text)).

End SHA256.

(** ** cache-manager.ts *)

Module CacheManager.

Definition CACHE_VERSION : jsstring := js "1.0".

Record Metadata := mkMeta { documentType : jsstring; specPath : jsstring }.

Record Document := mkDocument { path : jsstring; type : jsstring; spec_path : jsstring }.

Record CacheFileData := mkCacheFileData {
  version : jsstring;
  cached_at : jsstring;
  content_hash : jsstring;
  document : Document;
  result : CachedValidationResult
}.

Record OrphanedCacheFile := mkOrphan {
  file : jsstring;
  orphan_reason : jsstring;
  docName : jsstring;
  orphan_type : jsstring
}.

(** [contentHash]: the first 8 characters of the SHA-256 hex digest. *)
Definition contentHash (documentContent readmeContent : jsstring) : jsstring :=
  take 8 (SHA256.hexdigest (documentContent ++ readmeContent)).

(** [[\x00-\x08\x0B\x0C\x0E-\x1F\x7F]] *)
Definition is_control (c : N) : bool :=
  in_range 0 8 c || (c =? 11) || (c =? 12) || in_range 14 31 c || (c =? 127).

(** [sanitizeText]: control characters removed, double quotes turned into
    single quotes. *)
Definition sanitizeText (text : jsstring) : jsstring :=
  List.map (fun c => if c =? 34 then 39 else c)
    (List.filter (fun c => negb (is_control c)) text).

(** The object spread of [write]: the result with its texts sanitized. *)
Definition sanitizeResult (r : CachedValidationResult) : CachedValidationResult :=
  {| compliant := compliant r;
     issues := List.map sanitizeText (issues r);
     reason := sanitizeText (reason r);
     severity := severity r |}.

(** The objects as JSON.stringify sees them; a property that is
    [undefined] is left out. *)
Definition severity_text (s : Severity) : jsstring :=
  match s with
  | warning => js "warning"
  | error => js "error"
  end.

Definition encode_result (r : CachedValidationResult) : json :=
  JObject
    ([ (js "compliant", JBool (compliant r));
       (js "issues", JArray (List.map JString (issues r)));
       (js "reason", JString (reason r)) ]
     ++ match severity r with
        | Some s => [(js "severity", JString (severity_text s))]
        | None => []
        end).

Definition encode (data : CacheFileData) : json :=
  JObject
    [ (js "version", JString (version data));
      (js "cached_at", JString (cached_at data));
      (js "content_hash", JString (content_hash data));
      (js "document",
       JObject [ (js "path", JString (path (document data)));
                 (js "type", JString (type (document data)));
                 (js "spec_path", JString (spec_path (document data))) ]);
      (js "result", encode_result (result data)) ].

Section Manager.

(** [this.cacheRoot] *)
Variable cacheRoot : jsstring.

(** [process.cwd()] and the order of a directory walk, for fast-glob. *)
Variable cwd : jsstring.
Variable order : list jsstring -> list jsstring.

Definition cachePathFor (documentPath : jsstring) : jsstring :=
  let relativePath :=
    if includes (js "/content/") documentPath
    then List.last (split_on (js "/content/") documentPath) []
    else if starts_with (js "content/") documentPath
         then drop 8 documentPath
         else documentPath in
  let dirPath := Path.dirname relativePath in
  let base := Path.basename relativePath (js ".md") in
  Path.join [cacheRoot; dirPath; base ++ js ".json"].

(** [JSON.parse(json)] as a statement: it returns or throws. *)
Definition JSON_parse (text : jsstring) : M json :=
  match JSON.parse text with
  | Some j => ret j
  | None => throw (JsSyntaxError (js "Unexpected token in JSON"))
  end.

(** The [try] block of [write]. *)
Definition attempt (cachePath : jsstring) (cacheData : CacheFileData) : M unit :=
  mkdirSync (Path.dirname cachePath) ;;
  let json := JSON.stringify (encode cacheData) in
  JSON_parse json ;;
  writeFileSync cachePath json.

(** The [catch] block of [write]. *)
Definition cleanup (cachePath : jsstring) (err : exn) : M unit :=
  try_catch
    (present <- existsSync cachePath ;;
     if present then unlinkSync cachePath else ret tt)
    (fun _ => ret tt) ;;
  debug <- debug_enabled ;;
  if debug
  then console_warn (js "Warning: Failed to write cache file ("
                     ++ message_of err ++ js ")")
  else ret tt.

(** The record [write] serializes. *)
Definition cacheData_for (documentPath contentHash : jsstring)
  (result : CachedValidationResult) (metadata : Metadata) (now : jsstring)
  : CacheFileData :=
  {| version := CACHE_VERSION;
     cached_at := now;
     content_hash := contentHash;
     document := {| path := documentPath;
                    type := documentType metadata;
                    spec_path := specPath metadata |};
     result := sanitizeResult result |}.

Definition write (documentPath contentHash : jsstring)
  (result : CachedValidationResult) (metadata : Metadata) : M unit :=
  let cachePath := cachePathFor documentPath in
  now <- gets clock ;;
  let cacheData := cacheData_for documentPath contentHash result metadata now in
  try_catch (attempt cachePath cacheData) (cleanup cachePath).

(** [cached.key]: reading a property of [null] throws. *)
Definition property (cached : json) (key : jsstring) : M value :=
  match cached with
  | JNull =>
      throw (JsTypeError (js "Cannot read properties of null (reading '"
                          ++ key ++ js "')"))
  | JObject members => ret (member key members)
  | _ => ret VUndefined
  end.

(** [v !== text] *)
Definition differs (v : value) (text : jsstring) : bool :=
  match v with
  | V (JString s) => negb (eqb_str s text)
  | _ => true
  end.

(** The [try] block of [read]. *)
Definition lookup_entry (cachePath contentHash : jsstring) : M value :=
  raw <- readFileSync cachePath ;;
  cached <- JSON_parse raw ;;
  version <- property cached (js "version") ;;
  if differs version CACHE_VERSION then ret null
  else
    content_hash <- property cached (js "content_hash") ;;
    if differs content_hash contentHash then ret null
    else property cached (js "result").

(** The [catch] block of [read]. *)
Definition discard (cachePath : jsstring) (err : exn) : M value :=
  try_catch (unlinkSync cachePath) (fun _ => ret tt) ;;
  debug <- debug_enabled ;;
  (if debug
   then console_warn (js "Warning: Removed corrupt cache file " ++ cachePath
                      ++ js " (" ++ message_of err ++ js ")")
   else ret tt) ;;
  ret null.

Definition read (documentPath contentHash : jsstring) : M value :=
  let cachePath := cachePathFor documentPath in
  present <- existsSync cachePath ;;
  if negb present then ret null
  else try_catch (lookup_entry cachePath contentHash) (discard cachePath).

(** The keys of [documentTypes], in order. *)
Definition documentTypes : list jsstring :=
  [ js "roles"; js "responsibilities"; js "reference";
    js "context/conventions"; js "context/constitution" ].

(** The inner loops of [buildDocumentMap] for one type. *)
Definition documents_of_type (contentDir type : jsstring) : M (list jsstring) :=
  let typeDir := Path.join [contentDir; type] in
  present <- existsSync typeDir ;;
  if negb present then ret []
  else
    docFiles <- FastGlob.sync_star cwd order (js ".md") typeDir ;;
    ret (omap (fun docPath =>
                 let base := Path.basename docPath (js ".md") in
                 if eqb_str base (js "README") || starts_with (js "_") base
                 then None
                 else
                   let normalizedType := List.last (split_on (js "/") type) [] in
                   Some (normalizedType ++ js "/" ++ base))
              docFiles).

Definition buildDocumentMap (contentDir : jsstring) : M (gset jsstring) :=
  keys <- map_M (documents_of_type contentDir) documentTypes ;;
  ret (list_to_set (concat keys)).

Definition orphanedCacheFiles (contentDir : jsstring) : M (list OrphanedCacheFile) :=
  validDocuments <- buildDocumentMap contentDir ;;
  cacheFiles <- FastGlob.sync_globstar cwd order (js ".json") cacheRoot ;;
  ret (omap (fun cacheFile =>
               let docName := Path.basename cacheFile (js ".json") in
               let relativePath := replace_first (cacheRoot ++ js "/") [] cacheFile in
               let type := List.hd (js "unknown") (split_on (js "/") relativePath) in
               let docKey := type ++ js "/" ++ docName in
               if bool_decide (docKey ∈ validDocuments) then None
               else Some (mkOrphan cacheFile (js "document_missing") docName type))
            cacheFiles).

End Manager.
End CacheManager.

(** ** DocumentValidator: parsing the reply of the remote check *)

Module DocumentValidator.
Section Parse.

(** [String.prototype.toLowerCase] *)
Variable toLowerCase : jsstring -> jsstring.

(** [[\s,.:]] *)
Definition is_word_sep (c : N) : bool :=
  is_space c || (c =? 44) || (c =? 46) || (c =? 58).

(** [[-*•]]: hyphen, asterisk, U+2022 *)
Definition is_bullet (c : N) : bool := (c =? 45) || (c =? 42) || (c =? 8226).

(** [/^[-*•]\s+/.test(s)] *)
Definition bullet_line (s : jsstring) : bool :=
  match s with
  | c :: d :: _ => is_bullet c && is_space d
  | _ => false
  end.

(** [/^\d+\.\s+/.test(s)] *)
Definition numbered_line (s : jsstring) : bool :=
  match s with
  | c :: _ =>
      is_digit c &&
      match drop_while is_digit s with
      | 46 :: d :: _ => is_space d
      | _ => false
      end
  | [] => false
  end.

(** [[-*•\d.]] *)
Definition is_marker (c : N) : bool := is_bullet c || is_digit c || (c =? 46).

(** [s.replace(/^[-*•\d.]+\s*/, empty)] *)
Definition strip_marker (s : jsstring) : jsstring :=
  match s with
  | c :: _ => if is_marker c then drop_while is_space (drop_while is_marker s) else s
  | [] => s
  end.

(** The loop of [parseIssues]: the list lines of the reply, markers removed. *)
Fixpoint list_items (lines : list jsstring) : list jsstring :=
  match lines with
  | [] => []
  | line :: rest =>
      let trimmedLine := trim line in
      if bullet_line trimmedLine || numbered_line trimmedLine
      then strip_marker trimmedLine :: list_items rest
      else list_items rest
  end.

Definition parseIssues (reason : jsstring) : list jsstring :=
  let issues := list_items (split_chars (N.eqb 10) reason) in
  match issues with
  | [] => [reason]
  | _ :: _ => issues
  end.

(** [trimmed.split(/[\s,.:]/)[0]?.toLowerCase()], the empty string when
    there is no first piece. *)
Definition firstWord (trimmed : jsstring) : jsstring :=
  match split_chars is_word_sep trimmed with
  | w :: _ => toLowerCase w
  | [] => []
  end.

Definition parseResponse (response : jsstring) : CachedValidationResult :=
  let trimmed := trim response in
  let firstWord := firstWord trimmed in
  if eqb_str firstWord (js "yes")
  then {| compliant := true; issues := []; reason := trimmed; severity := None |}
  else
    let issues := parseIssues trimmed in
    let severity := if eqb_str firstWord (js "maybe") then warning else error in
    {| compliant := false; issues := issues; reason := trimmed;
       severity := Some severity |}.

End Parse.
End DocumentValidator.

(** ** Collaborators of the compiler *)

(** A front-matter value, in the shapes the casts of the source allow. *)
Inductive fmvalue :=
| FmNull
| FmBool (b : bool)
| FmString (s : jsstring)
| FmArray (items : list jsstring).

(** A [Frontmatter] object (frontmatter.ts is not among the sources), given
    by what its three accessors return: [parse()] the mapping, [value(key)]
    a string or undefined, [array(key)] a list of strings. *)
Record Frontmatter := mkFrontmatter {
  parse : gmap jsstring fmvalue;
  value : jsstring -> option jsstring;
  array : jsstring -> list jsstring
}.

(** The values the getters of [PraxisConfig] return; [None] for the
    profile directory is [null] (profile output disabled). *)
Record PraxisConfig := mkConfig {
  agentProfilesOutputDir : option jsstring;
  plugins : list jsstring;
  rolesDir : jsstring;
  pluginsOutputDir : jsstring;
  pluginName : jsstring
}.

Record AgentMetadata := mkMetadata {
  name : jsstring;
  description : jsstring;
  tools : option jsstring;
  model : option jsstring;
  permissionMode : option jsstring
}.

(** Modelled from the spec: the profile assembler (output-builder.ts is not
    among the sources).  Sections are kept in the canonical order Role,
    Responsibilities, Constitution, Context, Reference; a section with no
    body is left out; a section is rendered as [# Name] followed by its
    bodies, everything separated by blank lines. *)
Module OutputBuilder.

Record t := mk {
  role : list jsstring;
  responsibilities : list jsstring;
  constitution : list jsstring;
  context : list jsstring;
  reference : list jsstring
}.

Definition sections (b : t) : list (jsstring * list jsstring) :=
  List.filter (fun sec => match snd sec with [] => false | _ :: _ => true end)
    [ (js "Role", role b);
      (js "Responsibilities", responsibilities b);
      (js "Constitution", constitution b);
      (js "Context", context b);
      (js "Reference", reference b) ].

Definition blank_line : jsstring := [10; 10].

Definition render_section (sec : jsstring * list jsstring) : jsstring :=
  JS.join blank_line ((js "# " ++ fst sec) :: snd sec).

Definition buildProfile (b : t) : jsstring :=
  JS.join blank_line (List.map render_section (sections b)).

End OutputBuilder.

(** ** plugins/claude-code.ts *)

Module ClaudeCodePlugin.
Section Plugin.

Variable toLowerCase : jsstring -> jsstring.

(** The constructor: where the plugin writes. *)
Definition outputDir (root : jsstring) (pluginsOutputDir pluginName : option jsstring)
  : jsstring :=
  let name := match pluginName with Some n => n | None => js "praxis" end in
  match pluginsOutputDir with
  | Some d =>
      if truthy d then Path.join [d; name; js "agents"]
      else Path.join [root; js "plugins"; name; js "agents"]
  | None => Path.join [root; js "plugins"; name; js "agents"]
  end.

(** The class of [quoteIfNeeded]: colon, brackets, braces, hash, ampersand,
    asterisk, exclamation mark, bar, greater-than, both quotes, percent,
    at sign, backquote, backslash. *)
Definition is_yaml_special (c : N) : bool :=
  existsb (N.eqb c) (js ":[]{}#&*!|>'%@`\" ++ [34]).

(** The two [replace] calls of [quoteIfNeeded]: a backslash before every
    backslash and every double quote. *)
Fixpoint escape (s : jsstring) : jsstring :=
  match s with
  | [] => []
  | c :: r =>
      if c =? 92 then 92 :: 92 :: escape r
      else if c =? 34 then 92 :: 34 :: escape r
      else c :: escape r
  end.

Definition quoteIfNeeded (str : jsstring) : jsstring :=
  if existsb is_yaml_special str || includes [10] str
  then [34] ++ escape str ++ [34]
  else str.

Definition opt_line (label : jsstring) (v : option jsstring) : list jsstring :=
  match v with
  | Some x => if truthy x then [label ++ x] else []
  | None => []
  end.

Definition buildFrontmatter (metadata : option AgentMetadata) : option jsstring :=
  match metadata with
  | None => None
  | Some md =>
      if negb (truthy (name md)) || negb (truthy (description md)) then None
      else
        Some (JS.join [10]
          ([js "---"; js "name: " ++ name md;
            js "description: " ++ quoteIfNeeded (description md)]
           ++ opt_line (js "tools: ") (tools md)
           ++ opt_line (js "model: ") (model md)
           ++ opt_line (js "permissionMode: ") (permissionMode md)
           ++ [js "---"]))
  end.

Definition compile (outputDir profileContent : jsstring)
  (metadata : option AgentMetadata) (roleAlias : jsstring) : M unit :=
  present <- existsSync outputDir ;;
  (if negb present then mkdirSync outputDir else ret tt) ;;
  let content :=
    match buildFrontmatter metadata with
    | Some frontmatter => frontmatter ++ [10] ++ profileContent
    | None => profileContent
    end in
  writeFileSync (Path.join [outputDir; toLowerCase roleAlias ++ js ".md"]) content.

End Plugin.
End ClaudeCodePlugin.

(** ** plugin-registry.ts *)

Module PluginRegistry.
Section Registry.

Variable toLowerCase : jsstring -> jsstring.

(** What [PLUGINS[name]] evaluates to.  [PLUGINS] is a plain object, so a
    name that is not a key of its own is looked up on [Object.prototype]. *)
Inductive entry :=
| ClaudeCodeConstructor    (** the one registered plugin class *)
| ObjectConstructor        (** [Object.prototype.constructor] *)
| NotAConstructor          (** another inherited member *)
| Undefined.

(** [Object.keys(PLUGINS)] *)
Definition own_keys : list jsstring := [js "claude-code"].

(** The inherited members other than [constructor]. *)
Definition inherited_keys : list jsstring :=
  [ js "__proto__"; js "__defineGetter__"; js "__defineSetter__";
    js "__lookupGetter__"; js "__lookupSetter__"; js "hasOwnProperty";
    js "isPrototypeOf"; js "propertyIsEnumerable"; js "toLocaleString";
    js "toString"; js "valueOf" ].

Definition PLUGINS (name : jsstring) : entry :=
  if eqb_str name (js "claude-code") then ClaudeCodeConstructor
  else if eqb_str name (js "constructor") then ObjectConstructor
  else if existsb (eqb_str name) inherited_keys then NotAConstructor
  else Undefined.

(** What [new Constructor(options)] yields. *)
Inductive CompilerPlugin :=
| ClaudeCode (outputDir : jsstring)
| PlainObject   (** [new Object(options)]: the options, no [compile] method *).

Definition unknown_plugin (name : jsstring) : jsstring :=
  js "Unknown plugin: " ++ [34] ++ name ++ [34] ++ js ". Available plugins: "
  ++ JS.join (js ", ") own_keys.

Definition resolve_one (root : jsstring) (pluginsOutputDir pluginName : option jsstring)
  (name : jsstring) : M CompilerPlugin :=
  match PLUGINS name with
  | Undefined => throw (JsError (unknown_plugin name))
  | ClaudeCodeConstructor =>
      ret (ClaudeCode (ClaudeCodePlugin.outputDir root pluginsOutputDir pluginName))
  | ObjectConstructor => ret PlainObject
  | NotAConstructor => throw (JsTypeError (js "Constructor is not a constructor"))
  end.

Definition resolvePlugins (names : list jsstring) (root : jsstring)
  (pluginsOutputDir pluginName : option jsstring) : M (list CompilerPlugin) :=
  map_M (resolve_one root pluginsOutputDir pluginName) names.

(** [plugin.compile(profile, metadata, roleAlias)] *)
Definition plugin_compile (plugin : CompilerPlugin) (profile : jsstring)
  (metadata : option AgentMetadata) (roleAlias : jsstring) : M unit :=
  match plugin with
  | ClaudeCode dir => ClaudeCodePlugin.compile toLowerCase dir profile metadata roleAlias
  | PlainObject => throw (JsTypeError (js "plugin.compile is not a function"))
  end.

End Registry.
End PluginRegistry.

(** ** role-compiler.ts *)

Module RoleCompiler.
Section Compiler.

(** [String.prototype.toLowerCase] *)
Variable toLowerCase : jsstring -> jsstring.

(** The [GlobExpander] (glob-expander.ts is not among the sources): it
    reads the file tree, and neither logs nor writes. *)
Variable isGlob : jsstring -> bool.
Variable expand : tree -> jsstring -> list jsstring.
Variable expandAll : tree -> list jsstring -> list jsstring.

(** [Markdown.body] (markdown.ts is not among the sources) on the content
    of a file: the text after the front-matter block. *)
Variable body : jsstring -> jsstring.

Variable root : jsstring.
Variable config : PraxisConfig.

(** [process.cwd()] and the order of a directory walk, for fast-glob. *)
Variable cwd : jsstring.
Variable order : list jsstring -> list jsstring.

(** [new Markdown(path).body()] *)
Definition Markdown_body (path : jsstring) : M jsstring :=
  content <- readFileSync path ;; ret (body content).

(** [[a-z0-9]] *)
Definition is_alnum (c : N) : bool := in_range 97 122 c || in_range 48 57 c.

(** [s.replace(/[^a-z0-9]+/g, hyphen)]: every maximal run of other code
    units becomes one hyphen.  [in_run] tells that the run the scan is in
    already has its hyphen. *)
Fixpoint hyphenate_from (in_run : bool) (s : jsstring) : jsstring :=
  match s with
  | [] => []
  | c :: r =>
      if is_alnum c then c :: hyphenate_from false r
      else if in_run then hyphenate_from true r
      else 45 :: hyphenate_from true r
  end.

Definition hyphenate (s : jsstring) : jsstring := hyphenate_from false s.

(** [s.replace(/^-|-$/g, empty)]: one hyphen off each end. *)
Definition strip_hyphens (s : jsstring) : jsstring :=
  let s1 := match s with 45 :: r => r | _ => s end in
  match rev s1 with
  | 45 :: r => rev r
  | _ => s1
  end.

Definition agent_name (roleAlias : jsstring) : jsstring :=
  strip_hyphens (hyphenate (toLowerCase roleAlias)).

Definition nonempty (v : option jsstring) : option jsstring :=
  match v with
  | Some s => if truthy s then Some s else None
  | None => None
  end.

Definition buildAgentMetadata (fm : Frontmatter) (roleAlias : jsstring)
  : M (option AgentMetadata) :=
  let name := agent_name roleAlias in
  match nonempty (value fm (js "description")) with
  | None =>
      logger_warn (js "No description found in role, skipping agent metadata") ;;
      ret None
  | Some description =>
      ret (Some {| name := name;
                   description := description;
                   tools := nonempty (value fm (js "agent_tools"));
                   model := nonempty (value fm (js "agent_model"));
                   permissionMode := nonempty (value fm (js "agent_permission_mode")) |})
  end.

Definition deprecation : jsstring :=
  js "constitution: true is deprecated. Use an explicit path like: constitution: "
  ++ [34] ++ js "context/constitution/*.md" ++ [34].

(** [!raw] for [raw = fm.parse().constitution] *)
Definition falsy (raw : option fmvalue) : bool :=
  match raw with
  | None | Some FmNull | Some (FmBool false) => true
  | Some (FmString s) => negb (truthy s)
  | Some (FmBool true) | Some (FmArray _) => false
  end.

Definition is_true (raw : option fmvalue) : bool :=
  match raw with
  | Some (FmBool true) => true
  | _ => false
  end.

Definition resolveConstitutionPatterns (fm : Frontmatter) : M (list jsstring) :=
  let raw := parse fm !! js "constitution" in
  if falsy raw then ret []
  else if is_true raw then logger_warn deprecation ;; ret []
  else
    let patterns :=
      match raw with
      | Some (FmArray items) => items
      | Some (FmString s) => [s]
      | _ => []
      end in
    gets (fun w => expandAll (tree_of w) patterns).

(** The callback of [expanded.map(...)] in [inlineConstitution] and
    [inlineRefs]: the body of the file, or [null] with a warning. *)
Definition inline_one (label relPath : jsstring) : M (option jsstring) :=
  let fullPath := Path.join [root; relPath] in
  present <- existsSync fullPath ;;
  if negb present
  then logger_warn (label ++ relPath) ;; ret None
  else b <- Markdown_body fullPath ;; ret (Some b).

(** [.filter((body) => body !== null)] *)
Definition non_null (bodies : list (option jsstring)) : list jsstring :=
  omap id bodies.

Definition inlineConstitution (fm : Frontmatter) : M (list jsstring) :=
  let raw := parse fm !! js "constitution" in
  expanded <- resolveConstitutionPatterns fm ;;
  (if negb (falsy raw) && negb (is_true raw) && (length expanded =? 0)%nat
   then logger_warn (js "Constitution patterns matched zero files")
   else ret tt) ;;
  bodies <- map_M (inline_one (js "Constitution file not found: ")) expanded ;;
  ret (non_null bodies).

Definition inlineRefs (fm : Frontmatter) (key : jsstring) : M (list jsstring) :=
  let patterns := array fm key in
  for_each patterns (fun pattern =>
    if isGlob pattern then
      matches <- gets (fun w => expand (tree_of w) pattern) ;;
      if (length matches =? 0)%nat
      then logger_warn (js "Glob pattern matched zero files: " ++ pattern)
      else ret tt
    else ret tt) ;;
  expanded <- gets (fun w => expandAll (tree_of w) patterns) ;;
  bodies <- map_M (inline_one (js "Referenced file not found: ")) expanded ;;
  ret (non_null bodies).

Definition buildRoleProfile (roleFile : jsstring) (fm : Frontmatter)
  (roleAlias : jsstring) : M (jsstring * option AgentMetadata) :=
  role_body <- Markdown_body roleFile ;;
  metadata <- buildAgentMetadata fm roleAlias ;;
  responsibilities <- inlineRefs fm (js "responsibilities") ;;
  constitution <- inlineConstitution fm ;;
  context <- inlineRefs fm (js "context") ;;
  reference <- inlineRefs fm (js "refs") ;;
  ret (OutputBuilder.buildProfile
         (OutputBuilder.mk [role_body] responsibilities constitution context reference),
       metadata).

(** The name of the file a role is written to, in the profile directory
    and by the plugins. *)
Definition output_file (roleAlias : jsstring) : jsstring :=
  toLowerCase roleAlias ++ js ".md".

Definition write_profile (profile roleAlias : jsstring) : M unit :=
  match agentProfilesOutputDir config with
  | Some profilesDir =>
      if truthy profilesDir then
        present <- existsSync profilesDir ;;
        (if negb present then mkdirSync profilesDir else ret tt) ;;
        writeFileSync (Path.join [profilesDir; output_file roleAlias]) profile
      else ret tt
  | None => ret tt
  end.

Definition writeOutputs (profile : jsstring) (metadata : option AgentMetadata)
  (roleAlias : jsstring) : M unit :=
  write_profile profile roleAlias ;;
  plugins <- PluginRegistry.resolvePlugins (plugins config) root
               (Some (pluginsOutputDir config)) (Some (pluginName config)) ;;
  for_each plugins (fun plugin =>
    PluginRegistry.plugin_compile toLowerCase plugin profile metadata roleAlias).

(** [compile(roleFile)], given the front matter read from the file. *)
Definition compile (roleFile : jsstring) (fm : Frontmatter) : M (option jsstring) :=
  match nonempty (value fm (js "alias")) with
  | None =>
      logger_warn (js "No alias found in " ++ roleFile ++ js ", skipping") ;;
      ret None
  | Some roleAlias =>
      built <- buildRoleProfile roleFile fm roleAlias ;;
      writeOutputs (fst built) (snd built) roleAlias ;;
      logger_success (js "Compiled " ++ toLowerCase roleAlias ++ js ".md") ;;
      ret (Some roleAlias)
  end.

(** [EXCLUDED_FILES] *)
Definition EXCLUDED_FILES : list jsstring := [js "_template.md"; js "README.md"].

(** The loop of [compileAll] over the role files, with the count of the
    roles compiled so far.  [frontmatter_of] stands for
    [new Frontmatter(roleFile)]. *)
Fixpoint compile_each (frontmatter_of : tree -> jsstring -> Frontmatter)
  (roleFiles : list jsstring) (compiled : nat) : M nat :=
  match roleFiles with
  | [] => ret compiled
  | roleFile :: rest =>
      let name := Path.last_segment roleFile in
      if existsb (eqb_str name) EXCLUDED_FILES
      then compile_each frontmatter_of rest compiled
      else
        fm <- gets (fun w => frontmatter_of (tree_of w) roleFile) ;;
        match nonempty (value fm (js "alias")) with
        | None => compile_each frontmatter_of rest compiled
        | Some roleAlias =>
            built <- buildRoleProfile roleFile fm roleAlias ;;
            writeOutputs (fst built) (snd built) roleAlias ;;
            logger_success (js "Compiled " ++ toLowerCase roleAlias ++ js ".md") ;;
            compile_each frontmatter_of rest (S compiled)
        end
  end.

(** The decimal digits of a number. *)
Definition decimal (n : nat) : jsstring :=
  js (NilEmpty.string_of_uint (Nat.to_uint n)).

Definition compileAll (frontmatter_of : tree -> jsstring -> Frontmatter) : M nat :=
  roleFiles <- FastGlob.sync_star cwd order (js ".md") (rolesDir config) ;;
  compiled <- compile_each frontmatter_of roleFiles O ;;
  logger_info (js "Compiled " ++ decimal compiled ++ js " agent(s) (up-to-date)") ;;
  ret compiled.

End Compiler.
End RoleCompiler.

(** ** cache-manager.ts: stats *)

Module CacheStats.

(** What an entry of [byType] holds: a count, or the text that adding 1 to
    a member inherited from [Object.prototype] gives. *)
Inductive tally :=
| Count (n : nat)
| Text (s : jsstring).

(** The source text of a built-in function. *)
Definition native_function (name : jsstring) : jsstring :=
  js "function " ++ name ++ js "() { [native code] }".

(** [String(byType[type])] for a [type] that is no key of [byType] itself
    but a member of [Object.prototype]. *)
Definition inherited_text (type : jsstring) : option jsstring :=
  if eqb_str type (js "constructor") then Some (native_function (js "Object"))
  else if eqb_str type (js "__proto__") then Some (js "[object Object]")
  else if existsb (eqb_str type) PluginRegistry.inherited_keys
       then Some (native_function type)
       else None.

(** [byType[type] = (byType[type] ?? 0) + 1].  Assigning a string to
    [__proto__] changes nothing. *)
Definition bump (byType : gmap jsstring tally) (type : jsstring) : gmap jsstring tally :=
  match byType !! type with
  | Some (Count n) => <[type := Count (S n)]> byType
  | Some (Text s) => <[type := Text (s ++ js "1")]> byType
  | None =>
      match inherited_text type with
      | Some text =>
          if eqb_str type (js "__proto__") then byType
          else <[type := Text (text ++ js "1")]> byType
      | None => <[type := Count 1]> byType
      end
  end.

Record Stats := mkStats {
  totalFiles : nat;
  totalSize : nat;
  byType : gmap jsstring tally
}.

Section Stats.

Variable cacheRoot : jsstring.

(** [process.cwd()] and the order of a directory walk, for fast-glob. *)
Variable cwd : jsstring.
Variable order : list jsstring -> list jsstring.

(** The [try] statement of the loop: the size of the file in bytes, 0 when
    it cannot be read. *)
Definition size_of (file : jsstring) : M nat :=
  try_catch (content <- readFileSync file ;; ret (length (SHA256.utf8 content)))
            (fun _ => ret 0%nat).

(** The type a cache file is counted under. *)
Definition type_of (file : jsstring) : jsstring :=
  let relativePath := replace_first (cacheRoot ++ js "/") [] file in
  List.hd (js "unknown") (split_on (js "/") relativePath).

(** The loop of [stats]. *)
Fixpoint tally_each (cacheFiles : list jsstring) (totalSize : nat)
  (byType : gmap jsstring tally) : M (nat * gmap jsstring tally) :=
  match cacheFiles with
  | [] => ret (totalSize, byType)
  | file :: rest =>
      size <- size_of file ;;
      tally_each rest (totalSize + size)%nat (bump byType (type_of file))
  end.

(** [stats] *)
Definition stats : M Stats :=
  cacheFiles <- FastGlob.sync_globstar cwd order (js ".json") cacheRoot ;;
  totals <- tally_each cacheFiles 0%nat ∅ ;;
  ret {| totalFiles := length cacheFiles;
         totalSize := fst totals;
         byType := snd totals |}.

End Stats.
End CacheStats.


(** ** document-validator.ts: the validator around [parseResponse] *)

Module Validator.

(** [DocumentType] *)
Inductive DocumentType :=
| Role | Responsibility | Reference | Convention | Constitution | Template | Unknown.

(** The string a [DocumentType] is. *)
Definition type_name (t : DocumentType) : jsstring :=
  match t with
  | Role => js "role"
  | Responsibility => js "responsibility"
  | Reference => js "reference"
  | Convention => js "convention"
  | Constitution => js "constitution"
  | Template => js "template"
  | Unknown => js "unknown"
  end.

(** [s.indexOf(pat, from)], for [from] within the string: the first
    position at or after [from] where [pat] occurs. *)
Fixpoint index_from (pat s : jsstring) (pos : nat) : option nat :=
  if starts_with pat s then Some pos
  else match s with
       | [] => None
       | _ :: r => index_from pat r (S pos)
       end.

Definition indexOf (pat s : jsstring) (from : nat) : option nat :=
  index_from pat (drop from s) from.

(** [s.slice(from, to)] for [from <= to] within the string. *)
Definition slice (from to : nat) (s : jsstring) : jsstring :=
  take (to - from) (drop from s).

(** The result of the constructor: the fields of a [DocumentValidator];
    [cacheManager] is the cache root of the manager, when there is one. *)
Record DocumentValidator := mkValidator {
  documentPath : jsstring;
  readmePath : jsstring;
  documentContent : jsstring;
  readmeContent : jsstring;
  documentType : DocumentType;
  cacheManager : option jsstring
}.

(** What [fetch] resolves to, or the error it rejects with. *)
Inductive reply :=
| Rejected (e : exn)
| Response (ok : bool) (status : nat) (text : jsstring).

(** What [validate] returns: the value read from the cache ([cacheHit] is
    then true) or the result parsed from a fresh reply. *)
Inductive verdict :=
| Cached (result : json)
| Fresh (result : CachedValidationResult).

(** [JSON.stringify(value)], without indentation. *)
Fixpoint stringify_compact (j : json) : jsstring :=
  match j with
  | JNull => js "null"
  | JBool true => js "true"
  | JBool false => js "false"
  | JNumber lexeme => lexeme
  | JString s => quote_string s
  | JArray items => js "[" ++ JS.join (js ",") (List.map stringify_compact items) ++ js "]"
  | JObject members =>
      js "{"
      ++ JS.join (js ",")
           (List.map (fun kv => quote_string (fst kv) ++ js ":" ++ stringify_compact (snd kv))
              members)
      ++ js "}"
  end.

Section Validator.

(** [String.prototype.toLowerCase] *)
Variable toLowerCase : jsstring -> jsstring.

(** [yaml.load] of js-yaml, by what the validator reads off its result:
    [None] when it throws or yields [null] or [undefined], otherwise the
    string found under a key ([None] for a key that is absent or holds no
    string). *)
Variable yaml_load : jsstring -> option (jsstring -> option jsstring).

(** [process.cwd()] *)
Variable cwd : jsstring.

(** [process.env.OPENROUTER_API_KEY] *)
Variable OPENROUTER_API_KEY : option jsstring.

(** [SYSTEM_PROMPT] (prompts.ts is not among the sources) *)
Variable SYSTEM_PROMPT : jsstring.

(** [fetch(url, { method, headers, body })] for the one URL the validator
    calls, by the [Authorization] header and the body of the request. *)
Variable fetch : jsstring -> jsstring -> reply.

(** The truth value of the number a JSON number literal denotes. *)
Variable number_truthy : jsstring -> bool.

(** [inferTypeFromPath] *)
Definition inferTypeFromPath (documentPath : jsstring) : DocumentType :=
  if includes (js "/roles/") documentPath then Role
  else if includes (js "/responsibilities/") documentPath then Responsibility
  else if includes (js "/reference/") documentPath then Reference
  else if includes (js "/conventions/") documentPath then Convention
  else if includes (js "/constitution/") documentPath then Constitution
  else Unknown.

(** [extractFrontmatter]: the mapping of the front-matter block; the empty
    mapping when there is no block or it does not load. *)
Definition extractFrontmatter (documentContent : jsstring) : jsstring -> option jsstring :=
  if negb (starts_with (js "---" ++ [10]) documentContent) then fun _ => None
  else
    match indexOf ([10] ++ js "---") documentContent 4 with
    | None => fun _ => None
    | Some endIndex =>
        match yaml_load (slice 4 endIndex documentContent) with
        | Some frontmatter => frontmatter
        | None => fun _ => None
        end
    end.

(** [detectDocumentType] *)
Definition detectDocumentType (documentPath documentContent : jsstring) : DocumentType :=
  if starts_with (js "_") (Path.last_segment documentPath) then Template
  else
    let frontmatter := extractFrontmatter documentContent in
    match frontmatter (js "type") with
    | Some type =>
        if eqb_str type (js "role") then Role
        else if eqb_str type (js "responsibility") then Responsibility
        else if eqb_str type (js "reference") then Reference
        else if eqb_str type (js "convention") then Convention
        else if eqb_str type (js "constitution") then Constitution
        else inferTypeFromPath documentPath
    | None => inferTypeFromPath documentPath
    end.

(** [findReadme] *)
Definition findReadme (documentPath : jsstring) : M jsstring :=
  let baseDir := Path.dirname documentPath in
  let readme := Path.join [baseDir; js "README.md"] in
  present <- existsSync readme ;;
  if present then ret readme
  else
    let parentReadme := Path.join [Path.dirname baseDir; js "README.md"] in
    present <- existsSync parentReadme ;;
    if present then ret parentReadme
    else throw (JsError (js "No README.md found for " ++ documentPath)).

(** [CacheManager.defaultCacheRoot] *)
Definition defaultCacheRoot : jsstring :=
  Path.join [cwd; js ".praxis"; js "cache"; js "validation"].

(** The constructor.  [specPath] and [cacheManager] are [None] when the
    caller leaves them out. *)
Definition new (documentPath : jsstring) (specPath : option jsstring)
  (useCache : bool) (cacheManager : option jsstring) : M DocumentValidator :=
  documentContent <- readFileSync documentPath ;;
  let documentType := detectDocumentType documentPath documentContent in
  readmePath <- match specPath with
                | Some p => ret p
                | None => findReadme documentPath
                end ;;
  readmeContent <- readFileSync readmePath ;;
  ret {| documentPath := documentPath;
         readmePath := readmePath;
         documentContent := documentContent;
         readmeContent := readmeContent;
         documentType := documentType;
         cacheManager := match cacheManager with
                         | Some manager => Some manager
                         | None => if useCache then Some defaultCacheRoot else None
                         end |}.

(** [getContentHash] *)
Definition getContentHash (v : DocumentValidator) : jsstring :=
  CacheManager.contentHash (documentContent v) (readmeContent v).

(** [buildValidationQuestion] *)
Definition buildValidationQuestion (v : DocumentValidator) : jsstring :=
  JS.join [10]
    [ js "## README SPECIFICATION";
      [];
      js "The following README defines what documents in this directory should contain.";
      js "Use this as your validation criteria:";
      [];
      js "```markdown";
      readmeContent v;
      js "```";
      [];
      js "## DOCUMENT TO VALIDATE";
      [];
      js "File: " ++ Path.last_segment (documentPath v);
      js "Directory: " ++ Path.dirname (documentPath v);
      js "Detected Type: " ++ type_name (documentType v);
      [];
      js "```markdown";
      documentContent v;
      js "```";
      [];
      js "## VALIDATION TASK";
      [];
      js "Does this document comply with the README specification?";
      [];
      js "Check for:";
      js "1. All required frontmatter fields mentioned in the README";
      js "2. All required sections mentioned in the README";
      js "3. Naming conventions described in the README";
      js "4. Content expectations described in the README";
      js "5. Proper markdown formatting";
      [];
      js "Answer Yes, Maybe, or No with specific issues found." ].

(** The body of the request. *)
Definition request_body (v : DocumentValidator) : jsstring :=
  stringify_compact
    (JObject
       [ (js "model", JString (js "x-ai/grok-4.1-fast"));
         (js "messages",
          JArray
            [ JObject [ (js "role", JString (js "system"));
                        (js "content", JString SYSTEM_PROMPT) ];
              JObject [ (js "role", JString (js "user"));
                        (js "content", JString (buildValidationQuestion v)) ] ]);
         (js "temperature", JNumber (js "0.1")) ]).

(** [value[0]]: the first element of an array, the first code unit of a
    string, the member [0] of an object; reading it off [null] or
    [undefined] throws. *)
Definition first_element (v : JSON.value) : M JSON.value :=
  match v with
  | VUndefined =>
      throw (JsTypeError (js "Cannot read properties of undefined (reading '0')"))
  | V JNull => throw (JsTypeError (js "Cannot read properties of null (reading '0')"))
  | V (JArray (x :: _)) => ret (V x)
  | V (JString (c :: _)) => ret (V (JString [c]))
  | V (JObject members) => ret (member (js "0") members)
  | V _ => ret VUndefined
  end.

(** [value?.key] *)
Definition optional_member (v : JSON.value) (key : jsstring) : JSON.value :=
  match v with
  | V (JObject members) => member key members
  | _ => VUndefined
  end.

(** [value ?? fallback] *)
Definition or_else (v : JSON.value) (fallback : json) : json :=
  match v with
  | VUndefined | V JNull => fallback
  | V j => j
  end.

(** [callOpenRouter]: what the reply holds under
    [choices[0].message.content], the empty string when there is nothing. *)
Definition callOpenRouter (v : DocumentValidator) : M json :=
  match OPENROUTER_API_KEY with
  | None | Some [] =>
      throw (JsError (js "OPENROUTER_API_KEY environment variable not set"))
  | Some apiKey =>
      match fetch (js "Bearer " ++ apiKey) (request_body v) with
      | Rejected e => throw e
      | Response false status body =>
          throw (JsError (js "OpenRouter API error (" ++ RoleCompiler.decimal status
                          ++ js "): " ++ body))
      | Response true _ text =>
          data <- CacheManager.JSON_parse text ;;
          choices <- CacheManager.property data (js "choices") ;;
          first <- first_element choices ;;
          ret (or_else (optional_member (optional_member first (js "message"))
                          (js "content"))
                 (JString []))
      end
  end.

(** The truth value of what [read] returns. *)
Definition truthy_value (v : JSON.value) : bool :=
  match v with
  | VUndefined | V JNull => false
  | V (JBool b) => b
  | V (JNumber lexeme) => number_truthy lexeme
  | V (JString s) => truthy s
  | V (JArray _) | V (JObject _) => true
  end.

(** [this.parseResponse(response)] on what [callOpenRouter] returned:
    [response.trim()] throws on anything but a string. *)
Definition parse_reply (response : json) : M CachedValidationResult :=
  match response with
  | JString s => ret (DocumentValidator.parseResponse toLowerCase s)
  | _ => throw (JsTypeError (js "response.trim is not a function"))
  end.

(** The cached result [validate] returns at once: one that is truthy. *)
Definition cache_hit (cachedResult : JSON.value) : option json :=
  match cachedResult with
  | V cached => if truthy_value cachedResult then Some cached else None
  | VUndefined => None
  end.

(** [validate] *)
Definition validate (v : DocumentValidator) : M verdict :=
  cachedResult <-
    match cacheManager v with
    | Some cacheRoot => CacheManager.read cacheRoot (documentPath v) (getContentHash v)
    | None => ret VUndefined
    end ;;
  match cache_hit cachedResult with
  | Some cached => ret (Cached cached)
  | None =>
      response <- callOpenRouter v ;;
      result <- parse_reply response ;;
      match cacheManager v with
      | Some cacheRoot =>
          CacheManager.write cacheRoot (documentPath v) (getContentHash v) result
            (CacheManager.mkMeta (type_name (documentType v)) (readmePath v))
      | None => ret tt
      end ;;
      ret (Fresh result)
  end.

End Validator.
End Validator.


(** ** core/config.ts *)

Module Config.

(** [CONFIG_FILE] *)
Definition CONFIG_FILE : jsstring := Path.join [js ".praxis"; js "config.json"].

(** [Required<RawConfig>]: the seven settings, each as the JSON value it
    holds (the file is not checked against the declared types). *)
Record RawConfig := mkRaw {
  agentProfilesOutputDir : json;
  plugins : json;
  sources : json;
  rolesDir : json;
  responsibilitiesDir : json;
  pluginsOutputDir : json;
  pluginName : json
}.

(** [DEFAULT_CONFIG] *)
Definition DEFAULT_CONFIG : RawConfig :=
  {| agentProfilesOutputDir := JString (js "./agent-profiles");
     plugins := JArray [];
     sources := JArray [JString (js "roles"); JString (js "responsibilities");
                        JString (js "reference"); JString (js "context")];
     rolesDir := JString (js "roles");
     responsibilitiesDir := JString (js "responsibilities");
     pluginsOutputDir := JString (js "./plugins");
     pluginName := JString (js "praxis") |}.

(** [value ?? fallback] *)
Definition or_default (v : JSON.value) (fallback : json) : json :=
  match v with
  | VUndefined | V JNull => fallback
  | V j => j
  end.

(** [load] *)
Definition load (root : jsstring) : M RawConfig :=
  let configPath := Path.join [root; CONFIG_FILE] in
  present <- existsSync configPath ;;
  if negb present then ret DEFAULT_CONFIG
  else
    text <- readFileSync configPath ;;
    raw <- CacheManager.JSON_parse text ;;
    profiles <- CacheManager.property raw (js "agentProfilesOutputDir") ;;
    plugins <- CacheManager.property raw (js "plugins") ;;
    sources <- CacheManager.property raw (js "sources") ;;
    rolesDir <- CacheManager.property raw (js "rolesDir") ;;
    responsibilitiesDir <- CacheManager.property raw (js "responsibilitiesDir") ;;
    pluginsOutputDir <- CacheManager.property raw (js "pluginsOutputDir") ;;
    pluginName <- CacheManager.property raw (js "pluginName") ;;
    ret {| agentProfilesOutputDir :=
             or_default profiles (agentProfilesOutputDir DEFAULT_CONFIG);
           plugins := or_default plugins (Config.plugins DEFAULT_CONFIG);
           sources := or_default sources (Config.sources DEFAULT_CONFIG);
           rolesDir := or_default rolesDir (Config.rolesDir DEFAULT_CONFIG);
           responsibilitiesDir :=
             or_default responsibilitiesDir (Config.responsibilitiesDir DEFAULT_CONFIG);
           pluginsOutputDir :=
             or_default pluginsOutputDir (Config.pluginsOutputDir DEFAULT_CONFIG);
           pluginName := or_default pluginName (Config.pluginName DEFAULT_CONFIG) |}.

Section Getters.

(** [process.cwd()] *)
Variable cwd : jsstring.

(** [this.root] and [this.data] *)
Variable root : jsstring.
Variable data : RawConfig.

(** [resolve(this.root, val)] for a value of the file: anything but a
    string is refused by [path.resolve], with a message that goes on to
    name what it received. *)
Definition resolve_setting (val : json) : M jsstring :=
  match val with
  | JString s => ret (Path.resolve cwd [root; s])
  | _ => throw (JsTypeError (js "The " ++ [34] ++ js "paths[1]" ++ [34]
                             ++ js " argument must be of type string"))
  end.

(** [get agentProfilesOutputDir]: [None] is [null]. *)
Definition get_agentProfilesOutputDir : M (option jsstring) :=
  match agentProfilesOutputDir data with
  | JBool false => ret None
  | val => dir <- resolve_setting val ;; ret (Some dir)
  end.

(** [get rolesDir] *)
Definition get_rolesDir : M jsstring := resolve_setting (rolesDir data).

(** [get responsibilitiesDir] *)
Definition get_responsibilitiesDir : M jsstring :=
  resolve_setting (responsibilitiesDir data).

(** [get pluginsOutputDir] *)
Definition get_pluginsOutputDir : M jsstring := resolve_setting (pluginsOutputDir data).

End Getters.
End Config.


(** ** commands/add.ts *)

Module AddCommand.

(** The [type] argument: ["role" | "responsibility"]. *)
Inductive ContentType := Role | Responsibility.

Definition type_name (t : ContentType) : jsstring :=
  match t with
  | Role => js "role"
  | Responsibility => js "responsibility"
  end.

(** The replacement text of [s.replace(regexp, replacement)] for one match
    of a pattern without capture groups: [$$] is a dollar sign, [$&] the
    match, [$`] the text before it and [$'] the text after it; any other
    dollar sign stands for itself. *)
Fixpoint substitution (matched before after replacement : jsstring) : jsstring :=
  match replacement with
  | [] => []
  | c :: r =>
      if c =? 36 then
        match r with
        | d :: r' =>
            if d =? 36 then 36 :: substitution matched before after r'
            else if d =? 38 then matched ++ substitution matched before after r'
            else if d =? 96 then before ++ substitution matched before after r'
            else if d =? 39 then after ++ substitution matched before after r'
            else c :: substitution matched before after r
        | [] => [c]
        end
      else c :: substitution matched before after r
  end.

(** [s.replace(/pat/g, replacement)] for a pattern that matches the
    non-empty text [pat] literally: the matches are found from left to
    right and do not overlap.  [before] is the text already passed, [skip]
    the number of code units of a match still to be passed over. *)
Fixpoint replace_all_from (pat replacement before : jsstring) (skip : nat) (s : jsstring)
  : jsstring :=
  match s with
  | [] => []
  | c :: r =>
      match skip with
      | S k => replace_all_from pat replacement (before ++ [c]) k r
      | O =>
          if starts_with pat s
          then substitution pat before (drop (length pat) s) replacement
               ++ replace_all_from pat replacement (before ++ [c])
                    (Nat.pred (length pat)) r
          else c :: replace_all_from pat replacement (before ++ [c]) O r
      end
  end.

Definition replace_all (pat replacement s : jsstring) : jsstring :=
  replace_all_from pat replacement [] O s.

Section Add.

(** [String.prototype.toUpperCase] *)
Variable toUpperCase : jsstring -> jsstring.

(** [toTitleCase] *)
Definition toTitleCase (name : jsstring) : jsstring :=
  JS.join (js " ")
    (List.map (fun word => toUpperCase (take 1 word) ++ drop 1 word)
       (split_on (js "-") name)).

(** [fillTemplate] *)
Definition fillTemplate (type : ContentType) (name template : jsstring) : jsstring :=
  let titleCase := toTitleCase name in
  match type with
  | Role =>
      replace_all (js "[Alias]") titleCase
        (replace_all (js "[Role Name]") titleCase
           (replace_all (js "{required_alias}") name
              (replace_all (js "{role_name}") titleCase template)))
  | Responsibility =>
      replace_all (js "[Verb What]") titleCase
        (replace_all (js "{verb_what_title}") titleCase template)
  end.

(** The directory of a content type. *)
Definition subdir (type : ContentType) : jsstring :=
  match type with
  | Role => js "roles"
  | Responsibility => js "responsibilities"
  end.

(** [addFromTemplate(type, name, logger, { root, scaffoldDir })] *)
Definition addFromTemplate (type : ContentType) (name root scaffoldDir : jsstring)
  : M unit :=
  let targetDir := Path.join [root; js "content"; subdir type] in
  let templatePath :=
    Path.join [scaffoldDir; js "core"; js "content"; subdir type; js "_template.md"] in
  let targetFile := Path.join [targetDir; name ++ js ".md"] in
  present <- existsSync targetFile ;;
  if present
  then throw (JsError (js "File already exists: content/" ++ subdir type ++ js "/"
                       ++ name ++ js ".md"))
  else
    present <- existsSync templatePath ;;
    if negb present
    then throw (JsError (js "Template not found: " ++ templatePath))
    else
      template <- readFileSync templatePath ;;
      let filled := fillTemplate type name template in
      present <- existsSync targetDir ;;
      (if negb present then mkdirSync targetDir else ret tt) ;;
      writeFileSync targetFile filled ;;
      logger_success (js "Created " ++ type_name type ++ js ": content/" ++ subdir type
                      ++ js "/" ++ name ++ js ".md").

End Add.
End AddCommand.

(** ** commands/init.ts *)

Module InitCommand.

(** [a < b] on strings: by code units, a proper prefix first. *)
Fixpoint before (a b : jsstring) : bool :=
  match a, b with
  | _, [] => false
  | [], _ :: _ => true
  | x :: a', y :: b' => (x <? y) || ((x =? y) && before a' b')
  end.

(** [results.sort()]: ascending by code units; equal strings keep their
    order. *)
Fixpoint insert_sorted (s : jsstring) (sorted : list jsstring) : list jsstring :=
  match sorted with
  | [] => [s]
  | t :: rest => if before s t then s :: sorted else t :: insert_sorted s rest
  end.

Definition sort (l : list jsstring) : list jsstring :=
  fold_right insert_sorted [] l.

(** The names in a directory: the first segment below [dir] of every file
    and directory of the world that lies in it. *)
Definition entries (w : world) (dir : jsstring) : list jsstring :=
  remove_dups
    (omap (fun p => match FastGlob.below dir p with
                    | Some rel => List.head (split_chars Path.is_slash rel)
                    | None => None
                    end)
       (List.map fst (map_to_list (files w)) ++ elements (dirs w))).

(** [readdirSync(dir)] *)
Definition readdirSync (dir : jsstring) : M (list jsstring) :=
  f <- next_fault ;;
  match f with
  | NoFault =>
      w <- gets id ;;
      if is_file w dir then throw (FsError ENOTDIR)
      else if is_dir w dir then ret (entries w dir)
      else throw (FsError ENOENT)
  | Fail m | FailLeaving m _ => throw (FsError m)
  end.

(** [statSync(p).isDirectory()] *)
Definition statSync_isDirectory (p : jsstring) : M bool :=
  f <- next_fault ;;
  match f with
  | NoFault =>
      w <- gets id ;;
      if is_file w p then ret false
      else if is_dir w p then ret true
      else throw (FsError ENOENT)
  | Fail m | FailLeaving m _ => throw (FsError m)
  end.

(** [copyFileSync(src, dest)] *)
Definition copyFileSync (src dest : jsstring) : M unit :=
  f <- next_fault ;;
  match f with
  | NoFault =>
      content <- gets (fun w => files w !! src) ;;
      match content with
      | Some c => modify (set_files (insert dest c))
      | None => throw (FsError ENOENT)
      end
  | Fail m => throw (FsError m)
  | FailLeaving m residue =>
      modify (set_files (insert dest residue)) ;; throw (FsError m)
  end.

(** [console.log(line)]: the console of the world takes the lines of both
    streams. *)
Definition console_log (line : jsstring) : M unit := modify (add_console line).

Section Init.

(** [process.cwd()] *)
Variable cwd : jsstring.

(** The number of nested calls the engine allows: a recursion that goes
    deeper ends in the RangeError of a stack overflow. *)
Variable stack : nat.

(** The segments of a resolved path. *)
Definition segments (p : jsstring) : list jsstring :=
  List.filter truthy (split_chars Path.is_slash p).

(** The segments two paths do not share at their start. *)
Fixpoint strip_common (a b : list jsstring) : list jsstring * list jsstring :=
  match a, b with
  | x :: a', y :: b' => if eqb_str x y then strip_common a' b' else (a, b)
  | _, _ => (a, b)
  end.

(** [path.relative(from, to)] *)
Definition relative (from to : jsstring) : jsstring :=
  let from := Path.resolve cwd [from] in
  let to := Path.resolve cwd [to] in
  if eqb_str from to then []
  else
    let (up, down) := strip_common (segments from) (segments to) in
    JS.join [Path.slash] (List.map (fun _ => Path.dotdot) up ++ down).

(** [walkDir(dir, base)], with [depth] nested calls left. *)
Fixpoint walkDir (depth : nat) (dir base : jsstring) : M (list jsstring) :=
  match depth with
  | O => throw (JsError (js "Maximum call stack size exceeded"))
  | S depth' =>
      names <- readdirSync dir ;;
      results <-
        (fix each (names : list jsstring) (results : list jsstring)
           : M (list jsstring) :=
           match names with
           | [] => ret results
           | entry :: rest =>
               let fullPath := Path.join [dir; entry] in
               isDirectory <- statSync_isDirectory fullPath ;;
               if isDirectory
               then found <- walkDir depth' fullPath base ;; each rest (results ++ found)
               else each rest (results ++ [relative base fullPath])
           end) names [] ;;
      ret (sort results)
  end.

(** The loop of [initProject] over the scaffold files, with the counts of
    the files created and skipped so far. *)
Fixpoint copy_each (targetDir scaffoldDir : jsstring) (relPaths : list jsstring)
  (created skipped : nat) : M (nat * nat) :=
  match relPaths with
  | [] => ret (created, skipped)
  | relPath :: rest =>
      let srcPath := Path.join [scaffoldDir; relPath] in
      let destPath := Path.join [targetDir; relPath] in
      let destDir := Path.dirname destPath in
      present <- existsSync destDir ;;
      (if negb present then mkdirSync destDir else ret tt) ;;
      present <- existsSync destPath ;;
      if present then copy_each targetDir scaffoldDir rest created (S skipped)
      else
        copyFileSync srcPath destPath ;;
        logger_success (js "Created " ++ relPath) ;;
        copy_each targetDir scaffoldDir rest (S created) skipped
  end.

(** [initProject(targetDir, logger, scaffoldDir)] *)
Definition initProject (targetDir scaffoldDir : jsstring) : M unit :=
  present <- existsSync targetDir ;;
  (if negb present then mkdirSync targetDir else ret tt) ;;
  relPaths <- walkDir stack scaffoldDir scaffoldDir ;;
  counts <- copy_each targetDir scaffoldDir relPaths 0%nat 0%nat ;;
  let agentsDir := Path.join [targetDir; js "plugins"; js "praxis"; js "agents"] in
  present <- existsSync agentsDir ;;
  (if negb present then mkdirSync agentsDir else ret tt) ;;
  console_log [] ;;
  logger_info (js "Initialized Praxis project: " ++ RoleCompiler.decimal (fst counts)
               ++ js " files created, " ++ RoleCompiler.decimal (snd counts)
               ++ js " skipped") ;;
  console_log [] ;;
  console_log (js "Next steps:") ;;
  console_log (js "  1. Edit content/context/constitution/ to define your organization's identity") ;;
  console_log (js "  2. Edit content/context/conventions/ to document your standards") ;;
  console_log (js "  3. Run `praxis compile` to generate agent files") ;;
  console_log (js "  4. Define new roles in content/roles/ as your organization grows").

End Init.
End InitCommand.

(** ** Notions the statements about the agent name use *)

(** [[a-z0-9]] or a hyphen. *)
Definition name_char (c : N) : Prop :=
  RoleCompiler.is_alnum c = true \/ c = 45.

(** No two hyphens in a row. *)
Definition single_hyphens (s : jsstring) : Prop :=
  forall l1 l2, s <> l1 ++ 45 :: 45 :: l2.

Definition no_leading_hyphen (s : jsstring) : Prop := forall r, s <> 45 :: r.
Definition no_trailing_hyphen (s : jsstring) : Prop := forall l, s <> l ++ [45].

(** ** Notions the statements about the cache use *)

(** Text that [sanitizeText] leaves as it is: no control character that
    it strips, no double quote. *)
Definition clean_text (s : jsstring) : Prop :=
  Forall (fun c => CacheManager.is_control c = false /\ c <> 34) s.

(** Whether debug output is on in a world. *)
Definition debug_on (w : world) : bool :=
  match env_DEBUG w with
  | Some v => truthy v
  | None => false
  end.

(** Two worlds that differ at most in the file [p], in the directories and
    in the pending faults. *)
Definition same_except (p : jsstring) (w w' : world) : Prop :=
  (forall q, q <> p -> files w' !! q = files w !! q)
  /\ log w' = log w /\ console w' = console w
  /\ env_DEBUG w' = env_DEBUG w /\ clock w' = clock w.

(** [[0-9a-f]] *)
Definition is_hex_digit (c : N) : bool := in_range 48 57 c || in_range 97 102 c.

(** The next fallible call, which in the [catch] block of [write] is the
    removal of the cache file, is not made to fail. *)
Definition removal_allowed (w : world) : Prop :=
  match io_faults w with
  | [] | NoFault :: _ => True
  | _ => False
  end.

(** ** Concrete runs *)

(** A world with no file, no pending fault and nothing printed. *)
Definition empty_world : world :=
  World ∅ ∅ [] None (js "2026-01-01T00:00:00.000Z") [] [].

(** A project configuration: profiles under [/proj/agent-profiles], the
    given plugins. *)
Definition project_config (plugin_names : list jsstring) : PraxisConfig :=
  mkConfig (Some (js "/proj/agent-profiles")) plugin_names (js "/proj/content/roles")
           (js "/proj/plugins") (js "praxis").

(** A role whose [refs] group lists [a.md] and [b.md], in a project where
    only [a.md] exists. *)
Definition refs_manifest : Frontmatter :=
  mkFrontmatter ∅ (fun _ => None)
    (fun key => if eqb_str key (js "refs") then [js "a.md"; js "b.md"] else []).

Definition only_a_world : world :=
  set_files (insert (js "/proj/a.md") (js "Body of a")) empty_world.


(** A project with a cache. *)
Definition cache_root : jsstring := js "/proj/.praxis/cache/validation".
Definition content_dir : jsstring := js "/proj/content".
Definition reviewer_doc : jsstring := js "/proj/content/roles/reviewer.md".
Definition gone_doc : jsstring := js "/proj/content/roles/gone.md".
Definition naming_doc : jsstring := js "/proj/content/context/conventions/naming.md".

Definition role_meta : CacheManager.Metadata :=
  CacheManager.mkMeta (js "role") (js "/proj/content/roles/README.md").
Definition convention_meta : CacheManager.Metadata :=
  CacheManager.mkMeta (js "convention")
    (js "/proj/content/context/conventions/README.md").

Definition compliant_outcome : CachedValidationResult :=
  {| compliant := true; issues := []; reason := js "Yes, all good"; severity := None |}.

Definition plain_outcome : CachedValidationResult :=
  {| compliant := false;
     issues := [js "Missing section"];
     reason := js "No: missing required section";
     severity := Some error |}.

(** An outcome whose texts quote a field name. *)
Definition quoted_outcome : CachedValidationResult :=
  {| compliant := false;
     issues := [js "Add the " ++ [34] ++ js "owner" ++ [34] ++ js " field"];
     reason := js "No: the " ++ [34] ++ js "owner" ++ [34] ++ js " field is missing";
     severity := Some error |}.

Definition quoted_outcome_as_read : CachedValidationResult :=
  {| compliant := false;
     issues := [js "Add the 'owner' field"];
     reason := js "No: the 'owner' field is missing";
     severity := Some error |}.

(** A run in which the directory is made, the write of the cache file
    fails after leaving an opening brace in it, and the removal of the
    file fails too. *)
Definition failing_disk : world :=
  set_io_faults
    [NoFault; FailLeaving (js "ENOSPC: no space left on device") (js "{");
     Fail (js "EROFS: read-only file system")]
    empty_world.

(** The same run, except that the removal is not made to fail. *)
Definition full_disk : world :=
  set_io_faults
    [NoFault; FailLeaving (js "ENOSPC: no space left on device") (js "{")]
    empty_world.

(** The documents of a project: a role and a convention (and the README
    of the roles); the document [gone.md] has been deleted. *)
Definition project_documents : world :=
  set_files (insert reviewer_doc (js "# Reviewer"))
    (set_files (insert naming_doc (js "# Naming"))
       (set_files (insert (js "/proj/content/roles/README.md") (js "# Roles"))
          empty_world)).

(** The project after validation results were cached for the two
    documents that exist and for the one that was deleted since. *)
Definition project_with_cache : world :=
  let w1 := snd (CacheManager.write cache_root reviewer_doc (js "aaaa1111")
                   compliant_outcome role_meta project_documents) in
  let w2 := snd (CacheManager.write cache_root naming_doc (js "bbbb2222")
                   compliant_outcome convention_meta w1) in
  snd (CacheManager.write cache_root gone_doc (js "dead1234")
         compliant_outcome role_meta w2).

(** ** Notions the statements about the validator and the commands use *)

(** Two worlds that differ at most in the outcomes of the coming calls. *)
Definition same_but_faults (w w' : world) : Prop :=
  files w' = files w /\ dirs w' = dirs w /\ log w' = log w
  /\ console w' = console w /\ env_DEBUG w' = env_DEBUG w /\ clock w' = clock w.

(** A world that kept every file and directory of an earlier one. *)
Definition grown_from (w w' : world) : Prop :=
  files w ⊆ files w' /\ dirs w ⊆ dirs w'.

(** A world that differs from an earlier one by directories made, lines on
    the console and calls that consumed their outcome. *)
Definition files_and_log_of (w w' : world) : Prop :=
  files w' = files w /\ dirs w ⊆ dirs w' /\ log w' = log w.

(** No white space at either end. *)
Definition no_outer_space (s : jsstring) : Prop :=
  (forall c r, s = c :: r -> is_space c = false)
  /\ (forall l c, s = l ++ [c] -> is_space c = false).

(** The type names a front matter may declare: every type but [template]
    and [unknown]. *)
Definition known_type_name (t : Validator.DocumentType) : bool :=
  match t with
  | Validator.Template | Validator.Unknown => false
  | _ => true
  end.

(** What a computation that does not look at the world yields. *)
Definition outcome_of {A} (m : M A) : outcome A := fst (m empty_world).

(** A computation that neither reads nor changes the world. *)
Definition pure_M {A} (m : M A) : Prop := forall w, m w = (outcome_of m, w).

(** The patterns a [constitution] entry stands for: the entries of an
    array, a non-empty string as the one pattern. *)
Definition constitution_patterns (raw : option fmvalue) : option (list jsstring) :=
  match raw with
  | Some (FmArray items) => Some items
  | Some (FmString s) => if truthy s then Some [s] else None
  | _ => None
  end.

(** A role file [compileAll] passes over: a template or README, or a file
    whose front matter has no alias. *)
Definition passed_over (frontmatter_of : tree -> jsstring -> Frontmatter)
  (w : world) (roleFile : jsstring) : Prop :=
  existsb (eqb_str (Path.last_segment roleFile)) RoleCompiler.EXCLUDED_FILES = true
  \/ RoleCompiler.nonempty (value (frontmatter_of (tree_of w) roleFile) (js "alias")) = None.

(** [String.prototype.toUpperCase] restricted to ASCII letters. *)
Definition toUpperCase_ascii (s : jsstring) : jsstring :=
  List.map (fun c => if in_range 97 122 c then c - 32 else c) s.

(** The placeholders [fillTemplate] fills for a content type. *)
Definition placeholders (type : AddCommand.ContentType) : list jsstring :=
  match type with
  | AddCommand.Role =>
      [js "{role_name}"; js "{required_alias}"; js "[Role Name]"; js "[Alias]"]
  | AddCommand.Responsibility => [js "{verb_what_title}"; js "[Verb What]"]
  end.

(** The setting of a configuration read from an object. *)
Definition setting (members : list (jsstring * json)) (key : jsstring) (fallback : json)
  : json :=
  Config.or_default (member key members) fallback.

(** The files a count stands for; a text stands for none. *)
Definition counted (t : CacheStats.tally) : nat :=
  match t with
  | CacheStats.Count n => n
  | CacheStats.Text _ => 0%nat
  end.

(** The sum of the counts of [byType]. *)
Definition sum_of_counts (byType : gmap jsstring CacheStats.tally) : nat :=
  map_fold (fun _ t total => (counted t + total)%nat) 0%nat byType.

(** A type name that is a member of [Object.prototype]. *)
Definition prototype_member (type : jsstring) : bool :=
  match CacheStats.inherited_text type with
  | Some _ => true
  | None => false
  end.

(** A file name: not empty, no separator. *)
Definition file_name (seg : jsstring) : Prop :=
  seg <> [] /\ Forall (fun c => Path.is_slash c = false) seg.

(** A document name the scan of a type directory keeps. *)
Definition document_name (name : jsstring) : Prop :=
  file_name name
  /\ starts_with Path.dot name = false
  /\ starts_with (js "_") name = false
  /\ name <> js "README".

(** ** More concrete runs *)

(** A reply of the chat-completions endpoint, as a text. *)
Definition chat_reply (content : jsstring) : jsstring :=
  js "{" ++ [34] ++ js "id" ++ [34] ++ js ":" ++ [34] ++ js "gen-1" ++ [34]
  ++ js "," ++ [34] ++ js "choices" ++ [34] ++ js ":[{" ++ [34] ++ js "index" ++ [34]
  ++ js ":0," ++ [34] ++ js "message" ++ [34] ++ js ":{" ++ [34] ++ js "role" ++ [34]
  ++ js ":" ++ [34] ++ js "assistant" ++ [34] ++ js "," ++ [34] ++ js "content" ++ [34]
  ++ js ":" ++ quote_string content ++ js "}}]," ++ [34] ++ js "usage" ++ [34]
  ++ js ":{" ++ [34] ++ js "total_tokens" ++ [34] ++ js ":412}}".

(** A service that answers every request with the same text. *)
Definition answering (content : jsstring) : jsstring -> jsstring -> Validator.reply :=
  fun _ _ => Validator.Response true 200 (chat_reply content).

(** A service that cannot be reached. *)
Definition unreachable : jsstring -> jsstring -> Validator.reply :=
  fun _ _ => Validator.Rejected (JsTypeError (js "fetch failed")).

(** The validator of the role [reviewer.md], with the cache of the project. *)
Definition reviewer_validator : Validator.DocumentValidator :=
  Validator.mkValidator reviewer_doc (js "/proj/content/roles/README.md")
    (js "# Reviewer") (js "# Roles") Validator.Role (Some cache_root).

(** The project after the result of a check of [reviewer.md] was cached. *)
Definition reviewer_cached : world :=
  snd (CacheManager.write cache_root reviewer_doc
         (Validator.getContentHash reviewer_validator) compliant_outcome role_meta
         project_documents).

(** A manifest whose constitution is one glob pattern. *)
Definition constitution_manifest : Frontmatter :=
  mkFrontmatter {[ js "constitution" := FmString (js "context/constitution/*.md") ]}
    (fun _ => None) (fun _ => []).

(** A roles directory that holds its README and a note without alias. *)
Definition roles_without_alias : world :=
  set_files (insert (js "/proj/content/roles/README.md") (js "# Roles"))
    (set_files (insert (js "/proj/content/roles/notes.md") (js "# Notes")) empty_world).

(** The template of a role. *)
Definition role_template : jsstring :=
  js "---" ++ [10] ++ js "title: {role_name}" ++ [10] ++ js "alias: {required_alias}"
  ++ [10] ++ js "---" ++ [10] ++ js "# [Role Name] ([Alias])" ++ [10].

(** A scaffold with the template of a role, and a project with one role. *)
Definition scaffolded : world :=
  set_files (insert (js "/pkg/scaffold/core/content/roles/_template.md") role_template)
    (set_files (insert (js "/proj/content/roles/reviewer.md") (js "# Reviewer"))
       empty_world).

(** A configuration file that disables the profile output and enables the
    one plugin. *)
Definition config_text : jsstring :=
  js "{ " ++ [34] ++ js "agentProfilesOutputDir" ++ [34] ++ js ": false, "
  ++ [34] ++ js "plugins" ++ [34] ++ js ": [" ++ [34] ++ js "claude-code" ++ [34]
  ++ js "], " ++ [34] ++ js "pluginName" ++ [34] ++ js ": null }".

(** A project with that configuration file. *)
Definition configured : world :=
  set_files (insert (js "/proj/.praxis/config.json") config_text) empty_world.

(** A project whose configuration disables the profile output. *)
Definition profiles_disabled : world :=
  set_files (insert (js "/proj/.praxis/config.json")
               (js "{ " ++ [34] ++ js "agentProfilesOutputDir" ++ [34] ++ js ": false }"))
    empty_world.

(** A project whose configuration file is cut off. *)
Definition broken_config : world :=
  set_files (insert (js "/proj/.praxis/config.json") (js "{ plugins: ")) empty_world.

(** A scaffold of two files, and a project that has one of them already. *)
Definition scaffold_tree : world :=
  set_files (insert (js "/pkg/scaffold/content/roles/README.md") (js "# Roles"))
    (set_files (insert (js "/pkg/scaffold/README.md") (js "# Praxis"))
       (set_files (insert (js "/proj/README.md") (js "# My project")) empty_world)).

(** ** Notions in the words of the specification *)

(** Where the leading token of a reply ends: at white space, a comma, a full
    stop or a colon. *)
Definition ends_token (c : N) : bool :=
  is_space c || (c =? 44) || (c =? 46) || (c =? 58).

(** The leading token of a reply, as the specification words it: the reply
    without the white space around it, up to the first code unit that ends a
    token. *)
Definition leading_token (reply : jsstring) : jsstring :=
  take_while (fun c => negb (ends_token c)) (trim reply).

(** [[a-z0-9]], written out. *)
Definition lower_or_digit (c : N) : bool :=
  ((97 <=? c) && (c <=? 122)) || ((48 <=? c) && (c <=? 57)).

(** The maximal runs of [[a-z0-9]] in a string: what lies between the other
    code units, the empty pieces left out. *)
Definition alnum_runs (s : jsstring) : list jsstring :=
  List.filter truthy (split_chars (fun c => negb (lower_or_digit c)) s).

(** ** Notions the statements about a compiled role use *)

(** Whether anything exists at a path of the project. *)
Definition present_at (root : jsstring) (w : world) (p : jsstring) : bool :=
  is_file w (Path.join [root; p]) || is_dir w (Path.join [root; p]).

(** The bodies inlining yields for resolved paths: those of the files that
    exist, in order. *)
Definition inlined (body : jsstring -> jsstring) (root : jsstring) (w : world)
  (paths : list jsstring) : list jsstring :=
  omap (fun p => body <$> files w !! Path.join [root; p]) paths.

(** One diagnostic for each resolved path at which nothing exists. *)
Definition not_found (root : jsstring) (w : world) (label : jsstring)
  (paths : list jsstring) : list (level * jsstring) :=
  List.map (fun p => (Warn, label ++ p))
    (List.filter (fun p => negb (present_at root w p)) paths).

(** The diagnostics of a reference group: one for each glob pattern that
    matches nothing, then one for each resolved path that is not there. *)
Definition reference_diagnostics (isGlob : jsstring -> bool)
  (expand : tree -> jsstring -> list jsstring)
  (expandAll : tree -> list jsstring -> list jsstring)
  (root : jsstring) (fm : Frontmatter) (key : jsstring) (w : world)
  : list (level * jsstring) :=
  List.map (fun p => (Warn, js "Glob pattern matched zero files: " ++ p))
    (List.filter (fun p => isGlob p && (length (expand (tree_of w) p) =? 0)%nat)
       (array fm key))
  ++ not_found root w (js "Referenced file not found: ")
       (expandAll (tree_of w) (array fm key)).

(** The paths the constitution of a manifest resolves to. *)
Definition constitution_paths (expandAll : tree -> list jsstring -> list jsstring)
  (fm : Frontmatter) (w : world) : list jsstring :=
  match constitution_patterns (parse fm !! js "constitution") with
  | Some patterns => expandAll (tree_of w) patterns
  | None => []
  end.

(** The diagnostics of the constitution group. *)
Definition constitution_diagnostics (expandAll : tree -> list jsstring -> list jsstring)
  (root : jsstring) (fm : Frontmatter) (w : world) : list (level * jsstring) :=
  let raw := parse fm !! js "constitution" in
  (if RoleCompiler.is_true raw then [(Warn, RoleCompiler.deprecation)]
   else match constitution_patterns raw, constitution_paths expandAll fm w with
        | Some _, [] => [(Warn, js "Constitution patterns matched zero files")]
        | _, _ => []
        end)
  ++ not_found root w (js "Constitution file not found: ")
       (constitution_paths expandAll fm w).

(** The diagnostic of a manifest without description. *)
Definition metadata_diagnostics (fm : Frontmatter) : list (level * jsstring) :=
  match RoleCompiler.nonempty (value fm (js "description")) with
  | None => [(Warn, js "No description found in role, skipping agent metadata")]
  | Some _ => []
  end.


(** A role file, and a project in which the role refers to [a.md] and
    [b.md] and only [a.md] exists. *)
Definition reviewer_role : jsstring := js "/proj/content/roles/reviewer.md".

Definition aliased (fm : Frontmatter) : Frontmatter :=
  mkFrontmatter (parse fm)
    (fun key => if eqb_str key (js "alias") then Some (js "Reviewer") else value fm key)
    (array fm).

Definition role_with_a : world :=
  set_files (insert reviewer_role (js "Reviews code."))
    (set_files (insert (js "/proj/a.md") (js "Body of a")) empty_world).



(** A project whose constitution directory holds one file, and an expander
    that finds that file and one that has gone since. *)
Definition constitution_project : world :=
  set_files (insert (js "/proj/context/constitution/mission.md") (js "Our mission."))
    empty_world.

Definition stale_expander : tree -> list jsstring -> list jsstring :=
  fun _ _ => [js "context/constitution/mission.md"; js "context/constitution/gone.md"].

(** ** Notions the statements about a scan use *)

(** An order of the directory walk: any that hands out each match once. *)
Definition rearranges (order : list jsstring -> list jsstring) : Prop :=
  forall l, order l ≡ₚ l.

(** The next system call does not fail. *)
Definition next_call_allowed (w : world) : Prop :=
  match io_faults w with
  | [] | NoFault :: _ => True
  | _ => False
  end.

(** A directory named by its resolved path: absolute, without [.], [..],
    doubled or trailing separators. *)
Definition normal_form (cwd dir : jsstring) : Prop :=
  Path.strip_slashes (Path.resolve cwd [dir]) = dir.

(** A project whose cache root is a regular file. *)
Definition cache_root_is_a_file : world :=
  set_files (insert cache_root (js "not a directory")) project_documents.

(** Two runs that end in the same world, with the same exception or with
    results related by [R]. *)
Definition alike {A} (R : A -> A -> Prop) (r r' : outcome A * world) : Prop :=
  snd r = snd r'
  /\ match fst r, fst r' with
     | Return a, Return a' => R a a'
     | Throw e, Throw e' => e = e'
     | _, _ => False
     end.

(** The orphans the scan of the project with three cache entries reports. *)
Definition naming_orphan : CacheManager.OrphanedCacheFile :=
  CacheManager.mkOrphan
    (js "/proj/.praxis/cache/validation/context/conventions/naming.json")
    (js "document_missing") (js "naming") (js "context").
Definition gone_orphan : CacheManager.OrphanedCacheFile :=
  CacheManager.mkOrphan (js "/proj/.praxis/cache/validation/roles/gone.json")
    (js "document_missing") (js "gone") (js "roles").

(* ================================================================== *)
(** * Part II.  Proofs                                                 *)
(* ================================================================== *)

(** ** Strings *)

Lemma eqb_str_spec (a b : jsstring) : reflect (a = b) (eqb_str a b).
Proof.
  revert b. induction a as [| x a IH]; intros [| y b]; simpl; try by constructor.
  destruct (N.eqb_spec x y) as [-> | Hne]; simpl.
  - destruct (IH b) as [-> | Hne]; constructor; congruence.
  - constructor. congruence.
Qed.

Lemma eqb_str_refl (a : jsstring) : eqb_str a a = true.
Proof. by destruct (eqb_str_spec a a). Qed.

(** ** The reply of the remote check (C10) *)

Example parseResponse_maybe :
  DocumentValidator.parseResponse toLowerCase_ascii
    (js "Maybe: minor issues found:" ++ [10] ++ js "- Missing field" ++ [10]
     ++ js "2. Too short  ")
  = {| compliant := false;
       issues := [js "Missing field"; js "Too short"];
       reason := js "Maybe: minor issues found:" ++ [10] ++ js "- Missing field"
                 ++ [10] ++ js "2. Too short";
       severity := Some warning |}.
Proof. vm_compute. reflexivity. Qed.

(** The reply of the repository's test "returns error result for No
    response" (the dash is U+2014). *)
Example parseResponse_no_fixture :
  DocumentValidator.parseResponse toLowerCase_ascii
    (js "No " ++ [8212] ++ js " major issues found:" ++ [10]
     ++ js "- Missing required `owner` field in frontmatter" ++ [10]
     ++ js "- Missing Objective section" ++ [10]
     ++ js "- Missing Criteria section")
  = {| compliant := false;
       issues := [js "Missing required `owner` field in frontmatter";
                  js "Missing Objective section"; js "Missing Criteria section"];
       reason := js "No " ++ [8212] ++ js " major issues found:" ++ [10]
                 ++ js "- Missing required `owner` field in frontmatter" ++ [10]
                 ++ js "- Missing Objective section" ++ [10]
                 ++ js "- Missing Criteria section";
       severity := Some error |}.
Proof. vm_compute. reflexivity. Qed.

(** ** The world and the monad *)

Lemma add_logs_nil w : add_logs [] w = w.
Proof. destruct w; unfold add_logs; simpl. by rewrite app_nil_r. Qed.

Lemma add_log_add_logs e w : add_log e w = add_logs [e] w.
Proof. reflexivity. Qed.

Lemma add_logs_app es1 es2 w : add_logs es2 (add_logs es1 w) = add_logs (es1 ++ es2) w.
Proof. unfold add_logs; simpl. by rewrite app_assoc. Qed.

Lemma next_fault_quiet w : io_faults w = [] -> next_fault w = (Return NoFault, w).
Proof. intros H. unfold next_fault. by rewrite H. Qed.

Lemma writeFileSync_quiet p content w :
  io_faults w = [] ->
  writeFileSync p content w = (Return tt, set_files (insert p content) w).
Proof. intros H. unfold writeFileSync, bind. by rewrite next_fault_quiet. Qed.

Lemma mkdirSync_quiet p w :
  io_faults w = [] -> mkdirSync p w = (Return tt, set_dirs (union {[p]}) w).
Proof. intros H. unfold mkdirSync, bind. by rewrite next_fault_quiet. Qed.

Lemma readFileSync_quiet p w :
  io_faults w = [] ->
  readFileSync p w =
    match files w !! p with
    | Some c => (Return c, w)
    | None => (Throw (FsError ENOENT), w)
    end.
Proof.
  intros H. unfold readFileSync, bind. rewrite next_fault_quiet by done.
  unfold gets. by destruct (files w !! p).
Qed.

(** ** The agent name and the output file name (C7) *)

Section AgentName.

Variable toLowerCase : jsstring -> jsstring.

Lemma hyphenate_from_chars b s : Forall name_char (RoleCompiler.hyphenate_from b s).
Proof.
  revert b. induction s as [| c r IH]; intros b; simpl; [constructor |].
  destruct (RoleCompiler.is_alnum c) eqn:Hc.
  - constructor; [by left | apply IH].
  - destruct b; [apply IH |]. constructor; [by right | apply IH].
Qed.

Lemma hyphen_not_alnum : RoleCompiler.is_alnum 45 = false.
Proof. reflexivity. Qed.

Lemma hyphenate_in_run s : no_leading_hyphen (RoleCompiler.hyphenate_from true s).
Proof.
  induction s as [| c r IH]; intros t; simpl; [done |].
  destruct (RoleCompiler.is_alnum c) eqn:Hc; [| apply IH].
  intros [= -> _]. by rewrite hyphen_not_alnum in Hc.
Qed.

Lemma hyphenate_from_single b s : single_hyphens (RoleCompiler.hyphenate_from b s).
Proof.
  revert b. induction s as [| c r IH]; intros b l1 l2; simpl.
  - by destruct l1.
  - destruct (RoleCompiler.is_alnum c) eqn:Hc.
    + destruct l1 as [| x l1]; simpl.
      * intros [= -> _]. by rewrite hyphen_not_alnum in Hc.
      * intros [= _ H]. by apply IH in H.
    + destruct b; [apply IH |].
      destruct l1 as [| x l1]; simpl.
      * intros [= H]. by apply hyphenate_in_run in H.
      * intros [= _ H]. by apply IH in H.
Qed.

Lemma single_hyphens_tail c s : single_hyphens (c :: s) -> single_hyphens s.
Proof. intros H l1 l2 ->. by apply (H (c :: l1) l2). Qed.

Lemma single_hyphens_init s c : single_hyphens (s ++ [c]) -> single_hyphens s.
Proof.
  intros H l1 l2 ->. apply (H l1 (l2 ++ [c])). by rewrite <- !app_assoc.
Qed.

Lemma strip_hyphens_shape s :
  Forall name_char s -> single_hyphens s ->
  Forall name_char (RoleCompiler.strip_hyphens s)
  /\ single_hyphens (RoleCompiler.strip_hyphens s)
  /\ no_leading_hyphen (RoleCompiler.strip_hyphens s)
  /\ no_trailing_hyphen (RoleCompiler.strip_hyphens s).
Proof.
  intros Hch Hsingle. unfold RoleCompiler.strip_hyphens.
  set (s1 := match s with 45 :: r => r | _ => s end).
  assert (Hch1 : Forall name_char s1).
  { subst s1. destruct s as [| c r]; [done |].
    destruct (N.eq_dec c 45) as [-> | Hne]; [by inversion Hch |].
    by destruct c as [| p]; [| repeat (destruct p as [p | p |]; try done)]. }
  assert (Hs1 : single_hyphens s1).
  { subst s1. destruct s as [| c r]; [done |].
    destruct (N.eq_dec c 45) as [-> | Hne]; [by eapply single_hyphens_tail |].
    by destruct c as [| p]; [| repeat (destruct p as [p | p |]; try done)]. }
  assert (Hlead1 : no_leading_hyphen s1).
  { subst s1. destruct s as [| c r]; [done |].
    destruct (N.eq_dec c 45) as [-> | Hne].
    - intros t ->. by apply (Hsingle [] t).
    - assert (Hsame : match c :: r with 45 :: r0 => r0 | _ => c :: r end = c :: r).
      { by destruct c as [| p]; [| repeat (destruct p as [p | p |]; try done)]. }
      rewrite Hsame. intros t [= ? _]. done. }
  clearbody s1.
  destruct (rev s1) as [| c r] eqn:Hrev.
  { apply (f_equal (@rev N)) in Hrev. rewrite rev_involutive in Hrev. subst s1.
    repeat split; try done. by intros []. }
  assert (Hs1eq : s1 = rev r ++ [c]).
  { apply (f_equal (@rev N)) in Hrev. by rewrite rev_involutive in Hrev. }
  destruct (N.eq_dec c 45) as [-> | Hne].
  - subst s1. repeat split.
    + by apply Forall_app in Hch1 as [? _].
    + by eapply single_hyphens_init.
    + intros t Ht. apply (Hlead1 (t ++ [45])). by rewrite Ht.
    + intros l Hl. apply (Hs1 l []). rewrite Hl. by rewrite <- app_assoc.
  - assert (Hsame : match c :: r with 45 :: r0 => rev r0 | _ => s1 end = s1).
    { by destruct c as [| p]; [| repeat (destruct p as [p | p |]; try done)]. }
    rewrite Hsame. repeat split; try done.
    intros l Hl. rewrite Hs1eq in Hl. apply app_inj_tail in Hl as [_ ?]. done.
Qed.

Lemma agent_name_shape (roleAlias : jsstring) :
  let n := RoleCompiler.agent_name toLowerCase roleAlias in
  Forall name_char n /\ single_hyphens n
  /\ no_leading_hyphen n /\ no_trailing_hyphen n.
Proof.
  apply strip_hyphens_shape.
  - apply hyphenate_from_chars.
  - apply hyphenate_from_single.
Qed.

End AgentName.

Lemma write_profile_quiet toLowerCase config dir profile roleAlias w :
  agentProfilesOutputDir config = Some dir ->
  truthy dir = true ->
  io_faults w = [] ->
  exists w',
    RoleCompiler.write_profile toLowerCase config profile roleAlias w = (Return tt, w')
    /\ files w' =
         <[Path.join [dir; toLowerCase roleAlias ++ js ".md"] := profile]> (files w)
    /\ log w' = log w.
Proof.
  intros Hdir Htruthy Hquiet. unfold RoleCompiler.write_profile.
  rewrite Hdir, Htruthy. unfold bind, existsSync, gets.
  destruct (negb (is_file w dir || is_dir w dir)).
  - rewrite mkdirSync_quiet by done.
    rewrite writeFileSync_quiet by done. eexists; split; [done |]. done.
  - unfold ret. rewrite writeFileSync_quiet by done. eexists; split; [done |]. done.
Qed.

(** C7, counterexample.  For the alias [My Role] the profile goes to
    [my role.md]: the space is kept, and no file [my-role.md] is written. *)
Lemma profile_file_name_keeps_spaces :
  let r := RoleCompiler.writeOutputs toLowerCase_ascii (js "/proj") (project_config [])
             (js "# Role") None (js "My Role") empty_world in
  fst r = Return tt
  /\ files (snd r) !! js "/proj/agent-profiles/my role.md" = Some (js "# Role")
  /\ files (snd r) !! js "/proj/agent-profiles/my-role.md" = None
  /\ RoleCompiler.agent_name toLowerCase_ascii (js "My Role") = js "my-role".
Proof. vm_compute. repeat split. Qed.

(** ** Unknown plugin names (C8) *)

Lemma resolvePlugins_first_unknown root outDir plugin pre bad post w :
  Forall (fun n => n ∈ PluginRegistry.own_keys) pre ->
  PluginRegistry.PLUGINS bad = PluginRegistry.Undefined ->
  PluginRegistry.resolvePlugins (pre ++ bad :: post) root outDir plugin w
  = (Throw (JsError (PluginRegistry.unknown_plugin bad)), w).
Proof.
  intros Hpre Hbad. unfold PluginRegistry.resolvePlugins.
  induction Hpre as [| n pre Hn _ IH]; simpl.
  - unfold bind, PluginRegistry.resolve_one. by rewrite Hbad.
  - apply list_elem_of_singleton in Hn as ->.
    unfold bind at 1. unfold PluginRegistry.resolve_one at 1. simpl.
    unfold bind at 1. by rewrite IH.
Qed.

Lemma write_profile_touches_one_file toLowerCase config profile roleAlias w dir p :
  agentProfilesOutputDir config = Some dir ->
  p <> Path.join [dir; RoleCompiler.output_file toLowerCase roleAlias] ->
  files (snd (RoleCompiler.write_profile toLowerCase config profile roleAlias w)) !! p
  = files w !! p.
Proof.
  intros Hdir Hp. unfold RoleCompiler.write_profile. rewrite Hdir.
  destruct (truthy dir); [| done].
  unfold bind, existsSync, gets.
  set (target := Path.join [dir; RoleCompiler.output_file toLowerCase roleAlias]) in *.
  assert (Hwrite : forall w0,
    files (snd (writeFileSync target profile w0)) !! p = files w0 !! p).
  { intros w0. unfold writeFileSync, bind, next_fault.
    destruct (io_faults w0) as [| [| m | m residue] rest]; simpl; try done.
    - by rewrite lookup_insert_ne.
    - by rewrite lookup_insert_ne.
    - by rewrite lookup_insert_ne. }
  destruct (negb (is_file w dir || is_dir w dir)).
  - unfold mkdirSync, bind, next_fault.
    destruct (io_faults w) as [| [| m | m residue] rest]; simpl; try done.
    + specialize (Hwrite (set_dirs (union {[dir]}) w)).
      destruct (writeFileSync target profile _) as [[] ?]; done.
    + specialize (Hwrite (set_dirs (union {[dir]}) (set_io_faults rest w))).
      destruct (writeFileSync target profile _) as [[] ?]; done.
  - unfold ret. specialize (Hwrite w).
    destruct (writeFileSync target profile w) as [[] ?]; done.
Qed.

(** C8 (as the code has it).  Let [bad] be the first plugin name of the
    configuration that is not a key of the registry, and let it not be a
    member name inherited from [Object.prototype] either.  Then
    [writeOutputs] ends, for every role, by throwing the error that names
    [bad] and lists the known plugins, and no plugin has been run; but the
    role's pure profile is written before the plugin names are looked at, so
    the world left behind is the one [write_profile] leaves: unchanged when
    no profile directory is configured, and differing from the initial one
    in no file but the role's profile otherwise. *)
Theorem unknown_plugin_aborts_after_profile
  (toLowerCase : jsstring -> jsstring) (root : jsstring) (config : PraxisConfig)
  (profile roleAlias : jsstring) (metadata : option AgentMetadata) (w : world)
  (pre post : list jsstring) (bad : jsstring) :
  plugins config = pre ++ bad :: post ->
  Forall (fun n => n ∈ PluginRegistry.own_keys) pre ->
  PluginRegistry.PLUGINS bad = PluginRegistry.Undefined ->
  let r := RoleCompiler.writeOutputs toLowerCase root config profile metadata roleAlias w in
  let message :=
    js "Unknown plugin: " ++ [34] ++ bad ++ [34]
    ++ js ". Available plugins: claude-code" in
  r = match RoleCompiler.write_profile toLowerCase config profile roleAlias w with
      | (Return _, w1) => (Throw (JsError message), w1)
      | (Throw e, w1) => (Throw e, w1)
      end
  /\ (io_faults w = [] -> fst r = Throw (JsError message))
  /\ (agentProfilesOutputDir config = None -> snd r = w)
  /\ (forall dir p,
        agentProfilesOutputDir config = Some dir ->
        p <> Path.join [dir; toLowerCase roleAlias ++ js ".md"] ->
        files (snd r) !! p = files w !! p).
Proof.
  intros Hnames Hpre Hbad. cbv zeta.
  assert (Hrun :
    RoleCompiler.writeOutputs toLowerCase root config profile metadata roleAlias w
    = match RoleCompiler.write_profile toLowerCase config profile roleAlias w with
      | (Return _, w1) =>
          (Throw (JsError (js "Unknown plugin: " ++ [34] ++ bad ++ [34]
                           ++ js ". Available plugins: claude-code")), w1)
      | (Throw e, w1) => (Throw e, w1)
      end).
  { unfold RoleCompiler.writeOutputs. unfold bind at 1.
    destruct (RoleCompiler.write_profile _ _ _ _ w) as [[[] | e] w1]; [| done].
    unfold bind. rewrite Hnames.
    by rewrite resolvePlugins_first_unknown. }
  rewrite Hrun. split; [done |]. split; [| split].
  - intros Hquiet.
    destruct (agentProfilesOutputDir config) as [dir |] eqn:Hdir.
    + destruct (truthy dir) eqn:Htruthy.
      * destruct (write_profile_quiet toLowerCase config dir profile roleAlias w)
          as (w' & -> & _); done.
      * unfold RoleCompiler.write_profile. by rewrite Hdir, Htruthy.
    + unfold RoleCompiler.write_profile. by rewrite Hdir.
  - intros Hnone. unfold RoleCompiler.write_profile. by rewrite Hnone.
  - intros dir p Hdir Hp.
    pose proof (write_profile_touches_one_file toLowerCase config profile
                  roleAlias w dir p Hdir Hp) as Hone.
    destruct (RoleCompiler.write_profile _ _ _ _ w) as [[[] | e] w1]; done.
Qed.

(** The same seen from [compile]: a role that has an alias and whose
    profile builds ends with the error of [writeOutputs]; its success line
    is not logged. *)
Lemma compile_aborts_on_unknown_plugin
  (toLowerCase : jsstring -> jsstring) (isGlob : jsstring -> bool)
  (expand : tree -> jsstring -> list jsstring)
  (expandAll : tree -> list jsstring -> list jsstring)
  (body : jsstring -> jsstring) (root : jsstring) (config : PraxisConfig)
  (roleFile roleAlias : jsstring) (fm : Frontmatter) (w w1 w2 : world)
  (built : jsstring * option AgentMetadata) (e : exn) :
  RoleCompiler.nonempty (value fm (js "alias")) = Some roleAlias ->
  RoleCompiler.buildRoleProfile toLowerCase isGlob expand expandAll body root
    roleFile fm roleAlias w = (Return built, w1) ->
  RoleCompiler.writeOutputs toLowerCase root config (fst built) (snd built)
    roleAlias w1 = (Throw e, w2) ->
  RoleCompiler.compile toLowerCase isGlob expand expandAll body root config
    roleFile fm w = (Throw e, w2).
Proof.
  intros Halias Hbuilt Hout. unfold RoleCompiler.compile. rewrite Halias.
  unfold bind at 1. rewrite Hbuilt. unfold bind at 1. by rewrite Hout.
Qed.

(** And from the loop of [compileAll]: the first role that is neither
    excluded nor without alias ends the batch with that error; no later
    role is compiled. *)
Lemma compile_each_aborts_on_unknown_plugin
  (toLowerCase : jsstring -> jsstring) (isGlob : jsstring -> bool)
  (expand : tree -> jsstring -> list jsstring)
  (expandAll : tree -> list jsstring -> list jsstring)
  (body : jsstring -> jsstring) (root : jsstring) (config : PraxisConfig)
  (frontmatter_of : tree -> jsstring -> Frontmatter)
  (skipped rest : list jsstring) (roleFile roleAlias : jsstring)
  (compiled : nat) (w w1 w2 : world)
  (built : jsstring * option AgentMetadata) (e : exn) :
  Forall (fun f =>
            existsb (eqb_str (Path.last_segment f)) RoleCompiler.EXCLUDED_FILES = true
            \/ RoleCompiler.nonempty
                 (value (frontmatter_of (tree_of w) f) (js "alias")) = None)
         skipped ->
  existsb (eqb_str (Path.last_segment roleFile)) RoleCompiler.EXCLUDED_FILES = false ->
  RoleCompiler.nonempty (value (frontmatter_of (tree_of w) roleFile) (js "alias"))
  = Some roleAlias ->
  RoleCompiler.buildRoleProfile toLowerCase isGlob expand expandAll body root
    roleFile (frontmatter_of (tree_of w) roleFile) roleAlias w = (Return built, w1) ->
  RoleCompiler.writeOutputs toLowerCase root config (fst built) (snd built)
    roleAlias w1 = (Throw e, w2) ->
  RoleCompiler.compile_each toLowerCase isGlob expand expandAll body root config
    frontmatter_of (skipped ++ roleFile :: rest) compiled w = (Throw e, w2).
Proof.
  intros Hskipped Hincluded Halias Hbuilt Hout.
  induction Hskipped as [| f skipped Hf _ IH]; cbn [app RoleCompiler.compile_each].
  - rewrite Hincluded. unfold bind at 1, gets at 1. rewrite Halias.
    unfold bind at 1. rewrite Hbuilt. unfold bind at 1. by rewrite Hout.
  - destruct (existsb (eqb_str (Path.last_segment f)) RoleCompiler.EXCLUDED_FILES)
      eqn:Hex; [exact IH |].
    destruct Hf as [Hf | Hf]; [discriminate |].
    unfold bind at 1, gets at 1. rewrite Hf. exact IH.
Qed.

Lemma unknown_plugin_aborts_after_profile_witness :
  let r := RoleCompiler.writeOutputs toLowerCase_ascii (js "/proj")
             (project_config [js "claude-code"; js "nope"; js "other"])
             (js "# Role") None (js "Tester") empty_world in
  fst r = Throw (JsError (js "Unknown plugin: " ++ [34] ++ js "nope" ++ [34]
                          ++ js ". Available plugins: claude-code"))
  /\ files (snd r) !! js "/proj/plugins/praxis/agents/tester.md" = None.
Proof.
  pose proof (unknown_plugin_aborts_after_profile toLowerCase_ascii (js "/proj")
                (project_config [js "claude-code"; js "nope"; js "other"])
                (js "# Role") (js "Tester") None empty_world
                [js "claude-code"] [js "other"] (js "nope") eq_refl) as H.
  cbv zeta in H.
  destruct H as (_ & Hthrow & _ & Hfiles).
  - repeat constructor.
  - reflexivity.
  - split; [exact (Hthrow eq_refl) |].
    rewrite (Hfiles (js "/proj/agent-profiles") _ eq_refl); [reflexivity |].
    vm_compute. discriminate.
Defined.

(** C8, counterexample.  With the unknown plugin [nope] configured, the run
    ends with the error, and the pure profile [tester.md] has been written. *)
Lemma unknown_plugin_leaves_profile_behind :
  let r := RoleCompiler.writeOutputs toLowerCase_ascii (js "/proj")
             (project_config [js "nope"]) (js "# Role") None (js "Tester")
             empty_world in
  fst r = Throw (JsError (js "Unknown plugin: " ++ [34] ++ js "nope" ++ [34]
                          ++ js ". Available plugins: claude-code"))
  /\ files empty_world !! js "/proj/agent-profiles/tester.md" = None
  /\ files (snd r) !! js "/proj/agent-profiles/tester.md" = Some (js "# Role").
Proof. vm_compute. repeat split. Qed.

(** ** Inlining references *)

Section Inline.

Variable isGlob : jsstring -> bool.
Variable expand : tree -> jsstring -> list jsstring.
Variable expandAll : tree -> list jsstring -> list jsstring.
Variable body : jsstring -> jsstring.
Variable root : jsstring.

Let full (p : jsstring) : jsstring := Path.join [root; p].
Let present (w : world) (p : jsstring) : bool :=
  is_file w (full p) || is_dir w (full p).

Lemma inline_one_quiet label p w :
  io_faults w = [] ->
  (present w p = true -> is_file w (full p) = true) ->
  RoleCompiler.inline_one body root label p w
  = (Return (body <$> files w !! full p),
     add_logs (if present w p then [] else [(Warn, label ++ p)]) w).
Proof.
  intros Hquiet Hfile. unfold RoleCompiler.inline_one, bind, existsSync, gets.
  fold (full p). fold (present w p).
  destruct (present w p) eqn:Hp; simpl.
  - rewrite add_logs_nil. unfold RoleCompiler.Markdown_body, bind.
    rewrite readFileSync_quiet by done.
    specialize (Hfile eq_refl). unfold is_file in Hfile.
    apply bool_decide_eq_true in Hfile as [c Hc]. by rewrite Hc.
  - unfold logger_warn, modify, ret.
    assert (Hnone : files w !! full p = None).
    { apply orb_false_iff in Hp as [Hf _]. unfold is_file in Hf.
      apply bool_decide_eq_false in Hf. by apply eq_None_not_Some. }
    by rewrite Hnone.
Qed.

Lemma inline_all_quiet label (l : list jsstring) w :
  io_faults w = [] ->
  (forall p, p ∈ l -> present w p = true -> is_file w (full p) = true) ->
  map_M (RoleCompiler.inline_one body root label) l w
  = (Return (List.map (fun p => body <$> files w !! full p) l),
     add_logs (List.map (fun p => (Warn, label ++ p))
                 (List.filter (fun p => negb (present w p)) l)) w).
Proof.
  intros Hquiet.
  assert (Hgen : forall es,
    (forall p, p ∈ l -> present w p = true -> is_file w (full p) = true) ->
    map_M (RoleCompiler.inline_one body root label) l (add_logs es w)
    = (Return (List.map (fun p => body <$> files w !! full p) l),
       add_logs (es ++ List.map (fun p => (Warn, label ++ p))
                         (List.filter (fun p => negb (present w p)) l)) w)).
  { induction l as [| p l IH]; intros es Hfiles; simpl.
    - by rewrite app_nil_r.
    - unfold bind at 1.
      rewrite (inline_one_quiet label p (add_logs es w)); [| done |].
      2:{ apply (Hfiles p). by left. }
      change (present (add_logs es w) p) with (present w p).
      rewrite add_logs_app. unfold bind at 1.
      rewrite IH.
      2:{ intros q Hq. apply Hfiles. by right. }
      unfold ret. simpl. f_equal. f_equal.
      destruct (present w p); simpl; by rewrite <- ?app_assoc. }
  intros Hfiles. specialize (Hgen [] Hfiles). by rewrite add_logs_nil in Hgen.
Qed.

Lemma non_null_map (l : list jsstring) (g : jsstring -> option jsstring) :
  RoleCompiler.non_null (List.map g l) = omap g l.
Proof.
  unfold RoleCompiler.non_null. induction l as [| p l IH]; [done |].
  cbn. destruct (g p); cbn; by rewrite <- IH.
Qed.

Lemma glob_warnings_run (patterns : list jsstring) w :
  for_each patterns (fun pattern =>
    if isGlob pattern then
      matches <- gets (fun w => expand (tree_of w) pattern) ;;
      if (length matches =? 0)%nat
      then logger_warn (js "Glob pattern matched zero files: " ++ pattern)
      else ret tt
    else ret tt) w
  = (Return tt,
     add_logs (List.map (fun p => (Warn, js "Glob pattern matched zero files: " ++ p))
                 (List.filter (fun p => isGlob p
                                 && (length (expand (tree_of w) p) =? 0)%nat)
                    patterns)) w).
Proof.
  assert (Hgen : forall es,
    for_each patterns (fun pattern =>
      if isGlob pattern then
        matches <- gets (fun w => expand (tree_of w) pattern) ;;
        if (length matches =? 0)%nat
        then logger_warn (js "Glob pattern matched zero files: " ++ pattern)
        else ret tt
      else ret tt) (add_logs es w)
    = (Return tt,
       add_logs (es ++ List.map
                   (fun p => (Warn, js "Glob pattern matched zero files: " ++ p))
                   (List.filter (fun p => isGlob p
                                   && (length (expand (tree_of w) p) =? 0)%nat)
                      patterns)) w)).
  { induction patterns as [| p l IH]; intros es; simpl.
    - by rewrite app_nil_r.
    - unfold bind at 1.
      destruct (isGlob p); simpl.
      + unfold bind at 1, gets at 1.
        change (tree_of (add_logs es w)) with (tree_of w).
        destruct (length (expand (tree_of w) p) =? 0)%nat; simpl.
        * unfold logger_warn, modify. rewrite add_log_add_logs, add_logs_app.
          rewrite IH. by rewrite <- app_assoc.
        * unfold ret at 1. apply IH.
      + unfold ret at 1. apply IH. }
  specialize (Hgen []). by rewrite add_logs_nil in Hgen.
Qed.

End Inline.

(** ** JSON: what is written parses back *)

Lemma short_escape_sound c e :
  short_escape c = Some e ->
  unescape e = Some c /\ (e =? 117) = false.
Proof.
  unfold short_escape.
  repeat match goal with
         | |- (if ?x =? ?k then _ else _) = _ -> _ =>
             destruct (N.eqb_spec x k) as [-> | ?];
             [intros [= <-]; split; reflexivity |]
         end.
  discriminate.
Qed.

Lemma short_escape_none c :
  short_escape c = None -> (c =? quote) = false /\ (c =? backslash) = false.
Proof.
  unfold short_escape.
  repeat match goal with
         | |- (if ?x =? ?k then _ else _) = _ -> _ =>
             destruct (N.eqb_spec x k) as [-> | ?]; [discriminate |]
         end.
  intros _. split; first [reflexivity | by apply N.eqb_neq].
Qed.

Lemma hex_digit_value n : n < 16 -> hex_value (hex_digit n) = Some n.
Proof.
  intros Hn. unfold hex_digit, hex_value, in_range.
  destruct (N.ltb_spec n 10) as [Hsmall | Hbig].
  - replace (48 <=? 48 + n) with true by (symmetry; apply N.leb_le; lia).
    replace (48 + n <=? 57) with true by (symmetry; apply N.leb_le; lia).
    cbn [andb]. f_equal. lia.
  - replace (87 + n <=? 57) with false by (symmetry; apply N.leb_gt; lia).
    rewrite andb_false_r.
    replace (97 <=? 87 + n) with true by (symmetry; apply N.leb_le; lia).
    replace (87 + n <=? 102) with true by (symmetry; apply N.leb_le; lia).
    cbn [andb]. f_equal. lia.
Qed.

Lemma hex4_escape c :
  c < 65536 ->
  hex4 (hex_digit (c / 4096 mod 16)) (hex_digit (c / 256 mod 16))
       (hex_digit (c / 16 mod 16)) (hex_digit (c mod 16)) = Some c.
Proof.
  intros Hc. unfold hex4.
  rewrite !hex_digit_value by (apply N.mod_lt; lia).
  f_equal.
  pose proof (N.div_mod c 16 ltac:(lia)).
  pose proof (N.div_mod (c / 16) 16 ltac:(lia)).
  pose proof (N.div_mod (c / 256) 16 ltac:(lia)).
  assert (c / 256 = c / 16 / 16) by (by rewrite N.Div0.div_div).
  assert (c / 4096 = c / 256 / 16) by (by rewrite N.Div0.div_div).
  assert (c / 4096 < 16) by (apply N.Div0.div_lt_upper_bound; lia).
  rewrite (N.mod_small (c / 4096) 16) by done.
  lia.
Qed.

Lemma surrogate_bound c : is_lead c || is_trail c = true -> c < 65536.
Proof.
  unfold is_lead, is_trail, in_range.
  intros H. apply orb_true_iff in H as [H | H];
    apply andb_true_iff in H as [_ H]; apply N.leb_le in H; lia.
Qed.

Lemma parse_string_body_escape c rest :
  c < 65536 ->
  parse_string_body (unicode_escape c ++ rest) = cons_to c (parse_string_body rest).
Proof.
  intros Hc. unfold unicode_escape. cbn [app parse_string_body].
  change (backslash =? quote) with false. change (backslash =? backslash) with true.
  change (117 =? 117) with true. cbv iota.
  by rewrite hex4_escape.
Qed.

Lemma parse_string_body_raw c rest :
  short_escape c = None -> (c <? 32) = false ->
  parse_string_body (c :: rest) = cons_to c (parse_string_body rest).
Proof.
  intros Hs Hc. apply short_escape_none in Hs as [Hq Hb].
  cbn [parse_string_body]. by rewrite Hq, Hb, Hc.
Qed.

Lemma parse_string_body_short c e rest :
  short_escape c = Some e ->
  parse_string_body (backslash :: e :: rest) = cons_to c (parse_string_body rest).
Proof.
  intros Hs. apply short_escape_sound in Hs as [Hu He].
  cbn [parse_string_body].
  change (backslash =? quote) with false. change (backslash =? backslash) with true.
  cbv iota. by rewrite He, Hu.
Qed.

Lemma lead_not_short c : is_lead c = true -> short_escape c = None /\ (c <? 32) = false.
Proof.
  unfold is_lead, in_range. intros H. apply andb_true_iff in H as [H _].
  apply N.leb_le in H. split; [| apply N.ltb_ge; lia].
  unfold short_escape, quote, backslash.
  repeat match goal with
         | |- context [?x =? ?k] => destruct (N.eqb_spec x k); [lia |]
         end.
  done.
Qed.

Lemma trail_not_short c : is_trail c = true -> short_escape c = None /\ (c <? 32) = false.
Proof.
  unfold is_trail, in_range. intros H. apply andb_true_iff in H as [H _].
  apply N.leb_le in H. split; [| apply N.ltb_ge; lia].
  unfold short_escape, quote, backslash.
  repeat match goal with
         | |- context [?x =? ?k] => destruct (N.eqb_spec x k); [lia |]
         end.
  done.
Qed.

Lemma parse_quote_units (s rest : jsstring) :
  parse_string_body (quote_units s ++ quote :: rest) = Some (s, rest).
Proof.
  remember (length s) as n eqn:Hn.
  revert s Hn. induction (lt_wf n) as [n _ IH]. intros s Hn.
  destruct s as [| c r]; [reflexivity |].
  assert (Hr : parse_string_body (quote_units r ++ quote :: rest) = Some (r, rest)).
  { apply (IH (length r)); [subst n; simpl; lia | done]. }
  cbn [quote_units].
  destruct (short_escape c) as [e |] eqn:Hshort.
  { cbn [app]. rewrite (parse_string_body_short c e) by done. by rewrite Hr. }
  destruct (c <? 32) eqn:Hctl.
  { rewrite <- app_assoc.
    rewrite parse_string_body_escape by (apply N.ltb_lt in Hctl; lia).
    by rewrite Hr. }
  destruct (is_lead c) eqn:Hlead.
  { destruct r as [| d r'].
    - rewrite parse_string_body_escape
        by (apply surrogate_bound; by rewrite Hlead).
      reflexivity.
    - destruct (is_trail d) eqn:Htrail.
      + cbn [app]. rewrite parse_string_body_raw by done.
        destruct (trail_not_short d Htrail) as [Hsd Hcd].
        rewrite parse_string_body_raw by done.
        rewrite (IH (length r')); [done | subst n; simpl; lia | done].
      + rewrite <- app_assoc.
        rewrite parse_string_body_escape
          by (apply surrogate_bound; by rewrite Hlead).
        by rewrite Hr. }
  destruct (is_trail c) eqn:Htrail.
  { rewrite <- app_assoc.
    rewrite parse_string_body_escape
      by (apply surrogate_bound; rewrite Htrail; apply orb_true_r).
    by rewrite Hr. }
  cbn [app]. rewrite parse_string_body_raw by done. by rewrite Hr.
Qed.

Lemma stringify_array depth first others :
  stringify_at depth (JArray (first :: others))
  = 91 :: newline (S depth) ++ stringify_at (S depth) first
    ++ items_text depth others ++ newline depth ++ [93].
Proof. reflexivity. Qed.

Lemma stringify_object depth k v others :
  stringify_at depth (JObject ((k, v) :: others))
  = 123 :: newline (S depth) ++ quote_string k ++ 58 :: 32 ::
    stringify_at (S depth) v
    ++ members_text depth others ++ newline depth ++ [125].
Proof. reflexivity. Qed.

Lemma skip_ws_spaces n s : skip_ws (spaces n ++ s) = skip_ws s.
Proof. induction n as [| n IH]; [done |]. exact IH. Qed.

Lemma skip_ws_newline depth s : skip_ws (newline depth ++ s) = skip_ws s.
Proof. unfold newline. cbn [app]. change (skip_ws (10 :: ?x)) with (skip_ws x). apply skip_ws_spaces. Qed.

Lemma skip_ws_idem s : skip_ws (skip_ws s) = skip_ws s.
Proof.
  induction s as [| c r IH]; [done |].
  unfold skip_ws in *. cbn [drop_while].
  destruct (is_ws c) eqn:Hc; [done |]. cbn [drop_while]. by rewrite Hc.
Qed.

Lemma parse_value_skip_ws fuel s : parse_value fuel (skip_ws s) = parse_value fuel s.
Proof.
  destruct fuel as [| f]; [done |].
  cbn [parse_value]. by rewrite skip_ws_idem.
Qed.

Lemma parse_value_newline fuel depth s :
  parse_value fuel (newline depth ++ s) = parse_value fuel s.
Proof.
  rewrite <- parse_value_skip_ws, skip_ws_newline. apply parse_value_skip_ws.
Qed.

Lemma stringify_opening depth j :
  number_free j = true ->
  exists t, stringify_at depth j = opening j :: t.
Proof.
  destruct j as [| [] | | s | [| x l] | [| [k v] l]]; intros Hj; try discriminate;
    eexists; reflexivity.
Qed.

Lemma opening_visible j :
  is_ws (opening j) = false /\ (opening j =? 93) = false.
Proof. by destruct j as [| [] | | | |]. Qed.

Lemma skip_ws_stringify depth j rest :
  number_free j = true ->
  skip_ws (stringify_at depth j ++ rest) = stringify_at depth j ++ rest.
Proof.
  intros Hj. destruct (stringify_opening depth j Hj) as [t ->].
  unfold skip_ws. cbn [app drop_while].
  by destruct (opening_visible j) as [-> _].
Qed.

Lemma size_pos j : (1 <= size j)%nat.
Proof. destruct j; simpl; lia. Qed.

Lemma parse_value_quote f t :
  parse_value (S f) (quote :: t)
  = match parse_string_body t with
    | Some (str, r') => Some (JString str, r')
    | None => None
    end.
Proof. reflexivity. Qed.

Lemma parse_value_bracket f t :
  parse_value (S f) (91 :: t)
  = match skip_ws t with
    | [] => None
    | d :: r' =>
        if d =? 93 then Some (JArray [], r')
        else match parse_elements f t with
             | Some (items, r'') => Some (JArray items, r'')
             | None => None
             end
    end.
Proof. reflexivity. Qed.

Lemma parse_value_brace f t :
  parse_value (S f) (123 :: t)
  = match skip_ws t with
    | [] => None
    | d :: r' =>
        if d =? 125 then Some (JObject [], r')
        else match parse_members f t with
             | Some (members, r'') => Some (JObject members, r'')
             | None => None
             end
    end.
Proof. reflexivity. Qed.

Lemma parse_elements_S f s :
  parse_elements (S f) s
  = match parse_value f s with
    | Some (v, r) =>
        match skip_ws r with
        | d :: r' =>
            if d =? 44 then
              match parse_elements f r' with
              | Some (vs, r'') => Some (v :: vs, r'')
              | None => None
              end
            else if d =? 93 then Some ([v], r')
            else None
        | [] => None
        end
    | None => None
    end.
Proof. reflexivity. Qed.

Lemma parse_members_quote f t :
  parse_members (S f) (quote :: t)
  = match parse_string_body t with
    | Some (key, r1) =>
        match skip_ws r1 with
        | colon :: r2 =>
            if colon =? 58 then
              match parse_value f r2 with
              | Some (v, r3) =>
                  match skip_ws r3 with
                  | d :: r4 =>
                      if d =? 44 then
                        match parse_members f r4 with
                        | Some (ms, r5) => Some ((key, v) :: ms, r5)
                        | None => None
                        end
                      else if d =? 125 then Some ([(key, v)], r4)
                      else None
                  | [] => None
                  end
              | None => None
              end
            else None
        | [] => None
        end
    | None => None
    end.
Proof. reflexivity. Qed.

Lemma parse_members_skip_ws fuel s : parse_members fuel (skip_ws s) = parse_members fuel s.
Proof.
  destruct fuel as [| f]; [done |].
  cbn [parse_members]. by rewrite skip_ws_idem.
Qed.

Lemma parse_members_newline fuel depth s :
  parse_members fuel (newline depth ++ s) = parse_members fuel s.
Proof.
  rewrite <- parse_members_skip_ws, skip_ws_newline. apply parse_members_skip_ws.
Qed.

Lemma parse_value_space fuel t : parse_value fuel (32 :: t) = parse_value fuel t.
Proof.
  rewrite <- parse_value_skip_ws. change (skip_ws (32 :: t)) with (skip_ws t).
  apply parse_value_skip_ws.
Qed.

Section Values.

Variable n : nat.
Hypothesis IH : forall j,
  (size j <= n)%nat -> number_free j = true ->
  forall depth fuel rest, (size j <= fuel)%nat ->
    parse_value fuel (stringify_at depth j ++ rest) = Some (j, rest).

Lemma parse_items depth rest (others : list json) :
  forall first fuel,
    Forall (fun x => (size x <= n)%nat /\ number_free x = true) (first :: others) ->
    (list_sum (List.map (fun x => S (size x)) (first :: others)) <= fuel)%nat ->
    parse_elements fuel
      (newline (S depth) ++ stringify_at (S depth) first
       ++ items_text depth others ++ newline depth ++ 93 :: rest)
    = Some (first :: others, rest).
Proof.
  induction others as [| x others IHl]; intros first fuel Hall Hfuel.
  - apply Forall_cons_1 in Hall as [[Hsize Hfree] _].
    destruct fuel as [| g]; [simpl in Hfuel; lia |].
    rewrite parse_elements_S, parse_value_newline.
    rewrite IH by (simpl in Hfuel; done || lia).
    cbn [items_text app]. rewrite skip_ws_newline. reflexivity.
  - apply Forall_cons_1 in Hall as [[Hsize Hfree] Hall].
    destruct fuel as [| g]; [simpl in Hfuel; lia |].
    rewrite parse_elements_S, parse_value_newline.
    rewrite IH by (simpl in Hfuel; done || lia).
    cbn [items_text]. rewrite <- !app_assoc.
    change (skip_ws (js "," ++ ?t)) with (44 :: t).
    change (44 =? 44) with true. cbv iota.
    rewrite IHl; [done | done |]. simpl in Hfuel |- *. lia.
Qed.

Lemma parse_member_list depth rest (others : list (jsstring * json)) :
  forall k v fuel,
    Forall (fun kv => (size (snd kv) <= n)%nat /\ number_free (snd kv) = true)
      ((k, v) :: others) ->
    (list_sum (List.map (fun kv => S (size (snd kv))) ((k, v) :: others)) <= fuel)%nat ->
    parse_members fuel
      (newline (S depth) ++ quote_string k ++ 58 :: 32 :: stringify_at (S depth) v
       ++ members_text depth others ++ newline depth ++ 125 :: rest)
    = Some ((k, v) :: others, rest).
Proof.
  induction others as [| [k' v'] others IHl]; intros k v fuel Hall Hfuel.
  - apply Forall_cons_1 in Hall as [[Hsize Hfree] _]. simpl in Hsize, Hfree.
    destruct fuel as [| g]; [simpl in Hfuel; lia |].
    rewrite parse_members_newline. unfold quote_string.
    cbn [app]. rewrite parse_members_quote.
    rewrite <- app_assoc. cbn [app]. rewrite parse_quote_units.
    change (skip_ws (58 :: ?t)) with (58 :: t).
    change (58 =? 58) with true. cbv iota.
    rewrite parse_value_space.
    rewrite IH by (simpl in Hfuel; done || lia).
    cbn [members_text app]. rewrite skip_ws_newline. reflexivity.
  - apply Forall_cons_1 in Hall as [[Hsize Hfree] Hall]. simpl in Hsize, Hfree.
    destruct fuel as [| g]; [simpl in Hfuel; lia |].
    rewrite parse_members_newline. unfold quote_string at 1.
    cbn [app]. rewrite parse_members_quote.
    rewrite <- app_assoc. cbn [app]. rewrite parse_quote_units.
    change (skip_ws (58 :: ?t)) with (58 :: t).
    change (58 =? 58) with true. cbv iota.
    rewrite parse_value_space.
    rewrite IH by (simpl in Hfuel; done || lia).
    cbn [members_text]. rewrite <- !app_assoc.
    change (skip_ws (js "," ++ ?t)) with (44 :: t).
    change (44 =? 44) with true. cbv iota.
    change (js ": " ++ ?t) with (58 :: 32 :: t).
    rewrite IHl; [done | done |]. simpl in Hfuel |- *. lia.
Qed.

End Values.

Lemma size_element (x : json) (l : list json) :
  x ∈ l -> (S (size x) <= list_sum (List.map (fun x => S (size x)) l))%nat.
Proof.
  induction 1 as [x l | x y l _ IHl]; simpl; lia.
Qed.

Lemma size_member (kv : jsstring * json) (l : list (jsstring * json)) :
  kv ∈ l -> (S (size (snd kv)) <= list_sum (List.map (fun kv => S (size (snd kv))) l))%nat.
Proof.
  induction 1 as [x l | x y l _ IHl]; simpl; lia.
Qed.

Lemma size_array l : size (JArray l) = S (list_sum (List.map (fun x => S (size x)) l)).
Proof. reflexivity. Qed.

Lemma size_object l :
  size (JObject l) = S (list_sum (List.map (fun kv => S (size (snd kv))) l)).
Proof. reflexivity. Qed.

Lemma parse_value_stringify n :
  forall j,
    (size j <= n)%nat -> number_free j = true ->
    forall depth fuel rest, (size j <= fuel)%nat ->
      parse_value fuel (stringify_at depth j ++ rest) = Some (j, rest).
Proof.
  induction n as [| n IHn]; intros j Hsize Hfree depth fuel rest Hfuel.
  { pose proof (size_pos j). lia. }
  destruct fuel as [| f]; [pose proof (size_pos j); lia |].
  destruct j as [| [] | lexeme | s | [| first others] | [| [k v] others]];
    try reflexivity; try discriminate.
  - cbn [stringify_at]. unfold quote_string. cbn [app].
    rewrite parse_value_quote, <- app_assoc. cbn [app].
    by rewrite parse_quote_units.
  - rewrite stringify_array. cbn [app]. rewrite parse_value_bracket.
    rewrite <- !app_assoc.
    rewrite skip_ws_newline, skip_ws_stringify
      by (simpl in Hfree; by apply andb_true_iff in Hfree as [? _]).
    destruct (stringify_opening (S depth) first) as [t Ht];
      [simpl in Hfree; by apply andb_true_iff in Hfree as [? _] |].
    rewrite Ht at 1. cbn [app].
    destruct (opening_visible first) as [_ ->].
    rewrite size_array in Hsize, Hfuel.
    rewrite (parse_items n IHn); [done | | lia].
    apply Forall_forall. intros x Hx. split.
    + apply size_element in Hx. lia.
    + simpl in Hfree. change (forallb number_free (first :: others) = true) in Hfree.
      rewrite forallb_forall in Hfree. apply Hfree. by apply list_elem_of_In.
  - rewrite stringify_object. cbn [app]. rewrite parse_value_brace.
    repeat first [rewrite <- !app_assoc | progress cbn [app]].
    rewrite skip_ws_newline. unfold quote_string at 1. cbn [app].
    change (skip_ws (quote :: ?t)) with (quote :: t).
    change (quote =? 125) with false. cbv iota.
    change (quote :: (quote_units k ++ [quote]) ++ ?t)
      with (quote_string k ++ t).
    rewrite size_object in Hsize, Hfuel.
    rewrite (parse_member_list n IHn); [done | | lia].
    apply Forall_forall. intros kv Hkv. split.
    + apply size_member in Hkv. lia.
    + simpl in Hfree.
      change (forallb (fun kv => number_free (snd kv)) ((k, v) :: others) = true)
        in Hfree.
      rewrite forallb_forall in Hfree. apply Hfree. by apply list_elem_of_In.
Qed.

Lemma length_newline depth : (1 <= length (newline depth))%nat.
Proof. unfold newline. simpl. lia. Qed.

Lemma size_le_text n :
  forall j, (size j <= n)%nat -> number_free j = true ->
  forall depth, (size j <= length (stringify_at depth j))%nat.
Proof.
  induction n as [| n IHn]; intros j Hsize Hfree depth.
  { pose proof (size_pos j). lia. }
  destruct j as [| [] | lexeme | s | [| first others] | [| [k v] others]];
    try (simpl; lia); try discriminate.
  - rewrite stringify_array. rewrite size_array in *.
    change (forallb number_free (first :: others) = true) in Hfree.
    rewrite forallb_forall in Hfree.
    assert (Htail : (list_sum (List.map (fun x => S (size x)) others)
                     <= length (items_text depth others))%nat).
    { assert (Hothers : forall x, x ∈ others -> (size x <= n)%nat /\ number_free x = true).
      { intros x Hx. split.
        - assert (Hin : x ∈ first :: others) by (by right).
          apply size_element in Hin. lia.
        - apply Hfree. apply list_elem_of_In. by right. }
      clear Hsize Hfree. induction others as [| x others IHl]; [simpl; lia |].
      cbn [items_text List.map list_sum]. rewrite !length_app.
      destruct (Hothers x ltac:(by left)) as [Hx1 Hx2].
      pose proof (IHn x Hx1 Hx2 (S depth)).
      pose proof (length_newline (S depth)).
      assert (list_sum (List.map (fun x => S (size x)) others)
              <= length (items_text depth others))%nat.
      { apply IHl. intros y Hy. apply Hothers. by right. }
      simpl length. change (list_sum (?a :: ?l)) with (a + list_sum l)%nat. lia. }
    assert (Hfirst : (size first <= length (stringify_at (S depth) first))%nat).
    { apply IHn.
      - assert (Hin : first ∈ first :: others) by (by left).
        apply size_element in Hin. lia.
      - apply Hfree. by left. }
    cbn [List.map list_sum]. cbn [length]. rewrite !length_app.
    pose proof (length_newline (S depth)). pose proof (length_newline depth).
    simpl length. change (list_sum (?a :: ?l)) with (a + list_sum l)%nat. lia.
  - rewrite stringify_object. rewrite size_object in *.
    change (forallb (fun kv => number_free (snd kv)) ((k, v) :: others) = true) in Hfree.
    rewrite forallb_forall in Hfree.
    assert (Htail : (list_sum (List.map (fun kv => S (size (snd kv))) others)
                     <= length (members_text depth others))%nat).
    { assert (Hothers : forall kv, kv ∈ others ->
                (size (snd kv) <= n)%nat /\ number_free (snd kv) = true).
      { intros kv Hkv. split.
        - assert (Hin : kv ∈ (k, v) :: others) by (by right).
          apply size_member in Hin. lia.
        - apply Hfree. apply list_elem_of_In. by right. }
      clear Hsize Hfree. induction others as [| [k' v'] others IHl]; [simpl; lia |].
      cbn [members_text List.map list_sum]. rewrite !length_app.
      destruct (Hothers (k', v') ltac:(by left)) as [Hx1 Hx2].
      pose proof (IHn v' Hx1 Hx2 (S depth)).
      pose proof (length_newline (S depth)).
      assert (list_sum (List.map (fun kv => S (size (snd kv))) others)
              <= length (members_text depth others))%nat.
      { apply IHl. intros y Hy. apply Hothers. by right. }
      simpl length. simpl snd. change (list_sum (?a :: ?l)) with (a + list_sum l)%nat. lia. }
    assert (Hfirst : (size v <= length (stringify_at (S depth) v))%nat).
    { apply IHn.
      - assert (Hin : (k, v) ∈ (k, v) :: others) by (by left).
        apply size_member in Hin. cbn [snd] in Hin. lia.
      - apply (Hfree (k, v)). by left. }
    cbn [List.map list_sum snd]. cbn [length]. rewrite !length_app.
    cbn [length]. rewrite !length_app.
    pose proof (length_newline (S depth)). pose proof (length_newline depth).
    simpl length. change (list_sum (?a :: ?l)) with (a + list_sum l)%nat. lia.
Qed.

Theorem parse_stringify j :
  number_free j = true -> JSON.parse (stringify j) = Some j.
Proof.
  intros Hfree. unfold JSON.parse, stringify.
  pose proof (size_le_text (size j) j (le_n _) Hfree 0%nat) as Hlen.
  rewrite <- (app_nil_r (stringify_at 0 j)) at 2.
  rewrite (parse_value_stringify (size j)); [done | done | done | lia].
Qed.

(** ** The cache: write, then read *)

Lemma number_free_strings (l : list jsstring) :
  forallb number_free (List.map JString l) = true.
Proof. induction l as [| s l IH]; [done |]. exact IH. Qed.

Lemma encode_number_free data : number_free (CacheManager.encode data) = true.
Proof.
  unfold CacheManager.encode, CacheManager.encode_result.
  cbn [number_free forallb snd app andb].
  rewrite number_free_strings.
  by destruct (severity (CacheManager.result data)).
Qed.

Lemma JSON_parse_encode data w :
  CacheManager.JSON_parse (stringify (CacheManager.encode data)) w
  = (Return (CacheManager.encode data), w).
Proof.
  unfold CacheManager.JSON_parse.
  by rewrite parse_stringify by apply encode_number_free.
Qed.

Lemma property_version data w :
  CacheManager.property (CacheManager.encode data) (js "version") w
  = (Return (V (JString (CacheManager.version data))), w).
Proof. reflexivity. Qed.

Lemma property_content_hash data w :
  CacheManager.property (CacheManager.encode data) (js "content_hash") w
  = (Return (V (JString (CacheManager.content_hash data))), w).
Proof. reflexivity. Qed.

Lemma property_result data w :
  CacheManager.property (CacheManager.encode data) (js "result") w
  = (Return (V (CacheManager.encode_result (CacheManager.result data))), w).
Proof. reflexivity. Qed.

Section Cache.

Variable cacheRoot : jsstring.

Let cachePath (documentPath : jsstring) : jsstring :=
  CacheManager.cachePathFor cacheRoot documentPath.

(** The file [write] leaves when nothing fails. *)
Let entry (documentPath contentHash : jsstring) (o : CachedValidationResult)
  (meta : CacheManager.Metadata) (w : world) : jsstring :=
  stringify (CacheManager.encode
               (CacheManager.cacheData_for documentPath contentHash o meta (clock w))).

(** The world [write] leaves when nothing fails. *)
Let written (documentPath contentHash : jsstring) (o : CachedValidationResult)
  (meta : CacheManager.Metadata) (w : world) : world :=
  set_files (insert (cachePath documentPath) (entry documentPath contentHash o meta w))
    (set_dirs (union {[Path.dirname (cachePath documentPath)]}) w).

Lemma write_quiet documentPath contentHash o meta w :
  io_faults w = [] ->
  CacheManager.write cacheRoot documentPath contentHash o meta w
  = (Return tt, written documentPath contentHash o meta w).
Proof.
  intros Hquiet. unfold CacheManager.write, bind at 1, gets, try_catch.
  unfold CacheManager.attempt. unfold bind at 1.
  rewrite mkdirSync_quiet by done.
  unfold bind at 1. rewrite JSON_parse_encode.
  rewrite writeFileSync_quiet by done. reflexivity.
Qed.

Lemma read_hit documentPath contentHash data w :
  io_faults w = [] ->
  files w !! cachePath documentPath = Some (stringify (CacheManager.encode data)) ->
  CacheManager.version data = CacheManager.CACHE_VERSION ->
  CacheManager.read cacheRoot documentPath contentHash w
  = (Return (if eqb_str (CacheManager.content_hash data) contentHash
             then V (CacheManager.encode_result (CacheManager.result data))
             else null), w).
Proof.
  intros Hquiet Hfile Hversion. unfold CacheManager.read.
  fold (cachePath documentPath).
  unfold bind at 1, existsSync, gets.
  assert (Hpresent : is_file w (cachePath documentPath) = true).
  { unfold is_file. apply bool_decide_eq_true. by rewrite Hfile. }
  rewrite Hpresent. cbn [orb negb]. unfold try_catch, CacheManager.lookup_entry.
  unfold bind at 1. rewrite readFileSync_quiet by done. rewrite Hfile.
  unfold bind at 1. rewrite JSON_parse_encode.
  unfold bind at 1. rewrite property_version.
  cbn [CacheManager.differs]. rewrite Hversion, eqb_str_refl. cbn [negb].
  unfold bind at 1. rewrite property_content_hash.
  cbn [CacheManager.differs].
  destruct (eqb_str (CacheManager.content_hash data) contentHash); cbn [negb].
  - by rewrite property_result.
  - reflexivity.
Qed.

Lemma same_except_refl p w : same_except p w w.
Proof. by repeat split. Qed.

Lemma same_except_trans p w1 w2 w3 :
  same_except p w1 w2 -> same_except p w2 w3 -> same_except p w1 w3.
Proof.
  intros (Hf & Hl & Hc & He & Hk) (Hf' & Hl' & Hc' & He' & Hk').
  repeat split; try congruence. intros q Hq. rewrite Hf', Hf; done.
Qed.

Lemma next_fault_same p w : same_except p w (snd (next_fault w)).
Proof. unfold next_fault. destruct (io_faults w); by repeat split. Qed.

Lemma mkdirSync_same p d w : same_except p w (snd (mkdirSync d w)).
Proof.
  unfold mkdirSync, bind, next_fault.
  destruct (io_faults w) as [| [| m | m residue] rest]; by repeat split.
Qed.

Lemma writeFileSync_same p content w : same_except p w (snd (writeFileSync p content w)).
Proof.
  unfold writeFileSync, bind, next_fault.
  destruct (io_faults w) as [| [| m | m residue] rest]; repeat split; simpl; try done;
    intros q Hq; by rewrite lookup_insert_ne.
Qed.

Lemma unlinkSync_same p w : same_except p w (snd (unlinkSync p w)).
Proof.
  unfold unlinkSync, bind, next_fault, gets.
  destruct (io_faults w) as [| [| m | m residue] rest]; simpl;
    try (by repeat split).
  - destruct (is_file w p); repeat split; simpl; try done.
    intros q Hq. by rewrite lookup_delete_ne.
  - destruct (is_file (set_io_faults rest w) p); repeat split; simpl; try done.
    intros q Hq. by rewrite lookup_delete_ne.
Qed.

Lemma attempt_same cp data w :
  same_except cp w (snd (CacheManager.attempt cp data w)).
Proof.
  unfold CacheManager.attempt. unfold bind at 1.
  pose proof (mkdirSync_same cp (Path.dirname cp) w) as Hmk.
  destruct (mkdirSync (Path.dirname cp) w) as [[[] | e] w1]; [| done].
  unfold bind at 1. rewrite JSON_parse_encode.
  eapply same_except_trans; [exact Hmk |]. apply writeFileSync_same.
Qed.

(** The removal in the [catch] block of [write] always returns. *)
Lemma removal_returns cp w :
  exists w',
    try_catch (present <- existsSync cp ;;
               if present then unlinkSync cp else ret tt)
              (fun _ => ret tt) w = (Return tt, w')
    /\ same_except cp w w'
    /\ (removal_allowed w -> files w' !! cp = None).
Proof.
  unfold try_catch, bind, existsSync, gets.
  destruct (is_file w cp || is_dir w cp) eqn:Hpresent.
  - pose proof (unlinkSync_same cp w) as Hsame.
    assert (Hgone : removal_allowed w -> files (snd (unlinkSync cp w)) !! cp = None).
    { unfold removal_allowed, unlinkSync, bind, next_fault, gets.
      destruct (io_faults w) as [| [| m | m residue] rest]; simpl; try done.
      - intros _. destruct (is_file w cp) eqn:Hf; simpl.
        + apply lookup_delete_eq.
        + unfold is_file in Hf. apply bool_decide_eq_false in Hf.
          by apply eq_None_not_Some.
      - intros _. destruct (is_file (set_io_faults rest w) cp) eqn:Hf; simpl.
        + apply lookup_delete_eq.
        + unfold is_file in Hf. apply bool_decide_eq_false in Hf.
          by apply eq_None_not_Some. }
    destruct (unlinkSync cp w) as [[[] | e] w1]; eexists; (split; [reflexivity |]);
      split; done.
  - exists w. split; [reflexivity |]. split; [apply same_except_refl |].
    intros _. apply orb_false_iff in Hpresent as [Hf _].
    unfold is_file in Hf. apply bool_decide_eq_false in Hf.
    by apply eq_None_not_Some.
Qed.

Lemma cleanup_returns cp err w :
  exists w',
    CacheManager.cleanup cp err w = (Return tt, w')
    /\ (forall q, q <> cp -> files w' !! q = files w !! q)
    /\ log w' = log w
    /\ console w' =
         console w ++
         (if debug_on w
          then [js "Warning: Failed to write cache file (" ++ message_of err ++ js ")"]
          else [])
    /\ (removal_allowed w -> files w' !! cp = None).
Proof.
  destruct (removal_returns cp w) as (w1 & Hrun & (Hf & Hl & Hc & He & Hk) & Hgone).
  unfold CacheManager.cleanup. unfold bind at 1. rewrite Hrun.
  unfold bind at 1, debug_enabled, gets, debug_on. rewrite He.
  destruct (match env_DEBUG w with Some v => truthy v | None => false end).
  - eexists. split; [reflexivity |]. simpl. rewrite Hc. repeat split; done.
  - eexists. split; [reflexivity |]. rewrite Hc, app_nil_r. repeat split; done.
Qed.


Lemma attempt_success cp data w w1 :
  CacheManager.attempt cp data w = (Return tt, w1) ->
  files w1 !! cp = Some (stringify (CacheManager.encode data)).
Proof.
  unfold CacheManager.attempt. unfold bind at 1.
  destruct (mkdirSync (Path.dirname cp) w) as [[[] | e] w0]; [| done].
  unfold bind at 1. rewrite JSON_parse_encode.
  unfold writeFileSync, bind, next_fault, modify, throw.
  destruct (io_faults w0) as [| [| m | m residue] rest]; intros [= <-]; simpl;
    apply lookup_insert_eq.
Qed.

(** C9 (as the code has it).  [write] returns normally whatever I/O calls
    fail, touches no file but the cache file and logs nothing.  When its
    [try] block succeeds the cache file holds the serialized entry.  When
    the [try] block fails, at most one warning is printed, and only in debug
    mode; the cache file is removed, unless that removal is itself made to
    fail (the failure is ignored and the file stays). *)
Theorem write_never_raises
  (documentPath contentHash : jsstring) (o : CachedValidationResult)
  (meta : CacheManager.Metadata) (w : world) :
  let cp := CacheManager.cachePathFor cacheRoot documentPath in
  let data := CacheManager.cacheData_for documentPath contentHash o meta (clock w) in
  let r := CacheManager.write cacheRoot documentPath contentHash o meta w in
  fst r = Return tt
  /\ (forall q, q <> cp -> files (snd r) !! q = files w !! q)
  /\ log (snd r) = log w
  /\ (forall w1,
        CacheManager.attempt cp data w = (Return tt, w1) ->
        snd r = w1 /\ files w1 !! cp = Some (stringify (CacheManager.encode data)))
  /\ (forall err w1,
        CacheManager.attempt cp data w = (Throw err, w1) ->
        console (snd r) =
          console w ++
          (if debug_on w
           then [js "Warning: Failed to write cache file (" ++ message_of err ++ js ")"]
           else [])
        /\ (removal_allowed w1 -> files (snd r) !! cp = None)).
Proof.
  cbv zeta.
  set (cp := CacheManager.cachePathFor cacheRoot documentPath).
  set (data := CacheManager.cacheData_for documentPath contentHash o meta (clock w)).
  unfold CacheManager.write. unfold bind, gets, try_catch.
  fold cp. fold data.
  pose proof (attempt_same cp data w) as (Hf & Hl & Hc & He & Hk).
  destruct (CacheManager.attempt cp data w) as [[[] | err] w1] eqn:Hattempt.
  - simpl in *. split; [done |]. split; [done |]. split; [done |]. split.
    + intros w2 [= <-]. split; [done |]. by apply (attempt_success cp data w).
    + intros err w2 [=].
  - simpl in *.
    destruct (cleanup_returns cp err w1) as (w2 & Hrun & Hf2 & Hl2 & Hc2 & Hgone).
    rewrite Hrun. simpl. split; [done |]. split; [| split; [congruence |]; split].
    + intros q Hq. rewrite Hf2, Hf; done.
    + intros w3 [=].
    + intros err' w3 [= <- <-]. split; [| done].
      rewrite Hc2, Hc. unfold debug_on. by rewrite He.
Qed.


Lemma sanitizeText_clean s : clean_text s -> CacheManager.sanitizeText s = s.
Proof.
  unfold CacheManager.sanitizeText.
  induction 1 as [| c s [Hctl Hq] _ IH]; [done |].
  cbn [List.filter]. rewrite Hctl. cbn [negb List.map].
  rewrite IH. apply N.eqb_neq in Hq. by rewrite Hq.
Qed.

Lemma sanitizeResult_clean o :
  clean_text (reason o) -> Forall clean_text (issues o) ->
  CacheManager.sanitizeResult o = o.
Proof.
  intros Hr Hi. destruct o as [c i r s]. unfold CacheManager.sanitizeResult.
  simpl in *. rewrite sanitizeText_clean by done. f_equal.
  induction Hi as [| x l Hx _ IH]; [done |].
  simpl. by rewrite sanitizeText_clean, IH.
Qed.

(** C1 (as the code has it).  When no I/O call fails, [write] followed by
    [read] for the same path and fingerprint returns the outcome with its
    texts sanitized: the compliant flag and the optional severity are those
    written, the reason and every issue have lost their control characters
    and have single quotes for double quotes.  It is the outcome written
    whenever that holds no such character. *)
Theorem write_then_read_returns_sanitized
  (documentPath contentHash : jsstring) (o : CachedValidationResult)
  (meta : CacheManager.Metadata) (w : world) :
  io_faults w = [] ->
  let r := CacheManager.write cacheRoot documentPath contentHash o meta w in
  fst r = Return tt
  /\ CacheManager.read cacheRoot documentPath contentHash (snd r)
     = (Return (V (CacheManager.encode_result (CacheManager.sanitizeResult o))), snd r)
  /\ compliant (CacheManager.sanitizeResult o) = compliant o
  /\ severity (CacheManager.sanitizeResult o) = severity o
  /\ (clean_text (reason o) -> Forall clean_text (issues o) ->
      CacheManager.sanitizeResult o = o).
Proof.
  intros Hquiet. cbv zeta. rewrite write_quiet by done. cbn [fst snd].
  split; [done |]. split; [| split; [done |]; split; [done |]; apply sanitizeResult_clean].
  rewrite (read_hit documentPath contentHash
             (CacheManager.cacheData_for documentPath contentHash o meta (clock w))).
  - cbn [CacheManager.cacheData_for CacheManager.content_hash CacheManager.result].
    by rewrite eqb_str_refl.
  - done.
  - cbn [files set_files set_dirs]. apply lookup_insert_eq.
  - reflexivity.
Qed.

(** The [catch] block of [read] answers [null]. *)
Lemma discard_returns cp err w :
  exists w',
    CacheManager.discard cp err w = (Return null, w')
    /\ (io_faults w = [] -> is_file w cp = true -> files w' !! cp = None).
Proof.
  unfold CacheManager.discard. unfold bind at 1, try_catch.
  assert (Hgone : io_faults w = [] -> is_file w cp = true ->
                  unlinkSync cp w = (Return tt, set_files (delete cp) w)).
  { intros Hq Hf. unfold unlinkSync, bind. rewrite next_fault_quiet by done.
    unfold gets. by rewrite Hf. }
  destruct (unlinkSync cp w) as [[[] | e] w1] eqn:Hun.
  - unfold bind, debug_enabled, gets.
    destruct (match env_DEBUG w1 with Some v => truthy v | None => false end);
      eexists; (split; [reflexivity |]); intros Hq Hf;
      specialize (Hgone Hq Hf); injection Hgone as ->; simpl; apply lookup_delete_eq.
  - unfold bind, debug_enabled, gets, ret.
    destruct (match env_DEBUG w1 with Some v => truthy v | None => false end);
      eexists; (split; [reflexivity |]); intros Hq Hf;
      specialize (Hgone Hq Hf); discriminate.
Qed.

Lemma differs_false v text :
  CacheManager.differs v text = false -> v = V (JString text).
Proof.
  destruct v as [| [| | | s | |]]; try discriminate. simpl.
  destruct (eqb_str_spec s text) as [-> | ?]; [done | discriminate].
Qed.

(** What the [try] block of [read] returns, when it is not [null]. *)
Lemma lookup_entry_found cp contentHash w v w1 :
  CacheManager.lookup_entry cp contentHash w = (Return v, w1) ->
  v <> null ->
  exists raw members,
    files w !! cp = Some raw
    /\ JSON.parse raw = Some (JObject members)
    /\ member (js "version") members = V (JString CacheManager.CACHE_VERSION)
    /\ member (js "content_hash") members = V (JString contentHash)
    /\ v = member (js "result") members.
Proof.
  unfold CacheManager.lookup_entry. unfold bind at 1.
  assert (Hread : forall raw w0, readFileSync cp w = (Return raw, w0) ->
                                 files w !! cp = Some raw).
  { unfold readFileSync, bind, next_fault, gets.
    destruct (io_faults w) as [| [| m | m residue] rest]; simpl; try done;
      destruct (files w !! cp); intros raw w0 [=]; congruence. }
  destruct (readFileSync cp w) as [[raw | e] w0]; [| done].
  specialize (Hread raw w0 eq_refl).
  unfold bind at 1, CacheManager.JSON_parse.
  destruct (JSON.parse raw) as [cached |] eqn:Hparse; [| done].
  unfold ret at 1.
  destruct cached as [| b | lexeme | s | items | members];
    try (unfold bind, CacheManager.property, ret, throw; simpl;
         intros [= <- _] Hv; done).
  unfold bind at 1, CacheManager.property at 1, ret at 1.
  destruct (CacheManager.differs (member (js "version") members)
              CacheManager.CACHE_VERSION) eqn:Hversion.
  { intros [= <- _] Hv. done. }
  unfold bind at 1, CacheManager.property at 1, ret at 1.
  destruct (CacheManager.differs (member (js "content_hash") members) contentHash)
    eqn:Hhash.
  { intros [= <- _] Hv. done. }
  unfold CacheManager.property, ret. intros [= <- _] _.
  exists raw, members. repeat split; try done; by apply differs_false.
Qed.

(** C3.  [read] never throws.  What it returns is [null] unless the cache
    file exists and parses to an object whose version is the current one
    and whose fingerprint is the one asked for; it is then the stored
    outcome.  After a write for another fingerprint it returns [null].  A
    cache file that does not parse is answered with [null] and, when no
    I/O call fails, removed. *)
Theorem read_contract (documentPath contentHash : jsstring) (w : world) :
  let cp := CacheManager.cachePathFor cacheRoot documentPath in
  let r := CacheManager.read cacheRoot documentPath contentHash w in
  (exists v, fst r = Return v)
  /\ (forall v,
        fst r = Return v -> v <> null ->
        exists raw members,
          files w !! cp = Some raw
          /\ JSON.parse raw = Some (JObject members)
          /\ member (js "version") members = V (JString CacheManager.CACHE_VERSION)
          /\ member (js "content_hash") members = V (JString contentHash)
          /\ v = member (js "result") members)
  /\ (forall otherHash o meta w0,
        io_faults w0 = [] -> otherHash <> contentHash ->
        w = snd (CacheManager.write cacheRoot documentPath otherHash o meta w0) ->
        r = (Return null, w))
  /\ (forall raw,
        io_faults w = [] -> files w !! cp = Some raw -> JSON.parse raw = None ->
        fst r = Return null /\ files (snd r) !! cp = None).
Proof.
  cbv zeta. set (cp := CacheManager.cachePathFor cacheRoot documentPath).
  split; [| split; [| split]].
  - unfold CacheManager.read. fold cp. unfold bind, existsSync, gets, try_catch.
    destruct (negb (is_file w cp || is_dir w cp)); [by eexists |].
    destruct (CacheManager.lookup_entry cp contentHash w) as [[v | e] w1];
      [by eexists |].
    destruct (discard_returns cp e w1) as (w2 & -> & _). by eexists.
  - intros v. unfold CacheManager.read. fold cp.
    unfold bind, existsSync, gets, try_catch.
    destruct (negb (is_file w cp || is_dir w cp)).
    { intros [= <-] Hv. done. }
    destruct (CacheManager.lookup_entry cp contentHash w) as [[v' | e] w1] eqn:Hbody.
    + intros [= <-] Hv. by eapply lookup_entry_found.
    + destruct (discard_returns cp e w1) as (w2 & -> & _).
      intros [= <-] Hv. done.
  - intros otherHash o meta w0 Hquiet Hne ->. rewrite write_quiet by done.
    cbn [snd].
    rewrite (read_hit documentPath contentHash
               (CacheManager.cacheData_for documentPath otherHash o meta (clock w0))).
    + cbn [CacheManager.cacheData_for CacheManager.content_hash].
      destruct (eqb_str_spec otherHash contentHash); done.
    + done.
    + cbn [files set_files set_dirs]. apply lookup_insert_eq.
    + reflexivity.
  - intros raw Hquiet Hfile Hparse.
    assert (Hpresent : is_file w cp = true).
    { unfold is_file. apply bool_decide_eq_true. by rewrite Hfile. }
    assert (Hrun : exists w2,
      CacheManager.read cacheRoot documentPath contentHash w = (Return null, w2)
      /\ files w2 !! cp = None).
    { unfold CacheManager.read. fold cp.
      unfold bind at 1, existsSync, gets. rewrite Hpresent. cbn [orb negb].
      unfold try_catch, CacheManager.lookup_entry. unfold bind at 1.
      rewrite readFileSync_quiet by done. rewrite Hfile.
      unfold bind at 1, CacheManager.JSON_parse. rewrite Hparse. unfold throw.
      destruct (discard_returns cp (JsSyntaxError (js "Unexpected token in JSON")) w)
        as (w2 & -> & Hgone).
      exists w2. split; [done |]. by apply Hgone. }
    destruct Hrun as (w2 & -> & Hgone). done.
Qed.

End Cache.

(** ** The cache on concrete runs *)

Lemma write_then_read_returns_sanitized_witness :
  fst (CacheManager.read cache_root reviewer_doc (js "abcd1234")
         (snd (CacheManager.write cache_root reviewer_doc (js "abcd1234")
                 plain_outcome role_meta empty_world)))
  = Return (V (CacheManager.encode_result plain_outcome)).
Proof.
  destruct (write_then_read_returns_sanitized cache_root reviewer_doc (js "abcd1234")
              plain_outcome role_meta empty_world eq_refl)
    as (_ & Hread & _ & _ & Hclean).
  rewrite Hread. cbn [fst]. rewrite Hclean; [reflexivity | |].
  - repeat (constructor; [split; [reflexivity | discriminate] |]). constructor.
  - constructor; [| constructor].
    repeat (constructor; [split; [reflexivity | discriminate] |]). constructor.
Defined.

(** C1, counterexample.  An outcome whose reason and issue quote a word
    comes back from the cache with single quotes: it is not the outcome
    that was written. *)
Lemma read_returns_single_quotes :
  let w1 := snd (CacheManager.write cache_root reviewer_doc (js "abcd1234")
                   quoted_outcome role_meta empty_world) in
  fst (CacheManager.read cache_root reviewer_doc (js "abcd1234") w1)
  = Return (V (CacheManager.encode_result quoted_outcome_as_read))
  /\ reason quoted_outcome_as_read <> reason quoted_outcome
  /\ issues quoted_outcome_as_read <> issues quoted_outcome.
Proof. vm_compute. repeat split; discriminate. Qed.

(** When the write fails, there is nothing to read back. *)
Example read_after_failed_write :
  let w1 := snd (CacheManager.write cache_root reviewer_doc (js "abcd1234")
                   plain_outcome role_meta full_disk) in
  fst (CacheManager.read cache_root reviewer_doc (js "abcd1234") w1) = Return null.
Proof. vm_compute. reflexivity. Qed.

Lemma read_contract_witness :
  CacheManager.read cache_root reviewer_doc (js "different")
    (snd (CacheManager.write cache_root reviewer_doc (js "abcd1234")
            plain_outcome role_meta empty_world))
  = (Return null,
     snd (CacheManager.write cache_root reviewer_doc (js "abcd1234")
            plain_outcome role_meta empty_world)).
Proof.
  apply (proj1 (proj2 (proj2
           (read_contract cache_root reviewer_doc (js "different")
              (snd (CacheManager.write cache_root reviewer_doc (js "abcd1234")
                      plain_outcome role_meta empty_world)))))
         (js "abcd1234") plain_outcome role_meta empty_world).
  - reflexivity.
  - discriminate.
  - reflexivity.
Defined.

Lemma write_never_raises_witness :
  let r := CacheManager.write cache_root reviewer_doc (js "abcd1234")
             plain_outcome role_meta full_disk in
  fst r = Return tt
  /\ files (snd r) !! CacheManager.cachePathFor cache_root reviewer_doc = None.
Proof.
  destruct (write_never_raises cache_root reviewer_doc (js "abcd1234")
              plain_outcome role_meta full_disk)
    as (Hreturns & _ & _ & _ & Hfailed).
  split; [exact Hreturns |].
  refine (proj2 (Hfailed (FsError (js "ENOSPC: no space left on device"))
                   (snd (CacheManager.attempt
                           (CacheManager.cachePathFor cache_root reviewer_doc)
                           (CacheManager.cacheData_for reviewer_doc (js "abcd1234")
                              plain_outcome role_meta (clock full_disk))
                           full_disk)) _) _).
  - vm_compute. reflexivity.
  - vm_compute. exact I.
Defined.

(** C9, counterexample.  The write of the cache file fails half-way and
    the removal of the file fails as well: [write] returns normally, and
    the partial file stays. *)
Lemma partial_file_survives_failed_removal :
  let r := CacheManager.write cache_root reviewer_doc (js "abcd1234")
             plain_outcome role_meta failing_disk in
  fst r = Return tt
  /\ files failing_disk !! js "/proj/.praxis/cache/validation/roles/reviewer.json"
     = None
  /\ files (snd r) !! js "/proj/.praxis/cache/validation/roles/reviewer.json"
     = Some (js "{").
Proof. vm_compute. repeat split. Qed.


(** ** The fingerprint (C2) *)

Lemma hex_digit_is_hex n : n < 16 -> is_hex_digit (hex_digit n) = true.
Proof.
  intros Hn. unfold is_hex_digit, hex_digit, in_range.
  destruct (N.ltb_spec n 10).
  - apply orb_true_iff. left. apply andb_true_iff. split; apply N.leb_le; lia.
  - apply orb_true_iff. right. apply andb_true_iff. split; apply N.leb_le; lia.
Qed.

Lemma hex_word_shape x :
  length (SHA256.hex_word x) = 8%nat
  /\ Forall (fun c => is_hex_digit c = true) (SHA256.hex_word x).
Proof.
  split; [reflexivity |].
  unfold SHA256.hex_word.
  repeat (constructor; [apply hex_digit_is_hex, N.mod_lt; lia |]).
  constructor.
Qed.

Lemma contentHash_is_first_word documentContent readmeContent :
  CacheManager.contentHash documentContent readmeContent
  = SHA256.hex_word
      (SHA256.a (SHA256.hash (SHA256.utf8 (documentContent ++ readmeContent)))).
Proof.
  unfold CacheManager.contentHash, SHA256.hexdigest, SHA256.hex.
  generalize (SHA256.hash (SHA256.utf8 (documentContent ++ readmeContent))).
  intros s. by rewrite take_app_length'.
Qed.

(** C2 (as the code has it).  The fingerprint always consists of 8
    characters out of [0-9a-f]; it is a function of the concatenation of the
    document and the specification text, so equal inputs give equal
    fingerprints; and it tells the contents of the repository's test
    fixtures apart.  (It cannot tell all contents apart: see the collision
    below.) *)
Theorem contentHash_digest (documentContent readmeContent : jsstring) :
  length (CacheManager.contentHash documentContent readmeContent) = 8%nat
  /\ Forall (fun c => is_hex_digit c = true)
       (CacheManager.contentHash documentContent readmeContent)
  /\ (forall documentContent' readmeContent',
        documentContent' ++ readmeContent' = documentContent ++ readmeContent ->
        CacheManager.contentHash documentContent' readmeContent'
        = CacheManager.contentHash documentContent readmeContent)
  /\ CacheManager.contentHash (js "doc A") (js "readme")
     <> CacheManager.contentHash (js "doc B") (js "readme")
  /\ CacheManager.contentHash (js "doc") (js "readme v1")
     <> CacheManager.contentHash (js "doc") (js "readme v2").
Proof.
  rewrite contentHash_is_first_word.
  split; [apply hex_word_shape |]. split; [apply hex_word_shape |].
  split; [| split].
  - intros d' r' Heq. rewrite contentHash_is_first_word. by rewrite Heq.
  - vm_compute. discriminate.
  - vm_compute. discriminate.
Qed.

Lemma contentHash_digest_witness :
  CacheManager.contentHash (js "doc") (js "readme")
  = CacheManager.contentHash (js "docread") (js "me").
Proof.
  apply (proj1 (proj2 (proj2 (contentHash_digest (js "docread") (js "me"))))).
  reflexivity.
Defined.

(** C2, counterexample.  Two different documents with the same
    specification, and two different specifications with the same document,
    that have the same fingerprint. *)
Lemma fingerprint_collision :
  js "document 6766" <> js "document 29836"
  /\ CacheManager.contentHash (js "document 6766") (js "readme")
     = CacheManager.contentHash (js "document 29836") (js "readme")
  /\ js "readme v75717" <> js "readme v100103"
  /\ CacheManager.contentHash (js "doc") (js "readme v75717")
     = CacheManager.contentHash (js "doc") (js "readme v100103").
Proof. vm_compute. repeat split; discriminate. Qed.

(** ** The cache path of a document *)

(** *** Strings: occurrences of a separator *)

Lemma starts_with_spec p s : starts_with p s = true <-> exists r, s = p ++ r.
Proof.
  revert s. induction p as [| a p IH]; intros s; simpl.
  - split; [by exists s | done].
  - destruct s as [| b s]; [split; [done | by intros [r Hr]] |].
    rewrite andb_true_iff, IH, N.eqb_eq. split.
    + intros [-> [r ->]]. by exists r.
    + intros [r [= -> ->]]. split; [done | by exists r].
Qed.

Lemma starts_with_app p r : starts_with p (p ++ r) = true.
Proof. apply starts_with_spec. by exists r. Qed.

Lemma includes_spec p s : includes p s = true <-> exists l r, s = l ++ p ++ r.
Proof.
  induction s as [| c s IH]; simpl.
  - rewrite orb_false_r, starts_with_spec. split.
    + intros [r Hr]. by exists [], r.
    + intros (l & r & H). destruct l as [| x l]; [by exists r | done].
  - rewrite orb_true_iff, starts_with_spec, IH. split.
    + intros [[r Hr] | (l & r & ->)]; [by exists [], r | by exists (c :: l), r].
    + intros (l & r & H). destruct l as [| x l].
      * left. by exists r.
      * right. injection H as -> ->. by exists l, r.
Qed.

Lemma includes_tail p c s : includes p (c :: s) = false -> includes p s = false.
Proof. simpl. by intros [_ ?]%orb_false_iff. Qed.

Lemma split_aux_skip sep (l s : jsstring) :
  split_aux sep (length l) (l ++ s) = split_aux sep 0 s.
Proof. induction l as [| c l IH]; [done |]. exact IH. Qed.

Lemma split_on_none sep s :
  sep <> [] -> includes sep s = false -> split_on sep s = [s].
Proof.
  intros Hsep. unfold split_on. induction s as [| c s IH]; [done |].
  intros Hinc. simpl in Hinc. apply orb_false_iff in Hinc as [Hst Hin].
  cbn [split_aux]. rewrite Hst. by rewrite IH.
Qed.

(** The pieces of [l ++ sep ++ r] when no occurrence of [sep] starts in [l]. *)
Lemma split_on_first sep (l r : jsstring) :
  sep <> [] ->
  (forall i, (i < length l)%nat -> starts_with sep (drop i (l ++ sep ++ r)) = false) ->
  split_on sep (l ++ sep ++ r) = l :: split_on sep r.
Proof.
  intros Hsep. unfold split_on. induction l as [| c l IH]; intros Hno.
  - cbn [app]. destruct sep as [| a sep]; [done |].
    cbn [app split_aux].
    change (a :: sep ++ r) with ((a :: sep) ++ r). rewrite starts_with_app.
    cbn [length Nat.pred]. by rewrite split_aux_skip.
  - cbn [app split_aux].
    pose proof (Hno 0%nat ltac:(simpl; lia)) as H0. cbn [drop app] in H0.
    rewrite H0. rewrite IH; [done |].
    intros i Hi. apply (Hno (S i)). simpl. lia.
Qed.

Lemma includes_drop p s i : includes p s = false -> includes p (drop i s) = false.
Proof.
  revert s. induction i as [| i IH]; intros s H; [by rewrite drop_0 |].
  destruct s as [| c s]; [done |]. cbn [drop]. apply IH. by eapply includes_tail.
Qed.

Lemma includes_app_r p l s : includes p s = true -> includes p (l ++ s) = true.
Proof.
  rewrite !includes_spec. intros (a & b & ->). exists (l ++ a), b. by rewrite app_assoc.
Qed.

(** An occurrence of [/content/] that starts before a [/content/] starts
    with [/content]. *)
Lemma content_overlap (x rel : jsstring) :
  x <> [] ->
  starts_with (js "/content/") (x ++ js "/content/" ++ rel) = true ->
  includes (js "/content") x = true.
Proof.
  intros Hne H.
  destruct x as [| c1 x]; [done |]. clear Hne.
  do 7 (destruct x as [| ? x];
        [ cbn in H;
          repeat match goal with
                 | H : (_ && _) = true |- _ => apply andb_true_iff in H as [? H]
                 end; discriminate |]).
  cbn in H.
  repeat match goal with
         | H : (_ && _) = true |- _ => apply andb_true_iff in H as [? H]
         end.
  repeat match goal with
         | H : (_ =? _) = true |- _ => apply N.eqb_eq in H; subst
         end.
  reflexivity.
Qed.

Section CachePath.

Variable cacheRoot : jsstring.

(** X1.  [cachePathFor] names a document by what follows [/content/].  For a
    project directory without [/content] in its path and a relative path
    [rel] that neither contains [/content/] nor starts with [content/], the
    absolute path [projectDir/content/rel] and the relative path
    [content/rel] get the same cache file: the cache root, then the directory
    of [rel], then the base name of [rel] with [.md] replaced by [.json]. *)
Theorem cachePathFor_absolute_and_relative (projectDir rel : jsstring) :
  includes (js "/content") projectDir = false ->
  includes (js "/content/") rel = false ->
  starts_with (js "content/") rel = false ->
  CacheManager.cachePathFor cacheRoot (projectDir ++ js "/content/" ++ rel)
  = CacheManager.cachePathFor cacheRoot (js "content/" ++ rel)
  /\ CacheManager.cachePathFor cacheRoot (js "content/" ++ rel)
     = Path.join [cacheRoot; Path.dirname rel;
                  Path.basename rel (js ".md") ++ js ".json"].
Proof.
  intros Hpre Hrel' Hstart.
  assert (Hrel : includes (js "/content/") (47 :: rel) = false).
  { change (includes (js "/content/") (47 :: rel))
      with (starts_with (js "/content/") (47 :: rel) || includes (js "/content/") rel).
    rewrite Hrel', orb_false_r. exact Hstart. }
  assert (Habs : CacheManager.cachePathFor cacheRoot (projectDir ++ js "/content/" ++ rel)
                 = Path.join [cacheRoot; Path.dirname rel;
                              Path.basename rel (js ".md") ++ js ".json"]).
  { unfold CacheManager.cachePathFor.
    assert (Hinc : includes (js "/content/") (projectDir ++ js "/content/" ++ rel) = true).
    { apply includes_spec. by exists projectDir, rel. }
    rewrite Hinc.
    rewrite split_on_first; [| done |].
    - rewrite split_on_none by done. reflexivity.
    - intros i Hi.
      destruct (starts_with (js "/content/") (drop i (projectDir ++ js "/content/" ++ rel)))
        eqn:Hst; [| done].
      rewrite drop_app_le in Hst by lia.
      apply content_overlap in Hst.
      + by rewrite includes_drop in Hst.
      + intros Hnil. apply (f_equal length) in Hnil. rewrite length_drop in Hnil.
        simpl in Hnil. lia. }
  split; [rewrite Habs |].
  all: unfold CacheManager.cachePathFor.
  all: assert (Hno : includes (js "/content/") (js "content/" ++ rel) = false)
         by (cbn; cbn in Hrel; exact Hrel).
  all: rewrite Hno.
  all: change (js "content/" ++ rel) with (js "content/" ++ rel).
  all: rewrite starts_with_app.
  all: reflexivity.
Qed.

End CachePath.

Lemma cachePathFor_absolute_and_relative_witness :
  CacheManager.cachePathFor cache_root (js "/proj" ++ js "/content/" ++ js "roles/reviewer.md")
  = CacheManager.cachePathFor cache_root (js "content/" ++ js "roles/reviewer.md")
  /\ CacheManager.cachePathFor cache_root (js "content/" ++ js "roles/reviewer.md")
     = Path.join [cache_root; Path.dirname (js "roles/reviewer.md");
                  Path.basename (js "roles/reviewer.md") (js ".md") ++ js ".json"].
Proof.
  apply (cachePathFor_absolute_and_relative cache_root (js "/proj") (js "roles/reviewer.md"));
    reflexivity.
Defined.

(** ** The cache: what write and read keep *)

(** X2.  What [sanitizeText] returns holds none of the control characters it
    strips and no double quote; sanitizing it again changes nothing; and it
    is never longer than the text it was made from. *)
Theorem sanitizeText_output_is_clean (text : jsstring) :
  clean_text (CacheManager.sanitizeText text)
  /\ CacheManager.sanitizeText (CacheManager.sanitizeText text)
     = CacheManager.sanitizeText text
  /\ (length (CacheManager.sanitizeText text) <= length text)%nat.
Proof.
  assert (Hclean : clean_text (CacheManager.sanitizeText text)).
  { unfold clean_text, CacheManager.sanitizeText.
    induction text as [| c s IH]; [constructor |].
    cbn [List.filter]. destruct (CacheManager.is_control c) eqn:Hc; cbn [negb]; [exact IH |].
    cbn [List.map]. constructor; [| exact IH].
    destruct (N.eqb_spec c 34) as [-> | Hne]; [done |]. done. }
  split; [exact Hclean |]. split; [by apply sanitizeText_clean |].
  unfold CacheManager.sanitizeText. rewrite length_map. apply List.filter_length_le.
Qed.

Lemma next_fault_cases w :
  (io_faults w = [] /\ next_fault w = (Return NoFault, w))
  \/ (exists f rest, io_faults w = f :: rest
                     /\ next_fault w = (Return f, set_io_faults rest w)).
Proof.
  unfold next_fault. destruct (io_faults w) as [| f rest] eqn:H; [by left |].
  right. by exists f, rest.
Qed.

Lemma mkdirSync_throws p w e w' :
  mkdirSync p w = (Throw e, w') -> exists m, e = FsError m /\ io_faults w <> [].
Proof.
  unfold mkdirSync, bind, next_fault.
  destruct (io_faults w) as [| [| m | m r] rest]; simpl; intros [= <- _];
    try done; by eexists.
Qed.

Lemma writeFileSync_throws p c w e w' :
  writeFileSync p c w = (Throw e, w') -> exists m, e = FsError m /\ io_faults w <> [].
Proof.
  unfold writeFileSync, bind, next_fault.
  destruct (io_faults w) as [| [| m | m r] rest]; simpl; intros [= <- _];
    try done; by eexists.
Qed.

Lemma mkdirSync_faults p w :
  (exists n, io_faults (snd (mkdirSync p w)) = drop n (io_faults w)).
Proof.
  unfold mkdirSync, bind, next_fault.
  destruct (io_faults w) as [| [| m | m r] rest] eqn:Hf; simpl.
  - exists 0%nat. by rewrite Hf.
  - by exists 1%nat.
  - by exists 1%nat.
  - by exists 1%nat.
Qed.

(** X3.  The [try] block of [write] fails only through the file system: an
    error it throws is the error of [mkdirSync] or [writeFileSync], in a run
    where a file-system call was made to fail.  Parsing back the serialized
    entry, the self-check of the block, never throws. *)
Theorem write_attempt_fails_only_by_io
  (cachePath : jsstring) (data : CacheManager.CacheFileData) (w w' : world) (e : exn) :
  CacheManager.attempt cachePath data w = (Throw e, w') ->
  exists m, e = FsError m /\ io_faults w <> [].
Proof.
  unfold CacheManager.attempt. unfold bind at 1.
  destruct (mkdirSync _ w) as [[[] | e1] w1] eqn:Hmk.
  - unfold bind at 1. rewrite JSON_parse_encode.
    intros Hw. apply writeFileSync_throws in Hw as (m & -> & Hne).
    exists m. split; [done |].
    destruct (mkdirSync_faults (Path.dirname cachePath) w) as [n Hn].
    rewrite Hmk in Hn. simpl in Hn. intros Hnil. rewrite Hnil in Hn.
    rewrite drop_nil in Hn. done.
  - intros [= <- <-]. by apply mkdirSync_throws in Hmk.
Qed.

Lemma write_attempt_fails_only_by_io_witness :
  exists m, FsError (js "ENOSPC: no space left on device") = FsError m
            /\ io_faults full_disk <> [].
Proof.
  eapply (write_attempt_fails_only_by_io (js "/c/roles/a.json")
           (CacheManager.cacheData_for (js "content/roles/a.md") (js "abcd1234")
              compliant_outcome role_meta (clock full_disk)) full_disk).
  vm_compute. reflexivity.
Defined.

Section CacheComposition.

Variable cacheRoot : jsstring.

(** X4.  Without I/O failure, a second [write] for the same document replaces
    the first: a [read] with the second hash returns the sanitized second
    result, and a [read] with the first hash, when the two hashes differ,
    returns [null]. *)
Theorem later_write_replaces_earlier
  (documentPath hash1 hash2 : jsstring) (o1 o2 : CachedValidationResult)
  (meta1 meta2 : CacheManager.Metadata) (w : world) :
  io_faults w = [] ->
  let w1 := snd (CacheManager.write cacheRoot documentPath hash1 o1 meta1 w) in
  let w2 := snd (CacheManager.write cacheRoot documentPath hash2 o2 meta2 w1) in
  CacheManager.read cacheRoot documentPath hash2 w2
  = (Return (V (CacheManager.encode_result (CacheManager.sanitizeResult o2))), w2)
  /\ (hash1 <> hash2 ->
      CacheManager.read cacheRoot documentPath hash1 w2 = (Return null, w2)).
Proof.
  intros Hquiet. cbv zeta.
  rewrite (write_quiet cacheRoot documentPath hash1) by done. cbn [snd].
  rewrite (write_quiet cacheRoot documentPath hash2) by done. cbn [snd].
  split.
  - rewrite (read_hit cacheRoot documentPath hash2
               (CacheManager.cacheData_for documentPath hash2 o2 meta2
                  (clock w))).
    + cbn [CacheManager.cacheData_for CacheManager.content_hash CacheManager.result].
      by rewrite eqb_str_refl.
    + done.
    + cbn [files set_files set_dirs clock]. apply lookup_insert_eq.
    + reflexivity.
  - intros Hne.
    rewrite (read_hit cacheRoot documentPath hash1
               (CacheManager.cacheData_for documentPath hash2 o2 meta2
                  (clock w))).
    + cbn [CacheManager.cacheData_for CacheManager.content_hash].
      destruct (eqb_str_spec hash2 hash1); [congruence | done].
    + done.
    + cbn [files set_files set_dirs clock]. apply lookup_insert_eq.
    + reflexivity.
Qed.

(** X5.  Without I/O failure, writes for two documents whose cache paths differ
    do not disturb each other: after both, each [read] returns the sanitized
    result written for its document. *)
Theorem write_keeps_other_entries
  (path1 path2 hash1 hash2 : jsstring) (o1 o2 : CachedValidationResult)
  (meta1 meta2 : CacheManager.Metadata) (w : world) :
  io_faults w = [] ->
  CacheManager.cachePathFor cacheRoot path1 <> CacheManager.cachePathFor cacheRoot path2 ->
  let w1 := snd (CacheManager.write cacheRoot path1 hash1 o1 meta1 w) in
  let w2 := snd (CacheManager.write cacheRoot path2 hash2 o2 meta2 w1) in
  CacheManager.read cacheRoot path1 hash1 w2
  = (Return (V (CacheManager.encode_result (CacheManager.sanitizeResult o1))), w2)
  /\ CacheManager.read cacheRoot path2 hash2 w2
     = (Return (V (CacheManager.encode_result (CacheManager.sanitizeResult o2))), w2).
Proof.
  intros Hquiet Hne. cbv zeta.
  rewrite (write_quiet cacheRoot path1 hash1) by done. cbn [snd].
  rewrite (write_quiet cacheRoot path2 hash2) by done. cbn [snd].
  split.
  - rewrite (read_hit cacheRoot path1 hash1
               (CacheManager.cacheData_for path1 hash1 o1 meta1 (clock w))).
    + cbn [CacheManager.cacheData_for CacheManager.content_hash CacheManager.result].
      by rewrite eqb_str_refl.
    + done.
    + cbn [files set_files set_dirs clock].
      rewrite lookup_insert_ne by done. apply lookup_insert_eq.
    + reflexivity.
  - rewrite (read_hit cacheRoot path2 hash2
               (CacheManager.cacheData_for path2 hash2 o2 meta2 (clock w))).
    + cbn [CacheManager.cacheData_for CacheManager.content_hash CacheManager.result].
      by rewrite eqb_str_refl.
    + done.
    + cbn [files set_files set_dirs clock]. apply lookup_insert_eq.
    + reflexivity.
Qed.

End CacheComposition.

Lemma later_write_replaces_earlier_witness :
  let w1 := snd (CacheManager.write cache_root reviewer_doc (js "aaaa1111")
                   plain_outcome role_meta empty_world) in
  let w2 := snd (CacheManager.write cache_root reviewer_doc (js "bbbb2222")
                   compliant_outcome role_meta w1) in
  CacheManager.read cache_root reviewer_doc (js "bbbb2222") w2
  = (Return (V (CacheManager.encode_result
                  (CacheManager.sanitizeResult compliant_outcome))), w2)
  /\ (js "aaaa1111" <> js "bbbb2222" ->
      CacheManager.read cache_root reviewer_doc (js "aaaa1111") w2 = (Return null, w2)).
Proof.
  apply (later_write_replaces_earlier cache_root reviewer_doc (js "aaaa1111")
           (js "bbbb2222") plain_outcome compliant_outcome role_meta role_meta
           empty_world).
  reflexivity.
Defined.

Lemma write_keeps_other_entries_witness :
  let w1 := snd (CacheManager.write cache_root reviewer_doc (js "aaaa1111")
                   plain_outcome role_meta empty_world) in
  let w2 := snd (CacheManager.write cache_root naming_doc (js "bbbb2222")
                   compliant_outcome convention_meta w1) in
  CacheManager.read cache_root reviewer_doc (js "aaaa1111") w2
  = (Return (V (CacheManager.encode_result
                  (CacheManager.sanitizeResult plain_outcome))), w2)
  /\ CacheManager.read cache_root naming_doc (js "bbbb2222") w2
     = (Return (V (CacheManager.encode_result
                     (CacheManager.sanitizeResult compliant_outcome))), w2).
Proof.
  apply (write_keeps_other_entries cache_root reviewer_doc naming_doc (js "aaaa1111")
           (js "bbbb2222") plain_outcome compliant_outcome role_meta convention_meta
           empty_world).
  - reflexivity.
  - vm_compute. discriminate.
Defined.

Lemma same_but_faults_refl w : same_but_faults w w.
Proof. by repeat split. Qed.

Lemma next_fault_same_but_faults w : same_but_faults w (snd (next_fault w)).
Proof. unfold next_fault. destruct (io_faults w); by repeat split. Qed.

Lemma readFileSync_same_but_faults p w : same_but_faults w (snd (readFileSync p w)).
Proof.
  unfold readFileSync, bind, next_fault, gets.
  destruct (io_faults w) as [| [| m | m r] rest]; simpl;
    try (destruct (files _ !! p)); by repeat split.
Qed.

Lemma JSON_parse_world text w : snd (CacheManager.JSON_parse text w) = w.
Proof. unfold CacheManager.JSON_parse. by destruct (JSON.parse text). Qed.

Lemma property_world j k w : snd (CacheManager.property j k w) = w.
Proof. by destruct j. Qed.

Lemma lookup_entry_same_but_faults cp h w :
  same_but_faults w (snd (CacheManager.lookup_entry cp h w)).
Proof.
  unfold CacheManager.lookup_entry. unfold bind at 1.
  pose proof (readFileSync_same_but_faults cp w) as Hr.
  destruct (readFileSync cp w) as [[raw | e] w1]; simpl in Hr; [| done].
  unfold bind at 1.
  pose proof (JSON_parse_world raw w1) as Hp.
  destruct (CacheManager.JSON_parse raw w1) as [[j | e] w2]; simpl in Hp; subst w2; [| done].
  unfold bind at 1.
  pose proof (property_world j (js "version") w1) as Hv.
  destruct (CacheManager.property j (js "version") w1) as [[v | e] w2];
    simpl in Hv; subst w2; [| done].
  destruct (CacheManager.differs v CacheManager.CACHE_VERSION); [done |].
  unfold bind at 1.
  pose proof (property_world j (js "content_hash") w1) as Hc.
  destruct (CacheManager.property j (js "content_hash") w1) as [[c | e] w2];
    simpl in Hc; subst w2; [| done].
  destruct (CacheManager.differs c h); [done |].
  by rewrite property_world.
Qed.

Lemma unlinkSync_effect cp w :
  let w1 := snd (unlinkSync cp w) in
  (forall q, q <> cp -> files w1 !! q = files w !! q)
  /\ (files w1 !! cp = files w !! cp \/ files w1 !! cp = None)
  /\ dirs w1 = dirs w /\ log w1 = log w.
Proof.
  cbv zeta. unfold unlinkSync, bind, next_fault, gets.
  destruct (io_faults w) as [| [| m | m r] rest]; simpl;
    try (destruct (is_file _ cp)); simpl; repeat split; try done;
    try (by left);
    try (intros q Hq; by rewrite lookup_delete_ne);
    try (right; by rewrite lookup_delete_eq).
Qed.

Lemma discard_effect cp err w :
  let w' := snd (CacheManager.discard cp err w) in
  (forall q, q <> cp -> files w' !! q = files w !! q)
  /\ (files w' !! cp = files w !! cp \/ files w' !! cp = None)
  /\ dirs w' = dirs w /\ log w' = log w.
Proof.
  cbv zeta. pose proof (unlinkSync_effect cp w) as Hu. cbv zeta in Hu.
  unfold CacheManager.discard, bind, try_catch, debug_enabled, gets, ret,
    console_warn, modify.
  destruct (unlinkSync cp w) as [[[] | e] w1]; cbn [snd] in Hu;
    destruct (match env_DEBUG w1 with Some v => truthy v | None => false end);
    cbn [snd files dirs log add_console]; exact Hu.
Qed.

(** X6.  [read] writes nothing.  Whatever it returns and whichever call fails,
    every file other than the cache file is as before, the cache file is as
    before or removed, and directories and log are unchanged.  When it
    returns an entry, no file has changed and nothing was printed. *)
Theorem read_never_writes (cacheRoot documentPath contentHash : jsstring) (w : world) :
  let cp := CacheManager.cachePathFor cacheRoot documentPath in
  let r := CacheManager.read cacheRoot documentPath contentHash w in
  (forall q, q <> cp -> files (snd r) !! q = files w !! q)
  /\ (files (snd r) !! cp = files w !! cp \/ files (snd r) !! cp = None)
  /\ dirs (snd r) = dirs w
  /\ log (snd r) = log w
  /\ (forall v, fst r = Return v -> v <> null ->
        files (snd r) = files w /\ console (snd r) = console w).
Proof.
  cbv zeta. set (cp := CacheManager.cachePathFor cacheRoot documentPath).
  unfold CacheManager.read. fold cp. unfold bind, existsSync, gets, try_catch.
  destruct (negb (is_file w cp || is_dir w cp)).
  { simpl. repeat split; try done. by left. }
  pose proof (lookup_entry_same_but_faults cp contentHash w) as Hl.
  destruct (CacheManager.lookup_entry cp contentHash w) as [[v | e] w1]; simpl in Hl.
  - destruct Hl as (Hf & Hd & Hlog & Hc & _). simpl.
    rewrite Hf. repeat split; try done. by left.
  - destruct Hl as (Hf & Hd & Hlog & Hc & _).
    pose proof (discard_effect cp e w1) as (Hq & Hcp & Hd2 & Hl2).
    destruct (discard_returns cp e w1) as (w2 & Hrun & _).
    rewrite Hrun in *. simpl in *. rewrite Hf in *.
    repeat split; try congruence; try done.
Qed.



(** ** The issues of a parsed reply *)

(** *** Trimmed strings *)

Lemma drop_while_suffix p (s : jsstring) : exists l, s = l ++ drop_while p s.
Proof.
  induction s as [| c s [l IH]]; [by exists [] |].
  simpl. destruct (p c).
  - exists (c :: l). simpl. by f_equal.
  - by exists [].
Qed.

Lemma drop_while_head p (s : jsstring) c r : drop_while p s = c :: r -> p c = false.
Proof.
  induction s as [| x s IH]; [done |]. simpl.
  destruct (p x) eqn:Hx; [done |]. by intros [= <- _].
Qed.

Lemma drop_while_id p (s : jsstring) :
  (forall c r, s = c :: r -> p c = false) -> drop_while p s = s.
Proof. destruct s as [| c r]; [done |]. intros H. simpl. by rewrite (H c r). Qed.

Lemma suffix_last (l s : jsstring) k c : l ++ s = k ++ [c] -> s <> [] -> exists k', s = k' ++ [c].
Proof.
  intros H Hne. destruct (exists_last Hne) as (k' & c' & ->).
  rewrite app_assoc in H. apply app_inj_tail in H as [_ ->]. by exists k'.
Qed.

Lemma no_outer_space_trim s : no_outer_space (trim s).
Proof.
  unfold trim, trimEnd, trimStart. set (t := drop_while is_space s).
  set (u := drop_while is_space (rev t)). split.
  - intros c r Hr.
    assert (Hu : u = rev r ++ [c]).
    { rewrite <- (rev_involutive u), Hr. done. }
    destruct (drop_while_suffix is_space (rev t)) as [l Hl]. fold u in Hl.
    rewrite Hu, app_assoc in Hl.
    apply (f_equal (@rev N)) in Hl. rewrite rev_involutive, rev_app_distr in Hl.
    simpl in Hl. by eapply drop_while_head.
  - intros l c Hl.
    assert (Hu : u = c :: rev l).
    { rewrite <- (rev_involutive u), Hl, rev_app_distr. done. }
    by eapply drop_while_head.
Qed.

Lemma trim_fixed s : no_outer_space s -> trim s = s.
Proof.
  intros [Hhead Hlast]. unfold trim, trimEnd, trimStart.
  rewrite (drop_while_id _ s) by done.
  rewrite drop_while_id; [apply rev_involutive |].
  intros c r Hr. apply (Hlast (rev r) c).
  rewrite <- (rev_involutive s), Hr. done.
Qed.

Lemma trim_idempotent s : trim (trim s) = trim s.
Proof. apply trim_fixed, no_outer_space_trim. Qed.

(** A suffix that starts without white space, of a string without outer
    white space. *)
Lemma no_outer_space_suffix (l s : jsstring) :
  no_outer_space (l ++ s) -> (forall c r, s = c :: r -> is_space c = false) ->
  no_outer_space s.
Proof.
  intros [_ Hlast] Hhead. split; [done |].
  intros k c ->. apply (Hlast (l ++ k) c). by rewrite app_assoc.
Qed.

(** *** The issues of a reply *)

Lemma marker_not_space c : DocumentValidator.is_marker c = true -> is_space c = false.
Proof.
  unfold DocumentValidator.is_marker, DocumentValidator.is_bullet, is_digit.
  rewrite !orb_true_iff, !N.eqb_eq.
  intros [[[[-> | ->] | ->] | Hd] | ->]; try reflexivity.
  unfold in_range in Hd. apply andb_true_iff in Hd as [Hlo Hhi].
  apply N.leb_le in Hlo, Hhi.
  unfold is_space, in_range.
  repeat match goal with
         | |- context [c =? ?k] =>
             replace (c =? k) with false by (symmetry; apply N.eqb_neq; lia)
         | |- context [?k <=? c] =>
             replace (k <=? c) with false by (symmetry; apply N.leb_gt; lia)
         | |- context [c <=? ?k] =>
             replace (c <=? k) with false by (symmetry; apply N.leb_gt; lia)
         end.
  by rewrite ?andb_false_r.
Qed.

Lemma space_not_marker c : is_space c = true -> DocumentValidator.is_marker c = false.
Proof.
  intros Hs. destruct (DocumentValidator.is_marker c) eqn:Hm; [| done].
  apply marker_not_space in Hm. congruence.
Qed.

Lemma drop_while_nil p (s : jsstring) : drop_while p s = [] -> Forall (fun c => p c = true) s.
Proof.
  induction s as [| c s IH]; [constructor |]. simpl.
  destruct (p c) eqn:Hc; [| done]. intros H. constructor; [done | by apply IH].
Qed.

Lemma drop_while_weaker (p q : N -> bool) (s : jsstring) :
  (forall c, p c = true -> q c = true) ->
  drop_while q (drop_while p s) = drop_while q s.
Proof.
  intros Hpq. induction s as [| c s IH]; [done |]. simpl.
  destruct (p c) eqn:Hp; [by rewrite (Hpq c Hp) | done].
Qed.

(** What is left of a trimmed line after its marker. *)
Lemma after_marker (pre rest : jsstring) (d : N) :
  no_outer_space (pre ++ d :: rest) ->
  no_outer_space (drop_while is_space (d :: rest))
  /\ drop_while is_space (d :: rest) <> [].
Proof.
  intros Hline.
  destruct (drop_while_suffix is_space (d :: rest)) as [l Hl].
  split.
  - apply (no_outer_space_suffix (pre ++ l)).
    + by rewrite <- app_assoc, <- Hl.
    + intros c r. apply drop_while_head.
  - intros Hnil. apply drop_while_nil in Hnil.
    destruct (exists_last (l := d :: rest)) as (k & c & Hk); [done |].
    rewrite Hk in Hnil. apply Forall_app in Hnil as [_ Hc].
    apply Forall_inv in Hc.
    destruct Hline as [_ Hlast]. specialize (Hlast (pre ++ k) c).
    rewrite <- app_assoc, <- Hk in Hlast. rewrite Hlast in Hc; done.
Qed.

Lemma digit_is_marker c : is_digit c = true -> DocumentValidator.is_marker c = true.
Proof. unfold DocumentValidator.is_marker. intros ->. by rewrite orb_true_r. Qed.

Lemma list_line_item (line : jsstring) :
  no_outer_space line ->
  DocumentValidator.bullet_line line || DocumentValidator.numbered_line line = true ->
  no_outer_space (DocumentValidator.strip_marker line)
  /\ DocumentValidator.strip_marker line <> [].
Proof.
  intros Hline Hlist. apply orb_true_iff in Hlist as [Hb | Hn].
  - destruct line as [| c [| d rest]]; try done. simpl in Hb.
    apply andb_true_iff in Hb as [Hc Hd].
    unfold DocumentValidator.strip_marker.
    assert (Hm : DocumentValidator.is_marker c = true).
    { unfold DocumentValidator.is_marker. by rewrite Hc. }
    rewrite Hm. cbn [drop_while]. rewrite Hm.
    rewrite (space_not_marker d Hd).
    apply (after_marker [c] rest d Hline).
  - destruct line as [| c r0]; [done |].
    unfold DocumentValidator.numbered_line in Hn.
    apply andb_true_iff in Hn as [Hc Hrest].
    destruct (drop_while is_digit (c :: r0)) as [| dot [| d r1]] eqn:Hdigits; try done.
    { destruct dot as [| p]; [done |].
      repeat (destruct p as [p | p |]; try done). }
    destruct (N.eqb_spec dot 46) as [-> | Hne].
    2:{ destruct dot as [| p]; [done |].
        repeat (destruct p as [p | p |]; try done). }
    unfold DocumentValidator.strip_marker.
    rewrite (digit_is_marker c Hc).
    rewrite <- (drop_while_weaker is_digit DocumentValidator.is_marker (c :: r0))
      by apply digit_is_marker.
    rewrite Hdigits. cbn [drop_while].
    change (DocumentValidator.is_marker 46) with true. cbv iota.
    rewrite (space_not_marker d Hrest).
    destruct (drop_while_suffix is_digit (c :: r0)) as [l Hl].
    rewrite Hdigits in Hl.
    apply (after_marker (l ++ [46]) r1 d).
    rewrite <- app_assoc. cbn [app]. by rewrite <- Hl.
Qed.

Lemma list_items_shape (lines : list jsstring) :
  Forall (fun i => no_outer_space i /\ i <> []) (DocumentValidator.list_items lines).
Proof.
  induction lines as [| line rest IH]; [constructor |].
  cbn [DocumentValidator.list_items].
  destruct (DocumentValidator.bullet_line (trim line)
            || DocumentValidator.numbered_line (trim line)) eqn:Hlist; [| exact IH].
  constructor; [| exact IH].
  apply list_line_item; [apply no_outer_space_trim | exact Hlist].
Qed.

(** X9.  Every issue of a parsed reply is trimmed, and an issue is the empty
    string only when the whole reply is white space. *)
Theorem parseResponse_issues_are_trimmed
  (toLowerCase : jsstring -> jsstring) (response : jsstring) :
  Forall (fun issue => trim issue = issue /\ (issue = [] -> trim response = []))
    (issues (DocumentValidator.parseResponse toLowerCase response)).
Proof.
  unfold DocumentValidator.parseResponse.
  destruct (eqb_str _ (js "yes")); cbn [issues]; [constructor |].
  unfold DocumentValidator.parseIssues.
  pose proof (list_items_shape (split_chars (N.eqb 10) (trim response))) as Hitems.
  destruct (DocumentValidator.list_items _) as [| i items].
  - constructor; [| constructor]. split; [apply trim_idempotent | done].
  - eapply Forall_impl; [exact Hitems |].
    intros issue [Hshape Hne]. split; [by apply trim_fixed | done].
Qed.

(** ** The document validator *)

Section ValidatorFacts.

Variable toLowerCase : jsstring -> jsstring.
Variable yaml_load : jsstring -> option (jsstring -> option jsstring).

(** X10.  The order in which the type of a document is decided.  A file is a
    template exactly when its name starts with an underscore.  Otherwise a
    known type declared in the front matter wins, and without one the type
    is inferred from the path.  A document that does not begin with the
    [---] line declares nothing. *)
Theorem detectDocumentType_precedence (documentPath documentContent : jsstring) :
  let detected := Validator.detectDocumentType yaml_load documentPath documentContent in
  let declared := Validator.extractFrontmatter yaml_load documentContent (js "type") in
  (detected = Validator.Template
   <-> starts_with (js "_") (Path.last_segment documentPath) = true)
  /\ (forall t, starts_with (js "_") (Path.last_segment documentPath) = false ->
                known_type_name t = true ->
                declared = Some (Validator.type_name t) -> detected = t)
  /\ (starts_with (js "_") (Path.last_segment documentPath) = false ->
      (forall t, known_type_name t = true -> declared <> Some (Validator.type_name t)) ->
      detected = Validator.inferTypeFromPath documentPath)
  /\ (starts_with (js "---" ++ [10]) documentContent = false -> declared = None).
Proof.
  cbv zeta. unfold Validator.detectDocumentType.
  split; [| split; [| split]].
  - destruct (starts_with (js "_") (Path.last_segment documentPath)); [done |].
    split; [| done].
    destruct (Validator.extractFrontmatter yaml_load documentContent (js "type")) as [t |].
    + repeat (match goal with |- context [if eqb_str ?a ?b then _ else _] =>
                destruct (eqb_str a b) end; [done |]).
      unfold Validator.inferTypeFromPath.
      repeat (match goal with |- context [if includes ?a ?b then _ else _] =>
                destruct (includes a b) end; [done |]). done.
    + unfold Validator.inferTypeFromPath.
      repeat (match goal with |- context [if includes ?a ?b then _ else _] =>
                destruct (includes a b) end; [done |]). done.
  - intros t Hname Hknown Hdecl. rewrite Hname, Hdecl.
    destruct t; try done; reflexivity.
  - intros Hname Hnone. rewrite Hname.
    destruct (Validator.extractFrontmatter yaml_load documentContent (js "type"))
      as [t |]; [| done].
    destruct (eqb_str_spec t (js "role")) as [-> | _];
      [by destruct (Hnone Validator.Role) |].
    destruct (eqb_str_spec t (js "responsibility")) as [-> | _];
      [by destruct (Hnone Validator.Responsibility) |].
    destruct (eqb_str_spec t (js "reference")) as [-> | _];
      [by destruct (Hnone Validator.Reference) |].
    destruct (eqb_str_spec t (js "convention")) as [-> | _];
      [by destruct (Hnone Validator.Convention) |].
    destruct (eqb_str_spec t (js "constitution")) as [-> | _];
      [by destruct (Hnone Validator.Constitution) |].
    done.
  - intros Hfence. unfold Validator.extractFrontmatter. by rewrite Hfence.
Qed.

End ValidatorFacts.

(** *** callOpenRouter and validate *)

Lemma pure_ret {A} (a : A) : pure_M (ret a).
Proof. by intros w. Qed.

Lemma pure_throw {A} (e : exn) : pure_M (@throw A e).
Proof. by intros w. Qed.

Lemma pure_bind {A B} (m : M A) (k : A -> M B) :
  pure_M m -> (forall a, pure_M (k a)) -> pure_M (bind m k).
Proof.
  intros Hm Hk w. unfold outcome_of, bind. rewrite (Hm w), (Hm empty_world).
  destruct (outcome_of m) as [a | e]; [| done].
  rewrite (Hk a w), (Hk a empty_world). done.
Qed.

Lemma pure_JSON_parse text : pure_M (CacheManager.JSON_parse text).
Proof. intros w. unfold outcome_of, CacheManager.JSON_parse. by destruct (JSON.parse text). Qed.

Lemma pure_property j k : pure_M (CacheManager.property j k).
Proof. intros w. by destruct j. Qed.

Lemma pure_first_element v : pure_M (Validator.first_element v).
Proof. intros w. destruct v as [| [| | | [| ? ?] | [| ? ?] |]]; reflexivity. Qed.

Lemma pure_callOpenRouter key prompt fetch v :
  pure_M (Validator.callOpenRouter key prompt fetch v).
Proof.
  unfold Validator.callOpenRouter.
  destruct key as [[| c k] |]; try apply pure_throw.
  destruct (fetch _ _) as [e | [|] status text]; try apply pure_throw.
  apply pure_bind; [apply pure_JSON_parse |]. intros data.
  apply pure_bind; [apply pure_property |]. intros choices.
  apply pure_bind; [apply pure_first_element |]. intros first.
  apply pure_ret.
Qed.

(** X13.  [callOpenRouter] leaves the world as it is.  With the API key unset
    or empty it throws before any request.  A reply that is not ok gives
    [OpenRouter API error (<status>): <text>].  From an ok reply it returns
    the content of the first choice, and the empty string when there is no
    choice.  It never returns [null]. *)
Theorem callOpenRouter_reads_first_choice
  (key : option jsstring) (prompt : jsstring)
  (fetch : jsstring -> jsstring -> Validator.reply)
  (v : Validator.DocumentValidator) (w : world) :
  let r := Validator.callOpenRouter key prompt fetch v w in
  snd r = w
  /\ (key = None \/ key = Some [] ->
      fst r = Throw (JsError (js "OPENROUTER_API_KEY environment variable not set")))
  /\ (forall k status text,
        key = Some k -> k <> [] ->
        fetch (js "Bearer " ++ k) (Validator.request_body prompt v)
        = Validator.Response false status text ->
        fst r = Throw (JsError (js "OpenRouter API error (" ++ RoleCompiler.decimal status
                                ++ js "): " ++ text)))
  /\ (forall k status text members first rest message s,
        key = Some k -> k <> [] ->
        fetch (js "Bearer " ++ k) (Validator.request_body prompt v)
        = Validator.Response true status text ->
        JSON.parse text = Some (JObject members) ->
        member (js "choices") members = V (JArray (JObject first :: rest)) ->
        member (js "message") first = V (JObject message) ->
        member (js "content") message = V (JString s) ->
        fst r = Return (JString s))
  /\ (forall k status text members,
        key = Some k -> k <> [] ->
        fetch (js "Bearer " ++ k) (Validator.request_body prompt v)
        = Validator.Response true status text ->
        JSON.parse text = Some (JObject members) ->
        member (js "choices") members = V (JArray []) ->
        fst r = Return (JString []))
  /\ (forall j, fst r = Return j -> j <> JNull).
Proof.
  cbv zeta. split; [| split; [| split; [| split; [| split]]]].
  - by rewrite pure_callOpenRouter.
  - unfold Validator.callOpenRouter. by intros [-> | ->].
  - intros k status text -> Hk Hfetch. unfold Validator.callOpenRouter.
    destruct k as [| c k]; [done |]. by rewrite Hfetch.
  - intros k status text members first rest message s -> Hk Hfetch Hparse Hc Hm Hs.
    unfold Validator.callOpenRouter. destruct k as [| c k]; [done |].
    rewrite Hfetch. unfold bind, CacheManager.JSON_parse. rewrite Hparse.
    cbn [ret CacheManager.property]. rewrite Hc.
    cbn [Validator.first_element ret Validator.optional_member]. rewrite Hm.
    cbn [Validator.optional_member]. rewrite Hs. reflexivity.
  - intros k status text members -> Hk Hfetch Hparse Hc.
    unfold Validator.callOpenRouter. destruct k as [| c k]; [done |].
    rewrite Hfetch. unfold bind, CacheManager.JSON_parse. rewrite Hparse.
    cbn [ret CacheManager.property]. rewrite Hc. reflexivity.
  - intros j. unfold Validator.callOpenRouter.
    destruct key as [[| c k] |]; try done.
    destruct (fetch _ _) as [e | [|] status text]; try done.
    unfold bind.
    destruct (CacheManager.JSON_parse text w) as [[data | e] w1]; [| done].
    destruct (CacheManager.property data (js "choices") w1) as [[choices | e] w2]; [| done].
    destruct (Validator.first_element choices w2) as [[first | e] w3]; [| done].
    cbn [ret fst]. intros [= <-].
    destruct (Validator.optional_member _ _) as [| []]; done.
Qed.

Lemma callOpenRouter_reads_first_choice_witness :
  fst (Validator.callOpenRouter (Some (js "sk-test")) (js "You are a validator.")
         (answering (js "Yes. All required sections are present."))
         reviewer_validator empty_world)
  = Return (JString (js "Yes. All required sections are present.")).
Proof.
  eapply (proj1 (proj2 (proj2 (proj2
            (callOpenRouter_reads_first_choice (Some (js "sk-test"))
               (js "You are a validator.")
               (answering (js "Yes. All required sections are present."))
               reviewer_validator empty_world)))) (js "sk-test") 200%nat).
  - reflexivity.
  - discriminate.
  - reflexivity.
  - vm_compute. reflexivity.
  - vm_compute. reflexivity.
  - vm_compute. reflexivity.
  - vm_compute. reflexivity.
Defined.

(** *** validate *)

Lemma read_returns cacheRoot documentPath contentHash w :
  exists v w', CacheManager.read cacheRoot documentPath contentHash w = (Return v, w').
Proof.
  unfold CacheManager.read, bind, existsSync, gets, try_catch.
  destruct (negb _); [by eexists _, _ |].
  destruct (CacheManager.lookup_entry _ contentHash w) as [[v | e] w1];
    [by eexists _, _ |].
  destruct (discard_returns (CacheManager.cachePathFor cacheRoot documentPath) e w1)
    as (w2 & -> & _).
  by eexists _, _.
Qed.

Lemma write_returns cacheRoot documentPath contentHash o meta w :
  exists w', CacheManager.write cacheRoot documentPath contentHash o meta w = (Return tt, w').
Proof.
  unfold CacheManager.write, bind, gets, try_catch.
  destruct (CacheManager.attempt _ _ w) as [[[] | e] w1]; [by eexists |].
  destruct (cleanup_returns (CacheManager.cachePathFor cacheRoot documentPath) e w1)
    as (w2 & -> & _).
  by eexists.
Qed.

(** A run that starts with no fault pending ends with none. *)
Lemma next_fault_quiet_after w :
  io_faults w = [] -> io_faults (snd (next_fault w)) = [].
Proof. intros H. by rewrite next_fault_quiet. Qed.

Lemma unlinkSync_quiet_after p w :
  io_faults w = [] -> io_faults (snd (unlinkSync p w)) = [].
Proof.
  intros H. unfold unlinkSync, bind. rewrite next_fault_quiet by done.
  unfold gets. by destruct (is_file w p).
Qed.

Lemma read_quiet_after cacheRoot documentPath contentHash w :
  io_faults w = [] ->
  io_faults (snd (CacheManager.read cacheRoot documentPath contentHash w)) = [].
Proof.
  intros Hquiet. unfold CacheManager.read, bind, existsSync, gets, try_catch.
  destruct (negb _); [done |].
  set (cp := CacheManager.cachePathFor cacheRoot documentPath).
  assert (Hl : forall o w1, CacheManager.lookup_entry cp contentHash w = (o, w1) ->
                            io_faults w1 = []).
  { intros o w1. unfold CacheManager.lookup_entry. unfold bind at 1.
    unfold readFileSync, bind at 1. rewrite next_fault_quiet by done.
    unfold bind at 1, gets. destruct (files w !! cp) as [raw |]; [| by intros [= _ <-]].
    cbn [ret]. unfold bind at 1.
    pose proof (pure_JSON_parse raw w) as Hp. rewrite Hp.
    destruct (outcome_of (CacheManager.JSON_parse raw)) as [j | e]; [| by intros [= _ <-]].
    unfold bind at 1. rewrite (pure_property j (js "version") w).
    destruct (outcome_of (CacheManager.property j (js "version"))) as [ver | e];
      [| by intros [= _ <-]].
    destruct (CacheManager.differs ver CacheManager.CACHE_VERSION); [by intros [= _ <-] |].
    unfold bind at 1. rewrite (pure_property j (js "content_hash") w).
    destruct (outcome_of (CacheManager.property j (js "content_hash"))) as [h | e];
      [| by intros [= _ <-]].
    destruct (CacheManager.differs h contentHash); [by intros [= _ <-] |].
    rewrite (pure_property j (js "result") w). by intros [= _ <-]. }
  destruct (CacheManager.lookup_entry cp contentHash w) as [[v | e] w1] eqn:Hrun.
  - by apply (Hl _ _ eq_refl).
  - specialize (Hl _ _ eq_refl).
    unfold CacheManager.discard, bind, try_catch, debug_enabled, gets, ret,
      console_warn, modify.
    pose proof (unlinkSync_quiet_after cp w1 Hl) as Hu.
    destruct (unlinkSync cp w1) as [[[] | e'] w2]; cbn [snd] in Hu;
      destruct (match env_DEBUG w2 with Some v => truthy v | None => false end);
      cbn [snd io_faults add_console]; exact Hu.
Qed.

Lemma unlinkSync_files_shrink p w q content :
  files (snd (unlinkSync p w)) !! q = Some content -> files w !! q = Some content.
Proof.
  unfold unlinkSync, bind, next_fault, gets.
  destruct (io_faults w) as [| [| m | m r] rest]; cbn [fst snd];
    try (destruct (is_file _ p)); cbn [snd files set_files set_io_faults modify throw];
    try done; intros H; apply lookup_delete_Some in H; tauto.
Qed.

Lemma read_never_writes_files cacheRoot documentPath contentHash w q content :
  files (snd (CacheManager.read cacheRoot documentPath contentHash w)) !! q = Some content ->
  files w !! q = Some content.
Proof.
  unfold CacheManager.read, bind, existsSync, gets, try_catch.
  destruct (negb _); [done |].
  set (cp := CacheManager.cachePathFor cacheRoot documentPath).
  assert (Hl : files (snd (CacheManager.lookup_entry cp contentHash w)) = files w).
  { unfold CacheManager.lookup_entry. unfold bind at 1.
    assert (Hr : forall o w1, readFileSync cp w = (o, w1) -> files w1 = files w).
    { intros o w1. unfold readFileSync, bind, next_fault, gets.
      destruct (io_faults w) as [| [| m | m r] rest]; cbn;
        try (destruct (files w !! cp)); by intros [= _ <-]. }
    destruct (readFileSync cp w) as [[raw | e] w1] eqn:Hrun;
      specialize (Hr _ _ eq_refl); [| done].
    unfold bind at 1. rewrite (pure_JSON_parse raw w1).
    destruct (outcome_of (CacheManager.JSON_parse raw)) as [j | e]; [| done].
    unfold bind at 1. rewrite (pure_property j (js "version") w1).
    destruct (outcome_of (CacheManager.property j (js "version"))) as [ver | e]; [| done].
    destruct (CacheManager.differs ver CacheManager.CACHE_VERSION); [done |].
    unfold bind at 1. rewrite (pure_property j (js "content_hash") w1).
    destruct (outcome_of (CacheManager.property j (js "content_hash"))) as [h | e]; [| done].
    destruct (CacheManager.differs h contentHash); [done |].
    by rewrite (pure_property j (js "result") w1). }
  destruct (CacheManager.lookup_entry cp contentHash w) as [[v | e] w1]; cbn [snd] in *.
  - by rewrite Hl.
  - unfold CacheManager.discard, bind, try_catch, debug_enabled, gets, ret,
      console_warn, modify.
    pose proof (unlinkSync_files_shrink cp w1 q content) as Hu.
    destruct (unlinkSync cp w1) as [[[] | e'] w2]; cbn [snd] in Hu;
      destruct (match env_DEBUG w2 with Some v => truthy v | None => false end);
      cbn [snd files add_console]; rewrite <- Hl; exact Hu.
Qed.

Section Validate.

Variable toLowerCase : jsstring -> jsstring.
Variable number_truthy : jsstring -> bool.

Lemma validate_on_hit
  (key : option jsstring) (prompt : jsstring)
  (fetch : jsstring -> jsstring -> Validator.reply)
  (v : Validator.DocumentValidator) (cacheRoot : jsstring) (cached : json) (w : world) :
  Validator.cacheManager v = Some cacheRoot ->
  fst (CacheManager.read cacheRoot (Validator.documentPath v)
         (Validator.getContentHash v) w) = Return (V cached) ->
  Validator.truthy_value number_truthy (V cached) = true ->
  Validator.validate toLowerCase key prompt fetch number_truthy v w
  = (Return (Validator.Cached cached),
     snd (CacheManager.read cacheRoot (Validator.documentPath v)
            (Validator.getContentHash v) w)).
Proof.
  intros Hm Hread Htruthy. unfold Validator.validate. rewrite Hm.
  unfold bind at 1.
  destruct (CacheManager.read cacheRoot _ _ w) as [o w1]. cbn [fst snd] in *. subst o.
  unfold Validator.cache_hit. by rewrite Htruthy.
Qed.

(** X15.  Without I/O failure, when [validate] has returned a fresh result with
    a cache manager, a second [validate] of the same validator returns the
    sanitized result from the cache and changes nothing, whatever the key,
    the prompt and the service are by then. *)
Theorem validate_second_call_hits_cache
  (key key' : option jsstring) (prompt prompt' : jsstring)
  (fetch fetch' : jsstring -> jsstring -> Validator.reply)
  (v : Validator.DocumentValidator) (cacheRoot : jsstring)
  (result : CachedValidationResult) (w : world) :
  let first := Validator.validate toLowerCase key prompt fetch number_truthy v w in
  io_faults w = [] ->
  Validator.cacheManager v = Some cacheRoot ->
  fst first = Return (Validator.Fresh result) ->
  Validator.validate toLowerCase key' prompt' fetch' number_truthy v (snd first)
  = (Return (Validator.Cached
               (CacheManager.encode_result (CacheManager.sanitizeResult result))),
     snd first).
Proof.
  cbv zeta. intros Hquiet Hm.
  destruct (Validator.validate toLowerCase key prompt fetch number_truthy v w)
    as [o w1] eqn:Hrun.
  cbn [fst snd]. intros ->. revert Hrun.
  unfold Validator.validate at 1. rewrite Hm.
  unfold bind at 1.
  pose proof (read_quiet_after cacheRoot (Validator.documentPath v)
                (Validator.getContentHash v) w Hquiet) as Hq0.
  destruct (CacheManager.read cacheRoot _ _ w) as [[c | e] w0]; [| done].
  cbn [snd] in Hq0.
  destruct (Validator.cache_hit number_truthy c) as [j |]; [done |].
  unfold bind at 1. rewrite pure_callOpenRouter.
  destruct (outcome_of _) as [response | e]; [| done].
  unfold bind at 1.
  destruct response as [| | | s | |]; try done.
  cbn [Validator.parse_reply ret]. unfold bind at 1.
  rewrite write_quiet by done. cbn [ret]. intros [= <- <-].
  match goal with |- Validator.validate _ _ _ _ _ _ ?x = _ => set (w1 := x) end.
  assert (Hread :
    CacheManager.read cacheRoot (Validator.documentPath v) (Validator.getContentHash v) w1
    = (Return (V (CacheManager.encode_result
                    (CacheManager.sanitizeResult
                       (DocumentValidator.parseResponse toLowerCase s)))), w1)).
  { rewrite (read_hit cacheRoot (Validator.documentPath v) (Validator.getContentHash v)
               (CacheManager.cacheData_for (Validator.documentPath v)
                  (Validator.getContentHash v)
                  (DocumentValidator.parseResponse toLowerCase s)
                  (CacheManager.mkMeta (Validator.type_name (Validator.documentType v))
                     (Validator.readmePath v)) (clock w0))).
    - cbn [CacheManager.cacheData_for CacheManager.content_hash CacheManager.result].
      by rewrite eqb_str_refl.
    - done.
    - subst w1. cbn [files set_files set_dirs]. apply lookup_insert_eq.
    - reflexivity. }
  pose proof (validate_on_hit key' prompt' fetch' v cacheRoot
                (CacheManager.encode_result
                   (CacheManager.sanitizeResult
                      (DocumentValidator.parseResponse toLowerCase s))) w1 Hm) as Hhit.
  rewrite Hread in Hhit. by apply Hhit.
Qed.

(** X16.  When the service answers with a text, [validate] returns, whichever
    file-system call fails: it returns the result parsed from the answer, or
    the cached entry if the lookup found one. *)
Theorem validate_survives_cache_failures
  (key : option jsstring) (prompt : jsstring)
  (fetch : jsstring -> jsstring -> Validator.reply)
  (v : Validator.DocumentValidator) (reply : jsstring) (w : world) :
  fst (Validator.callOpenRouter key prompt fetch v w) = Return (JString reply) ->
  exists w',
    (Validator.validate toLowerCase key prompt fetch number_truthy v w
     = (Return (Validator.Fresh (DocumentValidator.parseResponse toLowerCase reply)), w'))
    \/ (exists cached,
          Validator.validate toLowerCase key prompt fetch number_truthy v w
          = (Return (Validator.Cached cached), w')).
Proof.
  intros Hcall. rewrite pure_callOpenRouter in Hcall. cbn [fst] in Hcall.
  destruct (Validator.validate toLowerCase key prompt fetch number_truthy v w)
    as [o w'] eqn:Hrun.
  cut (o = Return (Validator.Fresh (DocumentValidator.parseResponse toLowerCase reply))
       \/ exists cached, o = Return (Validator.Cached cached)).
  { intros [-> | [cached ->]]; exists w'; [by left | right; by exists cached]. }
  revert Hrun. unfold Validator.validate.
  destruct (Validator.cacheManager v) as [cacheRoot |].
  - unfold bind at 1.
    destruct (read_returns cacheRoot (Validator.documentPath v)
                (Validator.getContentHash v) w) as (c & w0 & ->).
    destruct (Validator.cache_hit number_truthy c) as [j |].
    { intros [= <- _]. right. by exists j. }
    unfold bind at 1. rewrite pure_callOpenRouter, Hcall.
    unfold bind at 1. cbn [Validator.parse_reply ret]. unfold bind at 1.
    destruct (write_returns cacheRoot (Validator.documentPath v)
                (Validator.getContentHash v)
                (DocumentValidator.parseResponse toLowerCase reply)
                (CacheManager.mkMeta (Validator.type_name (Validator.documentType v))
                   (Validator.readmePath v)) w0) as (w1 & ->).
    intros [= <- _]. by left.
  - unfold bind at 1. cbn [ret Validator.cache_hit].
    unfold bind at 1. rewrite pure_callOpenRouter, Hcall.
    intros [= <- _]. by left.
Qed.

(** X17.  When the call of the service fails, [validate] throws that very error,
    unless the cache had an entry, and creates or changes no file: every file
    there is after the run was there before, with the same content. *)
Theorem validate_failed_call_caches_nothing
  (key : option jsstring) (prompt : jsstring)
  (fetch : jsstring -> jsstring -> Validator.reply)
  (v : Validator.DocumentValidator) (err : exn) (w : world) :
  fst (Validator.callOpenRouter key prompt fetch v w) = Throw err ->
  let r := Validator.validate toLowerCase key prompt fetch number_truthy v w in
  (fst r = Throw err \/ exists cached, fst r = Return (Validator.Cached cached))
  /\ (forall q content, files (snd r) !! q = Some content -> files w !! q = Some content).
Proof.
  intros Hcall. rewrite pure_callOpenRouter in Hcall. cbn [fst] in Hcall.
  cbv zeta.
  destruct (Validator.validate toLowerCase key prompt fetch number_truthy v w)
    as [o w'] eqn:Hrun.
  cbn [fst snd]. revert Hrun. unfold Validator.validate.
  destruct (Validator.cacheManager v) as [cacheRoot |].
  - unfold bind at 1.
    pose proof (read_never_writes_files cacheRoot (Validator.documentPath v)
                  (Validator.getContentHash v) w) as Hfiles.
    destruct (CacheManager.read cacheRoot _ _ w) as [[c | e] w0] eqn:Hread.
    2:{ destruct (read_returns cacheRoot (Validator.documentPath v)
                    (Validator.getContentHash v) w) as (c & w0' & Hr). congruence. }
    cbn [snd] in Hfiles.
    destruct (Validator.cache_hit number_truthy c) as [j |].
    { intros [= <- <-]. split; [right; by exists j | exact Hfiles]. }
    unfold bind at 1. rewrite pure_callOpenRouter, Hcall.
    intros [= <- <-]. split; [by left | exact Hfiles].
  - unfold bind at 1. cbn [ret Validator.cache_hit].
    unfold bind at 1. rewrite pure_callOpenRouter, Hcall.
    intros [= <- <-]. split; [by left | done].
Qed.

End Validate.

Lemma validate_second_call_hits_cache_witness :
  let first :=
    Validator.validate toLowerCase_ascii (Some (js "sk-test")) (js "You are a validator.")
      (answering (js "Yes. All required sections are present.")) (fun _ => true)
      reviewer_validator project_documents in
  fst (Validator.validate toLowerCase_ascii None [] unreachable (fun _ => true)
         reviewer_validator (snd first))
  = Return (Validator.Cached
              (CacheManager.encode_result
                 (CacheManager.sanitizeResult
                    (DocumentValidator.parseResponse toLowerCase_ascii
                       (js "Yes. All required sections are present."))))).
Proof.
  cbv zeta.
  rewrite (validate_second_call_hits_cache toLowerCase_ascii (fun _ => true)
             (Some (js "sk-test")) None (js "You are a validator.") []
             (answering (js "Yes. All required sections are present.")) unreachable
             reviewer_validator cache_root
             (DocumentValidator.parseResponse toLowerCase_ascii
                (js "Yes. All required sections are present.")) project_documents).
  - reflexivity.
  - reflexivity.
  - reflexivity.
  - vm_compute. reflexivity.
Defined.

Lemma validate_survives_cache_failures_witness :
  exists w',
    (Validator.validate toLowerCase_ascii (Some (js "sk-test")) (js "You are a validator.")
       (answering (js "Maybe: the owner field is missing")) (fun _ => true)
       reviewer_validator failing_disk
     = (Return (Validator.Fresh
                  (DocumentValidator.parseResponse toLowerCase_ascii
                     (js "Maybe: the owner field is missing"))), w'))
    \/ (exists cached,
          Validator.validate toLowerCase_ascii (Some (js "sk-test"))
            (js "You are a validator.")
            (answering (js "Maybe: the owner field is missing")) (fun _ => true)
            reviewer_validator failing_disk
          = (Return (Validator.Cached cached), w')).
Proof.
  apply (validate_survives_cache_failures toLowerCase_ascii (fun _ => true)
           (Some (js "sk-test")) (js "You are a validator.")
           (answering (js "Maybe: the owner field is missing"))
           reviewer_validator (js "Maybe: the owner field is missing") failing_disk).
  vm_compute. reflexivity.
Defined.

Lemma validate_failed_call_caches_nothing_witness :
  let r := Validator.validate toLowerCase_ascii None [] unreachable (fun _ => true)
             reviewer_validator project_documents in
  (fst r = Throw (JsError (js "OPENROUTER_API_KEY environment variable not set"))
   \/ exists cached, fst r = Return (Validator.Cached cached))
  /\ (forall q content,
        files (snd r) !! q = Some content -> files project_documents !! q = Some content).
Proof.
  apply (validate_failed_call_caches_nothing toLowerCase_ascii (fun _ => true) None []
           unreachable reviewer_validator
           (JsError (js "OPENROUTER_API_KEY environment variable not set"))
           project_documents).
  reflexivity.
Defined.

(** *** The constructor *)

Section Construction.

Variable yaml_load : jsstring -> option (jsstring -> option jsstring).
Variable cwd : jsstring.

(** X12.  What a constructed validator holds: the content of the document and
    of its specification as the file system has them, the type detected from
    the document, and as specification the given path or else the nearest
    README.md.  It has no cache manager only when none was given and caching
    is off.  Without I/O failure a missing document gives ENOENT, and a
    document without README.md the error of [findReadme].  Construction
    changes no file and logs nothing. *)
Theorem new_validator_loads_document_and_spec
  (documentPath : jsstring) (specPath : option jsstring) (useCache : bool)
  (cacheManager : option jsstring) (w : world) :
  let run := Validator.new yaml_load cwd documentPath specPath useCache cacheManager w in
  let near := Path.join [Path.dirname documentPath; js "README.md"] in
  let parent := Path.join [Path.dirname (Path.dirname documentPath); js "README.md"] in
  let found p := is_file w p || is_dir w p in
  (forall v, fst run = Return v ->
     files w !! documentPath = Some (Validator.documentContent v)
     /\ files w !! Validator.readmePath v = Some (Validator.readmeContent v)
     /\ Validator.documentPath v = documentPath
     /\ Validator.documentType v
        = Validator.detectDocumentType yaml_load documentPath (Validator.documentContent v)
     /\ match specPath with
        | Some p => Validator.readmePath v = p
        | None => Validator.readmePath v = near
                  \/ (found near = false /\ Validator.readmePath v = parent)
        end
     /\ (Validator.cacheManager v = None <-> cacheManager = None /\ useCache = false))
  /\ (io_faults w = [] -> files w !! documentPath = None ->
      fst run = Throw (FsError ENOENT))
  /\ (io_faults w = [] -> is_file w documentPath = true -> specPath = None ->
      found near = false -> found parent = false ->
      fst run = Throw (JsError (js "No README.md found for " ++ documentPath)))
  /\ files (snd run) = files w /\ log (snd run) = log w.
Proof.
  cbv zeta.
  assert (Hread : forall p w0 o w1,
            readFileSync p w0 = (o, w1) ->
            files w1 = files w0 /\ log w1 = log w0 /\ dirs w1 = dirs w0
            /\ (io_faults w0 = [] -> io_faults w1 = [])
            /\ (forall c, o = Return c -> files w0 !! p = Some c)
            /\ (io_faults w0 = [] -> files w0 !! p = None -> o = Throw (FsError ENOENT))).
  { intros p w0 o w1. cbv [readFileSync bind next_fault gets ret throw].
    destruct (io_faults w0) as [| [| m | m r] rest] eqn:Hf;
      try (destruct (files _ !! p) as [c |] eqn:Hp); intros [= <- <-];
      cbn [files log dirs io_faults set_io_faults]; repeat split; try done;
      try congruence. }
  assert (Hfind : forall w0,
            Validator.findReadme documentPath w0
            = (if is_file w0 (Path.join [Path.dirname documentPath; js "README.md"])
                  || is_dir w0 (Path.join [Path.dirname documentPath; js "README.md"])
               then Return (Path.join [Path.dirname documentPath; js "README.md"])
               else if is_file w0 (Path.join [Path.dirname (Path.dirname documentPath);
                                              js "README.md"])
                       || is_dir w0 (Path.join [Path.dirname (Path.dirname documentPath);
                                                js "README.md"])
                    then Return (Path.join [Path.dirname (Path.dirname documentPath);
                                            js "README.md"])
                    else Throw (JsError (js "No README.md found for " ++ documentPath)),
               w0)).
  { intros w0. unfold Validator.findReadme, bind, existsSync, gets, ret, throw.
    destruct (_ || _); [done |]. by destruct (_ || _). }
  assert (Hsame : forall w0, files w0 = files w -> dirs w0 = dirs w ->
                    forall p, (is_file w0 p || is_dir w0 p) = (is_file w p || is_dir w p)).
  { intros w0 Hf Hd p. unfold is_file, is_dir. by rewrite Hf, Hd. }
  destruct (Validator.new yaml_load cwd documentPath specPath useCache cacheManager w)
    as [o w'] eqn:Hrun.
  cbn [fst snd]. revert Hrun.
  unfold Validator.new. unfold bind at 1.
  destruct (readFileSync documentPath w) as [[d | e] w1] eqn:Hdoc.
  2:{ destruct (Hread _ _ _ _ Hdoc) as (Hf & Hl & Hd & Hq & Hc & Hn).
      intros [= <- <-]. split; [done |]. split.
      { intros Hquiet Hnone. specialize (Hn Hquiet Hnone). by injection Hn as ->. }
      split; [| done].
      intros Hquiet Hfile. unfold is_file in Hfile. apply bool_decide_eq_true in Hfile.
      destruct Hfile as [c Hc'].
      cbv [readFileSync bind next_fault gets ret throw] in Hdoc.
      rewrite Hquiet, Hc' in Hdoc. done. }
  destruct (Hread _ _ _ _ Hdoc) as (Hf1 & Hl1 & Hd1 & Hq1 & Hc1 & _).
  specialize (Hc1 d eq_refl).
  assert (Hcache : forall (m : jsstring),
            match cacheManager with
            | Some manager => Some manager
            | None => if useCache then Some m else None
            end = None <-> cacheManager = None /\ useCache = false).
  { intros m. destruct cacheManager, useCache; split; try done; by intros [? ?]. }
  unfold bind at 1.
  destruct specPath as [p |].
  - cbn [ret]. unfold bind at 1.
    destruct (readFileSync p w1) as [[r | e] w2] eqn:Hspec;
      destruct (Hread _ _ _ _ Hspec) as (Hf2 & Hl2 & _ & _ & Hc2 & _);
      cbn [ret]; intros [= <- <-].
    + split; [| split; [congruence | split; [done | split; congruence]]].
      intros v [= <-].
      cbn [Validator.documentContent Validator.readmePath Validator.readmeContent
           Validator.documentPath Validator.documentType Validator.cacheManager].
      split; [done |]. split; [rewrite <- Hf1; by apply Hc2 |].
      split; [done |]. split; [done |]. split; [done |]. apply Hcache.
    + split; [done |]. split; [congruence |]. split; [done | split; congruence].
  - rewrite Hfind. rewrite !(Hsame w1 Hf1 Hd1).
    destruct (is_file w _ || is_dir w _) eqn:Hnear.
    + unfold bind at 1.
      destruct (readFileSync _ w1) as [[r | e] w2] eqn:Hspec;
        destruct (Hread _ _ _ _ Hspec) as (Hf2 & Hl2 & _ & _ & Hc2 & _);
        cbn [ret]; intros [= <- <-].
      * split; [| split; [congruence | split; [congruence | split; congruence]]].
        intros v [= <-].
        cbn [Validator.documentContent Validator.readmePath Validator.readmeContent
             Validator.documentPath Validator.documentType Validator.cacheManager].
        split; [done |]. split; [rewrite <- Hf1; by apply Hc2 |].
        split; [done |]. split; [done |]. split; [by left |]. apply Hcache.
      * split; [done |]. split; [congruence |]. split; [congruence | split; congruence].
    + destruct (is_file w (Path.join [Path.dirname (Path.dirname documentPath); _])
                || is_dir w _) eqn:Hparent.
      * unfold bind at 1.
        destruct (readFileSync _ w1) as [[r | e] w2] eqn:Hspec;
          destruct (Hread _ _ _ _ Hspec) as (Hf2 & Hl2 & _ & _ & Hc2 & _);
          cbn [ret]; intros [= <- <-].
        -- split; [| split; [congruence | split; [congruence | split; congruence]]].
           intros v [= <-].
           cbn [Validator.documentContent Validator.readmePath Validator.readmeContent
                Validator.documentPath Validator.documentType Validator.cacheManager].
           split; [done |]. split; [rewrite <- Hf1; by apply Hc2 |].
           split; [done |]. split; [done |]. split; [by right |]. apply Hcache.
        -- split; [done |]. split; [congruence |]. split; [congruence | split; congruence].
      * intros [= <- <-]. split; [done |]. split; [congruence |]. split; [done |].
        split; congruence.
Qed.

End Construction.

(** ** The constitution of a role *)

Section Constitution.

Variable expandAll : tree -> list jsstring -> list jsstring.
Variable body : jsstring -> jsstring.
Variable root : jsstring.

Let full (p : jsstring) : jsstring := Path.join [root; p].
Let present (w : world) (p : jsstring) : bool :=
  is_file w (full p) || is_dir w (full p).

(** X18.  A manifest whose [constitution] is falsy inlines nothing and logs
    nothing.  For patterns (an array, or a non-empty string as the one
    pattern), in a run without I/O failure in which every resolved path that
    exists is a regular file, [inlineConstitution] returns the bodies of the
    expanded files that exist, in the order of the expansion, and warns once
    when the patterns match no file and once for each expanded file that is
    missing. *)
Theorem inlineConstitution_inlines_patterns (fm : Frontmatter) (w : world) :
  let raw := parse fm !! js "constitution" in
  let run := RoleCompiler.inlineConstitution expandAll body root fm w in
  (RoleCompiler.falsy raw = true -> run = (Return [], w))
  /\ (forall patterns,
        constitution_patterns raw = Some patterns ->
        io_faults w = [] ->
        let expanded := expandAll (tree_of w) patterns in
        (forall p, p ∈ expanded -> present w p = true -> is_file w (full p) = true) ->
        run = (Return (omap (fun p => body <$> files w !! full p) expanded),
               add_logs
                 ((match expanded with
                   | [] => [(Warn, js "Constitution patterns matched zero files")]
                   | _ :: _ => []
                   end)
                  ++ List.map (fun p => (Warn, js "Constitution file not found: " ++ p))
                       (List.filter (fun p => negb (present w p)) expanded))
                 w)).
Proof.
  cbv zeta. split.
  - intros Hfalsy. unfold RoleCompiler.inlineConstitution,
      RoleCompiler.resolveConstitutionPatterns.
    rewrite Hfalsy. reflexivity.
  - intros patterns Hpat Hquiet Hfiles.
    unfold RoleCompiler.inlineConstitution, RoleCompiler.resolveConstitutionPatterns.
    assert (Hshape : RoleCompiler.falsy (parse fm !! js "constitution") = false
                     /\ RoleCompiler.is_true (parse fm !! js "constitution") = false
                     /\ match parse fm !! js "constitution" with
                        | Some (FmArray items) => items
                        | Some (FmString s) => [s]
                        | _ => []
                        end = patterns).
    { destruct (parse fm !! js "constitution") as [[| b | s | items] |];
        cbn in Hpat; try done.
      - destruct (truthy s) eqn:Hs; [| done]. injection Hpat as <-.
        cbn. by rewrite Hs.
      - by injection Hpat as <-. }
    destruct Hshape as (Hf & Ht & Hp). rewrite Hf, Ht, Hp. cbn [negb andb].
    unfold bind at 1, gets at 1.
    set (expanded := expandAll (tree_of w) patterns).
    unfold bind at 1.
    assert (Hwarn :
      (if (length expanded =? 0)%nat
       then logger_warn (js "Constitution patterns matched zero files")
       else ret tt) w
      = (Return tt,
         add_logs (match expanded with
                   | [] => [(Warn, js "Constitution patterns matched zero files")]
                   | _ :: _ => []
                   end) w)).
    { destruct expanded; cbn; [reflexivity |]. by rewrite add_logs_nil. }
    rewrite Hwarn. unfold bind at 1.
    match goal with |- context [add_logs ?es w] => set (zw := es) end.
    assert (Hmap := inline_all_quiet body root (js "Constitution file not found: ")
                      expanded (add_logs zw w) Hquiet).
    change (files (add_logs zw w)) with (files w) in Hmap.
    change (is_file (add_logs zw w)) with (is_file w) in Hmap.
    change (is_dir (add_logs zw w)) with (is_dir w) in Hmap.
    rewrite Hmap by exact Hfiles.
    rewrite add_logs_app. unfold ret. by rewrite non_null_map.
Qed.

End Constitution.

(** ** Agent metadata and the plugin file *)

(** *** quoteIfNeeded *)

Lemma escape_injective (a b : jsstring) :
  ClaudeCodePlugin.escape a = ClaudeCodePlugin.escape b -> a = b.
Proof.
  revert b. induction a as [| x a IH]; intros [| y b]; cbn [ClaudeCodePlugin.escape].
  - done.
  - destruct (y =? 92); [done |]. destruct (y =? 34); done.
  - destruct (x =? 92); [done |]. destruct (x =? 34); done.
  - destruct (N.eqb_spec x 92) as [-> | Hx1]; [| destruct (N.eqb_spec x 34) as [-> | Hx2]];
      (destruct (N.eqb_spec y 92) as [-> | Hy1]; [| destruct (N.eqb_spec y 34) as [-> | Hy2]]);
      intros H; injection H; intros; subst; try done; f_equal; by apply IH.
Qed.

(** X20.  [quoteIfNeeded] loses nothing: two values with the same YAML text are
    the same value. *)
Theorem quoteIfNeeded_injective (a b : jsstring) :
  ClaudeCodePlugin.quoteIfNeeded a = ClaudeCodePlugin.quoteIfNeeded b -> a = b.
Proof.
  unfold ClaudeCodePlugin.quoteIfNeeded.
  destruct (existsb ClaudeCodePlugin.is_yaml_special a || includes [10] a) eqn:Ha;
    destruct (existsb ClaudeCodePlugin.is_yaml_special b || includes [10] b) eqn:Hb.
  - intros H. injection H as H. apply app_inj_tail in H as [H _].
    by apply escape_injective.
  - intros <-. cbn in Hb. done.
  - intros ->. cbn in Ha. done.
  - done.
Qed.

Lemma quoteIfNeeded_injective_witness :
  js "Reviews: code" = js "Reviews: code".
Proof.
  apply (quoteIfNeeded_injective (js "Reviews: code") (js "Reviews: code")).
  reflexivity.
Defined.

(** *** The agent name and the plugin front matter *)

Lemma hyphenate_no_alnum s :
  existsb RoleCompiler.is_alnum s = false ->
  RoleCompiler.hyphenate_from true s = []
  /\ (RoleCompiler.hyphenate_from false s = []
      \/ RoleCompiler.hyphenate_from false s = [45]).
Proof.
  induction s as [| c s IH]; [by split; [| left] |].
  cbn [existsb RoleCompiler.hyphenate_from]. intros [Hc Hs]%orb_false_iff.
  rewrite Hc. destruct (IH Hs) as [Htrue _]. rewrite Htrue. by split; [| right].
Qed.

Lemma hyphenate_keeps_alnum b s c :
  In c s -> RoleCompiler.is_alnum c = true -> In c (RoleCompiler.hyphenate_from b s).
Proof.
  revert b. induction s as [| x s IH]; intros b; [done |].
  intros [-> | Hin] Hc; cbn [RoleCompiler.hyphenate_from].
  - rewrite Hc. by left.
  - destruct (RoleCompiler.is_alnum x); [right; by apply IH |].
    destruct b; [by apply IH | right; by apply IH].
Qed.

Lemma strip_hyphens_keeps s c : In c s -> c <> 45 -> In c (RoleCompiler.strip_hyphens s).
Proof.
  intros Hin Hc. unfold RoleCompiler.strip_hyphens.
  set (s1 := match s with 45 :: r => r | _ => s end).
  assert (H1 : In c s1).
  { subst s1. destruct s as [| x r]; [done |].
    destruct (N.eq_dec x 45) as [-> | Hx].
    - destruct Hin as [<- | Hin]; done.
    - destruct x as [| p]; [done |].
      repeat (destruct p as [p | p |]; try done). }
  destruct (rev s1) as [| x r] eqn:Hrev; [done |].
  assert (Hs1 : s1 = rev r ++ [x]).
  { rewrite <- (rev_involutive s1), Hrev. done. }
  destruct (N.eq_dec x 45) as [-> | Hx].
  - rewrite Hs1 in H1. apply in_app_or in H1 as [H1 | [<- | []]]; done.
  - destruct x as [| p]; [done |].
    repeat (destruct p as [p | p |]; try done).
Qed.

Lemma agent_name_empty_iff toLowerCase roleAlias :
  RoleCompiler.agent_name toLowerCase roleAlias = []
  <-> existsb RoleCompiler.is_alnum (toLowerCase roleAlias) = false.
Proof.
  unfold RoleCompiler.agent_name, RoleCompiler.hyphenate. split.
  - intros Hnil. destruct (existsb _ _) eqn:Hex; [| done].
    apply existsb_exists in Hex as (c & Hin & Hc).
    assert (Hkeep : In c (RoleCompiler.strip_hyphens
                            (RoleCompiler.hyphenate_from false (toLowerCase roleAlias)))).
    { apply strip_hyphens_keeps; [by apply hyphenate_keeps_alnum |].
      intros ->. done. }
    by rewrite Hnil in Hkeep.
  - intros Hno. destruct (hyphenate_no_alnum _ Hno) as [_ [-> | ->]]; reflexivity.
Qed.

(** X19.  [buildAgentMetadata] always returns.  It returns [null], with one
    warning, exactly when the manifest has no description, and logs nothing
    otherwise.  The plugin builds a front matter from what it returns
    exactly when there is a description and the lower-cased alias holds a
    letter or digit. *)
Theorem frontmatter_needs_description_and_name
  (toLowerCase : jsstring -> jsstring) (fm : Frontmatter) (roleAlias : jsstring) (w : world) :
  let r := RoleCompiler.buildAgentMetadata toLowerCase fm roleAlias w in
  let described := RoleCompiler.nonempty (value fm (js "description")) in
  exists metadata,
    fst r = Return metadata
    /\ (metadata = None <-> described = None)
    /\ (ClaudeCodePlugin.buildFrontmatter metadata <> None
        <-> described <> None
            /\ existsb RoleCompiler.is_alnum (toLowerCase roleAlias) = true)
    /\ snd r = match metadata with
               | Some _ => w
               | None =>
                   add_log (Warn, js "No description found in role, skipping agent metadata") w
               end.
Proof.
  cbv zeta. unfold RoleCompiler.buildAgentMetadata.
  destruct (RoleCompiler.nonempty (value fm (js "description"))) as [d |] eqn:Hd.
  - eexists. split; [reflexivity |]. split; [split; intros [=] |]. split; [| reflexivity].
    unfold ClaudeCodePlugin.buildFrontmatter. cbn [name description].
    assert (Hdne : truthy d = true).
    { unfold RoleCompiler.nonempty in Hd. destruct (value fm _) as [s |]; [| done].
      destruct (truthy s) eqn:Hs; [| done]. by injection Hd as <-. }
    rewrite Hdne. cbn [negb orb]. rewrite orb_false_r.
    pose proof (agent_name_empty_iff toLowerCase roleAlias) as Hname.
    destruct (RoleCompiler.agent_name toLowerCase roleAlias) as [| c n] eqn:Hn.
    + cbn [truthy negb]. split; [done |]. intros [_ Hex].
      rewrite (proj1 Hname eq_refl) in Hex. done.
    + cbn [truthy negb]. split; [| done]. intros _. split; [done |].
      destruct (existsb _ _); [done |]. discriminate (proj2 Hname eq_refl).
  - eexists. split; [reflexivity |]. split; [split; reflexivity |]. split; [| reflexivity].
    cbn. split; [done | by intros [? _]].
Qed.

(** *** A successful run of writeOutputs *)

Lemma plugin_compile_quiet toLowerCase dir profile metadata roleAlias w :
  io_faults w = [] ->
  exists w',
    ClaudeCodePlugin.compile toLowerCase dir profile metadata roleAlias w = (Return tt, w')
    /\ files w' =
         <[Path.join [dir; toLowerCase roleAlias ++ js ".md"] :=
             match ClaudeCodePlugin.buildFrontmatter metadata with
             | Some frontmatter => frontmatter ++ [10] ++ profile
             | None => profile
             end]> (files w)
    /\ log w' = log w /\ io_faults w' = [].
Proof.
  intros Hquiet. unfold ClaudeCodePlugin.compile, bind, existsSync, gets.
  destruct (negb (is_file w dir || is_dir w dir)).
  - rewrite mkdirSync_quiet by done.
    rewrite writeFileSync_quiet by done. eexists; split; [done |]. done.
  - unfold ret. rewrite writeFileSync_quiet by done. eexists; split; [done |]. done.
Qed.

(** X21.  With a profile directory configured, [claude-code] as the only plugin
    and no I/O failure, [writeOutputs] returns, logs nothing and writes two
    files: the profile under the profile directory and, under the output
    directory of the plugin, the profile preceded by the front matter; the
    profile alone when there is no metadata. *)
Theorem writeOutputs_writes_profile_and_plugin_file
  (toLowerCase : jsstring -> jsstring) (root : jsstring) (config : PraxisConfig)
  (dir profile roleAlias : jsstring) (metadata : option AgentMetadata) (w : world) :
  agentProfilesOutputDir config = Some dir ->
  truthy dir = true ->
  plugins config = [js "claude-code"] ->
  io_faults w = [] ->
  let fileName := toLowerCase roleAlias ++ js ".md" in
  let pluginDir :=
    ClaudeCodePlugin.outputDir root (Some (pluginsOutputDir config))
      (Some (pluginName config)) in
  let content :=
    match ClaudeCodePlugin.buildFrontmatter metadata with
    | Some frontmatter => frontmatter ++ [10] ++ profile
    | None => profile
    end in
  exists w',
    RoleCompiler.writeOutputs toLowerCase root config profile metadata roleAlias w
    = (Return tt, w')
    /\ files w' = <[Path.join [pluginDir; fileName] := content]>
                    (<[Path.join [dir; fileName] := profile]> (files w))
    /\ log w' = log w
    /\ (exists prefix, content = prefix ++ profile)
    /\ (metadata = None -> content = profile).
Proof.
  intros Hdir Htruthy Hplugins Hquiet. cbv zeta.
  destruct (write_profile_quiet toLowerCase config dir profile roleAlias w)
    as (w1 & Hrun & Hfiles & Hlog); try done.
  assert (Hq1 : io_faults w1 = []).
  { revert Hrun. unfold RoleCompiler.write_profile. rewrite Hdir, Htruthy.
    unfold bind, existsSync, gets.
    destruct (negb (is_file w dir || is_dir w dir)).
    - rewrite mkdirSync_quiet by done. rewrite writeFileSync_quiet by done.
      by intros [= <-].
    - unfold ret. rewrite writeFileSync_quiet by done. by intros [= <-]. }
  destruct (plugin_compile_quiet toLowerCase
              (ClaudeCodePlugin.outputDir root (Some (pluginsOutputDir config))
                 (Some (pluginName config)))
              profile metadata roleAlias w1 Hq1) as (w2 & Hrun2 & Hfiles2 & Hlog2 & _).
  exists w2. split; [| split; [| split; [| split]]].
  - unfold RoleCompiler.writeOutputs. unfold bind at 1. rewrite Hrun.
    rewrite Hplugins. unfold bind at 1.
    cbn [PluginRegistry.resolvePlugins map_M]. unfold bind at 1.
    unfold PluginRegistry.resolve_one at 1.
    change (PluginRegistry.PLUGINS (js "claude-code"))
      with PluginRegistry.ClaudeCodeConstructor.
    cbv iota. cbn [ret]. unfold bind at 1. cbn [ret for_each].
    unfold bind at 1. cbn [PluginRegistry.plugin_compile]. rewrite Hrun2. reflexivity.
  - by rewrite Hfiles2, Hfiles.
  - congruence.
  - destruct (ClaudeCodePlugin.buildFrontmatter metadata) as [f |].
    + exists (f ++ [10]). by rewrite <- app_assoc.
    + by exists [].
  - by intros ->.
Qed.

Lemma writeOutputs_writes_profile_and_plugin_file_witness :
  exists w',
    RoleCompiler.writeOutputs toLowerCase_ascii (js "/proj")
      (project_config [js "claude-code"]) (js "# Role") None (js "Reviewer") empty_world
    = (Return tt, w')
    /\ files w' = <[Path.join [ClaudeCodePlugin.outputDir (js "/proj")
                                 (Some (js "/proj/plugins")) (Some (js "praxis"));
                               toLowerCase_ascii (js "Reviewer") ++ js ".md"] := js "# Role"]>
                    (<[Path.join [js "/proj/agent-profiles";
                                  toLowerCase_ascii (js "Reviewer") ++ js ".md"]
                        := js "# Role"]> (files empty_world)).
Proof.
  destruct (writeOutputs_writes_profile_and_plugin_file toLowerCase_ascii (js "/proj")
              (project_config [js "claude-code"]) (js "/proj/agent-profiles")
              (js "# Role") (js "Reviewer") None empty_world
              eq_refl eq_refl eq_refl eq_refl) as (w' & Hrun & Hfiles & _).
  exists w'. split; [exact Hrun | exact Hfiles].
Defined.


(** ** The project configuration *)

Lemma load_reads_object (root text : jsstring) (members : list (jsstring * json))
  (w : world) :
  io_faults w = [] ->
  files w !! Path.join [root; Config.CONFIG_FILE] = Some text ->
  JSON.parse text = Some (JObject members) ->
  Config.load root w
  = (Return
       {| Config.agentProfilesOutputDir :=
            setting members (js "agentProfilesOutputDir")
              (JString (js "./agent-profiles"));
          Config.plugins := setting members (js "plugins") (JArray []);
          Config.sources :=
            setting members (js "sources") (Config.sources Config.DEFAULT_CONFIG);
          Config.rolesDir := setting members (js "rolesDir") (JString (js "roles"));
          Config.responsibilitiesDir :=
            setting members (js "responsibilitiesDir") (JString (js "responsibilities"));
          Config.pluginsOutputDir :=
            setting members (js "pluginsOutputDir") (JString (js "./plugins"));
          Config.pluginName :=
            setting members (js "pluginName") (JString (js "praxis")) |}, w).
Proof.
  intros Hquiet Hfile Hparse.
  unfold Config.load. unfold bind at 1, existsSync, gets.
  assert (Hpresent : is_file w (Path.join [root; Config.CONFIG_FILE]) = true).
  { unfold is_file. apply bool_decide_eq_true. by rewrite Hfile. }
  rewrite Hpresent. cbn [orb negb]. unfold bind at 1.
  rewrite readFileSync_quiet by done. rewrite Hfile.
  unfold bind at 1, CacheManager.JSON_parse. rewrite Hparse. reflexivity.
Qed.

(** X23.  Without a configuration file [load] returns the defaults and touches
    nothing.  From a file that holds a JSON object, read without I/O
    failure, each setting is the member of that name, or the default when
    the member is missing or [null].  No setting of a loaded configuration
    is [null]. *)
Theorem load_fills_every_setting (root : jsstring) (w : world) :
  let configPath := Path.join [root; Config.CONFIG_FILE] in
  let run := Config.load root w in
  (is_file w configPath || is_dir w configPath = false ->
   run = (Return Config.DEFAULT_CONFIG, w))
  /\ (forall text members,
        io_faults w = [] ->
        files w !! configPath = Some text ->
        JSON.parse text = Some (JObject members) ->
        run = (Return
                 {| Config.agentProfilesOutputDir :=
                      setting members (js "agentProfilesOutputDir")
                        (JString (js "./agent-profiles"));
                    Config.plugins := setting members (js "plugins") (JArray []);
                    Config.sources :=
                      setting members (js "sources")
                        (Config.sources Config.DEFAULT_CONFIG);
                    Config.rolesDir := setting members (js "rolesDir") (JString (js "roles"));
                    Config.responsibilitiesDir :=
                      setting members (js "responsibilitiesDir")
                        (JString (js "responsibilities"));
                    Config.pluginsOutputDir :=
                      setting members (js "pluginsOutputDir") (JString (js "./plugins"));
                    Config.pluginName :=
                      setting members (js "pluginName") (JString (js "praxis")) |}, w))
  /\ (forall data,
        fst run = Return data ->
        Config.agentProfilesOutputDir data <> JNull /\ Config.plugins data <> JNull
        /\ Config.sources data <> JNull /\ Config.rolesDir data <> JNull
        /\ Config.responsibilitiesDir data <> JNull
        /\ Config.pluginsOutputDir data <> JNull /\ Config.pluginName data <> JNull).
Proof.
  cbv zeta. split; [| split].
  - intros Habsent. unfold Config.load, bind, existsSync, gets. by rewrite Habsent.
  - intros text members Hquiet Hfile Hparse.
    by apply (load_reads_object root text members w).
  - intros data. unfold Config.load. unfold bind at 1, existsSync, gets.
    destruct (negb _).
    { intros [= <-]. repeat split; discriminate. }
    unfold bind at 1. destruct (readFileSync _ w) as [[text | e] w1]; [| done].
    unfold bind at 1.
    destruct (CacheManager.JSON_parse text w1) as [[raw | e] w2]; [| done].
    assert (Hdef : forall v d, d <> JNull -> Config.or_default v d <> JNull).
    { intros [| []] d Hd; done. }
    destruct raw; try done; unfold bind, CacheManager.property, ret; intros [= <-];
      cbn [Config.agentProfilesOutputDir Config.plugins Config.sources Config.rolesDir
           Config.responsibilitiesDir Config.pluginsOutputDir Config.pluginName];
      repeat split; first [discriminate | apply Hdef; discriminate].
Qed.

(** X24.  A configuration file that is not JSON makes [load] throw a
    SyntaxError, and one that holds [null] a TypeError: the defaults are no
    fallback for a file that is there. *)
Theorem load_rejects_unreadable_file (root text : jsstring) (w : world) :
  io_faults w = [] ->
  files w !! Path.join [root; Config.CONFIG_FILE] = Some text ->
  (JSON.parse text = None ->
   exists message, Config.load root w = (Throw (JsSyntaxError message), w))
  /\ (JSON.parse text = Some JNull ->
      exists message, Config.load root w = (Throw (JsTypeError message), w)).
Proof.
  intros Hquiet Hfile.
  assert (Hpresent : is_file w (Path.join [root; Config.CONFIG_FILE]) = true).
  { unfold is_file. apply bool_decide_eq_true. by rewrite Hfile. }
  split; intros Hparse; unfold Config.load; unfold bind at 1, existsSync, gets;
    rewrite Hpresent; cbn [orb negb]; unfold bind at 1;
    rewrite readFileSync_quiet by done; rewrite Hfile;
    unfold bind at 1, CacheManager.JSON_parse; rewrite Hparse.
  - eexists. reflexivity.
  - eexists. reflexivity.
Qed.

(** X25.  After a configuration object is loaded, [agentProfilesOutputDir] is
    [null] exactly when the file sets it to [false].  When the file leaves it
    out or sets it to [null] it is the default [./agent-profiles] resolved
    against the root, and a string is resolved against the root. *)
Theorem profile_output_disabled_by_false_only
  (cwd root text : jsstring) (members : list (jsstring * json)) (w : world) :
  io_faults w = [] ->
  files w !! Path.join [root; Config.CONFIG_FILE] = Some text ->
  JSON.parse text = Some (JObject members) ->
  exists data,
    Config.load root w = (Return data, w)
    /\ let profiles := Config.get_agentProfilesOutputDir cwd root data w in
       let configured := member (js "agentProfilesOutputDir") members in
       (fst profiles = Return None <-> configured = V (JBool false))
       /\ (configured = VUndefined \/ configured = V JNull ->
           fst profiles = Return (Some (Path.resolve cwd [root; js "./agent-profiles"])))
       /\ (forall dir, configured = V (JString dir) ->
                       fst profiles = Return (Some (Path.resolve cwd [root; dir]))).
Proof.
  intros Hquiet Hfile Hparse.
  rewrite (load_reads_object root text members w Hquiet Hfile Hparse).
  eexists. split; [reflexivity |]. cbv zeta.
  unfold Config.get_agentProfilesOutputDir, setting.
  cbn [Config.agentProfilesOutputDir].
  destruct (member (js "agentProfilesOutputDir") members)
    as [| [| [|] | n | s | items | ms]]; cbn;
    (split; [split; intros; done |]); (split; [intros [? | ?]; done |]);
    intros dir [= <-]; reflexivity.
Qed.

Lemma profile_output_disabled_by_false_only_witness :
  exists data,
    Config.load (js "/proj") profiles_disabled = (Return data, profiles_disabled)
    /\ fst (Config.get_agentProfilesOutputDir (js "/home/user") (js "/proj") data
              profiles_disabled) = Return None.
Proof.
  destruct (profile_output_disabled_by_false_only (js "/home/user") (js "/proj")
              (js "{ " ++ [34] ++ js "agentProfilesOutputDir" ++ [34] ++ js ": false }")
              [(js "agentProfilesOutputDir", JBool false)] profiles_disabled)
    as (data & Hload & Hnull & _).
  - reflexivity.
  - vm_compute. reflexivity.
  - vm_compute. reflexivity.
  - exists data. split; [exact Hload |]. apply Hnull. reflexivity.
Defined.

Lemma load_rejects_unreadable_file_witness :
  exists message,
    fst (Config.load (js "/proj") broken_config) = Throw (JsSyntaxError message).
Proof.
  destruct (proj1 (load_rejects_unreadable_file (js "/proj") (js "{ plugins: ")
                     broken_config eq_refl ltac:(vm_compute; reflexivity)))
    as [message Hload].
  - vm_compute. reflexivity.
  - exists message. by rewrite Hload.
Defined.

Example load_configured :
  fst (Config.load (js "/proj") configured)
  = Return {| Config.agentProfilesOutputDir := JBool false;
              Config.plugins := JArray [JString (js "claude-code")];
              Config.sources := Config.sources Config.DEFAULT_CONFIG;
              Config.rolesDir := JString (js "roles");
              Config.responsibilitiesDir := JString (js "responsibilities");
              Config.pluginsOutputDir := JString (js "./plugins");
              Config.pluginName := JString (js "praxis") |}.
Proof. vm_compute. reflexivity. Qed.

Example resolve_default_profiles :
  Path.resolve (js "/home/user") [js "/proj"; js "./agent-profiles"]
  = js "/proj/agent-profiles".
Proof. vm_compute. reflexivity. Qed.

Example resolve_relative_root :
  Path.resolve (js "/home/user") [js "proj"; js "../plugins"] = js "/home/user/plugins".
Proof. vm_compute. reflexivity. Qed.

(** ** The add command *)

Example toTitleCase_example :
  AddCommand.toTitleCase toUpperCase_ascii (js "code-reviewer") = js "Code Reviewer".
Proof. vm_compute. reflexivity. Qed.

Example fillTemplate_role :
  AddCommand.fillTemplate toUpperCase_ascii AddCommand.Role (js "code-reviewer") role_template
  = js "---" ++ [10] ++ js "title: Code Reviewer" ++ [10] ++ js "alias: code-reviewer"
    ++ [10] ++ js "---" ++ [10] ++ js "# Code Reviewer (Code Reviewer)" ++ [10].
Proof. vm_compute. reflexivity. Qed.

(** A dollar sign in the name is read as a replacement pattern. *)
Example fillTemplate_dollar :
  AddCommand.fillTemplate toUpperCase_ascii AddCommand.Role (js "a$&b") (js "alias: {required_alias}")
  = js "alias: a{required_alias}b".
Proof. vm_compute. reflexivity. Qed.

Section AddFacts.

Variable toUpperCase : jsstring -> jsstring.

Lemma replace_all_from_none pat replacement before s :
  includes pat s = false -> AddCommand.replace_all_from pat replacement before 0 s = s.
Proof.
  revert before. induction s as [| c s IH]; intros before; [done |].
  intros Hinc. simpl in Hinc. apply orb_false_iff in Hinc as [Hst Hin].
  cbn [AddCommand.replace_all_from]. rewrite Hst. by rewrite IH.
Qed.

(** X26.  A template that holds none of the placeholders of its content type is
    returned as it is by [fillTemplate], whatever the name. *)
Theorem fillTemplate_keeps_text_without_placeholders
  (type : AddCommand.ContentType) (name template : jsstring) :
  Forall (fun placeholder => includes placeholder template = false) (placeholders type) ->
  AddCommand.fillTemplate toUpperCase type name template = template.
Proof.
  intros Hnone. unfold AddCommand.fillTemplate, AddCommand.replace_all.
  destruct type; cbn [placeholders] in Hnone;
    repeat match goal with
           | H : Forall _ (_ :: _) |- _ => apply Forall_cons in H as [? H]
           end;
    repeat match goal with
           | H : includes ?p template = false |- _ =>
               rewrite (replace_all_from_none p _ _ template H); clear H
           end;
    reflexivity.
Qed.

(** X28.  Without I/O failure, when the target does not exist and the template
    does, [addFromTemplate] returns, writes the target file with the filled
    template and no other file, and logs the one line
    [Created <type>: content/<dir>/<name>.md]. *)
Theorem addFromTemplate_creates_one_file
  (type : AddCommand.ContentType) (name root scaffoldDir template : jsstring) (w : world) :
  let targetFile :=
    Path.join [Path.join [root; js "content"; AddCommand.subdir type]; name ++ js ".md"] in
  let templatePath :=
    Path.join [scaffoldDir; js "core"; js "content"; AddCommand.subdir type;
               js "_template.md"] in
  io_faults w = [] ->
  is_file w targetFile || is_dir w targetFile = false ->
  files w !! templatePath = Some template ->
  exists w',
    AddCommand.addFromTemplate toUpperCase type name root scaffoldDir w = (Return tt, w')
    /\ files w' = <[targetFile := AddCommand.fillTemplate toUpperCase type name template]>
                    (files w)
    /\ log w' = log w ++ [(Success, js "Created " ++ AddCommand.type_name type
                                    ++ js ": content/" ++ AddCommand.subdir type
                                    ++ js "/" ++ name ++ js ".md")].
Proof.
  cbv zeta. intros Hquiet Habsent Htemplate.
  unfold AddCommand.addFromTemplate. unfold bind at 1, existsSync at 1, gets at 1.
  rewrite Habsent. unfold bind at 1, existsSync at 1, gets at 1.
  assert (Hpresent : is_file w (Path.join [scaffoldDir; js "core"; js "content";
                                           AddCommand.subdir type; js "_template.md"])
                     = true).
  { unfold is_file. apply bool_decide_eq_true. by rewrite Htemplate. }
  rewrite Hpresent. cbn [orb negb]. unfold bind at 1.
  rewrite readFileSync_quiet by done. rewrite Htemplate.
  unfold bind at 1, existsSync at 1, gets at 1.
  destruct (negb _).
  - unfold bind at 1. rewrite mkdirSync_quiet by done.
    unfold bind at 1. rewrite writeFileSync_quiet by done.
    eexists. split; [reflexivity |]. done.
  - unfold bind at 1. cbn [ret]. unfold bind at 1. rewrite writeFileSync_quiet by done.
    eexists. split; [reflexivity |]. done.
Qed.

End AddFacts.

Lemma fillTemplate_keeps_text_without_placeholders_witness :
  AddCommand.fillTemplate toUpperCase_ascii AddCommand.Responsibility (js "review-code")
    (js "owner: {owner_role_alias}")
  = js "owner: {owner_role_alias}".
Proof.
  apply (fillTemplate_keeps_text_without_placeholders toUpperCase_ascii
           AddCommand.Responsibility (js "review-code") (js "owner: {owner_role_alias}")).
  repeat constructor.
Defined.

Lemma addFromTemplate_creates_one_file_witness :
  exists w',
    AddCommand.addFromTemplate toUpperCase_ascii AddCommand.Role (js "code-reviewer")
      (js "/proj") (js "/pkg/scaffold") scaffolded = (Return tt, w')
    /\ files w' !! js "/proj/content/roles/code-reviewer.md"
       = Some (AddCommand.fillTemplate toUpperCase_ascii AddCommand.Role
                 (js "code-reviewer") role_template).
Proof.
  destruct (addFromTemplate_creates_one_file toUpperCase_ascii AddCommand.Role
              (js "code-reviewer") (js "/proj") (js "/pkg/scaffold") role_template
              scaffolded) as (w' & Hrun & Hfiles & _).
  - reflexivity.
  - vm_compute. reflexivity.
  - vm_compute. reflexivity.
  - exists w'. split; [exact Hrun |]. rewrite Hfiles.
    apply lookup_insert_eq.
Defined.

(** ** The init command *)

Example walkDir_scaffold :
  fst (InitCommand.walkDir (js "/") 100 (js "/pkg/scaffold") (js "/pkg/scaffold") scaffold_tree)
  = Return [js "README.md"; js "content/roles/README.md"].
Proof. vm_compute. reflexivity. Qed.

Example initProject_scaffold :
  let r := InitCommand.initProject (js "/") 100 (js "/proj") (js "/pkg/scaffold")
             scaffold_tree in
  fst r = Return tt
  /\ files (snd r) !! js "/proj/README.md" = Some (js "# My project")
  /\ files (snd r) !! js "/proj/content/roles/README.md" = Some (js "# Roles")
  /\ log (snd r)
     = [(Success, js "Created content/roles/README.md");
        (Info, js "Initialized Praxis project: 1 files created, 1 skipped")].
Proof. vm_compute. repeat split. Qed.

Lemma grown_from_refl w : grown_from w w.
Proof. by split. Qed.

Lemma grown_from_trans w1 w2 w3 :
  grown_from w1 w2 -> grown_from w2 w3 -> grown_from w1 w3.
Proof. intros [? ?] [? ?]. split; by etrans. Qed.

Lemma files_and_log_of_refl w : files_and_log_of w w.
Proof. by repeat split. Qed.

Lemma files_and_log_of_trans w1 w2 w3 :
  files_and_log_of w1 w2 -> files_and_log_of w2 w3 -> files_and_log_of w1 w3.
Proof.
  intros (Hf & Hd & Hl) (Hf' & Hd' & Hl').
  split; [congruence |]. split; [by etrans | congruence].
Qed.

Lemma files_and_log_of_grown w w' : files_and_log_of w w' -> grown_from w w'.
Proof. intros (Hf & Hd & _). split; [by rewrite Hf | done]. Qed.

Lemma bind_files_and_log {A B} (m : M A) (k : A -> M B) :
  (forall w, files_and_log_of w (snd (m w))) ->
  (forall a w, files_and_log_of w (snd (k a w))) ->
  forall w, files_and_log_of w (snd (bind m k w)).
Proof.
  intros Hm Hk w. unfold bind. specialize (Hm w).
  destruct (m w) as [[a | e] w1]; cbn [snd] in *; [| done].
  eapply files_and_log_of_trans; [exact Hm | apply Hk].
Qed.

Lemma bind_grown {A B} (m : M A) (k : A -> M B) :
  (forall w, grown_from w (snd (m w))) ->
  (forall a w, grown_from w (snd (k a w))) ->
  forall w, grown_from w (snd (bind m k w)).
Proof.
  intros Hm Hk w. unfold bind. specialize (Hm w).
  destruct (m w) as [[a | e] w1]; cbn [snd] in *; [| done].
  eapply grown_from_trans; [exact Hm | apply Hk].
Qed.

Lemma next_fault_files_and_log w : files_and_log_of w (snd (next_fault w)).
Proof. unfold next_fault. destruct (io_faults w); by repeat split. Qed.

Lemma existsSync_files_and_log p w : files_and_log_of w (snd (existsSync p w)).
Proof. apply files_and_log_of_refl. Qed.

Lemma mkdirSync_files_and_log p w : files_and_log_of w (snd (mkdirSync p w)).
Proof.
  unfold mkdirSync. apply bind_files_and_log; [apply next_fault_files_and_log |].
  intros [| m | m residue] w1; cbn; repeat split; try done. set_solver.
Qed.

Lemma ensure_dir_files_and_log p w :
  files_and_log_of w
    (snd ((present <- existsSync p ;;
           if negb present then mkdirSync p else ret tt) w)).
Proof.
  apply bind_files_and_log; [apply existsSync_files_and_log |].
  intros [|] w1; cbn [negb]; [apply files_and_log_of_refl | apply mkdirSync_files_and_log].
Qed.

Lemma readdirSync_files_and_log dir w :
  files_and_log_of w (snd (InitCommand.readdirSync dir w)).
Proof.
  unfold InitCommand.readdirSync.
  apply bind_files_and_log; [apply next_fault_files_and_log |].
  intros [| m | m residue] w1; try apply files_and_log_of_refl.
  unfold bind, gets. cbn [id].
  destruct (is_file w1 dir); [apply files_and_log_of_refl |].
  destruct (is_dir w1 dir); apply files_and_log_of_refl.
Qed.

Lemma statSync_files_and_log p w :
  files_and_log_of w (snd (InitCommand.statSync_isDirectory p w)).
Proof.
  unfold InitCommand.statSync_isDirectory.
  apply bind_files_and_log; [apply next_fault_files_and_log |].
  intros [| m | m residue] w1; try apply files_and_log_of_refl.
  unfold bind, gets. cbn [id].
  destruct (is_file w1 p); [apply files_and_log_of_refl |].
  destruct (is_dir w1 p); apply files_and_log_of_refl.
Qed.

Lemma console_log_files_and_log line w :
  files_and_log_of w (snd (InitCommand.console_log line w)).
Proof. by repeat split. Qed.

Lemma walkDir_files_and_log cwd depth dir base w :
  files_and_log_of w (snd (InitCommand.walkDir cwd depth dir base w)).
Proof.
  revert dir w. induction depth as [| depth IH]; intros dir w;
    [apply files_and_log_of_refl |].
  cbn [InitCommand.walkDir].
  apply bind_files_and_log; [apply readdirSync_files_and_log |].
  intros names w1.
  apply bind_files_and_log; [| intros; apply files_and_log_of_refl].
  clear w w1.
  match goal with
  | |- forall w, files_and_log_of w (snd (?each names [] w)) =>
      enough (Heach : forall names results w,
                 files_and_log_of w (snd (each names results w)))
        by (intros; apply Heach)
  end.
  clear names. intros names.
  induction names as [| entry rest IHnames]; intros results w;
    [apply files_and_log_of_refl |].
  apply bind_files_and_log; [apply statSync_files_and_log |].
  intros [|] w1; [| apply IHnames].
  apply bind_files_and_log; [apply IH |].
  intros found w2. apply IHnames.
Qed.

Lemma is_file_false w p : is_file w p = false -> files w !! p = None.
Proof.
  unfold is_file. intros H. apply bool_decide_eq_false in H.
  by apply eq_None_not_Some.
Qed.

Lemma copyFileSync_grown src dest w :
  files w !! dest = None ->
  grown_from w (snd (InitCommand.copyFileSync src dest w)).
Proof.
  intros Hdest. unfold InitCommand.copyFileSync, bind, next_fault.
  destruct (io_faults w) as [| [| m | m residue] rest]; cbn;
    try (destruct (files w !! src)); cbn; split; try done;
    by apply insert_subseteq.
Qed.

Lemma copyFileSync_returns src dest w w' :
  InitCommand.copyFileSync src dest w = (Return tt, w') ->
  exists content, files w !! src = Some content
    /\ files w' = <[dest := content]> (files w) /\ log w' = log w.
Proof.
  unfold InitCommand.copyFileSync, bind, next_fault.
  destruct (io_faults w) as [| [| m | m residue] rest]; cbn;
    try (destruct (files w !! src) as [content |] eqn:Hsrc); cbn;
    intros [= <-]; by exists content.
Qed.

Lemma logger_success_grown msg w : grown_from w (snd (logger_success msg w)).
Proof. by split. Qed.

Section InitProject.

Variable cwd : jsstring.
Variable stack : nat.
Variable targetDir scaffoldDir : jsstring.

Lemma copy_each_grown relPaths created skipped w :
  grown_from w
    (snd (InitCommand.copy_each targetDir scaffoldDir relPaths created skipped w)).
Proof.
  revert created skipped w.
  induction relPaths as [| relPath rest IH]; intros created skipped w;
    [apply grown_from_refl |].
  cbn [InitCommand.copy_each].
  apply bind_grown; [intros; apply files_and_log_of_grown, existsSync_files_and_log |].
  intros present w1.
  apply bind_grown.
  { intros w2. apply files_and_log_of_grown.
    destruct present; cbn [negb];
      [apply files_and_log_of_refl | apply mkdirSync_files_and_log]. }
  intros _ w2. unfold bind at 1, existsSync, gets.
  destruct (is_file w2 _ || is_dir w2 _) eqn:Hthere; [apply IH |].
  apply orb_false_elim in Hthere as [Hfile _]. apply is_file_false in Hfile.
  pose proof (copyFileSync_grown (Path.join [scaffoldDir; relPath]) _ w2 Hfile) as Hcopy.
  unfold bind at 1.
  destruct (InitCommand.copyFileSync _ _ w2) as [[[] | e] w3]; cbn [snd] in *; [| done].
  eapply grown_from_trans; [exact Hcopy |].
  apply bind_grown; [intros; apply logger_success_grown | intros; apply IH].
Qed.

(** What [copy_each] leaves when it returns: one line for each file it
    made, which was not there before and is a copy of the scaffold's. *)
Lemma copy_each_created relPaths created skipped w c s w' :
  InitCommand.copy_each targetDir scaffoldDir relPaths created skipped w
  = (Return (c, s), w') ->
  exists made,
    log w' = log w ++ List.map (fun p => (Success, js "Created " ++ p)) made
    /\ c = (created + length made)%nat
    /\ Forall (fun p =>
         files w !! Path.join [targetDir; p] = None
         /\ exists content,
              files w' !! Path.join [scaffoldDir; p] = Some content
              /\ files w' !! Path.join [targetDir; p] = Some content) made.
Proof.
  revert created skipped w.
  induction relPaths as [| relPath rest IH]; intros created skipped w.
  { intros [= <- <- <-]. exists []. cbn. rewrite app_nil_r.
    split; [done |]. split; [lia | constructor]. }
  cbn [InitCommand.copy_each].
  unfold bind at 1, existsSync at 1, gets at 1.
  set (destPath := Path.join [targetDir; relPath]).
  set (srcPath := Path.join [scaffoldDir; relPath]).
  unfold bind at 1. cbv beta.
  destruct ((if negb _ then mkdirSync _ else ret tt) w) as [[[] | e] w1] eqn:Hdir;
    [| intros [=]].
  assert (files_and_log_of w w1) as (Hf1 & _ & Hl1).
  { destruct (negb _); [| injection Hdir as <-; apply files_and_log_of_refl].
    pose proof (mkdirSync_files_and_log (Path.dirname destPath) w) as H.
    by rewrite Hdir in H. }
  unfold bind at 1, existsSync, gets.
  destruct (is_file w1 destPath || is_dir w1 destPath) eqn:Hthere.
  { intros Hrest. apply IH in Hrest as (made & Hlog & Hc & Hmade).
    exists made. rewrite Hlog, Hl1, <- Hf1. split; [done |]. split; [lia | done]. }
  apply orb_false_elim in Hthere as [Hfile _]. apply is_file_false in Hfile.
  unfold bind at 1.
  destruct (InitCommand.copyFileSync srcPath destPath w1) as [[[] | e] w2] eqn:Hcopy;
    [| intros [=]].
  apply copyFileSync_returns in Hcopy as (content & Hsrc & Hf2 & Hl2).
  unfold bind at 1, logger_success at 1, modify at 1.
  intros Hrest.
  pose proof (copy_each_grown rest (S created) skipped (add_log (Success, js "Created " ++ relPath) w2))
    as [Hgrown _].
  rewrite Hrest in Hgrown. cbn [snd files add_log] in Hgrown.
  apply IH in Hrest as (made & Hlog & Hc & Hmade).
  cbn [log files add_log] in Hlog, Hmade.
  exists (relPath :: made). split; [| split].
  - rewrite Hlog, Hl2, Hl1. cbn [List.map]. by rewrite <- app_assoc.
  - cbn [length]. lia.
  - constructor.
    + fold destPath srcPath. split; [by rewrite <- Hf1 |].
      exists content. split.
      * eapply lookup_weaken; [| exact Hgrown]. rewrite Hf2.
        destruct (decide (destPath = srcPath)) as [-> | Hne];
          [apply lookup_insert_eq | by rewrite lookup_insert_ne].
      * eapply lookup_weaken; [| exact Hgrown]. rewrite Hf2. apply lookup_insert_eq.
    + eapply Forall_impl; [exact Hmade |]. intros p [Hnone Hcopies].
      split; [| done]. rewrite Hf2 in Hnone.
      apply lookup_insert_None in Hnone as [Hnone _]. by rewrite <- Hf1.
Qed.

(** X29.  [initProject] overwrites and removes nothing.  However the run ends,
    whichever file-system call fails and however deep the scaffold is, every
    file that was there has the content it had and every directory is still
    there. *)
Theorem initProject_never_overwrites (w : world) :
  let w' := snd (InitCommand.initProject cwd stack targetDir scaffoldDir w) in
  (forall p content, files w !! p = Some content -> files w' !! p = Some content)
  /\ (forall d, d ∈ dirs w -> d ∈ dirs w').
Proof.
  cbv zeta.
  enough (grown_from w (snd (InitCommand.initProject cwd stack targetDir scaffoldDir w)))
    as [Hfiles Hdirs].
  { split; [| set_solver]. intros p content Hp. by eapply lookup_weaken. }
  unfold InitCommand.initProject.
  apply bind_grown; [intros; apply files_and_log_of_grown, existsSync_files_and_log |].
  intros present w1. apply bind_grown.
  { intros w2. apply files_and_log_of_grown.
    destruct present; cbn [negb];
      [apply files_and_log_of_refl | apply mkdirSync_files_and_log]. }
  intros _ w2. apply bind_grown;
    [intros; apply files_and_log_of_grown, walkDir_files_and_log |].
  intros relPaths w3. apply bind_grown; [intros; apply copy_each_grown |].
  intros counts w4. apply bind_grown; [intros; apply grown_from_refl |].
  intros present' w5. apply bind_grown.
  { intros w6. apply files_and_log_of_grown.
    destruct present'; cbn [negb];
      [apply files_and_log_of_refl | apply mkdirSync_files_and_log]. }
  intros _ w6. by split.
Qed.

(** X30.  When [initProject] returns, the log has gained one line
    [Created <path>] for each file the run made, in order, and then the
    summary with their number.  Each of these files was not in the target
    before and now has the content of the file of the scaffold. *)
Theorem initProject_created_files_are_copies (w : world) :
  let r := InitCommand.initProject cwd stack targetDir scaffoldDir w in
  fst r = Return tt ->
  exists made skipped,
    log (snd r)
    = log w ++ List.map (fun p => (Success, js "Created " ++ p)) made
      ++ [(Info, js "Initialized Praxis project: " ++ RoleCompiler.decimal (length made)
                 ++ js " files created, " ++ RoleCompiler.decimal skipped
                 ++ js " skipped")]
    /\ Forall (fun p =>
         files w !! Path.join [targetDir; p] = None
         /\ exists content,
              files (snd r) !! Path.join [scaffoldDir; p] = Some content
              /\ files (snd r) !! Path.join [targetDir; p] = Some content) made.
Proof.
  cbv zeta.
  destruct (InitCommand.initProject cwd stack targetDir scaffoldDir w) as [o w'] eqn:Hrun.
  cbn [fst snd]. intros ->. revert Hrun. unfold InitCommand.initProject.
  unfold bind at 1, existsSync at 1, gets at 1.
  unfold bind at 1. cbv beta.
  destruct ((if negb _ then mkdirSync _ else ret tt) w) as [[[] | e] w1] eqn:Hdir;
    [| intros [=]].
  assert (files_and_log_of w w1) as (Hf1 & _ & Hl1).
  { destruct (negb _); [| injection Hdir as <-; apply files_and_log_of_refl].
    pose proof (mkdirSync_files_and_log targetDir w) as H. by rewrite Hdir in H. }
  unfold bind at 1.
  pose proof (walkDir_files_and_log cwd stack scaffoldDir scaffoldDir w1) as (Hf2 & _ & Hl2).
  destruct (InitCommand.walkDir cwd stack scaffoldDir scaffoldDir w1)
    as [[relPaths | e] w2]; [| intros [=]].
  cbn [snd] in Hf2, Hl2.
  unfold bind at 1.
  destruct (InitCommand.copy_each targetDir scaffoldDir relPaths 0 0 w2)
    as [[[c s] | e] w3] eqn:Hcopy; [| intros [=]].
  apply copy_each_created in Hcopy as (made & Hlog & Hc & Hmade).
  cbn [fst snd]. cbn [Nat.add] in Hc. subst c.
  unfold bind at 1, existsSync at 1, gets at 1.
  unfold bind at 1. cbv beta.
  destruct ((if negb _ then mkdirSync _ else ret tt) w3) as [[[] | e] w4] eqn:Hagents;
    [| intros [=]].
  assert (files_and_log_of w3 w4) as (Hf4 & _ & Hl4).
  { destruct (is_file w3 _ || is_dir w3 _); cbn [negb] in Hagents;
      [injection Hagents as <-; apply files_and_log_of_refl |].
    match type of Hagents with
    | mkdirSync ?d w3 = _ => pose proof (mkdirSync_files_and_log d w3) as H
    end.
    by rewrite Hagents in H. }
  unfold bind, InitCommand.console_log, logger_info, modify.
  intros [= <-]. cbn [log files add_console add_log].
  exists made, s. split.
  - rewrite Hl4, Hlog, Hl2, Hl1. by rewrite <- app_assoc.
  - rewrite Hf4. eapply Forall_impl; [exact Hmade |].
    intros p [Hnone Hcopies]. split; [| done]. by rewrite <- Hf1, <- Hf2.
Qed.

End InitProject.

Lemma initProject_created_files_are_copies_witness :
  fst (InitCommand.initProject (js "/") 100 (js "/proj") (js "/pkg/scaffold") scaffold_tree)
  = Return tt
  /\ exists made skipped,
       log (snd (InitCommand.initProject (js "/") 100 (js "/proj") (js "/pkg/scaffold")
                   scaffold_tree))
       = log scaffold_tree ++ List.map (fun p => (Success, js "Created " ++ p)) made
         ++ [(Info, js "Initialized Praxis project: " ++ RoleCompiler.decimal (length made)
                    ++ js " files created, " ++ RoleCompiler.decimal skipped
                    ++ js " skipped")]
       /\ Forall (fun p =>
            files scaffold_tree !! Path.join [js "/proj"; p] = None
            /\ exists content,
                 files (snd (InitCommand.initProject (js "/") 100 (js "/proj")
                               (js "/pkg/scaffold") scaffold_tree))
                   !! Path.join [js "/pkg/scaffold"; p] = Some content
                 /\ files (snd (InitCommand.initProject (js "/") 100 (js "/proj")
                                  (js "/pkg/scaffold") scaffold_tree))
                      !! Path.join [js "/proj"; p] = Some content) made.
Proof.
  split; [vm_compute; reflexivity |].
  apply (initProject_created_files_are_copies (js "/") 100 (js "/proj")
           (js "/pkg/scaffold") scaffold_tree).
  vm_compute. reflexivity.
Defined.

(** ** The leading token of a reply (C10) *)

Lemma split_chars_head sep (s : jsstring) :
  exists rest, split_chars sep s = take_while (fun c => negb (sep c)) s :: rest.
Proof.
  induction s as [| c r [rest IH]]; cbn [split_chars take_while]; [by eexists |].
  destruct (sep c); cbn [negb]; [by eexists |].
  rewrite IH. by eexists.
Qed.

Lemma firstWord_leading_token toLowerCase response :
  DocumentValidator.firstWord toLowerCase (trim response)
  = toLowerCase (leading_token response).
Proof.
  unfold DocumentValidator.firstWord, leading_token.
  destruct (split_chars_head DocumentValidator.is_word_sep (trim response)) as [rest ->].
  reflexivity.
Qed.

(** C10.  Shape of every parsed validation result: a compliant result has no
    issues and no severity; a non-compliant one has at least one issue (the
    whole trimmed reply when the reply has no list line) and its severity is
    "warning" exactly when the leading token of the reply, lower-cased, is
    "maybe", and "error" otherwise; the reason is always the trimmed reply.
    The result is compliant exactly when that token is "yes". *)
Theorem parseResponse_shape (toLowerCase : jsstring -> jsstring) (response : jsstring) :
  let r := DocumentValidator.parseResponse toLowerCase response in
  let trimmed := trim response in
  let token := toLowerCase (leading_token response) in
  reason r = trimmed
  /\ (compliant r = true <-> token = js "yes")
  /\ (compliant r = true -> issues r = [] /\ severity r = None)
  /\ (compliant r = false ->
        issues r <> []
        /\ (DocumentValidator.list_items (split_chars (N.eqb 10) trimmed) = [] ->
            issues r = [trimmed])
        /\ (severity r = Some warning <-> token = js "maybe")
        /\ (severity r = Some error <-> token <> js "maybe")).
Proof.
  cbv zeta. unfold DocumentValidator.parseResponse.
  rewrite firstWord_leading_token.
  set (trimmed := trim response).
  set (w := toLowerCase (leading_token response)).
  destruct (eqb_str_spec w (js "yes")) as [Hyes | Hyes];
    cbn [compliant issues reason severity].
  - repeat split; done.
  - split; [done |]. split; [split; [done | intros; contradiction] |].
    split; [done |]. intros _.
    split.
    { unfold DocumentValidator.parseIssues.
      destruct (DocumentValidator.list_items _); done. }
    split.
    { intros Hnone. unfold DocumentValidator.parseIssues. by rewrite Hnone. }
    destruct (eqb_str_spec w (js "maybe")) as [Hm | Hm];
      repeat split; intros; try done; congruence.
Qed.

Lemma parseResponse_shape_witness :
  let r := DocumentValidator.parseResponse toLowerCase_ascii
             (js "  No, the owner field is missing ") in
  leading_token (js "  No, the owner field is missing ") = js "No"
  /\ compliant r = false
  /\ issues r = [js "No, the owner field is missing"]
  /\ severity r = Some error.
Proof.
  destruct (parseResponse_shape toLowerCase_ascii
              (js "  No, the owner field is missing "))
    as (_ & _ & _ & Hfailed).
  destruct (Hfailed eq_refl) as (_ & Hwhole & _ & Herror).
  split; [reflexivity |]. split; [reflexivity |]. split.
  - apply Hwhole. reflexivity.
  - apply Herror. discriminate.
Defined.

(** A reply that opens with "Maybe", in capitals: a warning. *)
Example parseResponse_maybe_token :
  let r := DocumentValidator.parseResponse toLowerCase_ascii
             (js "  MAYBE, the description is short ") in
  toLowerCase_ascii (leading_token (js "  MAYBE, the description is short ")) = js "maybe"
  /\ compliant r = false
  /\ severity r = Some warning.
Proof. vm_compute. repeat split. Qed.

(** ** The agent name as runs joined by hyphens *)

Lemma is_alnum_lower_or_digit c : RoleCompiler.is_alnum c = lower_or_digit c.
Proof. reflexivity. Qed.

Lemma split_chars_cons sep (s : jsstring) : exists p ps, split_chars sep s = p :: ps.
Proof.
  destruct s as [| c r]; cbn [split_chars]; [by eexists _, _ |].
  destruct (sep c); [by eexists _, _ |].
  destruct (split_chars sep r); by eexists _, _.
Qed.

Lemma join_cons_char sep c (p : jsstring) ps :
  JS.join sep ((c :: p) :: ps) = c :: JS.join sep (p :: ps).
Proof. by destruct ps. Qed.

Lemma join_nil_piece sep (q : jsstring) qs :
  JS.join sep ([] :: q :: qs) = sep ++ JS.join sep (q :: qs).
Proof. reflexivity. Qed.

(** What the scan leaves inside a run of other code units: the runs that
    follow, joined by hyphens, and one more hyphen when the string goes on
    after its last run. *)
Lemma hyphenate_in_run_runs (s : jsstring) :
  exists t, (t = [] \/ t = [45])
    /\ RoleCompiler.hyphenate_from true s = JS.join [45] (alnum_runs s) ++ t
    /\ (alnum_runs s = [] -> t = []).
Proof.
  induction s as [| c r (t & Ht & IH & Hnone)].
  { exists []. split; [by left |]. split; done. }
  unfold alnum_runs in *. cbn [RoleCompiler.hyphenate_from split_chars].
  rewrite is_alnum_lower_or_digit.
  destruct (lower_or_digit c) eqn:Hc; cbn [negb].
  2: { cbn [List.filter truthy]. by exists t. }
  destruct (split_chars_cons (fun c => negb (lower_or_digit c)) r) as (p & ps & Hsplit).
  rewrite Hsplit in *. cbn [List.filter truthy].
  destruct r as [| d r'].
  { cbn in Hsplit. injection Hsplit as <- <-. exists []. cbn. split; [by left |]. split; done. }
  cbn [RoleCompiler.hyphenate_from] in *. cbn [split_chars] in Hsplit.
  rewrite is_alnum_lower_or_digit in *.
  destruct (lower_or_digit d) eqn:Hd; cbn [negb] in Hsplit.
  - (* the run goes on *)
    destruct (split_chars (fun c => negb (lower_or_digit c)) r') as [| p' ps'] eqn:Hr'.
    + injection Hsplit as <- <-. cbn [List.filter truthy] in *.
      exists t. split; [done |]. split; [| done].
      rewrite IH; first [reflexivity | by rewrite (join_cons_char [45] c)].
    + injection Hsplit as <- <-. cbn [List.filter truthy] in *.
      exists t. split; [done |]. split; [| done].
      rewrite IH; first [reflexivity | by rewrite (join_cons_char [45] c)].
  - (* the run ends here *)
    injection Hsplit as <- <-. cbn [List.filter truthy] in *.
    destruct (List.filter truthy (split_chars _ r')) as [| q qs] eqn:Hps.
    + exists [45]. rewrite (Hnone eq_refl) in IH. cbn in IH. rewrite IH.
      split; [by right |]. split; [reflexivity | done].
    + exists t. split; [done |]. split; [| done].
      rewrite IH. reflexivity.
Qed.

Lemma hyphenate_from_start (s : jsstring) :
  RoleCompiler.hyphenate s
  = match s with
    | c :: _ => if lower_or_digit c then RoleCompiler.hyphenate_from true s
                else 45 :: RoleCompiler.hyphenate_from true s
    | [] => []
    end.
Proof.
  unfold RoleCompiler.hyphenate. destruct s as [| c r]; [done |].
  cbn [RoleCompiler.hyphenate_from]. rewrite is_alnum_lower_or_digit.
  by destruct (lower_or_digit c).
Qed.

Lemma runs_are_words (s : jsstring) :
  Forall (fun run => run <> [] /\ Forall (fun c => lower_or_digit c = true) run)
    (alnum_runs s).
Proof.
  unfold alnum_runs. apply Forall_forall. intros run Hin.
  apply list_elem_of_In, filter_In in Hin as [Hin Hne].
  split; [by destruct run |].
  revert run Hin Hne. induction s as [| c r IH]; intros run Hin Hne.
  { cbn in Hin. destruct Hin as [<- | []]. done. }
  cbn [split_chars] in Hin.
  destruct (lower_or_digit c) eqn:Hc; cbn [negb] in Hin.
  - destruct (split_chars _ r) as [| p ps] eqn:Hsplit.
    + destruct Hin as [<- | []]. by repeat constructor.
    + destruct Hin as [<- | Hin].
      * constructor; [done |]. destruct p as [| d p]; [constructor |].
        apply IH; [by left | done].
      * apply IH; [by right | done].
  - destruct Hin as [<- | Hin]; [done |]. by apply IH.
Qed.

Lemma join_runs_ends (runs : list jsstring) :
  Forall (fun run => run <> [] /\ Forall (fun c => lower_or_digit c = true) run) runs ->
  (forall r, JS.join [45] runs <> 45 :: r)
  /\ (forall l, JS.join [45] runs <> l ++ [45]).
Proof.
  induction 1 as [| run rest [Hne Hrun] Hrest [IHhead IHlast]]; [split; [done | by intros []] |].
  split.
  - intros r. destruct run as [| c run]; [done |].
    apply Forall_cons in Hrun as [Hc _].
    destruct rest; cbn; intros [= -> _]; done.
  - intros l. destruct rest as [| q qs].
    + cbn. intros Heq.
      assert (Hin : 45 ∈ run) by (rewrite Heq; set_solver).
      rewrite Forall_forall in Hrun. by specialize (Hrun _ Hin).
    + change (JS.join [45] (run :: q :: qs)) with (run ++ [45] ++ JS.join [45] (q :: qs)).
      intros Heq.
      destruct (JS.join [45] (q :: qs)) as [| x xs] eqn:Hj using rev_ind.
      * destruct q; [by apply Forall_cons in Hrest as [[? _] _] |].
        destruct qs; done.
      * clear IHxs. rewrite !app_assoc in Heq. apply app_inj_tail in Heq as [_ ->].
        by apply (IHlast xs).
Qed.

(** The agent name, read off the alias: its maximal runs of [[a-z0-9]],
    joined by single hyphens. *)
Lemma agent_name_runs toLowerCase roleAlias :
  RoleCompiler.agent_name toLowerCase roleAlias
  = JS.join [45] (alnum_runs (toLowerCase roleAlias)).
Proof.
  unfold RoleCompiler.agent_name. generalize (toLowerCase roleAlias) as s. intros s.
  destruct (hyphenate_in_run_runs s) as (t & Ht & Hrun & Hnone).
  destruct (join_runs_ends (alnum_runs s) (runs_are_words s)) as [Hhead Hlast].
  set (J := JS.join [45] (alnum_runs s)) in *.
  assert (Hs1 : match RoleCompiler.hyphenate s with 45 :: r => r | _ => RoleCompiler.hyphenate s end
                = J ++ t).
  { rewrite hyphenate_from_start. destruct s as [| c r].
    - exact Hrun.
    - destruct (lower_or_digit c) eqn:Hc; [| done].
      rewrite Hrun.
      assert (Hfirst : RoleCompiler.hyphenate_from true (c :: r)
                       = c :: RoleCompiler.hyphenate_from false r).
      { cbn [RoleCompiler.hyphenate_from]. rewrite is_alnum_lower_or_digit. by rewrite Hc. }
      rewrite Hrun in Hfirst. rewrite Hfirst.
      destruct (N.eq_dec c 45) as [-> | Hne]; [done |].
      by destruct c as [| p]; [| repeat (destruct p as [p | p |]; try done)]. }
  unfold RoleCompiler.strip_hyphens. cbv zeta. rewrite Hs1.
  destruct Ht as [-> | ->].
  - rewrite app_nil_r. destruct (rev J) as [| x xs] eqn:Hrev; [| ].
    + apply (f_equal (@rev N)) in Hrev. by rewrite rev_involutive in Hrev.
    + destruct (N.eq_dec x 45) as [-> | Hne].
      * exfalso. apply (Hlast (rev xs)).
        apply (f_equal (@rev N)) in Hrev. by rewrite rev_involutive in Hrev.
      * by destruct x as [| p]; [| repeat (destruct p as [p | p |]; try done)].
  - rewrite rev_app_distr. cbn. by rewrite rev_involutive.
Qed.

(** C7 (as the code has it).  With a profile directory configured and no
    I/O failure, [writeOutputs] first writes the pure profile to the file
    named by the lower-cased alias followed by [.md] (nothing is collapsed
    or stripped in the file name) and goes on to the plugins from there.
    The hyphenated form is the [name] of the agent metadata, whenever
    [buildAgentMetadata] returns metadata: the maximal runs of [a-z] and
    [0-9] of the lower-cased alias, in their order, joined by single
    hyphens; so it consists of [a-z], [0-9] and single hyphens, with no
    hyphen at either end. *)
Theorem profile_written_under_lowercased_alias
  (toLowerCase : jsstring -> jsstring) (root : jsstring) (config : PraxisConfig)
  (dir profile roleAlias : jsstring) (metadata : option AgentMetadata) (w : world) :
  agentProfilesOutputDir config = Some dir ->
  truthy dir = true ->
  io_faults w = [] ->
  (exists w',
      RoleCompiler.write_profile toLowerCase config profile roleAlias w = (Return tt, w')
      /\ files w' =
           <[Path.join [dir; toLowerCase roleAlias ++ js ".md"] := profile]> (files w)
      /\ RoleCompiler.writeOutputs toLowerCase root config profile metadata roleAlias w
         = (plugins <- PluginRegistry.resolvePlugins (plugins config) root
                         (Some (pluginsOutputDir config)) (Some (pluginName config)) ;;
            for_each plugins (fun plugin =>
              PluginRegistry.plugin_compile toLowerCase plugin profile metadata roleAlias))
             w')
  /\ (let n := JS.join [45] (alnum_runs (toLowerCase roleAlias)) in
      (forall fm w0 m,
         fst (RoleCompiler.buildAgentMetadata toLowerCase fm roleAlias w0) = Return (Some m) ->
         name m = n)
      /\ Forall name_char n /\ single_hyphens n
      /\ no_leading_hyphen n /\ no_trailing_hyphen n).
Proof.
  intros Hdir Htruthy Hquiet. split.
  - destruct (write_profile_quiet toLowerCase config dir profile roleAlias w)
      as (w' & Hrun & Hfiles & _); try done.
    exists w'. repeat split; try done.
    unfold RoleCompiler.writeOutputs. unfold bind at 1. by rewrite Hrun.
  - cbv zeta. rewrite <- agent_name_runs. split; [| apply agent_name_shape].
    intros fm w0 m. unfold RoleCompiler.buildAgentMetadata.
    destruct (RoleCompiler.nonempty _) as [description |]; [| done].
    by intros [= <-].
Qed.

Lemma profile_written_under_lowercased_alias_witness :
  (exists w',
     RoleCompiler.write_profile toLowerCase_ascii (project_config []) (js "# Role")
       (js "My Role") empty_world = (Return tt, w')
     /\ files w' = <[js "/proj/agent-profiles/my role.md" := js "# Role"]> ∅)
  /\ forall fm w0 m,
       fst (RoleCompiler.buildAgentMetadata toLowerCase_ascii fm (js "My Role") w0)
       = Return (Some m) ->
       name m = js "my-role".
Proof.
  destruct (profile_written_under_lowercased_alias toLowerCase_ascii (js "/proj")
              (project_config []) (js "/proj/agent-profiles") (js "# Role")
              (js "My Role") None empty_world eq_refl eq_refl eq_refl)
    as [(w' & Hrun & Hfiles & _) [Hname _]].
  split; [exists w'; split; [exact Hrun | exact Hfiles] | exact Hname].
Defined.

(** ** Compiling a role (C5, C6) *)

Section Compile.

Variable toLowerCase : jsstring -> jsstring.
Variable isGlob : jsstring -> bool.
Variable expand : tree -> jsstring -> list jsstring.
Variable expandAll : tree -> list jsstring -> list jsstring.
Variable body : jsstring -> jsstring.
Variable root : jsstring.
Variable config : PraxisConfig.

Lemma inlineRefs_quiet (fm : Frontmatter) (key : jsstring) (w : world) :
  io_faults w = [] ->
  (forall p, p ∈ expandAll (tree_of w) (array fm key) ->
             present_at root w p = true -> is_file w (Path.join [root; p]) = true) ->
  RoleCompiler.inlineRefs isGlob expand expandAll body root fm key w
  = (Return (inlined body root w (expandAll (tree_of w) (array fm key))),
     add_logs (reference_diagnostics isGlob expand expandAll root fm key w) w).
Proof.
  intros Hquiet Hfiles. unfold RoleCompiler.inlineRefs.
  unfold bind at 1. rewrite glob_warnings_run.
  unfold bind at 1, gets at 1.
  match goal with |- context [add_logs ?es w] => set (gw := es) end.
  change (tree_of (add_logs gw w)) with (tree_of w).
  unfold bind at 1.
  assert (Hmap := inline_all_quiet body root (js "Referenced file not found: ")
                    (expandAll (tree_of w) (array fm key)) (add_logs gw w)
                    Hquiet Hfiles).
  change (is_file (add_logs gw w)) with (is_file w) in Hmap.
  change (is_dir (add_logs gw w)) with (is_dir w) in Hmap.
  change (files (add_logs gw w)) with (files w) in Hmap.
  rewrite Hmap. rewrite add_logs_app. unfold ret. by rewrite non_null_map.
Qed.

Lemma constitution_shape (fm : Frontmatter) patterns :
  constitution_patterns (parse fm !! js "constitution") = Some patterns ->
  RoleCompiler.falsy (parse fm !! js "constitution") = false
  /\ RoleCompiler.is_true (parse fm !! js "constitution") = false
  /\ match parse fm !! js "constitution" with
     | Some (FmArray items) => items
     | Some (FmString s) => [s]
     | _ => []
     end = patterns.
Proof.
  intros Hpat.
  destruct (parse fm !! js "constitution") as [[| b | s | items] |];
    cbn in Hpat; try done.
  - destruct (truthy s) eqn:Hs; [| done]. injection Hpat as <-.
    cbn. by rewrite Hs.
  - by injection Hpat as <-.
Qed.

Lemma inlineConstitution_patterns_quiet (fm : Frontmatter) patterns (w : world) :
  constitution_patterns (parse fm !! js "constitution") = Some patterns ->
  io_faults w = [] ->
  (forall p, p ∈ expandAll (tree_of w) patterns ->
             present_at root w p = true -> is_file w (Path.join [root; p]) = true) ->
  RoleCompiler.inlineConstitution expandAll body root fm w
  = (Return (inlined body root w (expandAll (tree_of w) patterns)),
     add_logs
       ((match expandAll (tree_of w) patterns with
         | [] => [(Warn, js "Constitution patterns matched zero files")]
         | _ :: _ => []
         end)
        ++ not_found root w (js "Constitution file not found: ")
             (expandAll (tree_of w) patterns))
       w).
Proof.
  intros Hpat Hquiet Hfiles.
  unfold RoleCompiler.inlineConstitution, RoleCompiler.resolveConstitutionPatterns.
  destruct (constitution_shape fm patterns Hpat) as (Hf & Ht & Hp).
  rewrite Hf, Ht, Hp. cbn [negb andb].
  unfold bind at 1, gets at 1.
  set (expanded := expandAll (tree_of w) patterns) in *.
  unfold bind at 1.
  assert (Hwarn :
    (if (length expanded =? 0)%nat
     then logger_warn (js "Constitution patterns matched zero files")
     else ret tt) w
    = (Return tt,
       add_logs (match expanded with
                 | [] => [(Warn, js "Constitution patterns matched zero files")]
                 | _ :: _ => []
                 end) w)).
  { destruct expanded; cbn; [reflexivity |]. by rewrite add_logs_nil. }
  rewrite Hwarn. unfold bind at 1.
  match goal with |- context [add_logs ?es w] => set (zw := es) end.
  assert (Hmap := inline_all_quiet body root (js "Constitution file not found: ")
                    expanded (add_logs zw w) Hquiet).
  change (files (add_logs zw w)) with (files w) in Hmap.
  change (is_file (add_logs zw w)) with (is_file w) in Hmap.
  change (is_dir (add_logs zw w)) with (is_dir w) in Hmap.
  rewrite Hmap by exact Hfiles.
  rewrite add_logs_app. unfold ret. by rewrite non_null_map.
Qed.

Lemma inlineConstitution_quiet (fm : Frontmatter) (w : world) :
  io_faults w = [] ->
  (forall p, p ∈ constitution_paths expandAll fm w ->
             present_at root w p = true -> is_file w (Path.join [root; p]) = true) ->
  RoleCompiler.inlineConstitution expandAll body root fm w
  = (Return (inlined body root w (constitution_paths expandAll fm w)),
     add_logs (constitution_diagnostics expandAll root fm w) w).
Proof.
  intros Hquiet Hfiles. unfold constitution_diagnostics, constitution_paths in *.
  destruct (constitution_patterns (parse fm !! js "constitution")) as [patterns |] eqn:Hpat.
  - rewrite (inlineConstitution_patterns_quiet fm patterns w Hpat Hquiet Hfiles).
    destruct (constitution_shape fm patterns Hpat) as (_ & -> & _).
    by destruct (expandAll (tree_of w) patterns).
  - unfold RoleCompiler.inlineConstitution, RoleCompiler.resolveConstitutionPatterns.
    destruct (parse fm !! js "constitution") as [[| [|] | [| c s] | items] |];
      cbn in Hpat; try done; cbn; by rewrite ?add_logs_nil.
Qed.

Lemma write_profile_returns profile roleAlias w :
  io_faults w = [] ->
  exists w',
    RoleCompiler.write_profile toLowerCase config profile roleAlias w = (Return tt, w')
    /\ log w' = log w /\ io_faults w' = [].
Proof.
  intros Hquiet. unfold RoleCompiler.write_profile.
  destruct (agentProfilesOutputDir config) as [dir |]; [| by eexists].
  destruct (truthy dir); [| by eexists].
  unfold bind, existsSync, gets.
  destruct (negb (is_file w dir || is_dir w dir)).
  - rewrite mkdirSync_quiet by done.
    rewrite writeFileSync_quiet by done. by eexists.
  - unfold ret. rewrite writeFileSync_quiet by done. by eexists.
Qed.

Lemma resolvePlugins_known names outDir plugin w :
  Forall (fun n => n ∈ PluginRegistry.own_keys) names ->
  PluginRegistry.resolvePlugins names root outDir plugin w
  = (Return (List.map (fun _ => PluginRegistry.ClaudeCode
                                  (ClaudeCodePlugin.outputDir root outDir plugin)) names),
     w).
Proof.
  unfold PluginRegistry.resolvePlugins.
  induction 1 as [| n names Hn _ IH]; [done |].
  apply list_elem_of_singleton in Hn as ->.
  simpl. unfold bind at 1. unfold PluginRegistry.resolve_one at 1. simpl.
  unfold bind at 1. by rewrite IH.
Qed.

Lemma plugins_compile_quiet (dirs : list jsstring) profile metadata roleAlias w :
  io_faults w = [] ->
  exists w',
    for_each (List.map PluginRegistry.ClaudeCode dirs) (fun plugin =>
      PluginRegistry.plugin_compile toLowerCase plugin profile metadata roleAlias) w
    = (Return tt, w')
    /\ log w' = log w /\ io_faults w' = [].
Proof.
  revert w. induction dirs as [| dir dirs IH]; intros w Hquiet; [by eexists |].
  cbn [List.map for_each]. unfold bind at 1. cbn [PluginRegistry.plugin_compile].
  destruct (plugin_compile_quiet toLowerCase dir profile metadata roleAlias w Hquiet)
    as (w1 & -> & _ & Hlog & Hquiet1).
  destruct (IH w1 Hquiet1) as (w2 & -> & Hlog2 & Hquiet2).
  exists w2. split; [done |]. split; [congruence | done].
Qed.

Lemma writeOutputs_returns profile metadata roleAlias w :
  io_faults w = [] ->
  Forall (fun n => n ∈ PluginRegistry.own_keys) (plugins config) ->
  exists w',
    RoleCompiler.writeOutputs toLowerCase root config profile metadata roleAlias w
    = (Return tt, w')
    /\ log w' = log w /\ io_faults w' = [].
Proof.
  intros Hquiet Hknown. unfold RoleCompiler.writeOutputs.
  destruct (write_profile_returns profile roleAlias w Hquiet) as (w1 & Hrun & Hlog & Hq1).
  unfold bind at 1. rewrite Hrun.
  unfold bind at 1. rewrite resolvePlugins_known by done.
  rewrite <- (map_map (fun _ => ClaudeCodePlugin.outputDir root
                                   (Some (pluginsOutputDir config))
                                   (Some (pluginName config)))
                PluginRegistry.ClaudeCode).
  destruct (plugins_compile_quiet
              (List.map (fun _ => ClaudeCodePlugin.outputDir root
                                    (Some (pluginsOutputDir config))
                                    (Some (pluginName config))) (plugins config))
              profile metadata roleAlias w1 Hq1) as (w2 & -> & Hlog2 & Hq2).
  exists w2. split; [done |]. split; [congruence | done].
Qed.

Section Quiet.

Variable roleFile content roleAlias : jsstring.
Variable fm : Frontmatter.
Variable w : world.

Hypothesis Hquiet : io_faults w = [].
Hypothesis Halias : RoleCompiler.nonempty (value fm (js "alias")) = Some roleAlias.
Hypothesis Hrole : files w !! roleFile = Some content.
Hypothesis Hrefs :
  forall key p, p ∈ expandAll (tree_of w) (array fm key) ->
                present_at root w p = true -> is_file w (Path.join [root; p]) = true.
Hypothesis Hconst :
  forall p, p ∈ constitution_paths expandAll fm w ->
            present_at root w p = true -> is_file w (Path.join [root; p]) = true.

Let group (key : jsstring) : list jsstring :=
  inlined body root w (expandAll (tree_of w) (array fm key)).
Let built_profile : jsstring :=
  OutputBuilder.buildProfile
    (OutputBuilder.mk [body content] (group (js "responsibilities"))
       (inlined body root w (constitution_paths expandAll fm w))
       (group (js "context")) (group (js "refs"))).
Let diagnostics : list (level * jsstring) :=
  metadata_diagnostics fm
  ++ reference_diagnostics isGlob expand expandAll root fm (js "responsibilities") w
  ++ constitution_diagnostics expandAll root fm w
  ++ reference_diagnostics isGlob expand expandAll root fm (js "context") w
  ++ reference_diagnostics isGlob expand expandAll root fm (js "refs") w.

Lemma buildRoleProfile_quiet :
  exists metadata,
    RoleCompiler.buildRoleProfile toLowerCase isGlob expand expandAll body root
      roleFile fm roleAlias w
    = (Return (built_profile, metadata), add_logs diagnostics w).
Proof.
  unfold RoleCompiler.buildRoleProfile.
  unfold bind at 1, RoleCompiler.Markdown_body, bind at 1.
  rewrite readFileSync_quiet by done. rewrite Hrole. cbn [ret].
  assert (Hmeta : exists metadata,
    RoleCompiler.buildAgentMetadata toLowerCase fm roleAlias w
    = (Return metadata, add_logs (metadata_diagnostics fm) w)).
  { unfold RoleCompiler.buildAgentMetadata, metadata_diagnostics.
    destruct (RoleCompiler.nonempty (value fm (js "description"))); eexists.
    - by rewrite add_logs_nil.
    - reflexivity. }
  destruct Hmeta as (metadata & Hmeta). exists metadata.
  unfold bind at 1. rewrite Hmeta.
  unfold bind at 1.
  assert (Hstep : forall key es,
    RoleCompiler.inlineRefs isGlob expand expandAll body root fm key (add_logs es w)
    = (Return (group key),
       add_logs (es ++ reference_diagnostics isGlob expand expandAll root fm key w) w)).
  { intros key es.
    rewrite (inlineRefs_quiet fm key (add_logs es w) Hquiet (Hrefs key)).
    by rewrite add_logs_app. }
  rewrite Hstep. unfold bind at 1.
  match goal with |- context [add_logs ?es w] => set (e1 := es) end.
  rewrite (inlineConstitution_quiet fm (add_logs e1 w) Hquiet Hconst).
  rewrite add_logs_app.
  unfold bind at 1. rewrite Hstep.
  unfold bind at 1. rewrite Hstep.
  unfold ret, e1, diagnostics, built_profile. by rewrite <- !app_assoc.
Qed.

Lemma compile_quiet :
  Forall (fun n => n ∈ PluginRegistry.own_keys) (plugins config) ->
  exists w',
    RoleCompiler.compile toLowerCase isGlob expand expandAll body root config
      roleFile fm w
    = (Return (Some roleAlias), w')
    /\ log w' = log w ++ diagnostics
                ++ [(Success, js "Compiled " ++ toLowerCase roleAlias ++ js ".md")].
Proof.
  intros Hknown. destruct buildRoleProfile_quiet as (metadata & Hbuilt).
  unfold RoleCompiler.compile. rewrite Halias.
  unfold bind at 1. rewrite Hbuilt. cbn [fst snd].
  destruct (writeOutputs_returns built_profile metadata roleAlias
              (add_logs diagnostics w) Hquiet Hknown)
    as (w2 & Hout & Hlog & _).
  unfold bind at 1. rewrite Hout.
  unfold bind, logger_success, modify, ret. eexists. split; [reflexivity |].
  cbn [log add_log]. rewrite Hlog. cbn [log add_logs]. by rewrite <- !app_assoc.
Qed.

End Quiet.

(** C6.  A missing reference does not abort a compilation.  In a run
    without I/O failure, for a role file that exists and a manifest with an
    alias, where every resolved path that exists is a regular file and every
    configured plugin is registered: [buildRoleProfile] returns the profile
    the builder makes of the role's body and, group by group, of the bodies
    of the resolved files that exist; each resolved path of a reference group
    at which nothing exists is skipped with the warning
    [Referenced file not found: <path>]; and [compile] returns the alias,
    having logged these diagnostics and then its line of success. *)
Theorem compile_skips_missing_references
  (roleFile content roleAlias : jsstring) (fm : Frontmatter) (w : world) :
  io_faults w = [] ->
  RoleCompiler.nonempty (value fm (js "alias")) = Some roleAlias ->
  files w !! roleFile = Some content ->
  (forall key p, p ∈ expandAll (tree_of w) (array fm key) ->
                 present_at root w p = true -> is_file w (Path.join [root; p]) = true) ->
  (forall p, p ∈ constitution_paths expandAll fm w ->
             present_at root w p = true -> is_file w (Path.join [root; p]) = true) ->
  Forall (fun n => n ∈ PluginRegistry.own_keys) (plugins config) ->
  let group key := inlined body root w (expandAll (tree_of w) (array fm key)) in
  let profile :=
    OutputBuilder.buildProfile
      (OutputBuilder.mk [body content] (group (js "responsibilities"))
         (inlined body root w (constitution_paths expandAll fm w))
         (group (js "context")) (group (js "refs"))) in
  let diagnostics :=
    metadata_diagnostics fm
    ++ reference_diagnostics isGlob expand expandAll root fm (js "responsibilities") w
    ++ constitution_diagnostics expandAll root fm w
    ++ reference_diagnostics isGlob expand expandAll root fm (js "context") w
    ++ reference_diagnostics isGlob expand expandAll root fm (js "refs") w in
  (exists metadata,
     RoleCompiler.buildRoleProfile toLowerCase isGlob expand expandAll body root
       roleFile fm roleAlias w
     = (Return (profile, metadata), add_logs diagnostics w))
  /\ (exists w',
        RoleCompiler.compile toLowerCase isGlob expand expandAll body root config
          roleFile fm w
        = (Return (Some roleAlias), w')
        /\ log w' = log w ++ diagnostics
                    ++ [(Success, js "Compiled " ++ toLowerCase roleAlias ++ js ".md")])
  /\ (forall key p,
        key ∈ [js "responsibilities"; js "context"; js "refs"] ->
        p ∈ expandAll (tree_of w) (array fm key) ->
        present_at root w p = false ->
        (Warn, js "Referenced file not found: " ++ p) ∈ diagnostics).
Proof.
  intros Hquiet Halias Hrole Hrefs Hconst Hknown. cbv zeta.
  split; [by apply buildRoleProfile_quiet |].
  split; [by apply (compile_quiet roleFile content) |].
  intros key p Hkey Hp Hmissing.
  assert (Hin : (Warn, js "Referenced file not found: " ++ p)
                ∈ reference_diagnostics isGlob expand expandAll root fm key w).
  { unfold reference_diagnostics, not_found. apply elem_of_app. right.
    apply list_elem_of_In, in_map_iff. exists p. split; [done |].
    apply filter_In. split; [by apply list_elem_of_In |]. by rewrite Hmissing. }
  rewrite !elem_of_app.
  apply list_elem_of_In, in_inv in Hkey as [<- | Hkey]; [right; left; exact Hin |].
  apply in_inv in Hkey as [<- | Hkey]; [right; right; right; left; exact Hin |].
  apply in_inv in Hkey as [<- | []]. right; right; right; right; exact Hin.
Qed.

End Compile.

(** ** What a run adds to the log *)

Section Gains.

Variable P : level * jsstring -> Prop.















End Gains.


Section Deprecated.

Variable toLowerCase : jsstring -> jsstring.
Variable isGlob : jsstring -> bool.
Variable expand : tree -> jsstring -> list jsstring.
Variable expandAll : tree -> list jsstring -> list jsstring.
Variable body : jsstring -> jsstring.
Variable root : jsstring.
Variable config : PraxisConfig.










End Deprecated.


Lemma compile_skips_missing_references_witness :
  (exists metadata,
     fst (RoleCompiler.buildRoleProfile toLowerCase_ascii (fun _ => false) (fun _ _ => [])
            (fun _ ps => ps) (fun content => content) (js "/proj")
            reviewer_role (aliased refs_manifest) (js "Reviewer") role_with_a)
     = Return (js "# Role" ++ [10; 10] ++ js "Reviews code." ++ [10; 10]
               ++ js "# Reference" ++ [10; 10] ++ js "Body of a", metadata))
  /\ exists w',
       RoleCompiler.compile toLowerCase_ascii (fun _ => false) (fun _ _ => [])
         (fun _ ps => ps) (fun content => content) (js "/proj") (project_config [])
         reviewer_role (aliased refs_manifest) role_with_a
       = (Return (Some (js "Reviewer")), w')
       /\ log w'
          = [(Warn, js "No description found in role, skipping agent metadata");
             (Warn, js "Referenced file not found: b.md");
             (Success, js "Compiled reviewer.md")].
Proof.
  destruct (compile_skips_missing_references toLowerCase_ascii (fun _ => false)
              (fun _ _ => []) (fun _ ps => ps) (fun content => content) (js "/proj")
              (project_config []) reviewer_role (js "Reviews code.") (js "Reviewer")
              (aliased refs_manifest) role_with_a)
    as ((metadata & Hbuilt) & (w' & Hrun & Hlog) & _).
  - reflexivity.
  - reflexivity.
  - vm_compute. reflexivity.
  - intros key p. cbn [array aliased refs_manifest].
    destruct (eqb_str key (js "refs")); intros Hp.
    + apply list_elem_of_In in Hp. destruct Hp as [<- | [<- | []]].
      * intros _. vm_compute. reflexivity.
      * vm_compute. discriminate.
    + by apply elem_of_nil in Hp.
  - intros p Hp. by apply elem_of_nil in Hp.
  - constructor.
  - split.
    + exists metadata. by rewrite Hbuilt.
    + exists w'. split; [exact Hrun |]. rewrite Hlog. reflexivity.
Defined.

Lemma inlineConstitution_inlines_patterns_witness :
  RoleCompiler.inlineConstitution stale_expander (fun content => content)
    (js "/proj") constitution_manifest constitution_project
  = (Return [js "Our mission."],
     add_logs [(Warn, js "Constitution file not found: context/constitution/gone.md")]
       constitution_project).
Proof.
  rewrite (proj2 (inlineConstitution_inlines_patterns stale_expander
                    (fun content => content) (js "/proj") constitution_manifest
                    constitution_project) [js "context/constitution/*.md"]).
  - vm_compute. reflexivity.
  - vm_compute. reflexivity.
  - reflexivity.
  - intros p Hp. apply list_elem_of_In in Hp. destruct Hp as [<- | [<- | []]].
    + intros _. vm_compute. reflexivity.
    + vm_compute. discriminate.
Defined.

(** ** Scans of a directory *)

Section Scans.

Variable cwd : jsstring.
Variable order : list jsstring -> list jsstring.

Lemma sync_quiet accept dir w :
  io_faults w = [] -> is_file w (FastGlob.resolved cwd dir) = false ->
  FastGlob.sync cwd order accept dir w
  = (Return (FastGlob.scan cwd order accept dir w), w).
Proof.
  intros Hq Hfile. unfold FastGlob.sync, bind, next_fault, gets.
  rewrite Hq. cbn [id]. by rewrite Hfile.
Qed.

Lemma sync_blocked accept dir w :
  io_faults w = [] -> is_file w (FastGlob.resolved cwd dir) = true ->
  FastGlob.sync cwd order accept dir w = (Throw (FsError ENOTDIR), w).
Proof.
  intros Hq Hfile. unfold FastGlob.sync, bind, next_fault, gets.
  rewrite Hq. cbn [id]. by rewrite Hfile.
Qed.

Lemma sync_same_but_faults accept dir w :
  same_but_faults w (snd (FastGlob.sync cwd order accept dir w)).
Proof.
  unfold FastGlob.sync, bind, next_fault, gets.
  destruct (io_faults w) as [| [| m | m r] rest]; cbn [id fst snd];
    try (destruct (is_file _ _)); by repeat split.
Qed.

Lemma sync_allowed accept dir w :
  next_call_allowed w -> is_file w (FastGlob.resolved cwd dir) = false ->
  exists w', FastGlob.sync cwd order accept dir w
             = (Return (FastGlob.scan cwd order accept dir w), w')
             /\ same_but_faults w w'
             /\ (io_faults w = [] -> w' = w).
Proof.
  intros Hnext Hfile. unfold FastGlob.sync, bind, next_fault, gets.
  unfold next_call_allowed in Hnext.
  destruct (io_faults w) as [| [| m | m r] rest] eqn:Hq; try done; cbn [id].
  - rewrite Hfile. by eexists.
  - replace (is_file (set_io_faults rest w) _) with (is_file w (FastGlob.resolved cwd dir))
      by done.
    rewrite Hfile. eexists. split; [reflexivity |]. split; [by repeat split | done].
Qed.

End Scans.

(** ** The statistics of the cache *)

Lemma sum_of_counts_insert m k t :
  m !! k = None -> sum_of_counts (<[k := t]> m) = (counted t + sum_of_counts m)%nat.
Proof.
  intros Hk. unfold sum_of_counts.
  rewrite (map_fold_insert_L _ _ _ _ _); [done | | done].
  intros. lia.
Qed.

Lemma sum_of_counts_replace m k n t :
  m !! k = Some (CacheStats.Count n) ->
  (sum_of_counts (<[k := t]> m) + n = counted t + sum_of_counts m)%nat.
Proof.
  intros Hk.
  rewrite <- (insert_delete_id m k (CacheStats.Count n)) at 2 by done.
  rewrite <- (insert_delete_eq m k t).
  rewrite !sum_of_counts_insert by apply lookup_delete_eq. simpl. lia.
Qed.

Lemma bump_counts byType type :
  prototype_member type = false ->
  map_Forall (fun _ t => exists n, t = CacheStats.Count n) byType ->
  map_Forall (fun _ t => exists n, t = CacheStats.Count n) (CacheStats.bump byType type)
  /\ sum_of_counts (CacheStats.bump byType type) = S (sum_of_counts byType).
Proof.
  intros Hproto Hall. unfold CacheStats.bump. unfold prototype_member in Hproto.
  destruct (byType !! type) as [[n | s] |] eqn:Hk.
  - split.
    + apply map_Forall_insert_2; [by eexists | done].
    + pose proof (sum_of_counts_replace byType type n (CacheStats.Count (S n)) Hk).
      simpl in *. lia.
  - destruct (Hall _ _ Hk) as [n Hn]. done.
  - destruct (CacheStats.inherited_text type); [done |]. split.
    + apply map_Forall_insert_2; [by eexists | done].
    + by rewrite sum_of_counts_insert.
Qed.

Section StatsFacts.

Variable cacheRoot : jsstring.
Variable cwd : jsstring.
Variable order : list jsstring -> list jsstring.

Lemma size_of_returns file w :
  exists n w', CacheStats.size_of file w = (Return n, w')
               /\ files w' = files w /\ dirs w' = dirs w /\ log w' = log w
               /\ console w' = console w
               /\ env_DEBUG w' = env_DEBUG w /\ clock w' = clock w
               /\ (io_faults w = [] ->
                   io_faults w' = []
                   /\ n = match files w !! file with
                          | Some content => length (SHA256.utf8 content)
                          | None => 0%nat
                          end).
Proof.
  cbv [CacheStats.size_of try_catch bind readFileSync next_fault gets ret throw].
  destruct (io_faults w) as [| [| m | m r] rest] eqn:Hf; cbn [fst snd].
  - destruct (files w !! file) as [content |]; eexists _, _; (split; [reflexivity |]);
      repeat split; done.
  - destruct (files _ !! file) as [content |]; eexists _, _; (split; [reflexivity |]);
      repeat split; done.
  - eexists _, _. split; [reflexivity |]. repeat split; done.
  - eexists _, _. split; [reflexivity |]. repeat split; done.
Qed.

Lemma tally_each_returns cacheFiles : forall size byType w,
  exists total counts w',
    CacheStats.tally_each cacheRoot cacheFiles size byType w = (Return (total, counts), w')
    /\ files w' = files w /\ dirs w' = dirs w /\ log w' = log w /\ console w' = console w
    /\ env_DEBUG w' = env_DEBUG w /\ clock w' = clock w
    /\ (Forall (fun file => prototype_member (CacheStats.type_of cacheRoot file) = false)
          cacheFiles ->
        map_Forall (fun _ t => exists n, t = CacheStats.Count n) byType ->
        map_Forall (fun _ t => exists n, t = CacheStats.Count n) counts
        /\ sum_of_counts counts = (length cacheFiles + sum_of_counts byType)%nat)
    /\ (io_faults w = [] ->
        total = (size + list_sum (List.map (fun file =>
                                    match files w !! file with
                                    | Some content => length (SHA256.utf8 content)
                                    | None => 0%nat
                                    end) cacheFiles))%nat).
Proof.
  induction cacheFiles as [| file rest IH]; intros size byType w.
  - exists size, byType, w. split; [reflexivity |].
    do 6 (split; [done |]). split.
    + intros _ Hnum. split; [done |]. simpl. lia.
    + intros _. simpl. lia.
  - cbn [CacheStats.tally_each]. unfold bind at 1.
    destruct (size_of_returns file w) as (n & w1 & -> & Hf & Hd & Hl & Hc & He & Hk & Hq).
    destruct (IH (size + n)%nat (CacheStats.bump byType (CacheStats.type_of cacheRoot file)) w1)
      as (total & counts & w' & -> & Hf' & Hd' & Hl' & Hc' & He' & Hk' & Hcount & Hsize).
    exists total, counts, w'. split; [reflexivity |].
    do 6 (split; [congruence |]). split.
    + intros Hall Hnum. apply Forall_cons in Hall as [Hfile Hrest].
      destruct (bump_counts byType _ Hfile Hnum) as [Hnum' Hsum].
      destruct (Hcount Hrest Hnum') as [Hnum'' ->]. split; [done |].
      rewrite Hsum. simpl. lia.
    + intros Hquiet. destruct (Hq Hquiet) as [Hq1 ->].
      rewrite (Hsize Hq1). rewrite Hf. simpl. lia.
Qed.

(** X7.  [stats] changes no file, directory, log or console line, whatever
    the coming calls do.  When no call fails and the cache root is a regular
    file, it throws [ENOTDIR].  When the scan is allowed and the cache root is
    no regular file, it returns: [totalFiles] is the number of [.json] files
    the scan finds below the cache root; unless a first path segment is the
    name of a member of [Object.prototype], every entry of [byType] is a
    count and the counts sum to [totalFiles]; without I/O failure [totalSize]
    is the sum of the byte lengths of these files. *)
Theorem stats_counts_add_up (w : world) :
  let run := CacheStats.stats cacheRoot cwd order w in
  let cacheFiles :=
    FastGlob.scan cwd order (FastGlob.matches_globstar (js ".json")) cacheRoot w in
  same_but_faults w (snd run)
  /\ (io_faults w = [] -> is_file w (FastGlob.resolved cwd cacheRoot) = true ->
      run = (Throw (FsError ENOTDIR), w))
  /\ (next_call_allowed w -> is_file w (FastGlob.resolved cwd cacheRoot) = false ->
      exists s,
        fst run = Return s
        /\ CacheStats.totalFiles s = length cacheFiles
        /\ (Forall (fun file => prototype_member (CacheStats.type_of cacheRoot file) = false)
              cacheFiles ->
            map_Forall (fun _ t => exists n, t = CacheStats.Count n) (CacheStats.byType s)
            /\ sum_of_counts (CacheStats.byType s) = CacheStats.totalFiles s)
        /\ (io_faults w = [] ->
            CacheStats.totalSize s
            = list_sum (List.map (fun file =>
                          match files w !! file with
                          | Some content => length (SHA256.utf8 content)
                          | None => 0%nat
                          end) cacheFiles))).
Proof.
  cbv zeta. unfold CacheStats.stats, FastGlob.sync_globstar.
  set (accept := FastGlob.matches_globstar (js ".json")).
  set (cacheFiles := FastGlob.scan cwd order accept cacheRoot w).
  split; [| split].
  - unfold bind at 1.
    pose proof (sync_same_but_faults cwd order accept cacheRoot w) as Hs.
    destruct (FastGlob.sync cwd order accept cacheRoot w) as [[found | e] w1];
      cbn [snd] in Hs |- *; [| done].
    destruct (tally_each_returns found 0%nat ∅ w1)
      as (total & counts & w' & Hrun & Hf & Hd & Hl & Hc & He & Hk & _).
    unfold bind at 1. rewrite Hrun. cbn [ret snd].
    destruct Hs as (Hf1 & Hd1 & Hl1 & Hc1 & He1 & Hk1).
    repeat split; congruence.
  - intros Hq Hfile. unfold bind at 1. by rewrite sync_blocked.
  - intros Hnext Hfile.
    destruct (sync_allowed cwd order accept cacheRoot w Hnext Hfile)
      as (w1 & Hsync & (Hf1 & _) & Hsame).
    unfold bind at 1. rewrite Hsync. fold cacheFiles.
    destruct (tally_each_returns cacheFiles 0%nat ∅ w1)
      as (total & counts & w' & Hrun & _ & _ & _ & _ & _ & _ & Hcount & Hsize).
    unfold bind at 1. rewrite Hrun. cbn [ret fst].
    eexists. split; [reflexivity |].
    cbn [CacheStats.totalFiles CacheStats.totalSize CacheStats.byType fst snd].
    split; [done |]. split.
    + intros Hall. destruct (Hcount Hall) as [Hnum ->]; [apply map_Forall_empty |].
      split; [done |]. unfold sum_of_counts. rewrite map_fold_empty. lia.
    + intros Hquiet. rewrite (Hsame Hquiet) in Hsize. by rewrite (Hsize Hquiet).
Qed.

End StatsFacts.

(** The repository's test "counts cache files after writes". *)
Example stats_after_three_writes :
  let w1 := snd (CacheManager.write (js "/tmp/cache") (js "content/roles/a.md")
                   (js "aaaa1111") compliant_outcome role_meta empty_world) in
  let w2 := snd (CacheManager.write (js "/tmp/cache") (js "content/roles/b.md")
                   (js "bbbb2222") compliant_outcome role_meta w1) in
  let w3 := snd (CacheManager.write (js "/tmp/cache") (js "content/responsibilities/c.md")
                   (js "cccc3333") compliant_outcome role_meta w2) in
  match fst (CacheStats.stats (js "/tmp/cache") (js "/") (fun found => found) w3) with
  | Return s =>
      CacheStats.totalFiles s = 3%nat
      /\ CacheStats.byType s !! js "roles" = Some (CacheStats.Count 2)
      /\ CacheStats.byType s !! js "responsibilities" = Some (CacheStats.Count 1)
      /\ (0 < CacheStats.totalSize s)%nat
  | Throw _ => False
  end.
Proof. vm_compute. repeat split. lia. Qed.

(** A cache directory named like a member of [Object.prototype] is counted
    as a text, not as a number. *)
Example stats_prototype_member :
  let w1 := snd (CacheManager.write (js "/tmp/cache") (js "content/constructor/a.md")
                   (js "aaaa1111") compliant_outcome role_meta empty_world) in
  match fst (CacheStats.stats (js "/tmp/cache") (js "/") (fun found => found) w1) with
  | Return s =>
      CacheStats.totalFiles s = 1%nat
      /\ CacheStats.byType s !! js "constructor"
         = Some (CacheStats.Text (js "function Object() { [native code] }1"))
  | Throw _ => False
  end.
Proof. vm_compute. repeat split. Qed.


(** A cache root given with a trailing separator: the files are found, and
    each is counted under the empty type, since [cacheRoot + "/"] occurs in
    no path. *)
Example stats_of_root_with_separator :
  let w1 := snd (CacheManager.write (js "/tmp/cache") (js "content/roles/a.md")
                   (js "aaaa1111") compliant_outcome role_meta empty_world) in
  let w2 := snd (CacheManager.write (js "/tmp/cache") (js "content/responsibilities/c.md")
                   (js "cccc3333") compliant_outcome role_meta w1) in
  match fst (CacheStats.stats (js "/tmp/cache/") (js "/") (fun found => found) w2) with
  | Return s =>
      CacheStats.totalFiles s = 2%nat
      /\ CacheStats.byType s = {[ [] := CacheStats.Count 2 ]}
  | Throw _ => False
  end.
Proof. vm_compute. repeat split. Qed.

Lemma stats_counts_add_up_witness :
  CacheStats.stats cache_root (js "/proj") (fun found => found) cache_root_is_a_file
  = (Throw (FsError ENOTDIR), cache_root_is_a_file)
  /\ exists s,
       fst (CacheStats.stats cache_root (js "/proj") (fun found => found)
              project_with_cache) = Return s
       /\ CacheStats.totalFiles s = 3%nat
       /\ sum_of_counts (CacheStats.byType s) = 3%nat.
Proof.
  split.
  - apply (proj1 (proj2 (stats_counts_add_up cache_root (js "/proj") (fun found => found)
                           cache_root_is_a_file))); reflexivity.
  - destruct (proj2 (proj2 (stats_counts_add_up cache_root (js "/proj")
                              (fun found => found) project_with_cache)))
      as (s & Hrun & Hfiles & Hcounts & _); [exact I | reflexivity |].
    exists s. split; [exact Hrun |]. split; [exact Hfiles |].
    destruct Hcounts as [_ ->]; [| exact Hfiles].
    vm_compute. repeat constructor.
Defined.

(** ** Orphaned cache files (C4) *)

Lemma same_but_faults_trans w1 w2 w3 :
  same_but_faults w1 w2 -> same_but_faults w2 w3 -> same_but_faults w1 w3.
Proof.
  intros (? & ? & ? & ? & ? & ?) (? & ? & ? & ? & ? & ?). repeat split; congruence.
Qed.

Lemma map_M_same_but_faults {A B} (f : A -> M B) (l : list A) w :
  (forall x w0, same_but_faults w0 (snd (f x w0))) ->
  same_but_faults w (snd (map_M f l w)).
Proof.
  intros Hf. revert w. induction l as [| x l IH]; intros w; [apply same_but_faults_refl |].
  simpl. unfold bind at 1. specialize (Hf x w).
  destruct (f x w) as [[y | e] w1]; simpl in Hf; [| done].
  unfold bind at 1. specialize (IH w1).
  destruct (map_M f l w1) as [[ys | e] w2]; simpl in IH |- *;
    by apply (same_but_faults_trans _ w1).
Qed.

Section OrphanScan.

Variable cacheRoot : jsstring.
Variable cwd : jsstring.
Variable order : list jsstring -> list jsstring.

Lemma documents_of_type_reads_only contentDir type w :
  same_but_faults w (snd (CacheManager.documents_of_type cwd order contentDir type w)).
Proof.
  unfold CacheManager.documents_of_type, bind, existsSync, gets, FastGlob.sync_star.
  destruct (negb _); [apply same_but_faults_refl |].
  pose proof (sync_same_but_faults cwd order (FastGlob.matches_star (js ".md"))
                (Path.join [contentDir; type]) w) as Hs.
  by destruct (FastGlob.sync _ _ _ _ w) as [[found | e] w1].
Qed.

(** The scan for orphans changes nothing: it deletes no file. *)
Lemma orphanedCacheFiles_reads_only contentDir w :
  same_but_faults w
    (snd (CacheManager.orphanedCacheFiles cacheRoot cwd order contentDir w)).
Proof.
  unfold CacheManager.orphanedCacheFiles, CacheManager.buildDocumentMap.
  unfold bind at 1. unfold bind at 1.
  pose proof (map_M_same_but_faults (CacheManager.documents_of_type cwd order contentDir)
                CacheManager.documentTypes w
                (documents_of_type_reads_only contentDir)) as Hmap.
  destruct (map_M _ CacheManager.documentTypes w) as [[keys | e] w1];
    cbn [snd ret] in Hmap |- *; [| done].
  unfold bind at 1, FastGlob.sync_globstar.
  pose proof (sync_same_but_faults cwd order (FastGlob.matches_globstar (js ".json"))
                cacheRoot w1) as Hs.
  destruct (FastGlob.sync _ _ _ _ w1) as [[found | e] w2]; cbn [snd ret] in Hs |- *;
    by apply (same_but_faults_trans _ w1).
Qed.

Lemma map_M_quiet {A B} (f : A -> M B) (l : list A) w :
  (forall x, snd (f x w) = w) -> snd (map_M f l w) = w.
Proof.
  intros Hf. induction l as [| x l IH]; [done |].
  simpl. unfold bind at 1. specialize (Hf x).
  destruct (f x w) as [[y | e] w1]; simpl in Hf; subst w1; [| done].
  unfold bind at 1. destruct (map_M f l w) as [[ys | e] w1]; simpl in IH; by subst w1.
Qed.

Lemma sync_world_quiet accept dir w :
  io_faults w = [] -> snd (FastGlob.sync cwd order accept dir w) = w.
Proof.
  intros Hq. unfold FastGlob.sync, bind, next_fault, gets. rewrite Hq. cbn [id].
  by destruct (is_file w _).
Qed.

(** Without I/O failure the scan for orphans leaves the world as it is. *)
Lemma orphanedCacheFiles_quiet contentDir w :
  io_faults w = [] ->
  snd (CacheManager.orphanedCacheFiles cacheRoot cwd order contentDir w) = w.
Proof.
  intros Hq. unfold CacheManager.orphanedCacheFiles, CacheManager.buildDocumentMap.
  unfold bind at 1. unfold bind at 1.
  assert (Hmap : snd (map_M (CacheManager.documents_of_type cwd order contentDir)
                        CacheManager.documentTypes w) = w).
  { apply map_M_quiet. intros type.
    unfold CacheManager.documents_of_type, bind, existsSync, gets, FastGlob.sync_star.
    destruct (negb _); [done |].
    pose proof (sync_world_quiet (FastGlob.matches_star (js ".md"))
                  (Path.join [contentDir; type]) w Hq) as Hs.
    by destruct (FastGlob.sync _ _ _ _ w) as [[found | e] w1]. }
  destruct (map_M _ CacheManager.documentTypes w) as [[keys | e] w1];
    cbn [snd ret] in Hmap |- *; subst w1; [| done].
  unfold bind at 1, FastGlob.sync_globstar.
  pose proof (sync_world_quiet (FastGlob.matches_globstar (js ".json")) cacheRoot w Hq)
    as Hs.
  by destruct (FastGlob.sync _ _ _ _ w) as [[found | e] w2].
Qed.

(** *** The order of the walk decides the order of the report only *)

Lemma bind_alike {A B} (R : A -> A -> Prop) (S : B -> B -> Prop)
  (m m' : M A) (k k' : A -> M B) w :
  alike R (m w) (m' w) ->
  (forall a a' w1, R a a' -> alike S (k a w1) (k' a' w1)) ->
  alike S (bind m k w) (bind m' k' w).
Proof.
  intros [Hw Hr] Hk. unfold bind.
  destruct (m w) as [[a | e] w1], (m' w) as [[a' | e'] w1']; cbn [fst snd] in Hw, Hr;
    try done; subst w1'; first [by apply Hk | by split].
Qed.

Lemma alike_returns {A} (R : A -> A -> Prop) (r r' : outcome A * world) a' w' :
  alike R r r' -> fst r' = Return a' -> snd r' = w' ->
  exists a, r = (Return a, w') /\ R a a'.
Proof.
  destruct r as [[a | e] w], r' as [[b | e'] w0]; intros [Hw Hr]; cbn [fst snd] in *;
    try done.
  intros [= ->] <-. exists a. by subst w.
Qed.

Lemma ret_alike {A} (R : A -> A -> Prop) a a' w :
  R a a' -> alike R (ret a w) (ret a' w).
Proof. by split. Qed.

Hypothesis order_rearranges : rearranges order.

Lemma scan_alike accept dir w :
  FastGlob.scan cwd order accept dir w
  ≡ₚ FastGlob.scan cwd (fun found => found) accept dir w.
Proof. unfold FastGlob.scan. apply order_rearranges. Qed.

Lemma sync_alike accept dir w :
  alike Permutation (FastGlob.sync cwd order accept dir w)
    (FastGlob.sync cwd (fun found => found) accept dir w).
Proof.
  unfold FastGlob.sync, bind, next_fault, gets.
  destruct (io_faults w) as [| [| m | m r] rest]; cbn [id]; try (by split);
    destruct (is_file _ _); split; try done; apply scan_alike.
Qed.

Lemma documents_of_type_alike contentDir type w :
  alike Permutation (CacheManager.documents_of_type cwd order contentDir type w)
    (CacheManager.documents_of_type cwd (fun found => found) contentDir type w).
Proof.
  unfold CacheManager.documents_of_type.
  apply (bind_alike eq); [by split |].
  intros present ? w1 <-. destruct (negb present); [by apply ret_alike |].
  apply (bind_alike Permutation); [apply sync_alike |].
  intros found found' w2 Hfound. apply ret_alike. by rewrite Hfound.
Qed.

Lemma map_M_alike {A B} (R : B -> B -> Prop) (f f' : A -> M B) (l : list A) w :
  (forall x w0, alike R (f x w0) (f' x w0)) ->
  alike (Forall2 R) (map_M f l w) (map_M f' l w).
Proof.
  intros Hf. revert w. induction l as [| x l IH]; intros w;
    [split; [done | constructor] |].
  cbn [map_M]. apply (bind_alike R); [apply Hf |].
  intros y y' w1 Hy. apply (bind_alike (Forall2 R)); [apply IH |].
  intros ys ys' w2 Hys. apply ret_alike. by constructor.
Qed.

Lemma concat_rearranged (ks ks' : list (list jsstring)) :
  Forall2 Permutation ks ks' -> concat ks ≡ₚ concat ks'.
Proof.
  induction 1 as [| k k' ks ks' Hk _ IH]; [done |]. simpl. by rewrite Hk, IH.
Qed.

Lemma buildDocumentMap_alike contentDir w :
  alike eq (CacheManager.buildDocumentMap cwd order contentDir w)
    (CacheManager.buildDocumentMap cwd (fun found => found) contentDir w).
Proof.
  unfold CacheManager.buildDocumentMap.
  apply (bind_alike (Forall2 Permutation)).
  - apply map_M_alike. intros type w0. apply documents_of_type_alike.
  - intros ks ks' w1 Hks. apply ret_alike.
    apply list_to_set_perm_L. by apply concat_rearranged.
Qed.

(** Whatever the order of the walk, the scan for orphans ends as it does for
    the walk in the order of the listing, with the same orphans. *)
Lemma orphanedCacheFiles_any_order contentDir w :
  alike Permutation
    (CacheManager.orphanedCacheFiles cacheRoot cwd order contentDir w)
    (CacheManager.orphanedCacheFiles cacheRoot cwd (fun found => found) contentDir w).
Proof.
  unfold CacheManager.orphanedCacheFiles.
  apply (bind_alike eq); [apply buildDocumentMap_alike |].
  intros valid ? w1 <-.
  apply (bind_alike Permutation); [apply sync_alike |].
  intros found found' w2 Hfound. apply ret_alike. by rewrite Hfound.
Qed.

End OrphanScan.

(** The repository's test "identifies cache files for deleted documents":
    one cache entry, for a document that does not exist. *)
Example orphan_scan_finds_deleted_role :
  let w0 := set_files (insert (js "/tmp/content/roles/README.md") (js "# Roles"))
              empty_world in
  let w1 := snd (CacheManager.write (js "/tmp/cache") (js "content/roles/deleted-role.md")
                   (js "dead1234") compliant_outcome role_meta w0) in
  fst (CacheManager.orphanedCacheFiles (js "/tmp/cache") (js "/") (fun found => found)
         (js "/tmp/content") w1)
  = Return [ CacheManager.mkOrphan (js "/tmp/cache/roles/deleted-role.json")
               (js "document_missing") (js "deleted-role") (js "roles") ].
Proof. vm_compute. reflexivity. Qed.

Lemma orphan_scan_in_listing_order cwd :
  fst (CacheManager.orphanedCacheFiles cache_root cwd (fun found => found) content_dir
         project_with_cache)
  = Return [naming_orphan; gone_orphan]
  /\ io_faults project_with_cache = [].
Proof. vm_compute. by split. Qed.

(** C4, the failing run.  The project holds the documents
    [roles/reviewer.md] and [context/conventions/naming.md]; results are
    cached for both and for the deleted [roles/gone.md].  Whatever the
    working directory and the order in which the walk hands out the cache
    files, the scan returns and changes nothing; it reports, in some order,
    two entries and no other: the entry of the deleted document, and the
    entry of the convention although that document exists.  The entry of the
    role that exists is omitted.  The key of a cache entry is built from the
    first directory of its path ([context]), the key of a document from the
    last one ([conventions]). *)
Theorem orphan_scan_reports_existing_convention
  (cwd : jsstring) (order : list jsstring -> list jsstring) :
  rearranges order ->
  is_file project_with_cache naming_doc = true
  /\ is_file project_with_cache reviewer_doc = true
  /\ is_file project_with_cache gone_doc = false
  /\ exists orphans,
       CacheManager.orphanedCacheFiles cache_root cwd order content_dir project_with_cache
       = (Return orphans, project_with_cache)
       /\ orphans ≡ₚ [naming_orphan; gone_orphan]
       /\ (forall o, In o orphans <-> o = naming_orphan \/ o = gone_orphan)
       /\ CacheManager.file naming_orphan
          = CacheManager.cachePathFor cache_root naming_doc.
Proof.
  intros Horder. do 3 (split; [by vm_compute |]).
  destruct (orphan_scan_in_listing_order cwd) as [Hlisted Hquiet].
  destruct (alike_returns Permutation _ _ _ project_with_cache
              (orphanedCacheFiles_any_order cache_root cwd order Horder content_dir
                 project_with_cache) Hlisted)
    as (orphans & Hrun & Hresult).
  { by apply orphanedCacheFiles_quiet. }
  exists orphans. split; [exact Hrun |]. split; [done |]. split.
  - intros o. rewrite <- list_elem_of_In, Hresult, !elem_of_cons, elem_of_nil. tauto.
  - by vm_compute.
Qed.

Lemma orphan_scan_reports_existing_convention_witness :
  rearranges (fun found => found)
  /\ exists orphans,
       CacheManager.orphanedCacheFiles cache_root (js "/proj") (fun found => found)
         content_dir project_with_cache
       = (Return orphans, project_with_cache)
       /\ In naming_orphan orphans
       /\ is_file project_with_cache naming_doc = true.
Proof.
  assert (Horder : rearranges (fun found => found)) by (intros l; reflexivity).
  split; [exact Horder |].
  destruct (orphan_scan_reports_existing_convention (js "/proj") (fun found => found)
              Horder) as (Hnaming & _ & _ & orphans & Hrun & _ & Hin & _).
  exists orphans. split; [exact Hrun |]. split; [| exact Hnaming].
  apply Hin. left. reflexivity.
Defined.

(** ** Documents that exist are no orphans *)

(** *** Path segments *)

Lemma ends_with_app (ext s : jsstring) : ends_with ext (s ++ ext) = true.
Proof. unfold ends_with. rewrite rev_app_distr. apply starts_with_app. Qed.

Lemma eqb_str_false (a b : jsstring) : a <> b -> eqb_str a b = false.
Proof. intros H. by destruct (eqb_str_spec a b). Qed.

Lemma drop_while_twice p (s : jsstring) :
  drop_while p (drop_while p s) = drop_while p s.
Proof.
  induction s as [| c s IH]; [done |]. simpl.
  destruct (p c) eqn:Hc; [done |]. simpl. by rewrite Hc.
Qed.

Lemma strip_slashes_twice (p : jsstring) :
  Path.strip_slashes (Path.strip_slashes p) = Path.strip_slashes p.
Proof. unfold Path.strip_slashes. by rewrite rev_involutive, drop_while_twice. Qed.

Lemma normal_form_stripped cwd dir :
  normal_form cwd dir -> Path.strip_slashes dir = dir.
Proof. unfold normal_form. intros <-. apply strip_slashes_twice. Qed.

(** The loop of [basename] while it matches the suffix: [m] is what is left
    of the suffix, and the path ends in it. *)
Lemma basename_loop_suffix (m rest : jsstring) : forall matchedSlash firstNonSlashEnd end_,
  m <> [] -> Forall (fun c => Path.is_slash c = false) m ->
  Path.basename_loop (m ++ rest) m matchedSlash firstNonSlashEnd end_
  = Path.basename_loop rest [] false
      (Some (match firstNonSlashEnd with
             | None => length (m ++ rest)
             | Some f => f
             end))
      (Some (length rest)).
Proof.
  induction m as [| c m IH]; intros ms fne e Hne Hm; [done |].
  apply Forall_cons in Hm as [Hc Hm].
  cbn [app Path.basename_loop]. rewrite Hc, N.eqb_refl.
  destruct m as [| c' m].
  - cbn [app]. by destruct fne.
  - rewrite IH by done. by destruct fne.
Qed.

(** The loop once the suffix is matched: it runs to the separator before the
    last segment. *)
Lemma basename_loop_segment (l r : jsstring) f end_ :
  Forall (fun c => Path.is_slash c = false) l ->
  Path.basename_loop (l ++ Path.slash :: r) [] false (Some f) end_
  = (S (length r), end_, Some f).
Proof.
  induction 1 as [| c l Hc _ IH]; [done |].
  cbn [app Path.basename_loop]. by rewrite Hc.
Qed.

Lemma basename_of_file (dir name ext : jsstring) :
  file_name name -> file_name ext ->
  Path.basename (dir ++ [Path.slash] ++ name ++ ext) ext = name.
Proof.
  intros [Hne Hname] [Hext Hnoslash]. unfold Path.basename.
  assert (Hlen : length (dir ++ [Path.slash] ++ name ++ ext)
                 = (length dir + S (length name + length ext))%nat)
    by (rewrite !length_app; simpl; lia).
  replace (truthy ext) with true by (by destruct ext).
  replace (length ext <=? length (dir ++ [Path.slash] ++ name ++ ext))%nat with true
    by (symmetry; apply Nat.leb_le; lia).
  cbn [andb]. rewrite eqb_str_false.
  2:{ intros H. apply (f_equal length) in H. lia. }
  replace (rev (dir ++ [Path.slash] ++ name ++ ext))
    with (rev ext ++ rev name ++ Path.slash :: rev dir).
  2:{ rewrite !rev_app_distr. cbn [rev app]. by rewrite <- !app_assoc. }
  rewrite basename_loop_suffix.
  2:{ intros H. apply (f_equal (@rev N)) in H. rewrite rev_involutive in H. done. }
  2:{ by apply Forall_rev. }
  rewrite basename_loop_segment by (by apply Forall_rev).
  rewrite length_app, !length_rev. cbn [length]. rewrite length_rev.
  replace (length name + S (length dir) =? S (length dir))%nat with false.
  2:{ symmetry. apply Nat.eqb_neq. destruct name; [done |]. simpl. lia. }
  replace (length name + S (length dir) - S (length dir))%nat with (length name) by lia.
  replace (S (length dir)) with (length (dir ++ [Path.slash]))
    by (rewrite length_app; simpl; lia).
  rewrite (app_assoc dir), drop_app_length. by rewrite take_app_length.
Qed.

Lemma normalize_nonempty (p : jsstring) : Path.normalize p <> [].
Proof.
  unfold Path.normalize. destruct p as [| c p]; [done |].
  destruct (JS.join _ _) as [| x body]; repeat (destruct (_ : bool)); done.
Qed.

Lemma join_nonempty (parts : list jsstring) : Path.join parts <> [].
Proof.
  unfold Path.join. destruct (List.filter truthy parts); [done |].
  apply normalize_nonempty.
Qed.

Lemma replace_first_prefix (pat s : jsstring) :
  pat <> [] -> replace_first pat [] (pat ++ s) = s.
Proof.
  intros Hpat. destruct pat as [| c pat]; [done |].
  cbn [app replace_first].
  change (c :: pat ++ s) with ((c :: pat) ++ s).
  rewrite starts_with_app. by rewrite drop_app_length.
Qed.

(** *** What a scan finds *)

Section Found.

Variable cwd : jsstring.
Variable order : list jsstring -> list jsstring.
Hypothesis order_rearranges : rearranges order.

Lemma in_scan accept dir w p :
  In p (FastGlob.scan cwd order accept dir w)
  <-> is_file w p = true
      /\ match FastGlob.relative_to cwd dir p with
         | Some rel => accept rel
         | None => false
         end = true.
Proof.
  unfold FastGlob.scan. rewrite <- list_elem_of_In, (order_rearranges _), list_elem_of_In.
  rewrite filter_In, in_map_iff. split.
  - intros [([q c] & <- & Hin) Hacc]. split; [| done].
    apply list_elem_of_In, elem_of_map_to_list in Hin.
    unfold is_file. apply bool_decide_eq_true. simpl. by rewrite Hin.
  - intros [Hfile Hacc]. split; [| done].
    unfold is_file in Hfile. apply bool_decide_eq_true in Hfile as [c Hc].
    exists (p, c). split; [done |].
    by apply list_elem_of_In, elem_of_map_to_list.
Qed.

Lemma relative_to_inside dir rel :
  normal_form cwd dir ->
  FastGlob.relative_to cwd dir (dir ++ [Path.slash] ++ rel) = Some rel.
Proof.
  intros Hdir. unfold FastGlob.relative_to, FastGlob.below, FastGlob.resolved.
  rewrite Hdir. rewrite app_assoc, starts_with_app. f_equal.
  by rewrite drop_app_length.
Qed.

Lemma absolute_inside dir rel :
  normal_form cwd dir -> FastGlob.absolute cwd dir rel = dir ++ [Path.slash] ++ rel.
Proof. intros Hdir. unfold FastGlob.absolute, FastGlob.resolved. by rewrite Hdir. Qed.

Lemma is_dir_of_file w dir rel content :
  Path.strip_slashes dir = dir -> dir <> [] ->
  files w !! (dir ++ [Path.slash] ++ rel) = Some content -> is_dir w dir = true.
Proof.
  intros Hstrip Hdir Hfile. unfold is_dir. rewrite Hstrip.
  destruct dir as [| c dir]; [done |].
  apply orb_true_iff. right.
  apply existsb_exists. exists ((c :: dir) ++ [Path.slash] ++ rel). split.
  - apply in_or_app. left. apply in_map_iff.
    exists ((c :: dir) ++ [Path.slash] ++ rel, content).
    split; [done |]. by apply list_elem_of_In, elem_of_map_to_list.
  - rewrite app_assoc. apply starts_with_app.
Qed.

Section Orphans.

Variable cacheRoot : jsstring.

Lemma documents_of_type_finds contentDir type name content w :
  document_name name ->
  io_faults w = [] ->
  normal_form cwd (Path.join [contentDir; type]) ->
  is_file w (FastGlob.resolved cwd (Path.join [contentDir; type])) = false ->
  files w !! (Path.join [contentDir; type] ++ [Path.slash] ++ name ++ js ".md")
  = Some content ->
  exists keys,
    CacheManager.documents_of_type cwd order contentDir type w = (Return keys, w)
    /\ In (List.last (split_on (js "/") type) [] ++ js "/" ++ name) keys.
Proof.
  intros (Hname & Hdot & Hunder & Hreadme) Hq Hdir Hnofile Hfile.
  unfold CacheManager.documents_of_type.
  unfold bind at 1, existsSync, gets.
  rewrite (is_dir_of_file w _ _ _ (normal_form_stripped _ _ Hdir) (join_nonempty _) Hfile).
  rewrite orb_true_r. cbn [negb].
  unfold bind, FastGlob.sync_star. rewrite sync_quiet by done. cbn [ret].
  eexists. split; [reflexivity |].
  apply list_elem_of_In, list_elem_of_omap.
  exists (Path.join [contentDir; type] ++ [Path.slash] ++ name ++ js ".md"). split.
  - apply list_elem_of_In, in_scan. split.
    + unfold is_file. apply bool_decide_eq_true. by rewrite Hfile.
    + rewrite relative_to_inside by done. unfold FastGlob.matches_star.
      destruct Hname as [Hne Hns].
      assert (Hnoslash : existsb Path.is_slash (name ++ js ".md") = false).
      { rewrite existsb_app. apply orb_false_iff. split; [| reflexivity].
        clear -Hns. induction Hns as [| c l Hc _ IH]; [done |]. simpl. by rewrite Hc. }
      rewrite Hnoslash. cbn [negb andb]. rewrite ends_with_app, andb_true_r.
      unfold FastGlob.visible. destruct name as [| c name]; [done |].
      cbn [app truthy andb]. cbn in Hdot. cbn. by rewrite Hdot.
  - rewrite basename_of_file; [| done | by split; [| repeat constructor]].
    rewrite eqb_str_false by done. rewrite Hunder. reflexivity.
Qed.

Lemma documents_of_type_returns contentDir type w :
  io_faults w = [] ->
  is_file w (FastGlob.resolved cwd (Path.join [contentDir; type])) = false ->
  exists keys,
    CacheManager.documents_of_type cwd order contentDir type w = (Return keys, w).
Proof.
  intros Hq Hnofile. unfold CacheManager.documents_of_type.
  unfold bind at 1, existsSync, gets. destruct (negb _); [by eexists |].
  unfold bind, FastGlob.sync_star. rewrite sync_quiet by done. by eexists.
Qed.

(** X8.  A document that exists is not reported.  Take a run where no call
    fails, a walk that hands out each match once, a cache root and a type
    directory named by their resolved paths, neither the cache root nor one
    of the five type directories a regular file.  For a type among [roles],
    [responsibilities] and [reference] and a document [<name>.md] directly
    in the directory of that type (a visible name other than README, not
    starting with an underscore), [orphanedCacheFiles] returns and leaves the
    world as it is; it reports neither the cache file
    [<cacheRoot>/<type>/<name>.json], which is the path a scan of the cache
    root gives to the entry of the document, nor any file under that type and
    document name. *)
Theorem existing_top_level_document_is_no_orphan
  (contentDir type name content : jsstring) (w : world) :
  In type [js "roles"; js "responsibilities"; js "reference"] ->
  document_name name ->
  io_faults w = [] ->
  normal_form cwd cacheRoot ->
  normal_form cwd (Path.join [contentDir; type]) ->
  is_file w (FastGlob.resolved cwd cacheRoot) = false ->
  Forall (fun t => is_file w (FastGlob.resolved cwd (Path.join [contentDir; t])) = false)
    CacheManager.documentTypes ->
  files w !! (Path.join [contentDir; type] ++ [Path.slash] ++ name ++ js ".md")
  = Some content ->
  exists orphans,
    CacheManager.orphanedCacheFiles cacheRoot cwd order contentDir w = (Return orphans, w)
    /\ Forall (fun o =>
                 CacheManager.file o
                 <> FastGlob.absolute cwd cacheRoot (type ++ js "/" ++ name ++ js ".json")
                 /\ ~ (CacheManager.orphan_type o = type
                       /\ CacheManager.docName o = name)) orphans.
Proof.
  intros Htype Hname Hq Hroot Hdir Hnoroot Hnodirs Hfile.
  assert (Hlast : List.last (split_on (js "/") type) [] = type).
  { destruct Htype as [<- | [<- | [<- | []]]]; reflexivity. }
  assert (Hnodir : is_file w (FastGlob.resolved cwd (Path.join [contentDir; type])) = false).
  { rewrite Forall_forall in Hnodirs. apply Hnodirs. unfold CacheManager.documentTypes.
    rewrite !elem_of_cons. destruct Htype as [<- | [<- | [<- | []]]]; tauto. }
  destruct (documents_of_type_finds contentDir type name content w Hname Hq Hdir Hnodir
              Hfile) as (keys & Hrun & Hkey).
  rewrite Hlast in Hkey.
  assert (Hmap : exists all,
    map_M (CacheManager.documents_of_type cwd order contentDir)
      CacheManager.documentTypes w
    = (Return all, w) /\ In (type ++ js "/" ++ name) (concat all)).
  { unfold CacheManager.documentTypes in Hnodirs |- *.
    apply Forall_cons in Hnodirs as [Hn1 Hnodirs].
    apply Forall_cons in Hnodirs as [Hn2 Hnodirs].
    apply Forall_cons in Hnodirs as [Hn3 Hnodirs].
    apply Forall_cons in Hnodirs as [Hn4 Hnodirs].
    apply Forall_cons in Hnodirs as [Hn5 _].
    destruct (documents_of_type_returns contentDir _ w Hq Hn1) as [k1 H1].
    destruct (documents_of_type_returns contentDir _ w Hq Hn2) as [k2 H2].
    destruct (documents_of_type_returns contentDir _ w Hq Hn3) as [k3 H3].
    destruct (documents_of_type_returns contentDir _ w Hq Hn4) as [k4 H4].
    destruct (documents_of_type_returns contentDir _ w Hq Hn5) as [k5 H5].
    cbn [map_M]. unfold bind, ret.
    rewrite H1, H2, H3, H4, H5. eexists. split; [reflexivity |].
    cbn [concat]. rewrite !in_app_iff.
    destruct Htype as [<- | [<- | [<- | []]]].
    - left. congruence.
    - right. left. congruence.
    - right. right. left. congruence. }
  destruct Hmap as (all & Hall & Hin).
  unfold CacheManager.orphanedCacheFiles, CacheManager.buildDocumentMap.
  unfold bind at 1. unfold bind at 1. rewrite Hall. cbn [ret].
  unfold bind at 1, FastGlob.sync_globstar. rewrite sync_quiet by done. cbn [ret].
  eexists. split; [reflexivity |].
  assert (Hvalid : type ++ js "/" ++ name ∈ (list_to_set (concat all) : gset jsstring)).
  { apply elem_of_list_to_set. by apply list_elem_of_In. }
  apply Forall_forall. intros o Ho.
  apply list_elem_of_omap in Ho as (cacheFile & _ & Ho).
  destruct (bool_decide _) eqn:Hdec; [done |].
  injection Ho as <-. apply bool_decide_eq_false in Hdec.
  cbn [CacheManager.file CacheManager.orphan_type CacheManager.docName]. split.
  - intros ->. apply Hdec. rewrite absolute_inside by done.
    set (rel := type ++ js "/" ++ name ++ js ".json").
    assert (Hrel : replace_first (cacheRoot ++ js "/") [] (cacheRoot ++ [Path.slash] ++ rel)
                   = rel).
    { rewrite app_assoc. apply replace_first_prefix. by destruct cacheRoot. }
    assert (Hhd : List.hd (js "unknown") (split_on (js "/") rel) = type).
    { unfold rel. destruct Htype as [<- | [<- | [<- | []]]]; reflexivity. }
    assert (Hbase : Path.basename (cacheRoot ++ [Path.slash] ++ rel) (js ".json") = name).
    { unfold rel.
      replace (cacheRoot ++ [Path.slash] ++ type ++ js "/" ++ name ++ js ".json")
        with ((cacheRoot ++ [Path.slash] ++ type) ++ [Path.slash] ++ name ++ js ".json")
        by (by rewrite <- !app_assoc).
      apply basename_of_file; [apply Hname | by split; [| repeat constructor]]. }
    by rewrite Hrel, Hhd, Hbase.
  - intros [Ht Hn]. apply Hdec. by rewrite Ht, Hn.
Qed.

End Orphans.
End Found.

Lemma existing_top_level_document_is_no_orphan_witness :
  exists orphans,
    CacheManager.orphanedCacheFiles cache_root (js "/proj") (fun found => found)
      content_dir project_with_cache
    = (Return orphans, project_with_cache)
    /\ Forall (fun o =>
                 CacheManager.file o
                 <> FastGlob.absolute (js "/proj") cache_root (js "roles/reviewer.json")
                 /\ ~ (CacheManager.orphan_type o = js "roles"
                       /\ CacheManager.docName o = js "reviewer")) orphans.
Proof.
  apply (existing_top_level_document_is_no_orphan (js "/proj") (fun found => found)
           ltac:(intros l; reflexivity) cache_root content_dir (js "roles")
           (js "reviewer") (js "# Reviewer") project_with_cache).
  - left. reflexivity.
  - repeat split; try done. repeat constructor.
  - reflexivity.
  - reflexivity.
  - reflexivity.
  - reflexivity.
  - repeat constructor.
  - vm_compute. reflexivity.
Defined.

(** The cache entry of the witness is the one [write] made for the role that
    exists. *)
Example reviewer_entry_is_cached :
  FastGlob.absolute (js "/proj") cache_root (js "roles/reviewer.json")
  = CacheManager.cachePathFor cache_root reviewer_doc
  /\ is_file project_with_cache (CacheManager.cachePathFor cache_root reviewer_doc) = true.
Proof. by vm_compute. Qed.

(** A cache root given with a trailing separator: the scan still finds the
    entries, but the separator doubled in [cacheRoot + "/"] matches no path, so
    every entry is counted under the empty type and reported, the one of the
    role that exists included. *)
Example orphan_scan_of_root_with_separator :
  exists orphans,
    fst (CacheManager.orphanedCacheFiles (cache_root ++ js "/") (js "/proj")
           (fun found => found) content_dir project_with_cache)
    = Return orphans
    /\ In (CacheManager.mkOrphan (CacheManager.cachePathFor cache_root reviewer_doc)
             (js "document_missing") (js "reviewer") []) orphans.
Proof. eexists. split; [vm_compute; reflexivity |]. vm_compute. tauto. Qed.

(** ** A batch with nothing to compile *)

Section Batch.

Variable toLowerCase : jsstring -> jsstring.
Variable isGlob : jsstring -> bool.
Variable expand : tree -> jsstring -> list jsstring.
Variable expandAll : tree -> list jsstring -> list jsstring.
Variable body : jsstring -> jsstring.
Variable root : jsstring.
Variable config : PraxisConfig.
Variable cwd : jsstring.
Variable order : list jsstring -> list jsstring.
Variable frontmatter_of : tree -> jsstring -> Frontmatter.

Lemma compile_each_passes_over roleFiles compiled w :
  Forall (passed_over frontmatter_of w) roleFiles ->
  RoleCompiler.compile_each toLowerCase isGlob expand expandAll body root config
    frontmatter_of roleFiles compiled w
  = (Return compiled, w).
Proof.
  induction 1 as [| roleFile rest Hfile _ IH]; [done |].
  cbn [RoleCompiler.compile_each].
  destruct (existsb _ RoleCompiler.EXCLUDED_FILES) eqn:Hex; [exact IH |].
  destruct Hfile as [Hfile | Hfile]; [congruence |].
  unfold bind at 1, gets at 1. by rewrite Hfile.
Qed.

(** X22.  In a run where no call fails: when the roles directory is a
    regular file, [compileAll] throws [ENOTDIR] and changes nothing; when it
    is none and every file the scan of it finds is a template, a README or a
    file without alias, [compileAll] compiles nothing: it returns 0, writes
    no file and logs the one line [Compiled 0 agent(s) (up-to-date)]. *)
Theorem compileAll_with_nothing_to_compile (w : world) :
  io_faults w = [] ->
  let run := RoleCompiler.compileAll toLowerCase isGlob expand expandAll body root config
               cwd order frontmatter_of w in
  (is_file w (FastGlob.resolved cwd (rolesDir config)) = true ->
   run = (Throw (FsError ENOTDIR), w))
  /\ (is_file w (FastGlob.resolved cwd (rolesDir config)) = false ->
      Forall (passed_over frontmatter_of w)
        (FastGlob.scan cwd order (FastGlob.matches_star (js ".md")) (rolesDir config) w) ->
      run = (Return 0%nat, add_log (Info, js "Compiled 0 agent(s) (up-to-date)") w)).
Proof.
  intros Hq. cbv zeta. unfold RoleCompiler.compileAll, FastGlob.sync_star. split.
  - intros Hfile. unfold bind at 1. by rewrite sync_blocked.
  - intros Hfile Hall. unfold bind at 1. rewrite sync_quiet by done.
    unfold bind at 1. rewrite compile_each_passes_over by done.
    reflexivity.
Qed.

End Batch.

Lemma compileAll_with_nothing_to_compile_witness :
  RoleCompiler.compileAll toLowerCase_ascii (fun _ => false) (fun _ _ => [])
    (fun _ ps => ps) (fun content => content) (js "/proj") (project_config [])
    (js "/proj") (fun found => found)
    (fun _ _ => mkFrontmatter ∅ (fun _ => None) (fun _ => [])) roles_without_alias
  = (Return 0%nat,
     add_log (Info, js "Compiled 0 agent(s) (up-to-date)") roles_without_alias)
  /\ FastGlob.scan (js "/proj") (fun found => found) (FastGlob.matches_star (js ".md"))
       (rolesDir (project_config [])) roles_without_alias
     = [js "/proj/content/roles/notes.md"; js "/proj/content/roles/README.md"].
Proof.
  split; [| vm_compute; reflexivity].
  apply (compileAll_with_nothing_to_compile toLowerCase_ascii (fun _ => false)
           (fun _ _ => []) (fun _ ps => ps) (fun content => content) (js "/proj")
           (project_config []) (js "/proj") (fun found => found)
           (fun _ _ => mkFrontmatter ∅ (fun _ => None) (fun _ => []))
           roles_without_alias).
  - reflexivity.
  - reflexivity.
  - apply Forall_forall. intros f _. right. reflexivity.
Defined.

(** ** Adding a document never overwrites *)

Section AddNeverOverwrites.

Variable toUpperCase : jsstring -> jsstring.

Lemma writeFileSync_target p content w :
  let run := writeFileSync p content w in
  dirs (snd run) = dirs w
  /\ (forall q, q <> p -> files (snd run) !! q = files w !! q)
  /\ (files w !! p = None -> files w ⊆ files (snd run))
  /\ (fst run = Return tt -> files (snd run) !! p = Some content).
Proof.
  cbv zeta. unfold writeFileSync, bind, next_fault, modify, throw.
  destruct (io_faults w) as [| [| m | m residue] rest]; cbn.
  all: split; [done |]. all: split; [| split].
  all: try (by intros q Hq; rewrite lookup_insert_ne).
  all: try (by intros Hp; apply insert_subseteq).
  all: try done.
  all: by rewrite lookup_insert_eq.
Qed.

(** X27.  [addFromTemplate] never overwrites, whatever the coming calls do:
    after the run every file that was there has the content it had, and every
    directory is still there; no path other than the target has changed.
    When the run returns, nothing was at the target before, and the target is
    a file afterwards. *)
Theorem addFromTemplate_never_overwrites
  (type : AddCommand.ContentType) (name root scaffoldDir : jsstring) (w : world) :
  let targetFile :=
    Path.join [Path.join [root; js "content"; AddCommand.subdir type]; name ++ js ".md"] in
  let run := AddCommand.addFromTemplate toUpperCase type name root scaffoldDir w in
  grown_from w (snd run)
  /\ (forall p, p <> targetFile -> files (snd run) !! p = files w !! p)
  /\ (fst run = Return tt ->
      is_file w targetFile || is_dir w targetFile = false
      /\ is_file (snd run) targetFile = true).
Proof.
  unfold AddCommand.addFromTemplate. cbv zeta.
  set (targetDir := Path.join [root; js "content"; AddCommand.subdir type]).
  set (targetFile := Path.join [targetDir; name ++ js ".md"]).
  unfold bind, existsSync, gets, throw.
  destruct (is_file w targetFile || is_dir w targetFile) eqn:Hthere;
    [cbn [fst snd]; split; [apply grown_from_refl | by split] |].
  destruct (negb _); [cbn [fst snd]; split; [apply grown_from_refl | by split] |].
  pose proof (readFileSync_same_but_faults
                (Path.join [scaffoldDir; js "core"; js "content"; AddCommand.subdir type;
                            js "_template.md"]) w) as (Hf1 & Hd1 & _).
  destruct (readFileSync _ w) as [[template | e] w1]; cbn [fst snd] in Hf1, Hd1 |- *.
  2:{ split; [split; [by rewrite Hf1 | by rewrite Hd1] |]. split; [| done].
      intros p _. by rewrite Hf1. }
  assert (Hdir : files_and_log_of w1
                   (snd ((if negb (is_file w1 targetDir || is_dir w1 targetDir)
                          then mkdirSync targetDir else ret tt) w1))).
  { destruct (negb _); [apply mkdirSync_files_and_log | apply files_and_log_of_refl]. }
  destruct ((if negb _ then mkdirSync targetDir else ret tt) w1) as [[[] | e] w2];
    cbn [fst snd] in Hdir |- *; destruct Hdir as (Hf2 & Hd2 & _).
  2:{ split; [split; [by rewrite Hf2, Hf1 | by rewrite <- Hd1] |]. split; [| done].
      intros p _. by rewrite Hf2, Hf1. }
  pose proof Hthere as Hnothing.
  apply orb_false_elim in Hthere as [Hfile _]. apply is_file_false in Hfile.
  destruct (writeFileSync_target targetFile
              (AddCommand.fillTemplate toUpperCase type name template) w2)
    as (Hd3 & Hother & Hgrown & Hwritten).
  rewrite Hf2, Hf1 in Hgrown. specialize (Hgrown Hfile).
  destruct (writeFileSync _ _ w2) as [[[] | e] w3]; cbn [fst snd] in *.
  - unfold logger_success, modify. cbn [fst snd]. split; [| split].
    + split; [done |]. cbn. by rewrite Hd3, <- Hd1.
    + intros p Hp. cbn. by rewrite Hother, Hf2, Hf1.
    + intros _. split; [done |].
      unfold is_file. apply bool_decide_eq_true. cbn. by rewrite Hwritten.
  - split; [split; [done | by rewrite Hd3, <- Hd1] |]. split; [| done].
    intros p Hp. by rewrite Hother, Hf2, Hf1.
Qed.

End AddNeverOverwrites.

(** An existing role is not replaced by the template. *)
Example addFromTemplate_existing_role :
  fst (AddCommand.addFromTemplate toUpperCase_ascii AddCommand.Role (js "reviewer")
         (js "/proj") (js "/pkg/scaffold") scaffolded)
  = Throw (JsError (js "File already exists: content/roles/reviewer.md")).
Proof. vm_compute. reflexivity. Qed.
